(* ===== verification/_CoqProject ===== *)
-Q . S2P
Prelude.v
Partial.v
Mem.v
PageAlloc.v
Pmm.v
Kmalloc.v
Pcb.v
Vmm.v
Pipe.v
Sched.v
Asm.v
Switch.v
Isr.v
Fs.v
Console.v
Keyboard.v
Boot.v
Kernel.v
Process.v
Strings.v
Syscall.v
Interrupt.v
Typed.v
Elf.v
Usermode.v
Main.v
User.v
Programs.v
Shell.v
ShellV2.v
Init.v
Trap.v
Cat.v
Tests.v
Wrappers.v
