(* ===== verification/Prelude.v ===== *)
(** * SimpleOS verification: root file and shared prelude

    SimpleOS is a small 64-bit kernel in C with a few assembly routines.  This
    library models its code as executable functions and proves what makes the
    parts correct, alone and together.  File names below are relative to the
    repository; every definition keeps the name of the C object it models where
    it models one.

    ** The parts of the program and where they are modelled

    - Memory.  Mem.v is physical memory: 64-bit words at aligned addresses,
      bytes derived from them.  Pmm.v is the page allocator of src/mm/pmm.c (a
      bitmap and three counters, record [phys]), Kmalloc.v the heap of
      src/mm/kmalloc.c (headers in the heap's own memory, record [kheap]),
      Vmm.v the page tables of src/mm/vmm.c.  PageAlloc.v is the class through
      which the page tables use the page allocator: Vmm.v is proved against the
      class, Pmm.v gives the instance.
    - Processes.  Pcb.v has the structures of include/kernel/process.h, Sched.v
      the ready queue, src/kernel/scheduler.c, the blocking, yielding and
      exiting half of src/kernel/process.c and src/ipc/signal.c (record
      [sched]); Kernel.v has the other half of process.c, which allocates.
      Pipe.v is src/ipc/pipe.c (record [pipe_t]).
    - Machine code.  Asm.v is a machine with the registers, flags, segments and
      instructions that the assembly files use; Switch.v is
      src/arch/x86_64/context_switch.s, boot.s and the loading of descriptor
      tables and of paging in asm_functions.s; Isr.v is interrupt entry and
      exit of asm_functions.s.
    - Devices.  Console.v is src/drivers/terminal.c and vt.c (record
      [console]), Keyboard.v is src/drivers/keyboard.c (record [kbd]), Boot.v
      has the descriptor tables, the interrupt controller, dispatch, the timer,
      panic reports and the boot page tables (kernel.c, panic.c, exceptions.c,
      timer.c, tss.c; record [board]).
    - Files.  Fs.v is src/fs/fs.c (record [ramfs_t]).
    - The kernel as a whole.  Kernel.v puts the states above together in one
      record [kernel] over one memory, with a lens for each part ([at_heap],
      [at_phys], [at_sched], ...).  Process.v proves process creation over it;
      Syscall.v is src/kernel/syscall.c, its calls, its table and dispatcher;
      Interrupt.v is [isr_handler] and the timer interrupt on the whole kernel;
      Elf.v is src/lib/elf.c with the image of userspace/hello_binary.h;
      Usermode.v is src/arch/x86_64/usermode.c; Main.v is [kernel_main] with
      its idle loop, its commands and the tests they start.  Partial.v is the
      logic of partial correctness ([yields]) in which Typed.v proves that the
      kernel's data stays well-typed.
    - Programs.  Strings.v has the string helpers of the kernel and of the
      programs.  User.v gives programs a meaning: a program is an interaction
      tree of the system calls it makes, [runs] is its total correctness
      against an environment that answers them.  Programs.v is wc.c and grep.c,
      Shell.v shell.c, ShellV2.v shell_v2.c, Init.v init.c with [init_main] of
      syscall.c and the program of the user-mode test, Tests.v the test
      processes of kernel.c and userspace/hello.c.  Wrappers.v has the [asm]
      statements with which all of them make their calls.
    - Everything together.  Trap.v answers the calls of a program with the
      kernel itself; Cat.v runs the shell's "cat" on it.

    Components meet in classes: [PageAllocator] (PageAlloc.v) is what the page
    tables need of the page allocator, [Screen] (Console.v) what the keyboard
    and the system calls need of the terminal, given by the plain terminal and
    by the virtual ones, [Env] (User.v) an environment of a program, and
    [Typist] (Shell.v) what a shell needs of its environment, given by the
    recording one of Shell.v.

    ** How code is modelled

    A C function is a function into the monad [M S] of its state: it returns
    ([Ret]), panics with a message ([Panic]), does something undefined ([Ub]:
    an array access out of bounds, a null or dangling pointer, a misaligned
    word), runs out of fuel ([NoFuel]), or halts the CPU with no interrupt to
    come ([Halt]).  [wp c s Q] says that [c] returns from [s] in a state with
    [Q]: it excludes the four other outcomes, so each theorem stated with it is
    total correctness.  Machine integers are [Z] with
    the wrap-around of their width written out ([u8] ... [u64], [s32], [s64]).
    Pointers are addresses; the objects a typed pointer leads to are kept in a
    map from addresses where the code treats them as objects (process control
    blocks, descriptor tables, pipes) and in memory words where it does address
    arithmetic (heap headers, page tables, kernel stacks).  A typed object is
    therefore apart from the words of memory: the development assumes that no
    store of words or bytes hits one, and does not derive it.

    Interrupts are off during a system call, since the gate of vector 0x80 is an
    interrupt gate.  A [hlt] there waits for nothing: [sys_read] of the keyboard
    with no line in its ring and [sys_sleep] end in [Halt].

    Loops with a bound in the code are [for_loop] and [for_until] with that
    bound.  Loops along a structure take fuel, and the theorems show that the
    fuel the definitions pass is enough: the walks of the heap pass the number
    of blocks that fit the heap, the block chains of the filesystem the number
    of blocks, the digits of a 32-bit number 10.  Loops that wait for something
    else (a pipe, a key, the timer) take fuel as an argument; the theorems
    about them say which fuel is enough, or that none is.

    ** What the theorems show

    - Memory: allocation and release refine the set of free pages and the list
      of blocks; what is handed out is fresh, aligned, zeroed where the code
      zeroes it, and apart from everything in use; misuse panics.  Page tables
      stay a forest; mapping changes one translation of one address space; a
      clone is an equal copy.  Whatever sequence of operations is executed, the
      address spaces share no page and none changes what another one sees.
    - Processes: the ready queue is a list, scheduling is a round robin in
      which each process runs again with its own registers; creation gives a
      complete process with an address space, stack and heap of its own, or
      fails.  The boot ends in a page fault: the page tables it sets up do not
      map the kernel's heap ([kernel_main_faults]).  What follows that access,
      and the parts above it, are proved for memory that is mapped as the code
      expects; there, under any sequence of interrupts that return, calls and
      commands, the kernel's data keeps the sizes, references and ranges of its
      types.
    - Machine code: a context switch saves and restores what it should; an
      interrupt is transparent to the code it interrupts; the switch to user
      mode enters ring 3; the statements with which kernel.c makes system calls
      pass their arguments under every choice of registers.
    - Devices: the screen shows the last lines of the text, keys become
      characters in order, terminals do not disturb each other, the gates of
      the IDT hold the addresses of their stubs.
    - Files and pipes: what is written is what is read, other files are not
      touched, pipes deliver in order under every interleaving, and deliver
      everything when both sides are scheduled again and again.
    - System calls: a file written by one program and read by another holds the
      same bytes, through the dispatcher; standard output appears on the
      screen; a read of the keyboard takes the line that is in its ring, or
      never returns.
    - Programs: wc counts and grep filters their input however it is
      delivered; the shells parse, edit, complete and run; init reports the
      children it reaps and restarts the shell it watches.  [wc] counts in an
      [int]: the theorem about it holds below 2^31.
    - Composition: on an initialised kernel "cat" brings a file from the
      filesystem to the screen.
    - Errors: a number of theorems state what the code does where it does not do
      what it means to; they are the findings of the manifest.

    The theorems about address spaces, process creation among them, are about
    kernels whose own pages (heap and boot page tables) are not free pages of
    the page allocator.  The boot code does not reserve them, which is a finding;
    the allocator hands out lower pages first.

    ** Not modelled

    - The translation look-aside buffer ([invlpg], reloads of [cr3]) and the
      translation of the kernel's own accesses: the kernel dereferences
      pointers in the identity map.  The first access to the heap in
      [kernel_main] is the exception; it is checked against the page tables.
    - The interrupt controller, the timer chip and the keyboard controller:
      the bytes sent to their ports are recorded, what they send is an argument.
      A key is delivered although the driver does not end its interrupt.
    - Preemption inside kernel code: interrupts that arrive while the kernel
      waits are arguments; elsewhere the kernel runs with its code unbroken.
      The program of Cat.v runs with the scheduler as the initialisation leaves
      it, without other processes.
    - What an assembler and a linker refuse: the wrappers whose operands have
      the wrong size (Wrappers.v states this), functions that are called and
      defined nowhere.  Such a function is an argument of the definitions that
      use it ([process_find_by_pid]), or is the one another file defines
      ([str_chr]).
    - memset, memcpy and the like, which include/lib/string.h declares and no
      file defines: they have their meaning in C.
    - The linker scripts and the build. *)
From stdpp Require Export base tactics numbers list gmap strings.
From Stdlib Require Export ZArith Lia.

Declare Scope os_scope.
Delimit Scope os_scope with os.
Open Scope Z_scope.

(** ** Machine integers

    Every C integer is a [Z]; a store into (or a conversion to) a type of
    width [w] is written out with one of the functions below. *)

Definition u8 (z : Z) : Z := z mod 2 ^ 8.
Definition u16 (z : Z) : Z := z mod 2 ^ 16.
Definition u32 (z : Z) : Z := z mod 2 ^ 32.
Definition u64 (z : Z) : Z := z mod 2 ^ 64.

(** Two's complement reading of the low 32 (64) bits: a cast to [int]
    ([int64_t]). *)
Definition s32 (z : Z) : Z :=
  if u32 z <? 2 ^ 31 then u32 z else u32 z - 2 ^ 32.
Definition s64 (z : Z) : Z :=
  if u64 z <? 2 ^ 63 then u64 z else u64 z - 2 ^ 64.

(** [x & ~(2^k - 1)] on a 64-bit operand: the mask is an [int], converted to
    [uint64_t] by the usual arithmetic conversions. *)
Definition mask_down (k x : Z) : Z := Z.land x (u64 (Z.lnot (2 ^ k - 1))).

(** ** Outcomes and the state monad

    A kernel operation either returns, panics ([panic()] prints its message
    and halts the machine), does something the C standard leaves undefined
    (an access outside an array, a misaligned or null dereference), has used up
    the fuel the model gives to a loop, or executes [hlt] with no interrupt to
    come that could wake the CPU. *)
Inductive outcome (A : Type) : Type :=
  | Ret (a : A)
  | Panic (msg : string)
  | Ub
  | NoFuel
  | Halt.
Arguments Ret {A} a.
Arguments Panic {A} msg.
Arguments Ub {A}.
Arguments NoFuel {A}.
Arguments Halt {A}.

Definition M (S A : Type) : Type := S → outcome (A * S).

#[export] Instance M_ret {S} : MRet (M S) := λ A a s, Ret (a, s).
#[export] Instance M_bind {S} : MBind (M S) := λ A B k c s,
  match c s with
  | Ret (a, s') => k a s'
  | Panic msg => Panic msg
  | Ub => Ub
  | NoFuel => NoFuel
  | Halt => Halt
  end.

Definition gets {S A} (f : S → A) : M S A := λ s, Ret (f s, s).
Definition modify {S} (f : S → S) : M S unit := λ s, Ret ((), f s).
Definition panic {S A} (msg : string) : M S A := λ _, Panic msg.
Definition undefined {S A} : M S A := λ _, Ub.
Definition out_of_fuel {S A} : M S A := λ _, NoFuel.
Definition halt {S A} : M S A := λ _, Halt.

(** [for (i = i0; i < i0 + n; i++) body(i)] *)
Fixpoint for_loop {S} (n : nat) (i : Z) (body : Z → M S unit) : M S unit :=
  match n with
  | O => mret ()
  | S n' => body i ;; for_loop n' (i + 1) body
  end.

(** The same loop whose body may leave it ([break] or [return]) with a value. *)
Fixpoint for_until {S R} (n : nat) (i : Z) (body : Z → M S (option R)) : M S (option R) :=
  match n with
  | O => mret None
  | S n' =>
      r ← body i;
      match r with
      | Some v => mret (Some v)
      | None => for_until n' (i + 1) body
      end
  end.

(** [while]: the body returns [Some] to leave the loop. *)
Fixpoint while_loop {S R} (fuel : nat) (body : M S (option R)) : M S R :=
  match fuel with
  | O => out_of_fuel
  | S f =>
      r ← body;
      match r with
      | Some v => mret v
      | None => while_loop f body
      end
  end.

(** An operation on a part of a larger state. *)
Definition zoom {S T A} (get : S → T) (put : T → S → S) (c : M T A) : M S A := λ s,
  match c (get s) with
  | Ret (a, t) => Ret (a, put t s)
  | Panic msg => Panic msg
  | Ub => Ub
  | NoFuel => NoFuel
  | Halt => Halt
  end.

(** ** C arrays: an access outside the bounds is undefined *)
Definition arr_get {A} (l : list A) (i : Z) : option A :=
  if (0 <=? i) then l !! Z.to_nat i else None.
Definition arr_set {A} (l : list A) (i : Z) (x : A) : option (list A) :=
  if (0 <=? i) && (i <? Z.of_nat (length l)) then Some (<[Z.to_nat i := x]> l) else None.

(** The state a run ends in, for the concrete examples. *)
Definition final {S A} (o : outcome (A * S)) (d : S) : S := match o with Ret (_, s) => s | _ => d end.

Definition lift_opt {S A} (o : option A) : M S A :=
  match o with Some a => mret a | None => undefined end.

(** ** C strings

    A string constant is the list of its bytes, without the final zero; a
    [char] array is a list of its length. *)
Definition bytes_of (s : string) : list Z := (λ a, Z.of_N (Ascii.N_of_ascii a)) <$> String.list_ascii_of_string s.
(** The C string in a [char] array: up to the first zero byte. *)
Fixpoint c_string (b : list Z) : list Z :=
  match b with [] => [] | c :: b' => if c =? 0 then [] else c :: c_string b' end.
(** [strcpy] into an array, byte by byte: outside it the copy is undefined. *)
Fixpoint strcpy_loop (dst : list Z) (i : Z) (src : list Z) : option (list Z) :=
  match src with
  | [] => arr_set dst i 0
  | c :: src' => arr_set dst i c ≫= λ dst', strcpy_loop dst' (i + 1) src'
  end.
(** [strncpy] writes [n] bytes, padded with zeros. *)
Fixpoint strncpy_loop (n : nat) (dst : list Z) (i : Z) (src : list Z) : option (list Z) :=
  match n, src with
  | O, _ => Some dst
  | S n', c :: src' => arr_set dst i c ≫= λ dst', strncpy_loop n' dst' (i + 1) src'
  | S n', [] => arr_set dst i 0 ≫= λ dst', strncpy_loop n' dst' (i + 1) []
  end.
(** Their results ([strcpy_loop_spec] and [strncpy_loop_spec]). *)
Definition strcpy (dst src : list Z) : option (list Z) :=
  if (length src <? length dst)%nat then Some (src ++ 0 :: drop (S (length src)) dst) else None.
Definition strncpy (dst src : list Z) (n : nat) : option (list Z) :=
  if (n <=? length dst)%nat then Some (take n (src ++ replicate n 0) ++ drop n dst) else None.

(** ** Weakest preconditions

    [wp c s Q]: run from [s], [c] returns (no panic, nothing undefined, enough
    fuel, the CPU not halted for good) and the value and final state satisfy [Q]. *)
Definition wp {S A} (c : M S A) (s : S) (Q : A → S → Prop) : Prop :=
  match c s with Ret (a, s') => Q a s' | _ => False end.

Create HintDb os.

Section wp_rules.
Context {S : Type}.
Implicit Types s : S.

Lemma wp_ret {A} (a : A) s Q : Q a s → wp (mret a) s Q.
Proof. done. Qed.
Lemma wp_bind {A B} (c : M S A) (k : A → M S B) s Q :
  wp c s (λ a s', wp (k a) s' Q) → wp (c ≫= k) s Q.
Proof. unfold wp, mbind, M_bind. by destruct (c s) as [[a s']| | | |]. Qed.
Lemma wp_bind_inv {A B} (c : M S A) (k : A → M S B) s Q :
  wp (c ≫= k) s Q → wp c s (λ a s', wp (k a) s' Q).
Proof. unfold wp, mbind, M_bind. by destruct (c s) as [[a s']| | | |]. Qed.
Lemma wp_gets {A} (f : S → A) s Q : Q (f s) s → wp (gets f) s Q.
Proof. done. Qed.
Lemma wp_modify (f : S → S) s Q : Q () (f s) → wp (modify f) s Q.
Proof. done. Qed.
Lemma wp_mono {A} (c : M S A) s (P Q : A → S → Prop) :
  wp c s P → (∀ a s', P a s' → Q a s') → wp c s Q.
Proof. unfold wp. destruct (c s) as [[a s']| | | |]; auto. Qed.
Lemma wp_lift_opt {A} (o : option A) a s Q : o = Some a → Q a s → wp (lift_opt o) s Q.
Proof. by intros ->. Qed.
Lemma wp_run {A} (c : M S A) s Q : wp c s Q → ∃ a s', c s = Ret (a, s') ∧ Q a s'.
Proof. unfold wp. destruct (c s) as [[a s']| | | |]; naive_solver. Qed.
Lemma wp_of_run {A} (c : M S A) s a s' Q : c s = Ret (a, s') → Q a s' → wp c s Q.
Proof. unfold wp. by intros ->. Qed.

Lemma wp_zoom {T A} (get : S → T) put (c : M T A) s Q :
  wp c (get s) (λ a t, Q a (put t s)) → wp (zoom get put c) s Q.
Proof. unfold wp, zoom. by destruct (c (get s)) as [[a t]| | | |]. Qed.

(** Running a sequence, for the statements about panics. *)
Lemma run_bind {A B} (c : M S A) (k : A → M S B) s a s' :
  c s = Ret (a, s') → (c ≫= k) s = k a s'.
Proof. unfold mbind, M_bind. by intros ->. Qed.
Lemma run_bind_panic {A B} (c : M S A) (k : A → M S B) s msg :
  c s = Panic msg → (c ≫= k) s = Panic msg.
Proof. unfold mbind, M_bind. by intros ->. Qed.
Lemma run_bind_halt {A B} (c : M S A) (k : A → M S B) s : c s = Halt → (c ≫= k) s = Halt.
Proof. unfold mbind, M_bind. by intros ->. Qed.

(** The invariant rule of the counting loop. *)
Lemma wp_for (I : Z → S → Prop) n i body s (Q : unit → S → Prop) :
  I i s →
  (∀ j s', i ≤ j < i + Z.of_nat n → I j s' → wp (body j) s' (λ _ s'', I (j + 1) s'')) →
  (∀ s', I (i + Z.of_nat n) s' → Q () s') →
  wp (for_loop n i body) s Q.
Proof.
  revert i s. induction n as [|n IH]; intros i s Hi Hstep Hend; simpl.
  - apply wp_ret, Hend. by rewrite Z.add_0_r.
  - apply wp_bind. eapply wp_mono; [apply Hstep; [lia|done]|].
    intros [] s' Hs'. apply IH; [done| |].
    + intros j s'' ??. apply Hstep; [lia|done].
    + intros s'' ?. apply Hend. by replace (i + Z.of_nat (Datatypes.S n)) with (i + 1 + Z.of_nat n) by lia.
Qed.

(** A loop is its first [n] iterations followed by the others. *)
Lemma for_loop_app n m i body s :
  for_loop (n + m) i body s = (for_loop n i body ;; for_loop m (i + Z.of_nat n) body) s.
Proof.
  revert i s. induction n as [|n IH]; intros i s; simpl.
  - unfold mbind, M_bind, mret, M_ret. by rewrite Z.add_0_r.
  - unfold mbind, M_bind in *. destruct (body i s) as [[[] s']| | | |]; [|done..].
    rewrite IH. by replace (i + Z.of_nat (Datatypes.S n)) with (i + 1 + Z.of_nat n) by lia.
Qed.

(** The loop with an early exit: [I] holds at the head of each iteration, and
    [Q] on each way out. *)
Lemma wp_for_until {R} (I : Z → S → Prop) n i body s (Q : option R → S → Prop) :
  I i s →
  (∀ j s', i ≤ j < i + Z.of_nat n → I j s' →
     wp (body j) s' (λ r s'', match r with Some v => Q (Some v) s'' | None => I (j + 1) s'' end)) →
  (∀ s', I (i + Z.of_nat n) s' → Q None s') →
  wp (for_until n i body) s Q.
Proof.
  revert i s. induction n as [|n IH]; intros i s Hi Hstep Hend; simpl.
  - apply wp_ret, Hend. by rewrite Z.add_0_r.
  - apply wp_bind. eapply wp_mono; [apply Hstep; [lia|done]|].
    intros [v|] s' Hs'; [by apply wp_ret|]. apply IH; [done| |].
    + intros j s'' ??. apply Hstep; [lia|done].
    + intros s'' ?. apply Hend. by replace (i + Z.of_nat (Datatypes.S n)) with (i + 1 + Z.of_nat n) by lia.
Qed.

(** The [while] rule: [I k] holds at the head with at most [k] iterations left. *)
Lemma wp_while {R} (I : nat → S → Prop) fuel body s (Q : R → S → Prop) :
  I fuel s →
  (∀ k s', I k s' → k ≠ 0%nat ∧
     wp body s' (λ r s'', match r with Some v => Q v s'' | None => I (pred k) s'' end)) →
  wp (while_loop fuel body) s Q.
Proof.
  revert s. induction fuel as [|f IH]; intros s Hi Hstep; simpl.
  - by destruct (Hstep _ _ Hi) as [? _].
  - apply wp_bind. eapply wp_mono; [apply (Hstep _ _ Hi)|].
    intros [v|] s' Hs'; [by apply wp_ret|]. by apply IH.
Qed.
End wp_rules.

#[export] Hint Resolve wp_ret wp_gets wp_modify : os.

(** ** Tactics *)

(** Case analysis on the boolean tests of the code, as facts for [lia]. *)
Ltac propify :=
  repeat match goal with
  | H : (_ && _)%bool = true |- _ => apply andb_prop in H as [? ?]
  | H : (_ && _)%bool = false |- _ => apply andb_false_iff in H
  | H : (_ || _)%bool = true |- _ => apply orb_prop in H
  | H : (_ || _)%bool = false |- _ => apply orb_false_iff in H as [? ?]
  | H : negb _ = true |- _ => apply negb_true_iff in H
  | H : negb _ = false |- _ => apply negb_false_iff in H
  | H : (_ =? _) = true |- _ => apply Z.eqb_eq in H
  | H : (_ =? _) = false |- _ => apply Z.eqb_neq in H
  | H : (_ <? _) = true |- _ => apply Z.ltb_lt in H
  | H : (_ <? _) = false |- _ => apply Z.ltb_ge in H
  | H : (_ <=? _) = true |- _ => apply Z.leb_le in H
  | H : (_ <=? _) = false |- _ => apply Z.leb_gt in H
  end.

(** Split the first conditional of the goal on its boolean test. *)
Ltac case_if :=
  match goal with
  | |- context [if ?b then _ else _] => destruct b eqn:?
  end; propify.

(** Decide every comparison of the goal. *)
Ltac case_cmp :=
  repeat match goal with
  | |- context [?a <=? ?b] => destruct (Z.leb_spec a b); cbn [andb orb negb]
  | |- context [?a <? ?b] => destruct (Z.ltb_spec a b); cbn [andb orb negb]
  | |- context [?a =? ?b] => destruct (Z.eqb_spec a b); cbn [andb orb negb]
  end.

(** Drive a weakest-precondition goal through the straight-line part of a
    definition. *)
Ltac wp_step :=
  match goal with
  | |- wp (_ ≫= _) _ _ => apply wp_bind
  | |- wp (mret _) _ _ => apply wp_ret
  | |- wp (gets _) _ _ => apply wp_gets
  | |- wp (modify _) _ _ => apply wp_modify
  | |- wp (lift_opt (Some _)) _ _ => eapply wp_lift_opt; [reflexivity|]
  end.
Ltac wp_go := repeat (wp_step; cbn beta).

(** Linear arithmetic with [/] and [mod] by constants. *)
Ltac dlia := Z.to_euclidean_division_equations; lia.
(** Decidable facts about constants. *)
Ltac ground := apply (bool_decide_unpack _); vm_compute; exact I.

(** ** Lemmas on machine integers *)

Lemma u8_range z : 0 ≤ u8 z < 2 ^ 8.
Proof. by apply Z.mod_pos_bound. Qed.
Lemma u16_range z : 0 ≤ u16 z < 2 ^ 16.
Proof. by apply Z.mod_pos_bound. Qed.
Lemma u32_range z : 0 ≤ u32 z < 2 ^ 32.
Proof. by apply Z.mod_pos_bound. Qed.
Lemma u64_range z : 0 ≤ u64 z < 2 ^ 64.
Proof. by apply Z.mod_pos_bound. Qed.
Lemma u8_id z : 0 ≤ z < 2 ^ 8 → u8 z = z.
Proof. apply Z.mod_small. Qed.
Lemma u16_id z : 0 ≤ z < 2 ^ 16 → u16 z = z.
Proof. apply Z.mod_small. Qed.
Lemma u32_id z : 0 ≤ z < 2 ^ 32 → u32 z = z.
Proof. apply Z.mod_small. Qed.
Lemma u64_id z : 0 ≤ z < 2 ^ 64 → u64 z = z.
Proof. apply Z.mod_small. Qed.
Lemma s32_id z : - 2 ^ 31 ≤ z < 2 ^ 31 → s32 z = z.
Proof. unfold s32, u32. change (2 ^ 32) with 4294967296. change (2 ^ 31) with 2147483648. intros. case_if; dlia. Qed.
Lemma s64_id z : - 2 ^ 63 ≤ z < 2 ^ 63 → s64 z = z.
Proof.
  unfold s64, u64. change (2 ^ 64) with 18446744073709551616.
  change (2 ^ 63) with 9223372036854775808. intros. case_if; dlia.
Qed.

(** A number below [2^w] has no bit at or above [w]. *)
Lemma testbit_above w z i : 0 ≤ z < 2 ^ w → w ≤ i → Z.testbit z i = false.
Proof.
  intros Hz Hi. destruct (decide (0 ≤ w)); [|rewrite Z.pow_neg_r in Hz; lia].
  rewrite <- (Z.mod_small z (2 ^ w)) by done. apply Z.mod_pow2_bits_high. lia.
Qed.

Lemma lor_range w x y : 0 ≤ w → 0 ≤ x < 2 ^ w → 0 ≤ y < 2 ^ w → 0 ≤ Z.lor x y < 2 ^ w.
Proof.
  intros Hw Hx Hy. assert (0 ≤ Z.lor x y) by (apply Z.lor_nonneg; lia).
  rewrite <- (Z.mod_small x (2 ^ w)), <- (Z.mod_small y (2 ^ w)) by done.
  rewrite <- !Z.land_ones, <- Z.land_lor_distr_l, Z.land_ones by done.
  apply Z.mod_pos_bound. lia.
Qed.
Lemma land_range w x y : 0 ≤ w → 0 ≤ x < 2 ^ w → 0 ≤ Z.land x y < 2 ^ w.
Proof.
  intros Hw Hx.
  rewrite <- (Z.mod_small x (2 ^ w)) by done.
  rewrite <- Z.land_ones, <- Z.land_assoc, (Z.land_comm (Z.ones w)), Z.land_assoc, Z.land_ones by done.
  apply Z.mod_pos_bound. lia.
Qed.

Lemma land_mask k x : 0 ≤ k → Z.land x (2 ^ k - 1) = x mod 2 ^ k.
Proof.
  intros. replace (2 ^ k - 1) with (Z.ones k) by (rewrite Z.ones_equiv; lia).
  by apply Z.land_ones.
Qed.

Lemma mask_down_bits k x i :
  0 ≤ k < 64 → 0 ≤ x < 2 ^ 64 → 0 ≤ i →
  Z.testbit (mask_down k x) i = (negb (i <? k) && Z.testbit x i)%bool.
Proof.
  intros Hk Hx Hi. unfold mask_down, u64. rewrite Z.land_spec.
  destruct (decide (i < 64)).
  - rewrite Z.mod_pow2_bits_low, Z.lnot_spec by lia.
    replace (2 ^ k - 1) with (Z.ones k) by (rewrite Z.ones_equiv; lia).
    rewrite Z.testbit_ones_nonneg by lia.
    apply andb_comm.
  - rewrite (testbit_above 64 x) by lia. by rewrite !andb_false_r.
Qed.

(** Clearing the low [k] bits rounds down to a multiple of [2^k]. *)
Lemma mask_down_spec k x :
  0 ≤ k < 64 → 0 ≤ x < 2 ^ 64 → mask_down k x = x - x mod 2 ^ k.
Proof.
  intros Hk Hx. transitivity (Z.shiftl (Z.shiftr x k) k).
  - apply Z.bits_inj'. intros i Hi. rewrite mask_down_bits, Z.shiftl_spec by lia.
    destruct (Z.ltb_spec i k); cbn [negb andb].
    + symmetry. apply Z.testbit_neg_r. lia.
    + rewrite Z.shiftr_spec by lia. f_equal. lia.
  - rewrite Z.shiftl_mul_pow2, Z.shiftr_div_pow2 by lia.
    pose proof (Z.div_mod x (2 ^ k) ltac:(lia)). lia.
Qed.

(** ** Bits of a 32-bit bitmap word *)

Lemma word_set_bit w k i :
  0 ≤ w < 2 ^ 32 → 0 ≤ k < 32 → 0 ≤ i < 32 →
  Z.testbit (u32 (Z.lor w (Z.shiftl 1 k))) i = ((i =? k) || Z.testbit w i)%bool.
Proof.
  intros. unfold u32. rewrite Z.mod_pow2_bits_low, Z.lor_spec, Z.shiftl_spec by lia.
  destruct (Z.eqb_spec i k) as [->|]; cbn.
  - rewrite Z.sub_diag. apply orb_true_r.
  - destruct (decide (i < k)); [rewrite (Z.testbit_neg_r 1) by lia; apply orb_false_r|].
    rewrite (testbit_above 1 1) by lia. apply orb_false_r.
Qed.
Lemma word_clear_bit w k i :
  0 ≤ w < 2 ^ 32 → 0 ≤ k < 32 → 0 ≤ i < 32 →
  Z.testbit (u32 (Z.land w (u32 (Z.lnot (Z.shiftl 1 k))))) i = (negb (i =? k) && Z.testbit w i)%bool.
Proof.
  intros. unfold u32.
  rewrite Z.mod_pow2_bits_low, Z.land_spec, Z.mod_pow2_bits_low, Z.lnot_spec, Z.shiftl_spec by lia.
  rewrite andb_comm. f_equal. f_equal. destruct (Z.eqb_spec i k) as [->|].
  - by rewrite Z.sub_diag.
  - destruct (decide (i < k)); [by rewrite (Z.testbit_neg_r 1) by lia|].
    by rewrite (testbit_above 1 1) by lia.
Qed.

(** Testing [w & (1 << k)] is testing bit [k]. *)
Lemma word_test_bit w k :
  0 ≤ w < 2 ^ 32 → 0 ≤ k < 32 →
  negb (Z.land w (u32 (Z.shiftl 1 k)) =? 0) = Z.testbit w k.
Proof.
  intros Hw Hk.
  assert (u32 (Z.shiftl 1 k) = 2 ^ k) as ->.
  { rewrite Z.shiftl_mul_pow2, Z.mul_1_l by lia. apply u32_id.
    split; [lia|]. apply Z.pow_lt_mono_r; lia. }
  destruct (Z.testbit w k) eqn:E.
  - apply negb_true_iff, Z.eqb_neq. intros H0.
    apply (f_equal (λ x, Z.testbit x k)) in H0.
    by rewrite Z.land_spec, E, Z.pow2_bits_true, Z.testbit_0_l in H0 by lia.
  - apply negb_false_iff, Z.eqb_eq, Z.bits_inj'. intros i Hi.
    rewrite Z.land_spec, Z.testbit_0_l. destruct (decide (i = k)) as [->|].
    + by rewrite E.
    + by rewrite Z.pow2_bits_false, andb_false_r by lia.
Qed.

(** ** Lemmas on arrays *)

Lemma arr_get_in {A} (d : A) l i :
  0 ≤ i < Z.of_nat (length l) → arr_get l i = Some (default d (l !! Z.to_nat i)).
Proof.
  intros Hi. unfold arr_get. rewrite (proj2 (Z.leb_le 0 i)) by lia.
  destruct (l !! Z.to_nat i) eqn:E; [done|]. apply lookup_ge_None in E. lia.
Qed.
Lemma arr_get_out {A} (l : list A) i : ¬ (0 ≤ i < Z.of_nat (length l)) → arr_get l i = None.
Proof.
  intros Hi. unfold arr_get. case_if; [|done]. apply lookup_ge_None. lia.
Qed.
Lemma arr_set_in {A} (l : list A) i x :
  0 ≤ i < Z.of_nat (length l) → arr_set l i x = Some (<[Z.to_nat i := x]> l).
Proof. intros Hi. unfold arr_set. by rewrite (proj2 (Z.leb_le 0 i)), (proj2 (Z.ltb_lt i _)) by lia. Qed.
Lemma arr_set_out {A} (l : list A) i x : ¬ (0 ≤ i < Z.of_nat (length l)) → arr_set l i x = None.
Proof. intros Hi. unfold arr_set. case_if; [lia|done]. Qed.

(** ** Lemmas on C strings *)

Definition no_nul (s : list Z) : Prop := Forall (λ c, c ≠ 0) s.
Lemma c_string_app s r : no_nul s → c_string (s ++ 0 :: r) = s.
Proof.
  intros H. induction H as [|c s Hc _ IH]; [done|]. cbn. by rewrite (proj2 (Z.eqb_neq c 0)), IH.
Qed.
Lemma c_string_no_nul b : no_nul (c_string b).
Proof.
  induction b as [|c b IH]; cbn; [constructor|]. destruct (Z.eqb_spec c 0); [constructor|by constructor].
Qed.
Lemma c_string_cut s r : c_string (s ++ 0 :: r) = c_string s.
Proof. induction s as [|c s IH]; cbn; [done|]. by rewrite IH. Qed.
Lemma c_string_id s : no_nul s → c_string s = s.
Proof. intros H. induction H as [|c s Hc _ IH]; [done|]. cbn. by rewrite (proj2 (Z.eqb_neq c 0)), IH. Qed.
Lemma c_string_prefix s : c_string s `prefix_of` s.
Proof. induction s as [|c s IH]; cbn; [done|]. destruct (c =? 0); [apply prefix_nil|by apply prefix_cons]. Qed.
Lemma take_c_string s : take (length (c_string s)) s = c_string s.
Proof. destruct (c_string_prefix s) as [r E]. rewrite E at 2. by rewrite take_app_length. Qed.
Lemma strcpy_spec dst src dst' :
  strcpy dst src = Some dst' → no_nul src → c_string dst' = src ∧ length dst' = length dst.
Proof.
  unfold strcpy. destruct (Nat.ltb_spec (length src) (length dst)); [|done]. intros [= <-] Hs.
  split; [by apply c_string_app|]. rewrite length_app. cbn. rewrite length_drop. lia.
Qed.
Lemma strcpy_fits dst src : (length src < length dst)%nat → ∃ dst', strcpy dst src = Some dst'.
Proof. intros H. unfold strcpy. rewrite (proj2 (Nat.ltb_lt _ _)) by done. eauto. Qed.

(** ** Arrays after an update *)

Lemma arr_get_Some {A} (l : list A) i x : arr_get l i = Some x → 0 ≤ i < Z.of_nat (length l) ∧ l !! Z.to_nat i = Some x.
Proof.
  unfold arr_get. destruct (Z.leb_spec 0 i); [|done]. intros Hx. pose proof (lookup_lt_Some _ _ _ Hx). split; [lia|done].
Qed.
Lemma arr_get_is_Some {A} (l : list A) i : 0 ≤ i < Z.of_nat (length l) → ∃ x, arr_get l i = Some x.
Proof.
  intros Hi. unfold arr_get. rewrite (proj2 (Z.leb_le 0 i)) by lia. apply lookup_lt_is_Some. lia.
Qed.
Lemma arr_get_insert {A} (l : list A) i j x :
  0 ≤ i < Z.of_nat (length l) → arr_get (<[Z.to_nat i := x]> l) j = if j =? i then Some x else arr_get l j.
Proof.
  intros Hi. unfold arr_get. destruct (Z.eqb_spec j i) as [->|Hne].
  - rewrite (proj2 (Z.leb_le 0 i)) by lia. rewrite list_lookup_insert_eq by lia. done.
  - destruct (Z.leb_spec 0 j); [|done]. rewrite list_lookup_insert_ne by lia. done.
Qed.
Lemma arr_get_app_l {A} (l1 l2 : list A) i : i < Z.of_nat (length l1) → arr_get (l1 ++ l2) i = arr_get l1 i.
Proof. intros Hi. unfold arr_get. destruct (Z.leb_spec 0 i); [|done]. apply lookup_app_l. lia. Qed.
Lemma arr_get_middle {A} (l1 : list A) x l2 : arr_get (l1 ++ x :: l2) (Z.of_nat (length l1)) = Some x.
Proof. unfold arr_get. rewrite (proj2 (Z.leb_le 0 _)), Nat2Z.id by lia. by apply list_lookup_middle. Qed.
Lemma arr_get_at {A} (a : list A) x t i : i = Z.of_nat (length a) → arr_get (a ++ x :: t) i = Some x.
Proof. intros ->. apply arr_get_middle. Qed.
Lemma arr_set_at {A} (a : list A) x y t i : i = Z.of_nat (length a) → arr_set (a ++ x :: t) i y = Some (a ++ y :: t).
Proof.
  intros ->. rewrite arr_set_in by (rewrite length_app; cbn; lia). rewrite Nat2Z.id, insert_app_r_alt by done.
  by rewrite Nat.sub_diag.
Qed.
Lemma strcpy_loop_at a d src :
  strcpy_loop (a ++ d) (Z.of_nat (length a)) src =
  if (length src <? length d)%nat then Some (a ++ src ++ 0 :: drop (S (length src)) d) else None.
Proof.
  revert a d. induction src as [|c src IH]; intros a d; cbn [strcpy_loop].
  - destruct d as [|x d]; [by rewrite arr_set_out by (rewrite length_app; cbn; lia)|]. by rewrite (arr_set_at a x).
  - destruct d as [|x d]; [by rewrite arr_set_out by (rewrite length_app; cbn; lia)|]. rewrite (arr_set_at a x) by done. cbn [mbind option_bind].
    specialize (IH (a ++ [c]) d). rewrite length_app, <- !app_assoc in IH. cbn [length app] in IH.
    replace (Z.of_nat (length a) + 1) with (Z.of_nat (length a + 1)) by lia. exact IH.
Qed.
(** [strcpy] is the loop. *)
Lemma strcpy_loop_spec dst src : strcpy_loop dst 0 src = strcpy dst src.
Proof. apply (strcpy_loop_at []). Qed.
Lemma strncpy_loop_at n a d src :
  strncpy_loop n (a ++ d) (Z.of_nat (length a)) src =
  if (n <=? length d)%nat then Some (a ++ take n (src ++ replicate n 0) ++ drop n d) else None.
Proof.
  revert a d src. induction n as [|n IH]; intros a d src; [by cbn; rewrite take_0|].
  destruct d as [|x d]; [by destruct src; cbn [strncpy_loop]; rewrite arr_set_out by (rewrite length_app; cbn; lia)|].
  destruct src as [|c src]; cbn [strncpy_loop]; rewrite (arr_set_at a x) by done; cbn [mbind option_bind].
  - specialize (IH (a ++ [0]) d []). rewrite length_app, <- !app_assoc in IH. cbn [length app] in IH.
    replace (Z.of_nat (length a) + 1) with (Z.of_nat (length a + 1)) by lia. exact IH.
  - specialize (IH (a ++ [c]) d src). rewrite length_app, <- !app_assoc in IH. cbn [length app] in IH.
    replace (Z.of_nat (length a) + 1) with (Z.of_nat (length a + 1)) by lia. rewrite IH. cbn [Nat.leb length app take drop].
    replace (take n (src ++ replicate (S n) 0)) with (take n (src ++ replicate n 0)); [done|].
    rewrite replicate_S_end, app_assoc. rewrite (take_app_le (src ++ _)); [done|]. rewrite length_app, length_replicate. lia.
Qed.
(** [strncpy] is the two loops. *)
Lemma strncpy_loop_spec n dst src : strncpy_loop n dst 0 src = strncpy dst src n.
Proof. apply (strncpy_loop_at n []). Qed.
Lemma arr_get_nat {A} (l : list A) (j : nat) : arr_get l (Z.of_nat j) = l !! j.
Proof. unfold arr_get. rewrite (proj2 (Z.leb_le _ _)) by lia. by rewrite Nat2Z.id. Qed.
Lemma arr_get_ext {A} (l l' : list A) : length l = length l' → (∀ i, 0 ≤ i < Z.of_nat (length l) → arr_get l i = arr_get l' i) → l = l'.
Proof.
  intros Hlen H. apply list_eq. intros i. destruct (decide (i < length l)%nat) as [Hi|Hi].
  - specialize (H (Z.of_nat i) ltac:(lia)). unfold arr_get in H. by rewrite (proj2 (Z.leb_le 0 _)), Nat2Z.id in H by lia.
  - rewrite !lookup_ge_None_2 by lia. done.
Qed.
Lemma arr_get_drop {A} (l : list A) k i : 0 ≤ i → arr_get (drop k l) i = arr_get l (Z.of_nat k + i).
Proof.
  intros Hi. unfold arr_get. rewrite !(proj2 (Z.leb_le 0 _)) by lia. rewrite lookup_drop. f_equal. lia.
Qed.
Lemma arr_get_app_r {A} (l1 l2 : list A) i : Z.of_nat (length l1) ≤ i → arr_get (l1 ++ l2) i = arr_get l2 (i - Z.of_nat (length l1)).
Proof.
  intros Hi. unfold arr_get. rewrite !(proj2 (Z.leb_le 0 _)) by lia. rewrite lookup_app_r by lia. f_equal. lia.
Qed.
Lemma arr_get_replicate {A} (x : A) n i : 0 ≤ i < Z.of_nat n → arr_get (replicate n x) i = Some x.
Proof. intros Hi. unfold arr_get. rewrite (proj2 (Z.leb_le 0 _)) by lia. apply lookup_replicate_2. lia. Qed.
