(* ===== verification/Partial.v ===== *)
(** * Partial correctness

    [yields I R c]: from a state satisfying [I], if [c] returns then the state
    afterwards satisfies [I] and the result [R].  The hint database [typed] has
    the lemmas of this form about the operations of the kernel. *)
From S2P Require Import Prelude.

Lemma arr_set_Some {A} (l l' : list A) i x :
  arr_set l i x = Some l' → 0 ≤ i < Z.of_nat (length l) ∧ l' = <[Z.to_nat i := x]> l.
Proof.
  intros E. destruct (decide (0 ≤ i < Z.of_nat (length l))) as [Hi|Hi]; [|by rewrite arr_set_out in E].
  rewrite arr_set_in in E by done. by injection E.
Qed.
Lemma arr_set_length {A} (l l' : list A) i x : arr_set l i x = Some l' → length l' = length l.
Proof. intros [_ ->]%arr_set_Some. apply length_insert. Qed.

Definition yields {S A} (I : S → Prop) (R : A → Prop) (c : M S A) : Prop :=
  ∀ s a s', I s → c s = Ret (a, s') → I s' ∧ R a.
Abbreviation keeps I c := (yields I (λ _, True) c).

Create HintDb typed.

Section rules.
Context {S : Type} (I : S → Prop).

Lemma yields_ret {A} (R : A → Prop) a : R a → yields I R (mret a : M S A).
Proof. intros HR s b s' Hs [= <- <-]. done. Qed.
Lemma yields_bind {A B} (R : A → Prop) (R' : B → Prop) (c : M S A) (k : A → M S B) :
  yields I R c → (∀ a, R a → yields I R' (k a)) → yields I R' (c ≫= k).
Proof.
  intros Hc Hk s b s' Hs. unfold mbind, M_bind. destruct (c s) as [[a s1]| | | |] eqn:E; [|done..].
  destruct (Hc s a s1 Hs E) as [H1 Ha]. by apply Hk.
Qed.
Lemma yields_weaken {A} (R R' : A → Prop) (c : M S A) : yields I R c → (∀ a, R a → R' a) → yields I R' c.
Proof. intros Hc HR s a s' Hs E. destruct (Hc s a s' Hs E). auto. Qed.
Lemma yields_gets {A} (R : A → Prop) (f : S → A) : (∀ s, I s → R (f s)) → yields I R (gets f).
Proof. intros HR s a s' Hs [= <- <-]. auto. Qed.
Lemma yields_modify (f : S → S) : (∀ s, I s → I (f s)) → keeps I (modify f).
Proof. intros Hf s a s' Hs [= <- <-]. auto. Qed.
Lemma yields_lift_opt {A} (R : A → Prop) (o : option A) : (∀ a, o = Some a → R a) → yields I R (lift_opt o : M S A).
Proof. intros HR s a s' Hs. destruct o as [x|]; [|done]. intros [= <- <-]. auto. Qed.
Lemma yields_panic {A} (R : A → Prop) msg : yields I R (panic msg : M S A).
Proof. by intros s a s' Hs. Qed.
Lemma yields_undefined {A} (R : A → Prop) : yields I R (undefined : M S A).
Proof. by intros s a s' Hs. Qed.
Lemma yields_out_of_fuel {A} (R : A → Prop) : yields I R (out_of_fuel : M S A).
Proof. by intros s a s' Hs. Qed.
Lemma yields_halt {A} (R : A → Prop) : yields I R (halt : M S A).
Proof. by intros s a s' Hs. Qed.
Lemma yields_for n i body : (∀ j, keeps I (body j)) → keeps I (for_loop n i body).
Proof.
  intros Hb. revert i. induction n as [|n IH]; intros i; [by apply yields_ret|].
  eapply yields_bind; [apply Hb|]. intros _ _. apply IH.
Qed.
Lemma yields_for_until {A} (R : A → Prop) n i (body : Z → M S (option A)) :
  (∀ j, i ≤ j < i + Z.of_nat n → yields I (λ r, ∀ a, r = Some a → R a) (body j)) →
  yields I (λ r, ∀ a, r = Some a → R a) (for_until n i body).
Proof.
  revert i. induction n as [|n IH]; intros i Hb; [by apply yields_ret|].
  eapply yields_bind; [apply Hb; lia|]. intros [a|] Ha; [by apply yields_ret|]. apply IH. intros j Hj. apply Hb. lia.
Qed.
Lemma yields_zoom {T A} (J : T → Prop) (R : A → Prop) (get : S → T) put (c : M T A) :
  yields J R c → (∀ s, I s → J (get s)) → (∀ s t, I s → J t → I (put t s)) → yields I R (zoom get put c).
Proof.
  intros Hc Hg Hp s a s' Hs. unfold zoom. destruct (c (get s)) as [[b t]| | | |] eqn:E; [|done..].
  intros [= <- <-]. destruct (Hc _ _ _ (Hg s Hs) E). auto.
Qed.
(** A part of the state the invariant says nothing about. *)
Lemma yields_free {A} (c : M S A) (Hany : ∀ s, I s) : keeps I c.
Proof. by intros s a s' _ _. Qed.
Lemma yields_if {A} (R : A → Prop) (b : bool) (c d : M S A) : yields I R c → yields I R d → yields I R (if b then c else d).
Proof. by destruct b. Qed.
End rules.

(** The structure of the code; a call whose result matters is one the hints
    know. *)
Ltac yields_step :=
  match goal with
  | |- yields _ _ (mret _) => apply yields_ret; try done
  | |- yields _ _ (panic _) => apply yields_panic
  | |- yields _ _ undefined => apply yields_undefined
  | |- yields _ _ out_of_fuel => apply yields_out_of_fuel
  | |- yields _ _ halt => apply yields_halt
  | |- yields _ _ (mbind _ _) =>
      first [ eapply yields_bind; [solve [eauto 3 with typed]|]
            | apply (yields_bind _ (λ _, True)) ]; [..|intros ? ?]
  | |- yields _ _ (let _ := _ in _) => cbv zeta
  | |- yields _ _ (if ?b then _ else _) => let E := fresh "E" in destruct b eqn:E
  | |- yields _ _ (match ?x with _ => _ end) => let E := fresh "E" in destruct x eqn:E
  | |- yields _ _ (for_loop _ _ _) => apply yields_for; intros ?
  | |- yields _ (λ _, True) (gets _) => by apply yields_gets
  | |- yields _ (λ _, True) (lift_opt _) => by apply yields_lift_opt
  | |- yields _ (λ _, True) ?c =>
      first [ solve [eauto 3 with typed] | eapply yields_weaken; [solve [eauto 3 with typed]|done] ]
  end.
Ltac yields_go := repeat (yields_step; cbv beta).

(** Total and partial correctness together. *)
Lemma wp_result {S A} (c : M S A) s a s' Q : wp c s Q → c s = Ret (a, s') → Q a s'.
Proof. unfold wp. intros H E. by rewrite E in H. Qed.
Lemma wp_yields {S A} (I : S → Prop) (R : A → Prop) (c : M S A) s Q :
  wp c s Q → yields I R c → I s → wp c s (λ a s', Q a s' ∧ I s').
Proof. unfold wp. intros Hw Hy Hs. destruct (c s) as [[a s']| | | |] eqn:E; [|done..]. split; [done|]. by apply (Hy s a s'). Qed.
