(* ===== verification/Mem.v ===== *)
(** * Physical memory

    The memory the kernel's pointers dereference: a store of 64-bit words at
    8-aligned addresses, with byte accesses derived from it (the machine is
    little-endian).  A word access at a misaligned address is undefined, as in
    C.  Cells the kernel has not written hold an arbitrary value, which the
    model keeps in the store itself (a missing key reads as 0).

    [HasMem] is the interface a component's state offers to the code that
    loads and stores through pointers. *)
From S2P Require Import Prelude.

Abbreviation mem := (gmap Z Z) (only parsing).

Definition ld (m : mem) (a : Z) : Z := default 0 (m !! a).
Definition st (m : mem) (a v : Z) : mem := <[a := u64 v]> m.

Definition ld8 (m : mem) (a : Z) : Z :=
  Z.land (Z.shiftr (ld m (8 * (a / 8))) (8 * (a mod 8))) 255.
Definition st8 (m : mem) (a v : Z) : mem :=
  let k := 8 * (a mod 8) in
  st m (8 * (a / 8))
    (Z.lor (Z.ldiff (ld m (8 * (a / 8))) (Z.shiftl 255 k)) (Z.shiftl (u8 v) k)).

(** All words of the store are 64 bits wide. *)
Definition mem_wf (m : mem) : Prop := ∀ a, 0 ≤ ld m a < 2 ^ 64.

(** [m'] differs from [m] only in the [n] bytes from [a]. *)
Definition same_outside (m m' : mem) (a n : Z) : Prop :=
  ∀ x, ¬ (a ≤ x < a + n) → ld m' x = ld m x.

Class HasMem (S : Type) : Type := {
  get_mem : S → mem;
  set_mem : mem → S → S;
  get_set_mem m s : get_mem (set_mem m s) = m;
  set_set_mem m m' s : set_mem m (set_mem m' s) = set_mem m s;
  set_get_mem s : set_mem (get_mem s) s = s;
}.

Definition load64 {S} `{HasMem S} (a : Z) : M S Z :=
  if a mod 8 =? 0 then gets (λ s, ld (get_mem s) a) else undefined.
Definition store64 {S} `{HasMem S} (a v : Z) : M S unit :=
  if a mod 8 =? 0 then modify (λ s, set_mem (st (get_mem s) a v) s) else undefined.
Definition load8 {S} `{HasMem S} (a : Z) : M S Z := gets (λ s, ld8 (get_mem s) a).
Definition store8 {S} `{HasMem S} (a v : Z) : M S unit :=
  modify (λ s, set_mem (st8 (get_mem s) a v) s).

(** What a run of word stores (byte copies) leaves behind, as a function. *)
Fixpoint zero_words (n : nat) (a : Z) (m : mem) : mem :=
  match n with O => m | S n' => zero_words n' (a + 8) (st m a 0) end.
Fixpoint zero_bytes (n : nat) (a : Z) (m : mem) : mem :=
  match n with O => m | S n' => zero_bytes n' (a + 1) (st8 m a 0) end.
Fixpoint copy_bytes (n : nat) (dst src : Z) (m : mem) : mem :=
  match n with
  | O => m
  | S n' => copy_bytes n' (dst + 1) (src + 1) (st8 m dst (ld8 m src))
  end.

(** ** Loads after stores *)

Lemma ld_st_same m a v : ld (st m a v) a = u64 v.
Proof. unfold ld, st. by rewrite lookup_insert_eq. Qed.
Lemma ld_st_other m a b v : a ≠ b → ld (st m a v) b = ld m b.
Proof. intros. unfold ld, st. by rewrite lookup_insert_ne. Qed.
Lemma mem_wf_st m a v : mem_wf m → mem_wf (st m a v).
Proof.
  intros Hm b. destruct (decide (a = b)) as [->|].
  - rewrite ld_st_same. apply u64_range.
  - by rewrite ld_st_other.
Qed.
Lemma mem_wf_empty : mem_wf ∅.
Proof. intros a. unfold ld. rewrite lookup_empty. cbn. lia. Qed.

(** A store given by its entries can be checked. *)
Lemma mem_wf_check (m : mem) :
  bool_decide (map_Forall (λ _ v, 0 ≤ v < 2 ^ 64) m) = true → mem_wf m.
Proof.
  intros H%bool_decide_eq_true a. unfold ld. destruct (m !! a) as [v|] eqn:E; cbn; [|lia].
  by apply (H a v).
Qed.

(** The bit [8 * (a mod 8) + i] of a word is bit [i] of its byte at [a]. *)
Lemma ld8_bits m a i :
  0 ≤ i → Z.testbit (ld8 m a) i = ((i <? 8) && Z.testbit (ld m (8 * (a / 8))) (8 * (a mod 8) + i))%bool.
Proof.
  intros Hi. unfold ld8. change 255 with (Z.ones 8).
  rewrite Z.land_spec, Z.shiftr_spec, Z.testbit_ones_nonneg, andb_comm by lia.
  by rewrite Z.add_comm.
Qed.

Lemma st8_word_bits m a v i :
  mem_wf m → 0 ≤ i →
  Z.testbit (ld (st8 m a v) (8 * (a / 8))) i =
    (if (8 * (a mod 8) <=? i) && (i <? 8 * (a mod 8) + 8)
     then Z.testbit (u8 v) (i - 8 * (a mod 8))
     else Z.testbit (ld m (8 * (a / 8))) i)%bool.
Proof.
  intros Hm Hi. unfold st8. cbv zeta. rewrite ld_st_same.
  pose proof (Z.mod_pos_bound a 8 ltac:(lia)).
  pose proof (u8_range v). pose proof (Hm (8 * (a / 8))).
  unfold u64. destruct (decide (i < 64)).
  - rewrite Z.mod_pow2_bits_low, Z.lor_spec, Z.ldiff_spec, !Z.shiftl_spec by lia.
    change 255 with (Z.ones 8). case_if.
    + rewrite Z.testbit_ones_nonneg by lia.
      replace (i - 8 * (a mod 8) <? 8) with true by lia. by rewrite andb_false_r.
    + destruct (decide (i < 8 * (a mod 8))).
      * rewrite !(Z.testbit_neg_r _ (i - 8 * (a mod 8))) by lia.
        by rewrite andb_true_r, orb_false_r.
      * rewrite Z.testbit_ones_nonneg, (testbit_above 8 (u8 v)) by lia.
        replace (i - 8 * (a mod 8) <? 8) with false by lia.
        by rewrite andb_true_r, orb_false_r.
  - rewrite Z.mod_pow2_bits_high by lia. case_if; [lia|].
    by rewrite (testbit_above 64) by lia.
Qed.

Lemma ld_st8_other m a b v : 8 * (a / 8) ≠ b → ld (st8 m a v) b = ld m b.
Proof. apply ld_st_other. Qed.

Lemma ld8_st8_same m a v : mem_wf m → ld8 (st8 m a v) a = u8 v.
Proof.
  intros Hm. apply Z.bits_inj'. intros i Hi.
  rewrite ld8_bits by done. pose proof (Z.mod_pos_bound a 8 ltac:(lia)).
  rewrite st8_word_bits by (done || lia). pose proof (u8_range v).
  destruct (Z.ltb_spec i 8); cbn.
  - rewrite (proj2 (Z.leb_le _ _)), (proj2 (Z.ltb_lt _ _)) by lia. cbn. f_equal. lia.
  - by rewrite (testbit_above 8) by lia.
Qed.

Lemma ld8_st8_other m a b v : mem_wf m → a ≠ b → ld8 (st8 m a v) b = ld8 m b.
Proof.
  intros Hm Hab. apply Z.bits_inj'. intros i Hi. rewrite !ld8_bits by done.
  destruct (Z.ltb_spec i 8); [|done]. cbn.
  destruct (decide (8 * (a / 8) = 8 * (b / 8))) as [E|E].
  - rewrite <- E, st8_word_bits by (done || dlia).
    case_if; [|done]. exfalso. apply Hab. dlia.
  - by rewrite ld_st8_other.
Qed.

Lemma ld8_st_other m a b v : 8 * (b / 8) ≠ a → ld8 (st m a v) b = ld8 m b.
Proof. intros. unfold ld8. by rewrite ld_st_other. Qed.
Lemma ld8_range m a : 0 ≤ ld8 m a < 2 ^ 8.
Proof.
  unfold ld8. change 255 with (2 ^ 8 - 1). rewrite land_mask by lia. by apply Z.mod_pos_bound.
Qed.
Lemma mem_wf_st8 m a v : mem_wf m → mem_wf (st8 m a v).
Proof. apply mem_wf_st. Qed.

(** A word is its eight bytes. *)
Lemma ld_ext m m' a b :
  mem_wf m → mem_wf m' → a mod 8 = 0 → b mod 8 = 0 →
  (∀ j, 0 ≤ j < 8 → ld8 m (a + j) = ld8 m' (b + j)) → ld m a = ld m' b.
Proof.
  intros Hm Hm' Ha Hb H. apply Z.bits_inj'. intros i Hi.
  destruct (decide (i < 64)).
  - pose proof (Z.mod_pos_bound i 8 ltac:(lia)).
    assert (0 ≤ i / 8 < 8) by dlia.
    specialize (H (i / 8) ltac:(lia)). apply (f_equal (λ x, Z.testbit x (i mod 8))) in H.
    rewrite !ld8_bits in H by lia.
    replace (8 * ((a + i / 8) / 8)) with a in H by dlia.
    replace ((a + i / 8) mod 8) with (i / 8) in H by dlia.
    replace (8 * ((b + i / 8) / 8)) with b in H by dlia.
    replace ((b + i / 8) mod 8) with (i / 8) in H by dlia.
    replace (8 * (i / 8) + i mod 8) with i in H by dlia.
    by replace (i mod 8 <? 8) with true in H by lia.
  - by rewrite !(testbit_above 64) by (apply Hm || apply Hm' || lia).
Qed.

(** The same with the side conditions of an aligned field. *)
Lemma ld8_st_word m a b v : b mod 8 = 0 → a ≠ b → ld8 (st m a v) b = ld8 m b.
Proof. intros. apply ld8_st_other. dlia. Qed.
Lemma ld_st8_word m a b v : a mod 8 = 0 → a ≠ b → ld (st8 m a v) b = ld m b.
Proof. intros. apply ld_st8_other. dlia. Qed.
Lemma ld8_word m m' b : ld m' (8 * (b / 8)) = ld m (8 * (b / 8)) → ld8 m' b = ld8 m b.
Proof. unfold ld8. by intros ->. Qed.

(** ** Runs of stores *)

Lemma zero_words_wf n a m : mem_wf m → mem_wf (zero_words n a m).
Proof. revert a m. induction n; cbn; auto using mem_wf_st. Qed.
Lemma zero_words_out n a m x :
  (∀ i, 0 ≤ i < Z.of_nat n → x ≠ a + 8 * i) → ld (zero_words n a m) x = ld m x.
Proof.
  revert a m. induction n as [|n IH]; intros a m Hx; [done|]. cbn [zero_words].
  rewrite IH, ld_st_other; [done| |].
  - intros ->. apply (Hx 0); lia.
  - intros i Hi ->. apply (Hx (i + 1)); lia.
Qed.
Lemma zero_words_in n a m i : 0 ≤ i < Z.of_nat n → ld (zero_words n a m) (a + 8 * i) = 0.
Proof.
  revert a m i. induction n as [|n IH]; intros a m i Hi; [lia|]. cbn [zero_words].
  destruct (decide (i = 0)) as [->|].
  - rewrite zero_words_out by lia. rewrite Z.mul_0_r, Z.add_0_r. apply ld_st_same.
  - replace (a + 8 * i) with (a + 8 + 8 * (i - 1)) by lia. apply IH. lia.
Qed.

Lemma zero_bytes_wf n a m : mem_wf m → mem_wf (zero_bytes n a m).
Proof. revert a m. induction n; cbn; auto using mem_wf_st8. Qed.
Lemma zero_bytes_spec n a m x :
  mem_wf m →
  ld8 (zero_bytes n a m) x = if (a <=? x) && (x <? a + Z.of_nat n) then 0 else ld8 m x.
Proof.
  revert a m. induction n as [|n IH]; intros a m Hm; cbn [zero_bytes].
  - case_if; [lia|done].
  - rewrite IH by auto using mem_wf_st8. destruct (decide (a = x)) as [->|].
    + rewrite ld8_st8_same by done. change (u8 0) with 0.
      case_cmp; lia.
    + rewrite ld8_st8_other by done. case_cmp; (done || lia).
Qed.

Lemma zero_bytes_word n a m x :
  (∀ i, 0 ≤ i < Z.of_nat n → 8 * ((a + i) / 8) ≠ x) → ld (zero_bytes n a m) x = ld m x.
Proof.
  revert a m. induction n as [|n IH]; intros a m Hx; [done|]. cbn [zero_bytes].
  rewrite IH, ld_st8_other; [done| |].
  - rewrite <- (Z.add_0_r a). apply Hx. lia.
  - intros i Hi. rewrite <- Z.add_assoc. apply Hx. lia.
Qed.

Lemma copy_bytes_wf n dst src m : mem_wf m → mem_wf (copy_bytes n dst src m).
Proof. revert dst src m. induction n; cbn; auto using mem_wf_st8. Qed.
Lemma copy_bytes_out n dst src m x :
  mem_wf m → ¬ (dst ≤ x < dst + Z.of_nat n) → ld8 (copy_bytes n dst src m) x = ld8 m x.
Proof.
  revert dst src m. induction n as [|n IH]; intros dst src m Hm Hx; [done|]. cbn [copy_bytes].
  rewrite IH by (auto using mem_wf_st8; lia). apply ld8_st8_other; [done|lia].
Qed.

Lemma copy_bytes_word n dst src m x :
  (∀ i, 0 ≤ i < Z.of_nat n → 8 * ((dst + i) / 8) ≠ x) → ld (copy_bytes n dst src m) x = ld m x.
Proof.
  revert dst src m. induction n as [|n IH]; intros dst src m Hx; [done|]. cbn [copy_bytes].
  rewrite IH, ld_st8_other; [done| |].
  - rewrite <- (Z.add_0_r dst). apply Hx. lia.
  - intros i Hi. rewrite <- Z.add_assoc. apply Hx. lia.
Qed.

(** Copying byte by byte is right when the two ranges do not overlap. *)
Lemma copy_bytes_in n dst src m j :
  mem_wf m → dst + Z.of_nat n ≤ src ∨ src + Z.of_nat n ≤ dst → 0 ≤ j < Z.of_nat n →
  ld8 (copy_bytes n dst src m) (dst + j) = ld8 m (src + j).
Proof.
  revert dst src m j. induction n as [|n IH]; intros dst src m j Hm Hdis Hj; [lia|].
  cbn [copy_bytes]. destruct (decide (j = 0)) as [->|].
  - rewrite copy_bytes_out by (auto using mem_wf_st8; lia).
    rewrite !Z.add_0_r, ld8_st8_same by done. apply u8_id, ld8_range.
  - replace (dst + j) with (dst + 1 + (j - 1)) by lia.
    rewrite IH by (auto using mem_wf_st8; lia).
    rewrite ld8_st8_other by (done || lia). f_equal. lia.
Qed.

(** ** The loops that perform them *)
Section loops.
Context {S : Type} `{HasMem S}.
Implicit Types s : S.

Lemma wp_load64 a s Q : a mod 8 = 0 → Q (ld (get_mem s) a) s → wp (load64 a) s Q.
Proof. unfold load64. by intros ->. Qed.
Lemma wp_store64 a v s Q :
  a mod 8 = 0 → Q () (set_mem (st (get_mem s) a v) s) → wp (store64 a v) s Q.
Proof. unfold store64. by intros ->. Qed.
Lemma wp_load8 a s Q : Q (ld8 (get_mem s) a) s → wp (load8 a) s Q.
Proof. done. Qed.
Lemma wp_store8 a v s Q : Q () (set_mem (st8 (get_mem s) a v) s) → wp (store8 a v) s Q.
Proof. done. Qed.

Lemma wp_zero_words n a i s Q :
  a mod 8 = 0 →
  Q () (set_mem (zero_words n (a + 8 * i) (get_mem s)) s) →
  wp (for_loop n i (λ j, store64 (a + 8 * j) 0)) s Q.
Proof.
  intros Ha. revert i s. induction n as [|n IH]; intros i s HQ; cbn [for_loop zero_words] in *.
  - apply wp_ret. by rewrite set_get_mem in HQ.
  - apply wp_bind, wp_store64; [dlia|]. apply IH.
    rewrite get_set_mem, set_set_mem. by replace (a + 8 * (i + 1)) with (a + 8 * i + 8) by lia.
Qed.
Lemma wp_zero_bytes n a i s Q :
  Q () (set_mem (zero_bytes n (a + i) (get_mem s)) s) →
  wp (for_loop n i (λ j, store8 (a + j) 0)) s Q.
Proof.
  revert i s. induction n as [|n IH]; intros i s HQ; cbn [for_loop zero_bytes] in *.
  - apply wp_ret. by rewrite set_get_mem in HQ.
  - apply wp_bind, wp_store8, IH. rewrite get_set_mem, set_set_mem.
    by replace (a + (i + 1)) with (a + i + 1) by lia.
Qed.
Lemma wp_copy_bytes n dst src i s Q :
  Q () (set_mem (copy_bytes n (dst + i) (src + i) (get_mem s)) s) →
  wp (for_loop n i (λ j, b ← load8 (src + j); store8 (dst + j) b)) s Q.
Proof.
  revert i s. induction n as [|n IH]; intros i s HQ; cbn [for_loop copy_bytes] in *.
  - apply wp_ret. by rewrite set_get_mem in HQ.
  - apply wp_bind, wp_bind, wp_load8, wp_store8, IH. rewrite get_set_mem, set_set_mem.
    replace (dst + (i + 1)) with (dst + i + 1) by lia.
    by replace (src + (i + 1)) with (src + i + 1) by lia.
Qed.
End loops.

#[export] Hint Resolve mem_wf_st mem_wf_st8 mem_wf_empty zero_words_wf zero_bytes_wf copy_bytes_wf : os.
