(* ===== verification/PageAlloc.v ===== *)
(** * The contract between the page allocator and its clients

    The virtual-memory code and the ELF loader obtain and return physical
    pages through two functions.  [PageAllocator] states what they rely on:
    an allocated page was free, is zeroed, and no other memory changes; a page
    that is managed and not free can be returned.  src/mm/pmm.c discharges it
    (Pmm.v); the clients are proved against the class. *)
From S2P Require Import Prelude Mem.

Definition PAGE_SIZE : Z := 4096.

(** The 512 words of the page at [a] are zero. *)
Definition page_zero (m : mem) (a : Z) : Prop := ∀ i, 0 ≤ i < 512 → ld m (a + 8 * i) = 0.

Class PageAllocator (S : Type) `{HasMem S} : Type := {
  pmm_alloc : M S Z;
  pmm_free : Z → M S unit;
  (** the allocator's own invariant *)
  pa_inv : S → Prop;
  (** the pages (numbers) it owns and those of them that are free *)
  pa_managed : S → Z → Prop;
  pa_free : S → gset Z;
  pa_free_managed s p : pa_inv s → p ∈ pa_free s → pa_managed s p;
  pa_managed_range s p : pa_inv s → pa_managed s p → 0 < p < 2 ^ 40;
  pa_mem_wf s : pa_inv s → mem_wf (get_mem s);
  (** ordinary stores do not disturb it *)
  pa_store s m : pa_inv s → mem_wf m →
    pa_inv (set_mem m s) ∧ pa_free (set_mem m s) = pa_free s ∧
    (∀ p, pa_managed (set_mem m s) p ↔ pa_managed s p);
  pmm_alloc_ok s : pa_inv s →
    wp pmm_alloc s (λ a s', pa_inv s' ∧ (∀ p, pa_managed s' p ↔ pa_managed s p) ∧
      ((a = 0 ∧ pa_free s = ∅ ∧ s' = s) ∨
       ∃ p, a = p * PAGE_SIZE ∧ p ∈ pa_free s ∧ pa_free s' = pa_free s ∖ {[p]} ∧
         page_zero (get_mem s') a ∧ same_outside (get_mem s) (get_mem s') a PAGE_SIZE));
  pmm_free_ok s p : pa_inv s → pa_managed s p → p ∉ pa_free s →
    wp (pmm_free (p * PAGE_SIZE)) s (λ _ s', pa_inv s' ∧
      (∀ p, pa_managed s' p ↔ pa_managed s p) ∧
      pa_free s' = {[p]} ∪ pa_free s ∧ get_mem s' = get_mem s);
}.
