(* ===== verification/Pmm.v ===== *)
(** * The physical page allocator (src/mm/pmm.c, include/mm/pmm.h)

    A bitmap with one bit per 4 KiB page, set when the page is in use, and
    three counters.  [phys] holds the module's static variables and the memory
    whose pages it hands out.  The allocator is specified against the set of
    free pages [free_set]: [pmm_alloc_page] takes the lowest one and zeroes
    it, [pmm_free_page] returns one, [pmm_alloc_pages] takes the first run.
    [PageAllocator] is the contract the virtual-memory code is proved
    against, and [Pmm_allocator] discharges it. *)
From S2P Require Import Prelude Mem PageAlloc.

Definition PMM_START : Z := 0x400000.
Definition BITMAP_SIZE : Z := 128 * 1024.
Definition BITMAP_WORDS : Z := BITMAP_SIZE / 4.

Record phys := Phys {
  ph_mem : mem;
  pmm_bitmap : list Z;
  pmm_total_pages : Z;
  pmm_free_count : Z;
  pmm_reserved_pages : Z;
}.

Definition set_ph_mem (m : mem) (s : phys) : phys :=
  Phys m (pmm_bitmap s) (pmm_total_pages s) (pmm_free_count s) (pmm_reserved_pages s).
Definition set_bitmap (bm : list Z) (s : phys) : phys :=
  Phys (ph_mem s) bm (pmm_total_pages s) (pmm_free_count s) (pmm_reserved_pages s).
Definition set_total (n : Z) (s : phys) : phys :=
  Phys (ph_mem s) (pmm_bitmap s) n (pmm_free_count s) (pmm_reserved_pages s).
Definition set_free_count (n : Z) (s : phys) : phys :=
  Phys (ph_mem s) (pmm_bitmap s) (pmm_total_pages s) n (pmm_reserved_pages s).
Definition set_reserved (n : Z) (s : phys) : phys :=
  Phys (ph_mem s) (pmm_bitmap s) (pmm_total_pages s) (pmm_free_count s) n.

#[export] Program Instance phys_mem : HasMem phys :=
  {| get_mem := ph_mem; set_mem := set_ph_mem |}.
Solve Obligations with by intros; destruct s.

(** [pmm_bitmap[i]], read and written. *)
Definition bm_read (i : Z) : M phys Z :=
  bm ← gets pmm_bitmap; lift_opt (arr_get bm i).
Definition bm_write (i w : Z) : M phys unit :=
  bm ← gets pmm_bitmap;
  bm' ← lift_opt (arr_set bm i (u32 w));
  modify (set_bitmap bm').

(** The inner loop of [bitmap_find_free]: the first clear bit of a word. *)
Fixpoint find_bit (n : nat) (w bit : Z) : option Z :=
  match n with
  | O => None
  | S n' => if Z.land w (u32 (Z.shiftl 1 bit)) =? 0 then Some bit else find_bit n' w (bit + 1)
  end.
Fixpoint find_word (bm : list Z) (i : Z) : Z :=
  match bm with
  | [] => -1
  | w :: bm' =>
      if w =? 0xFFFFFFFF then find_word bm' (i + 1)
      else match find_bit 32 w 0 with
           | Some bit => s32 (i * 32 + bit)
           | None => find_word bm' (i + 1)
           end
  end.
Definition bitmap_find_free : M phys Z := gets (λ s, find_word (pmm_bitmap s) 0).

Definition bitmap_set (page : Z) : M phys unit :=
  let idx := page / 32 in
  let bit := page mod 32 in
  w ← bm_read idx;
  bm_write idx (Z.lor w (Z.shiftl 1 bit)).

Definition bitmap_clear (page : Z) : M phys unit :=
  let idx := page / 32 in
  let bit := page mod 32 in
  w ← bm_read idx;
  bm_write idx (Z.land w (u32 (Z.lnot (Z.shiftl 1 bit)))).

Definition bitmap_test (page : Z) : M phys bool :=
  let idx := page / 32 in
  let bit := page mod 32 in
  w ← bm_read idx;
  mret (negb (Z.land w (u32 (Z.shiftl 1 bit)) =? 0)).

Definition pmm_init (memory_size : Z) : M phys unit :=
  modify (set_total (memory_size / PAGE_SIZE));;
  for_loop (Z.to_nat BITMAP_WORDS) 0 (λ i, bm_write i 0xFFFFFFFF);;
  let first_free_page := PMM_START / PAGE_SIZE in
  last_page ← gets pmm_total_pages;
  let last_page := if BITMAP_SIZE * 32 <? last_page then BITMAP_SIZE * 32 else last_page in
  modify (set_free_count 0);;
  for_loop (Z.to_nat (last_page - first_free_page)) first_free_page (λ page,
    bitmap_clear page;;
    modify (λ s, set_free_count (u64 (pmm_free_count s + 1)) s));;
  modify (set_reserved first_free_page).

Definition pmm_alloc_page : M phys Z :=
  page ← bitmap_find_free;
  if page =? -1 then mret 0 else
  bitmap_set page;;
  modify (λ s, set_free_count (u64 (pmm_free_count s - 1)) s);;
  let addr := u64 (page * PAGE_SIZE) in
  for_loop (Z.to_nat (PAGE_SIZE / 8)) 0 (λ i, store64 (addr + 8 * i) 0);;
  mret addr.

Definition pmm_free_page (addr : Z) : M phys unit :=
  if negb (addr mod PAGE_SIZE =? 0) || (addr <? PMM_START)
  then panic "pmm_free_page: Invalid page address" else
  let page := addr / PAGE_SIZE in
  total ← gets pmm_total_pages;
  if total <=? page then panic "pmm_free_page: Page out of range" else
  used ← bitmap_test page;
  if negb used then panic "pmm_free_page: Double free detected" else
  bitmap_clear page;;
  modify (λ s, set_free_count (u64 (pmm_free_count s + 1)) s).

(** The check of one candidate [start]: [found] stays true when all [count]
    pages from [start] are free. *)
Definition run_free (start count : Z) : M phys bool :=
  r ← for_until (Z.to_nat count) 0 (λ i,
        used ← bitmap_test (u64 (start + i));
        mret (if (used : bool) then Some () else None));
  mret (match r with Some _ => false | None => true end).

Definition pmm_alloc_pages (count : Z) : M phys Z :=
  if count =? 0 then mret 0 else
  total ← gets pmm_total_pages;
  r ← for_until (Z.to_nat (total + 1)) (PMM_START / PAGE_SIZE) (λ start,
        if negb (u64 (start + count) <=? total) then mret (Some 0) else
        found ← run_free start count;
        if negb found then mret None else
        for_loop (Z.to_nat count) 0 (λ i, bitmap_set (u64 (start + i)));;
        modify (λ s, set_free_count (u64 (pmm_free_count s - count)) s);;
        let addr := u64 (start * PAGE_SIZE) in
        for_loop (Z.to_nat (u64 (count * PAGE_SIZE) / 8)) 0 (λ i, store64 (addr + 8 * i) 0);;
        mret (Some addr));
  match r with
  | Some addr => mret addr
  | None => out_of_fuel
  end.

Definition pmm_free_pages (addr count : Z) : M phys unit :=
  if count =? 0 then mret () else
  for_loop (Z.to_nat count) 0 (λ i, pmm_free_page (u64 (addr + i * PAGE_SIZE))).

Definition pmm_get_stats : M phys (Z * Z * Z) :=
  total ← gets pmm_total_pages;
  free ← gets pmm_free_count;
  mret (total, free, u64 (total - free)).

(** ** Abstract view: the set of free pages *)

Definition page_bit (bm : list Z) (p : Z) : bool :=
  Z.testbit (default 0 (bm !! Z.to_nat (p / 32))) (p mod 32).
Definition bm_pages (bm : list Z) : Z := 32 * Z.of_nat (length bm).
Definition bm_wf (bm : list Z) : Prop := Forall (λ w, 0 ≤ w < 2 ^ 32) bm.

Definition free_set (s : phys) : gset Z :=
  list_to_set (filter (λ p, page_bit (pmm_bitmap s) p = false)
                      (seqZ 0 (bm_pages (pmm_bitmap s)))).

(** The bitmap after [bitmap_set] ([b = true]) or [bitmap_clear]. *)
Definition bm_upd (p : Z) (b : bool) (bm : list Z) : list Z :=
  let w := default 0 (bm !! Z.to_nat (p / 32)) in
  <[Z.to_nat (p / 32) :=
      u32 (if b then Z.lor w (Z.shiftl 1 (p mod 32))
           else Z.land w (u32 (Z.lnot (Z.shiftl 1 (p mod 32)))))]> bm.

(** The allocator's invariant. *)
Record pmm_wf (s : phys) : Prop := {
  wf_len : Z.of_nat (length (pmm_bitmap s)) = BITMAP_WORDS;
  wf_words : bm_wf (pmm_bitmap s);
  wf_total : 0 ≤ pmm_total_pages s ≤ 2 ^ 20;
  wf_free p : p ∈ free_set s → PMM_START / PAGE_SIZE ≤ p < pmm_total_pages s;
  wf_count : pmm_free_count s = Z.of_nat (size (free_set s));
  wf_mem : mem_wf (ph_mem s);
}.

(** What one call of [pmm_alloc_page] does. *)
Definition alloc_post (s : phys) (a : Z) (s' : phys) : Prop :=
  pmm_wf s' ∧ pmm_total_pages s' = pmm_total_pages s ∧
  ((free_set s = ∅ ∧ a = 0 ∧ s' = s) ∨
   (∃ p, p ∈ free_set s ∧ (∀ q, q ∈ free_set s → p ≤ q) ∧ a = p * PAGE_SIZE ∧
      free_set s' = free_set s ∖ {[p]} ∧ page_zero (ph_mem s') a ∧
      same_outside (ph_mem s) (ph_mem s') a PAGE_SIZE)).

(** [start] begins a run of [count] free pages below the end of memory. *)
Definition free_run (s : phys) (count start : Z) : Prop :=
  PMM_START / PAGE_SIZE ≤ start ∧ start + count ≤ pmm_total_pages s ∧
  ∀ q, start ≤ q < start + count → q ∈ free_set s.

(** The state at boot, and two states the examples use: every page taken, and
    page 1024 free. *)
Definition boot_phys : phys := Phys ∅ (replicate (Z.to_nat BITMAP_WORDS) 0) 0 0 0.

Definition full_phys : phys :=
  Phys ∅ (replicate (Z.to_nat BITMAP_WORDS) 0xFFFFFFFF) 16384 0 1024.
(** Full but for the pages of a list. *)
Definition some_free_phys (l : list Z) : phys :=
  foldr (λ p s, set_free_count (u64 (pmm_free_count s + 1)) (set_bitmap (bm_upd p false (pmm_bitmap s)) s))
    full_phys l.
Definition one_free_phys : phys :=
  set_free_count (u64 1) (set_bitmap (bm_upd 1024 false (pmm_bitmap full_phys)) full_phys).

(** ** The bitmap *)

Lemma bitmap_nat : Z.of_nat (Z.to_nat BITMAP_WORDS) = BITMAP_WORDS.
Proof. apply Z2Nat.id. by vm_compute. Qed.

Lemma bm_wf_lookup bm i w : bm_wf bm → bm !! i = Some w → 0 ≤ w < 2 ^ 32.
Proof. intros H. by apply (Forall_lookup_1 _ _ _ _ H). Qed.
Lemma bm_wf_default bm i : bm_wf bm → 0 ≤ default 0 (bm !! i) < 2 ^ 32.
Proof. intros H. destruct (bm !! i) eqn:E; [by eapply bm_wf_lookup|cbn; lia]. Qed.

Lemma bm_upd_length p b bm : length (bm_upd p b bm) = length bm.
Proof. apply length_insert. Qed.
Lemma bm_upd_wf p b bm : bm_wf bm → bm_wf (bm_upd p b bm).
Proof. intros H. apply Forall_insert; [done|]. apply u32_range. Qed.

Lemma page_bit_upd p b bm q :
  bm_wf bm → 0 ≤ p < bm_pages bm → 0 ≤ q →
  page_bit (bm_upd p b bm) q = if q =? p then b else page_bit bm q.
Proof.
  unfold bm_pages, page_bit, bm_upd. intros Hwf Hp Hq.
  assert (Z.to_nat (p / 32) < length bm)%nat by dlia.
  pose proof (bm_wf_default bm (Z.to_nat (p / 32)) Hwf).
  set (w := default 0 (bm !! Z.to_nat (p / 32))) in *.
  destruct (decide (q / 32 = p / 32)) as [E|E].
  - rewrite E, list_lookup_insert_eq by done. fold w. change (default 0 (Some ?x)) with x.
    destruct b; [rewrite word_set_bit by dlia|rewrite word_clear_bit by dlia].
    all: replace (q mod 32 =? p mod 32) with (q =? p) by (case_cmp; dlia).
    all: by destruct (q =? p).
  - rewrite list_lookup_insert_ne by dlia.
    by replace (q =? p) with false by (case_cmp; dlia).
Qed.

Lemma elem_of_free_set s p :
  p ∈ free_set s ↔ 0 ≤ p < bm_pages (pmm_bitmap s) ∧ page_bit (pmm_bitmap s) p = false.
Proof.
  unfold free_set. rewrite elem_of_list_to_set, list_elem_of_filter, elem_of_seqZ. rewrite Z.add_0_l. tauto.
Qed.

Lemma bitmap_set_run p s :
  bm_wf (pmm_bitmap s) → 0 ≤ p < bm_pages (pmm_bitmap s) →
  bitmap_set p s = Ret ((), set_bitmap (bm_upd p true (pmm_bitmap s)) s).
Proof.
  unfold bm_pages. intros Hwf Hp. unfold bitmap_set, bm_read, bm_write, mbind, M_bind, gets, lift_opt.
  rewrite (arr_get_in 0) by dlia. unfold mret, M_ret. cbv beta iota.
  by rewrite arr_set_in by dlia.
Qed.
Lemma bitmap_clear_run p s :
  bm_wf (pmm_bitmap s) → 0 ≤ p < bm_pages (pmm_bitmap s) →
  bitmap_clear p s = Ret ((), set_bitmap (bm_upd p false (pmm_bitmap s)) s).
Proof.
  unfold bm_pages. intros Hwf Hp. unfold bitmap_clear, bm_read, bm_write, mbind, M_bind, gets, lift_opt.
  rewrite (arr_get_in 0) by dlia. unfold mret, M_ret. cbv beta iota.
  by rewrite arr_set_in by dlia.
Qed.
Lemma bitmap_test_run p s :
  bm_wf (pmm_bitmap s) → 0 ≤ p < bm_pages (pmm_bitmap s) →
  bitmap_test p s = Ret (page_bit (pmm_bitmap s) p, s).
Proof.
  unfold bm_pages. intros Hwf Hp. unfold bitmap_test, bm_read, mbind, M_bind, gets, lift_opt.
  rewrite (arr_get_in 0) by dlia. unfold mret, M_ret. cbv beta iota.
  rewrite word_test_bit; [done|by apply bm_wf_default|dlia].
Qed.

(** Taking a page out of the bitmap, and putting it back. *)
Lemma free_set_set p s :
  bm_wf (pmm_bitmap s) → 0 ≤ p < bm_pages (pmm_bitmap s) →
  free_set (set_bitmap (bm_upd p true (pmm_bitmap s)) s) = free_set s ∖ {[p]}.
Proof.
  intros Hwf Hp. apply set_eq. intros q. rewrite elem_of_difference, elem_of_singleton, !elem_of_free_set.
  cbn. unfold bm_pages in *. rewrite bm_upd_length. split.
  - intros [? Hb]. rewrite page_bit_upd in Hb by (done || lia).
    destruct (Z.eqb_spec q p); naive_solver.
  - intros [[? Hb] ?]. split; [done|]. rewrite page_bit_upd by (done || lia).
    by rewrite (proj2 (Z.eqb_neq q p)).
Qed.
Lemma free_set_clear p s :
  bm_wf (pmm_bitmap s) → 0 ≤ p < bm_pages (pmm_bitmap s) →
  free_set (set_bitmap (bm_upd p false (pmm_bitmap s)) s) = {[p]} ∪ free_set s.
Proof.
  intros Hwf Hp. apply set_eq. intros q. rewrite elem_of_union, elem_of_singleton, !elem_of_free_set.
  cbn. unfold bm_pages in *. rewrite bm_upd_length. split.
  - intros [? Hb]. rewrite page_bit_upd in Hb by (done || lia).
    destruct (Z.eqb_spec q p); naive_solver.
  - intros [->|[? Hb]]; (split; [done|]); rewrite page_bit_upd by (done || lia).
    + by rewrite Z.eqb_refl.
    + by case_if.
Qed.

(** [free_set] looks at the bitmap only. *)
Lemma free_set_bitmap s s' : pmm_bitmap s = pmm_bitmap s' → free_set s = free_set s'.
Proof. unfold free_set. by intros ->. Qed.

(** The two updates as the operations perform them, counter included. *)
Lemma free_set_take c p s :
  bm_wf (pmm_bitmap s) → 0 ≤ p < bm_pages (pmm_bitmap s) →
  free_set (set_free_count c (set_bitmap (bm_upd p true (pmm_bitmap s)) s)) = free_set s ∖ {[p]}.
Proof. intros. etrans; [|by apply free_set_set]. by apply free_set_bitmap. Qed.
Lemma free_set_put c p s :
  bm_wf (pmm_bitmap s) → 0 ≤ p < bm_pages (pmm_bitmap s) →
  free_set (set_free_count c (set_bitmap (bm_upd p false (pmm_bitmap s)) s)) = {[p]} ∪ free_set s.
Proof. intros. etrans; [|by apply free_set_clear]. by apply free_set_bitmap. Qed.

(** *** The search *)

Lemma find_bit_spec n w bit :
  0 ≤ w < 2 ^ 32 → 0 ≤ bit → bit + Z.of_nat n ≤ 32 →
  match find_bit n w bit with
  | Some b => bit ≤ b < bit + Z.of_nat n ∧ Z.testbit w b = false ∧ ∀ i, bit ≤ i < b → Z.testbit w i = true
  | None => ∀ i, bit ≤ i < bit + Z.of_nat n → Z.testbit w i = true
  end.
Proof.
  intros Hw. revert bit. induction n as [|n IH]; intros bit Hb Hn; cbn [find_bit]; [lia|].
  pose proof (word_test_bit w bit Hw ltac:(lia)) as Ht.
  destruct (_ =? 0); cbn in Ht.
  - split_and!; [lia..|done|lia].
  - specialize (IH (bit + 1) ltac:(lia) ltac:(lia)). destruct (find_bit n w (bit + 1)) as [b|].
    + destruct IH as (?&?&IH). split_and!; [lia..|done|]. intros i ?.
      destruct (decide (i = bit)) as [->|]; [done|apply IH; lia].
    + intros i ?. destruct (decide (i = bit)) as [->|]; [done|apply IH; lia].
Qed.

Lemma full_word_bits i : 0 ≤ i < 32 → Z.testbit 0xFFFFFFFF i = true.
Proof. intros. change 0xFFFFFFFF with (Z.ones 32). apply Z.ones_spec_low. lia. Qed.

(** [find_word] returns the first clear bit of the bitmap, or -1. *)
Lemma find_word_spec bm i :
  bm_wf bm → 0 ≤ i → 32 * (i + Z.of_nat (length bm)) < 2 ^ 31 →
  (find_word bm i = -1 ∧ ∀ p, 0 ≤ p < bm_pages bm → page_bit bm p = true) ∨
  (∃ p, find_word bm i = i * 32 + p ∧ 0 ≤ p < bm_pages bm ∧ page_bit bm p = false ∧
        ∀ q, 0 ≤ q < p → page_bit bm q = true).
Proof.
  unfold bm_pages. revert i. induction bm as [|w bm IH]; intros i Hwf Hi Hb; cbn [find_word].
  { left. split; [done|]. cbn. lia. }
  inversion_clear Hwf as [|?? Hw Hbm]. cbn [length] in Hb.
  assert (Hhd : ∀ p, 0 ≤ p < 32 → page_bit (w :: bm) p = Z.testbit w p).
  { intros p ?. unfold page_bit. rewrite Z.div_small, Z.mod_small by lia. done. }
  assert (Htl : ∀ p, 32 ≤ p → page_bit (w :: bm) p = page_bit bm (p - 32)).
  { intros p ?. unfold page_bit. replace (Z.to_nat (p / 32)) with (S (Z.to_nat ((p - 32) / 32))) by dlia.
    cbn. f_equal. dlia. }
  assert (Hskip : (∀ p, 0 ≤ p < 32 → Z.testbit w p = true) →
    (find_word bm (i + 1) = -1 ∧ ∀ p, 0 ≤ p < 32 * Z.of_nat (S (length bm)) → page_bit (w :: bm) p = true) ∨
    (∃ p, find_word bm (i + 1) = i * 32 + p ∧ 0 ≤ p < 32 * Z.of_nat (S (length bm)) ∧
      page_bit (w :: bm) p = false ∧ ∀ q, 0 ≤ q < p → page_bit (w :: bm) q = true)).
  { intros Hfull.
    assert (Hlow : ∀ p, 0 ≤ p → (32 ≤ p → page_bit bm (p - 32) = true) → page_bit (w :: bm) p = true).
    { intros p ? Hp. destruct (decide (p < 32)); [rewrite Hhd; auto with lia|rewrite Htl; auto with lia]. }
    destruct (IH (i + 1) Hbm ltac:(lia) ltac:(lia)) as [[-> Hall]|(p&->&Hp&Hc&Hq)].
    - left. split; [done|]. intros p Hp. apply Hlow; [lia|]. intros. apply Hall. lia.
    - right. exists (p + 32). split_and!; [lia..| |].
      + rewrite Htl by lia. by replace (p + 32 - 32) with p by lia.
      + intros q ?. apply Hlow; [lia|]. intros. apply Hq. lia. }
  cbn [length]. destruct (Z.eqb_spec w 0xFFFFFFFF) as [->|].
  { apply Hskip, full_word_bits. }
  pose proof (find_bit_spec 32 w 0 Hw ltac:(lia) ltac:(lia)) as Hf.
  destruct (find_bit 32 w 0) as [b|].
  - destruct Hf as (?&?&Hlt). right. exists b. rewrite s32_id by lia.
    split_and!; [lia..|by rewrite Hhd by lia|]. intros q ?. rewrite Hhd by lia. apply Hlt. lia.
  - apply Hskip. intros. apply Hf. lia.
Qed.

(** *** The invariant under one page taken or returned *)

Lemma bm_pages_wf s : pmm_wf s → bm_pages (pmm_bitmap s) = 2 ^ 20.
Proof. intros H. unfold bm_pages. by rewrite (wf_len s H). Qed.

Lemma free_set_size s : pmm_wf s → Z.of_nat (size (free_set s)) ≤ 2 ^ 20.
Proof.
  intros H. pose proof (bm_pages_wf s H) as Hb.
  assert (size (free_set s) ≤ size (list_to_set (seqZ 0 (2 ^ 20)) :> gset Z))%nat as Hle.
  { apply subseteq_size. intros p. rewrite elem_of_free_set, elem_of_list_to_set, elem_of_seqZ. lia. }
  rewrite size_list_to_set, length_seqZ in Hle by apply NoDup_seqZ. lia.
Qed.

Lemma first_page : PMM_START / PAGE_SIZE = 1024.
Proof. done. Qed.

Lemma free_page_range s p : pmm_wf s → p ∈ free_set s → 1024 ≤ p < 2 ^ 20.
Proof. intros H Hp. rewrite <- first_page. pose proof (wf_free s H p Hp). pose proof (wf_total s H). lia. Qed.

Lemma pmm_wf_set_mem s m : pmm_wf s → mem_wf m → pmm_wf (set_ph_mem m s).
Proof. intros [????? ?] ?. by split. Qed.

Lemma pmm_wf_take s p :
  pmm_wf s → p ∈ free_set s →
  pmm_wf (set_free_count (u64 (pmm_free_count s - 1)) (set_bitmap (bm_upd p true (pmm_bitmap s)) s)).
Proof.
  intros H Hp. pose proof (free_page_range _ _ H Hp) as Hr. pose proof (bm_pages_wf s H) as Hb.
  pose proof (free_set_size s H).
  assert (Hf : free_set (set_free_count (u64 (pmm_free_count s - 1)) (set_bitmap (bm_upd p true (pmm_bitmap s)) s)) = free_set s ∖ {[p]}).
  { apply free_set_take; [apply H|]. rewrite Hb. lia. }
  split; cbn.
  - rewrite bm_upd_length. apply H.
  - apply bm_upd_wf, H.
  - apply H.
  - intros q. rewrite Hf. intros [? _]%elem_of_difference. by apply (wf_free s H).
  - rewrite Hf, (wf_count s H), size_difference by set_solver. rewrite size_singleton.
    assert (size (free_set s) ≠ 0%nat) by (intros E; apply size_empty_inv in E; set_solver).
    rewrite u64_id; lia.
  - apply H.
Qed.

Lemma pmm_wf_put s p :
  pmm_wf s → p ∉ free_set s → PMM_START / PAGE_SIZE ≤ p < pmm_total_pages s →
  pmm_wf (set_free_count (u64 (pmm_free_count s + 1)) (set_bitmap (bm_upd p false (pmm_bitmap s)) s)).
Proof.
  intros H Hp Hr. pose proof (bm_pages_wf s H) as Hb. pose proof (free_set_size s H).
  pose proof (wf_total s H).
  assert (Hf : free_set (set_free_count (u64 (pmm_free_count s + 1)) (set_bitmap (bm_upd p false (pmm_bitmap s)) s)) = {[p]} ∪ free_set s).
  { apply free_set_put; [apply H|]. rewrite Hb, first_page in *. lia. }
  split; cbn.
  - rewrite bm_upd_length. apply H.
  - apply bm_upd_wf, H.
  - apply H.
  - intros q. rewrite Hf. intros [->%elem_of_singleton|?]%elem_of_union; [done|by apply (wf_free s H)].
  - rewrite Hf, (wf_count s H), size_union, size_singleton by set_solver.
    rewrite u64_id; lia.
  - apply H.
Qed.

Lemma pmm_alloc_page_wp s : pmm_wf s → wp pmm_alloc_page s (alloc_post s).
Proof.
  intros H. unfold pmm_alloc_page. wp_step. unfold bitmap_find_free. wp_step.
  pose proof (bm_pages_wf s H) as Hb.
  destruct (find_word_spec (pmm_bitmap s) 0 (wf_words s H) ltac:(lia)) as [[-> Hall]|(p&->&Hp&Hc&Hlt)].
  { rewrite (wf_len s H). done. }
  - cbn. apply wp_ret. split_and!; [done..|]. left. split; [|done].
    apply set_eq. intros q. rewrite elem_of_free_set. split; [|set_solver].
    intros [? Hq]. by rewrite Hall in Hq.
  - rewrite Z.mul_0_l, Z.add_0_l. rewrite (proj2 (Z.eqb_neq p (-1))) by lia.
    assert (Hin : p ∈ free_set s) by by apply elem_of_free_set.
    pose proof (free_page_range _ _ H Hin). pose proof (pmm_wf_take s p H Hin) as Hwf'.
    wp_step. eapply wp_of_run; [by apply bitmap_set_run; [apply H|]|]. cbn beta.
    wp_go. unfold PAGE_SIZE in *. rewrite u64_id by lia.
    apply wp_zero_words; [dlia|]. rewrite Z.mul_0_r, Z.add_0_r. apply wp_ret.
    set (s1 := set_free_count _ _) in *. set (n := Z.to_nat _).
    assert (Hn : Z.of_nat n = 512) by done. clearbody n.
    split_and!.
    + apply pmm_wf_set_mem; [done|]. apply zero_words_wf, Hwf'.
    + done.
    + right. exists p. split_and!; [done| |done| | |].
      * intros q [? Hq]%elem_of_free_set. destruct (decide (q < p)); [|lia].
        by rewrite Hlt in Hq by lia.
      * etrans; [|by apply free_set_set; [apply H|]]. by apply free_set_bitmap.
      * intros i ?. apply zero_words_in. lia.
      * unfold same_outside, PAGE_SIZE. intros x ?. apply zero_words_out. lia.
Qed.

Lemma pmm_free_page_run s p :
  pmm_wf s → p ∉ free_set s → PMM_START / PAGE_SIZE ≤ p < pmm_total_pages s →
  pmm_free_page (p * PAGE_SIZE) s =
    Ret ((), set_free_count (u64 (pmm_free_count s + 1)) (set_bitmap (bm_upd p false (pmm_bitmap s)) s)).
Proof.
  intros H Hp Hr. pose proof (bm_pages_wf s H) as Hb. pose proof (wf_total s H) as Ht.
  rewrite first_page in Hr.
  unfold pmm_free_page, PAGE_SIZE, PMM_START.
  rewrite Z.mod_mul, Z.div_mul, (proj2 (Z.ltb_ge (p * 4096) _)) by lia. cbn [negb orb Z.eqb].
  unfold mbind, M_bind, gets. rewrite (proj2 (Z.leb_gt _ _)) by lia.
  rewrite bitmap_test_run by (apply H || lia).
  destruct (page_bit (pmm_bitmap s) p) eqn:E; [|by destruct Hp; apply elem_of_free_set; rewrite Hb; split; [lia|]].
  cbn [negb]. rewrite bitmap_clear_run by (apply H || lia). done.
Qed.

(** *** Initialisation *)

Lemma fill_bitmap_wp s Q :
  Z.of_nat (length (pmm_bitmap s)) = BITMAP_WORDS →
  Q () (set_bitmap (replicate (Z.to_nat BITMAP_WORDS) 0xFFFFFFFF) s) →
  wp (for_loop (Z.to_nat BITMAP_WORDS) 0 (λ i, bm_write i 0xFFFFFFFF)) s Q.
Proof.
  intros Hlen HQ. set (N := Z.to_nat BITMAP_WORDS) in *.
  assert (HN : Z.of_nat N = BITMAP_WORDS) by apply bitmap_nat. clearbody N.
  apply (wp_for (λ i s', ∃ bm, s' = set_bitmap bm s ∧ length bm = N ∧
    ∀ j, 0 ≤ j < i → bm !! Z.to_nat j = Some 0xFFFFFFFF)).
  - exists (pmm_bitmap s). split_and!; [by destruct s|lia|lia].
  - intros i s' Hi (bm&->&Hbm&Hj). unfold bm_write. wp_go. cbn [pmm_bitmap set_bitmap].
    rewrite arr_set_in by lia. wp_go. eexists. split_and!; [done|by rewrite length_insert|].
    intros j ?. destruct (decide (j = i)) as [->|].
    + rewrite list_lookup_insert_eq by lia. done.
    + rewrite list_lookup_insert_ne by lia. apply Hj. lia.
  - intros s' (bm&->&Hbm&Hj). replace bm with (replicate N 0xFFFFFFFF); [done|].
    apply list_eq. intros k. destruct (decide (k < N)%nat).
    + rewrite lookup_replicate_2 by done. specialize (Hj (Z.of_nat k) ltac:(lia)).
      by rewrite Nat2Z.id in Hj.
    + rewrite !lookup_ge_None_2; rewrite ?length_replicate; lia || done.
Qed.

Lemma free_set_full s N : free_set (set_bitmap (replicate N 0xFFFFFFFF) s) = ∅.
Proof.
  apply set_eq. intros p. rewrite elem_of_free_set. split; [|set_solver].
  intros [Hp Hb]. exfalso. revert Hb. cbn [pmm_bitmap set_bitmap] in *. unfold bm_pages, page_bit in *.
  rewrite length_replicate in Hp. rewrite lookup_replicate_2 by dlia.
  change (default 0 (Some ?x)) with x. by rewrite full_word_bits by dlia.
Qed.

(** One iteration of the loop that frees the pages above the kernel. *)
Lemma pmm_init_loop_wp s n Q :
  Z.of_nat (length (pmm_bitmap s)) = BITMAP_WORDS → bm_wf (pmm_bitmap s) →
  free_set s = ∅ → pmm_free_count s = 0 → 1024 + Z.of_nat n ≤ 2 ^ 20 →
  (∀ bm, Z.of_nat (length bm) = BITMAP_WORDS → bm_wf bm →
     free_set (set_bitmap bm s) = list_to_set (seqZ 1024 (Z.of_nat n)) →
     Q () (set_free_count (Z.of_nat n) (set_bitmap bm s))) →
  wp (for_loop n 1024 (λ page, bitmap_clear page;;
        modify (λ s, set_free_count (u64 (pmm_free_count s + 1)) s))) s Q.
Proof.
  intros Hlen Hwf Hfree Hcount Hn HQ.
  apply (wp_for (λ p s', ∃ bm, s' = set_free_count (p - 1024) (set_bitmap bm s) ∧
    Z.of_nat (length bm) = BITMAP_WORDS ∧ bm_wf bm ∧
    free_set (set_bitmap bm s) = list_to_set (seqZ 1024 (p - 1024)))).
  - exists (pmm_bitmap s). split_and!; [|done..|].
    + rewrite Z.sub_diag, <- Hcount. by destruct s.
    + rewrite Z.sub_diag. transitivity (∅ : gset Z); [|done].
      etrans; [|exact Hfree]. by apply free_set_bitmap.
  - intros p s' Hp (bm&->&Hbl&Hbw&Hf). wp_step.
    assert (Hr : 0 ≤ p < bm_pages bm) by (unfold bm_pages; rewrite Hbl; change BITMAP_WORDS with 32768; lia).
    eapply wp_of_run; [by apply bitmap_clear_run|]. cbn beta. wp_go.
    exists (bm_upd p false bm). cbn. split_and!.
    + rewrite u64_id by lia. by replace (p - 1024 + 1) with (p + 1 - 1024) by lia.
    + by rewrite bm_upd_length.
    + by apply bm_upd_wf.
    + etrans; [apply (free_set_clear p (set_bitmap bm s)); done|]. rewrite Hf.
      replace (p + 1 - 1024) with (p - 1024 + 1) by lia.
      apply set_eq. intros q. rewrite elem_of_union, elem_of_singleton, !elem_of_list_to_set, !elem_of_seqZ. lia.
  - intros s' (bm&->&Hbl&Hbw&Hf). replace (1024 + Z.of_nat n - 1024) with (Z.of_nat n) in * by lia.
    by apply HQ.
Qed.

(** *** Runs of pages *)

Lemma set_run_wp s start n Q :
  bm_wf (pmm_bitmap s) → 0 ≤ start → start + Z.of_nat n ≤ bm_pages (pmm_bitmap s) ≤ 2 ^ 20 →
  (∀ bm, length bm = length (pmm_bitmap s) → bm_wf bm →
     free_set (set_bitmap bm s) = free_set s ∖ list_to_set (seqZ start (Z.of_nat n)) →
     Q () (set_bitmap bm s)) →
  wp (for_loop n 0 (λ i, bitmap_set (u64 (start + i)))) s Q.
Proof.
  intros Hwf Hs Hn HQ.
  apply (wp_for (λ i s', ∃ bm, s' = set_bitmap bm s ∧ length bm = length (pmm_bitmap s) ∧ bm_wf bm ∧
    free_set s' = free_set s ∖ list_to_set (seqZ start i))).
  - exists (pmm_bitmap s). split_and!; [by destruct s|done..|]. apply set_eq. set_solver.
  - intros i s' Hi (bm&->&Hbl&Hbw&Hf). rewrite u64_id by lia.
    assert (Hr : 0 ≤ start + i < bm_pages bm) by (unfold bm_pages in *; rewrite Hbl; lia).
    eapply wp_of_run; [by apply bitmap_set_run|].
    exists (bm_upd (start + i) true bm). cbn. split_and!; [done|by rewrite bm_upd_length|by apply bm_upd_wf|].
    etrans; [apply (free_set_set _ (set_bitmap bm s)); done|]. rewrite Hf.
    apply set_eq. intros q.
    rewrite !elem_of_difference, elem_of_singleton, !elem_of_list_to_set, !elem_of_seqZ.
    intuition lia.
  - intros s' (bm&->&Hbl&Hbw&Hf). by apply HQ.
Qed.

Lemma run_free_wp s start count (Q : bool → phys → Prop) :
  pmm_wf s → 0 ≤ start → 0 ≤ count → start + count ≤ 2 ^ 20 →
  ((∀ q, start ≤ q < start + count → q ∈ free_set s) → Q true s) →
  ((∃ q, start ≤ q < start + count ∧ q ∉ free_set s) → Q false s) →
  wp (run_free start count) s Q.
Proof.
  intros H Hs Hc Hb HT HF. pose proof (bm_pages_wf s H) as Hbp. unfold run_free. wp_step.
  apply (wp_for_until (λ i s', s' = s ∧ ∀ q, start ≤ q < start + i → q ∈ free_set s)).
  - split; [done|lia].
  - intros i s' Hi (->&Hq). rewrite u64_id by lia. wp_step.
    eapply wp_of_run; [apply bitmap_test_run; [apply H|lia]|]. cbn beta.
    destruct (page_bit (pmm_bitmap s) (start + i)) eqn:E; wp_go.
    + apply HF. exists (start + i). split; [lia|]. rewrite elem_of_free_set, E. naive_solver.
    + split; [done|]. intros q ?. destruct (decide (q = start + i)) as [->|].
      * apply elem_of_free_set. split; [lia|done].
      * apply Hq. lia.
  - intros s' [-> Hq]. apply wp_ret, HT. intros q ?. apply Hq. lia.
Qed.

Lemma free_run_size s start n :
  (∀ q, start ≤ q < start + Z.of_nat n → q ∈ free_set s) →
  size (free_set s ∖ list_to_set (seqZ start (Z.of_nat n))) = (size (free_set s) - n)%nat.
Proof.
  intros Hq. rewrite size_difference.
  - rewrite size_list_to_set, length_seqZ, Nat2Z.id by apply NoDup_seqZ. done.
  - intros q. rewrite elem_of_list_to_set, elem_of_seqZ. auto.
Qed.

(** *** The theorems *)

Lemma pmm_init_ok s memory_size
  (Hlen : Z.of_nat (length (pmm_bitmap s)) = BITMAP_WORDS)
  (Hmem : mem_wf (ph_mem s))
  (Hsize : 0 ≤ memory_size ≤ 2 ^ 32) :
  wp (pmm_init memory_size) s (λ _ s',
    pmm_wf s' ∧ ph_mem s' = ph_mem s ∧ pmm_total_pages s' = memory_size / PAGE_SIZE ∧
    ∀ p, p ∈ free_set s' ↔ PMM_START / PAGE_SIZE ≤ p < memory_size / PAGE_SIZE).
Proof.
  unfold pmm_init. wp_go. apply fill_bitmap_wp; [done|]. wp_go.
  cbn [pmm_total_pages set_total set_bitmap]. rewrite first_page.
  set (T := memory_size / PAGE_SIZE).
  assert (HT : 0 ≤ T ≤ 2 ^ 20) by (unfold T, PMM_START, PAGE_SIZE in *; dlia).
  rewrite (proj2 (Z.ltb_ge (BITMAP_SIZE * 32) T)) by (unfold BITMAP_SIZE; lia).
  assert (Hfull : bm_wf (replicate (Z.to_nat BITMAP_WORDS) 0xFFFFFFFF)) by (apply Forall_replicate; lia).
  set (s0 := set_free_count 0 _). eapply pmm_init_loop_wp with (n := Z.to_nat (T - 1024)).
  - cbn [s0 pmm_bitmap set_free_count set_bitmap]. rewrite length_replicate. apply bitmap_nat.
  - done.
  - etrans; [|apply (free_set_full s)]. by apply free_set_bitmap.
  - done.
  - lia.
  - intros bm Hbl Hbw Hf. wp_go.
    assert (Hf' : ∀ p, p ∈ free_set (set_bitmap bm s0) ↔ 1024 ≤ p < T).
    { intros p. rewrite Hf, elem_of_list_to_set, elem_of_seqZ. lia. }
    split_and!; [|done|done|done]. split; cbn; try done.
    + intros p Hp. rewrite first_page. by apply Hf'.
    + change (free_set _) with (free_set (set_bitmap bm s0)).
      rewrite Hf, size_list_to_set, length_seqZ by apply NoDup_seqZ. lia.
Qed.
(** (functional): for up to 4 GiB of memory, [pmm_init] establishes the
    allocator's invariant; exactly the pages from [PMM_START] up to the end of
    memory are free, and no memory is touched. *)
Theorem pmm_init_spec s memory_size
  (Hlen : Z.of_nat (length (pmm_bitmap s)) = BITMAP_WORDS)
  (Hmem : mem_wf (ph_mem s))
  (Hsize : 0 ≤ memory_size ≤ 2 ^ 32) :
  wp (pmm_init memory_size) s (λ _ s',
    pmm_wf s' ∧ ph_mem s' = ph_mem s ∧ pmm_total_pages s' = memory_size / PAGE_SIZE ∧
    ∀ p, p ∈ free_set s' ↔ PMM_START / PAGE_SIZE ≤ p < memory_size / PAGE_SIZE).
Proof. by apply pmm_init_ok. Qed.
Lemma pmm_init_spec_witness :
  wp (pmm_init (64 * 1024 * 1024)) boot_phys (λ _ s',
    pmm_wf s' ∧ ph_mem s' = ∅ ∧ pmm_total_pages s' = 16384 ∧
    ∀ p, p ∈ free_set s' ↔ 1024 ≤ p < 16384).
Proof.
  apply (pmm_init_spec boot_phys (64 * 1024 * 1024)).
  - unfold boot_phys. cbn [pmm_bitmap]. rewrite length_replicate. exact bitmap_nat.
  - apply mem_wf_empty.
  - lia.
Defined.

(** C1 (refinement): on a well-formed allocator [pmm_alloc_page] never fails
    otherwise than by returning NULL, which it does exactly when no page is
    free; otherwise it returns the lowest free page, removes it from the free
    set, zeroes its 4096 bytes and writes nowhere else.  The invariant is
    preserved. *)
Theorem pmm_alloc_page_spec s (Hwf : pmm_wf s) :
  wp pmm_alloc_page s (λ a s',
    pmm_wf s' ∧
    (a = 0 ↔ free_set s = ∅) ∧
    (a = 0 → s' = s) ∧
    (a ≠ 0 → ∃ p, a = p * PAGE_SIZE ∧ p ∈ free_set s ∧
      (∀ q, q ∈ free_set s → p ≤ q) ∧ free_set s' = free_set s ∖ {[p]} ∧
      page_zero (ph_mem s') a ∧ same_outside (ph_mem s) (ph_mem s') a PAGE_SIZE)).
Proof.
  eapply wp_mono; [by apply pmm_alloc_page_wp|].
  intros a s' (Hwf'&Ht&[(He&->&->)|(p&Hp&Hmin&->&Hf&Hz&Hs)]); [naive_solver|].
  pose proof (free_page_range _ _ Hwf Hp).
  assert (p * PAGE_SIZE ≠ 0) by (unfold PAGE_SIZE; lia).
  split_and!; [done|split; [done|intros E; set_solver]|done|]. intros _. by exists p.
Qed.

(** C33 (refinement): [pmm_free_page] on every branch: a misaligned address or one
    below [PMM_START], a page beyond the end of memory, and a page that is
    already free (a double free) panic; any other page becomes free, memory is
    not touched, and the invariant is preserved. *)
Theorem pmm_free_page_spec s addr (Hwf : pmm_wf s) (Haddr : 0 ≤ addr < 2 ^ 64) :
  let page := addr / PAGE_SIZE in
  if negb (addr mod PAGE_SIZE =? 0) || (addr <? PMM_START) then
    pmm_free_page addr s = Panic "pmm_free_page: Invalid page address"
  else if pmm_total_pages s <=? page then
    pmm_free_page addr s = Panic "pmm_free_page: Page out of range"
  else if decide (page ∈ free_set s) then
    pmm_free_page addr s = Panic "pmm_free_page: Double free detected"
  else
    ∃ s', pmm_free_page addr s = Ret ((), s') ∧ pmm_wf s' ∧
      free_set s' = {[page]} ∪ free_set s ∧ ph_mem s' = ph_mem s.
Proof.
  cbv zeta. destruct (negb _ || _) eqn:Hguard; [by unfold pmm_free_page; rewrite Hguard|].
  pose proof Hguard as [Ha%negb_false_iff%Z.eqb_eq Hlo%Z.ltb_ge]%orb_false_iff.
  destruct (_ <=? _) eqn:Ht; [by unfold pmm_free_page, mbind, M_bind, gets; rewrite Hguard, Ht|].
  pose proof Ht as Htot%Z.leb_gt.
  pose proof (bm_pages_wf s Hwf) as Hb. pose proof (wf_total s Hwf).
  set (p := addr / PAGE_SIZE) in *.
  assert (addr = p * PAGE_SIZE) as Ea by (unfold p, PAGE_SIZE in *; dlia).
  assert (1024 ≤ p) by (unfold p, PMM_START, PAGE_SIZE in *; dlia).
  destruct (decide (p ∈ free_set s)) as [Hin|Hin].
  - unfold pmm_free_page, mbind, M_bind, gets. rewrite Hguard. fold p.
    rewrite Ht, bitmap_test_run by (apply Hwf || lia).
    apply elem_of_free_set in Hin as [_ ->]. done.
  - rewrite Ea. eexists. split; [apply pmm_free_page_run; [done..|]|].
    { rewrite first_page. lia. }
    split_and!; [|..|done].
    + apply pmm_wf_put; [done..|]. rewrite first_page. lia.
    + apply free_set_put; [apply Hwf|lia].
Qed.

Lemma alloc_run_wp s start count (Q : option Z → phys → Prop) :
  pmm_wf s → free_run s count start → 0 < count →
  (∀ s', pmm_wf s' →
     free_set s' = free_set s ∖ list_to_set (seqZ start count) →
     (∀ i, 0 ≤ i < count → page_zero (ph_mem s') ((start + i) * PAGE_SIZE)) →
     same_outside (ph_mem s) (ph_mem s') (start * PAGE_SIZE) (count * PAGE_SIZE) →
     Q (Some (start * PAGE_SIZE)) s') →
  wp (for_loop (Z.to_nat count) 0 (λ i, bitmap_set (u64 (start + i)));;
      modify (λ s, set_free_count (u64 (pmm_free_count s - count)) s);;
      for_loop (Z.to_nat (u64 (count * PAGE_SIZE) / 8)) 0
        (λ i, store64 (u64 (start * PAGE_SIZE) + 8 * i) 0);;
      mret (Some (u64 (start * PAGE_SIZE)))) s Q.
Proof.
  intros H (Hlo&Hhi&Hq) Hc HQ. rewrite first_page in Hlo. pose proof (wf_total s H) as Ht.
  pose proof (bm_pages_wf s H) as Hb. unfold PAGE_SIZE in *. rewrite !u64_id by lia.
  pose proof (free_set_size s H) as Hsz.
  wp_step. apply set_run_wp; [apply H|lia|rewrite Hb; lia|]. rewrite Z2Nat.id by lia.
  intros bm Hbl Hbw Hf. wp_go. cbn [pmm_free_count set_bitmap].
  apply wp_zero_words; [dlia|]. rewrite Z.mul_0_r, Z.add_0_r. apply wp_ret.
  pose proof (free_run_size s start (Z.to_nat count)) as Hrs.
  rewrite Z2Nat.id in Hrs by lia. specialize (Hrs Hq).
  assert (Hle : (Z.to_nat count ≤ size (free_set s))%nat).
  { transitivity (size (list_to_set (seqZ start count) : gset Z)).
    - rewrite size_list_to_set, length_seqZ by apply NoDup_seqZ. done.
    - apply subseteq_size. intros q. rewrite elem_of_list_to_set, elem_of_seqZ. auto. }
  set (n := Z.to_nat (count * 4096 / 8)). assert (Hn : Z.of_nat n = 512 * count) by (unfold n; dlia).
  clearbody n. apply HQ.
  - split; cbn; [by rewrite Hbl; apply H|done|apply H| | |apply zero_words_wf, H].
    + change (free_set _) with (free_set (set_bitmap bm s)). rewrite Hf.
      intros p [Hp _]%elem_of_difference. by apply (wf_free s H).
    + change (free_set _) with (free_set (set_bitmap bm s)).
      rewrite Hf, Hrs, (wf_count s H), u64_id by lia. lia.
  - done.
  - intros i Hi j Hj. cbn. replace ((start + i) * 4096 + 8 * j) with (start * 4096 + 8 * (512 * i + j)) by lia.
    apply zero_words_in. lia.
  - intros x Hx. cbn. apply zero_words_out. lia.
Qed.

(** C23 (functional): [pmm_alloc_pages] is first fit: it returns NULL, leaving
    the state alone, exactly when no run of [count] free pages exists, and
    otherwise takes the lowest such run, zeroes all of it and nothing else.
    The loop always terminates, and the invariant is preserved. *)
Theorem pmm_alloc_pages_spec s count (Hwf : pmm_wf s) (Hc : 0 < count < 2 ^ 63) :
  wp (pmm_alloc_pages count) s (λ a s',
    pmm_wf s' ∧
    (a = 0 → s' = s ∧ ∀ start, ¬ free_run s count start) ∧
    (a ≠ 0 → ∃ start, a = start * PAGE_SIZE ∧ free_run s count start ∧
       (∀ start', free_run s count start' → start ≤ start') ∧
       free_set s' = free_set s ∖ list_to_set (seqZ start count) ∧
       (∀ i, 0 ≤ i < count → page_zero (ph_mem s') ((start + i) * PAGE_SIZE)) ∧
       same_outside (ph_mem s) (ph_mem s') a (count * PAGE_SIZE))).
Proof.
  unfold pmm_alloc_pages. rewrite (proj2 (Z.eqb_neq count 0)) by lia. wp_go.
  pose proof (wf_total s Hwf) as Ht. rewrite first_page.
  apply (wp_for_until (λ i s', s' = s ∧ (i = 1024 ∨ i - 1 + count ≤ pmm_total_pages s) ∧
    ∀ start, free_run s count start → i ≤ start)).
  - split_and!; [done|by left|]. intros start (Hlo&_). by rewrite first_page in Hlo.
  - intros i s' Hi (->&Hprev&Hmin). rewrite u64_id by lia. case_if.
    + wp_go. split_and!; [done| |done]. intros _. split; [done|].
      intros start Hr. pose proof (Hmin _ Hr). destruct Hr as (_&?&_). lia.
    + wp_step. apply run_free_wp; [done|lia..| |].
      * intros Hq. cbn [negb].
        assert (free_run s count i) by (split; [rewrite first_page; lia|split; [lia|done]]).
        apply alloc_run_wp; [done..|lia|]. intros s' Hw Hf Hz Hs. apply wp_ret.
        assert (i * PAGE_SIZE ≠ 0) by (unfold PAGE_SIZE; lia).
        split_and!; [done..|]. intros _. exists i. done.
      * intros (q&Hq&Hnf). cbn [negb]. wp_go. split_and!; [done|lia|].
        intros start Hr. pose proof (Hmin _ Hr). destruct (decide (start = i)) as [->|]; [|lia].
        destruct Hr as (_&_&Hall). by destruct Hnf; apply Hall.
  - intros s' (->&[?|?]&_); lia.
Qed.

Lemma full_phys_empty : free_set full_phys = ∅.
Proof. apply (free_set_full full_phys). Qed.
Lemma full_phys_wf : pmm_wf full_phys.
Proof.
  split; cbn [pmm_bitmap pmm_total_pages pmm_free_count ph_mem full_phys].
  - rewrite length_replicate. apply bitmap_nat.
  - apply Forall_replicate. lia.
  - lia.
  - rewrite full_phys_empty. set_solver.
  - by rewrite full_phys_empty, size_empty.
  - apply mem_wf_empty.
Qed.
Lemma some_free_ok l :
  NoDup l → Forall (λ p, 1024 ≤ p < 16384) l →
  pmm_wf (some_free_phys l) ∧ free_set (some_free_phys l) = list_to_set l ∧
  pmm_total_pages (some_free_phys l) = 16384 ∧ ph_mem (some_free_phys l) = ∅.
Proof.
  induction l as [|p l IH]; intros Hnd Hr; cbn [some_free_phys foldr list_to_set].
  - split_and!; [apply full_phys_wf|apply full_phys_empty|done..].
  - fold (some_free_phys l). apply NoDup_cons in Hnd as [Hp Hnd]. apply Forall_cons in Hr as [Hpr Hr].
    destruct (IH Hnd Hr) as (Hwf & Hf & Ht & Hm). split_and!; [| |exact Ht|exact Hm].
    + apply pmm_wf_put; [done| |]; [by rewrite Hf, elem_of_list_to_set|by rewrite first_page, Ht].
    + rewrite free_set_put, Hf; [done|apply Hwf|rewrite (bm_pages_wf _ Hwf); lia].
Qed.
Lemma one_free_wf : pmm_wf one_free_phys.
Proof.
  apply (pmm_wf_put full_phys 1024 full_phys_wf).
  - rewrite full_phys_empty. set_solver.
  - done.
Qed.
Lemma one_free_set : free_set one_free_phys = {[1024]}.
Proof.
  unfold one_free_phys. rewrite free_set_put.
  - rewrite full_phys_empty. set_solver.
  - apply full_phys_wf.
  - rewrite (bm_pages_wf _ full_phys_wf). lia.
Qed.

Lemma pmm_alloc_page_spec_witness :
  wp pmm_alloc_page one_free_phys (λ a s',
    pmm_wf s' ∧
    (a = 0 ↔ free_set one_free_phys = ∅) ∧
    (a = 0 → s' = one_free_phys) ∧
    (a ≠ 0 → ∃ p, a = p * PAGE_SIZE ∧ p ∈ free_set one_free_phys ∧
      (∀ q, q ∈ free_set one_free_phys → p ≤ q) ∧ free_set s' = free_set one_free_phys ∖ {[p]} ∧
      page_zero (ph_mem s') a ∧ same_outside (ph_mem one_free_phys) (ph_mem s') a PAGE_SIZE)).
Proof. exact (pmm_alloc_page_spec one_free_phys one_free_wf). Defined.

(** Page 1025 is in use: freeing it succeeds. *)
Lemma pmm_free_page_spec_witness :
  ∃ s', pmm_free_page (1025 * PAGE_SIZE) one_free_phys = Ret ((), s') ∧ pmm_wf s' ∧
    free_set s' = {[1025]} ∪ free_set one_free_phys ∧ ph_mem s' = ph_mem one_free_phys.
Proof.
  pose proof (pmm_free_page_spec one_free_phys (1025 * PAGE_SIZE) one_free_wf ltac:(unfold PAGE_SIZE; lia)) as H.
  revert H. change (1025 * PAGE_SIZE / PAGE_SIZE) with 1025. cbv zeta.
  change (negb _ || _)%bool with false. change (pmm_total_pages _ <=? _) with false.
  rewrite one_free_set. destruct (decide (1025 ∈ {[1024]})) as [E|E]; [|done].
  apply elem_of_singleton in E. exfalso. clear -E. lia.
Defined.

Lemma pmm_alloc_pages_spec_witness :
  wp (pmm_alloc_pages 1) one_free_phys (λ a s',
    pmm_wf s' ∧
    (a = 0 → s' = one_free_phys ∧ ∀ start, ¬ free_run one_free_phys 1 start) ∧
    (a ≠ 0 → ∃ start, a = start * PAGE_SIZE ∧ free_run one_free_phys 1 start ∧
       (∀ start', free_run one_free_phys 1 start' → start ≤ start') ∧
       free_set s' = free_set one_free_phys ∖ list_to_set (seqZ start 1) ∧
       (∀ i, 0 ≤ i < 1 → page_zero (ph_mem s') ((start + i) * PAGE_SIZE)) ∧
       same_outside (ph_mem one_free_phys) (ph_mem s') a (1 * PAGE_SIZE))).
Proof. apply (pmm_alloc_pages_spec one_free_phys 1 one_free_wf). lia. Defined.

(** (roundtrip): freeing the page [pmm_alloc_page] has just returned gives
    back the same free set and counter, so that the next allocation returns
    the same page. *)
Theorem pmm_alloc_free_roundtrip s (Hwf : pmm_wf s) (Hfree : free_set s ≠ ∅) :
  wp (a ← pmm_alloc_page; pmm_free_page a;; mret a) s (λ a s',
    pmm_wf s' ∧ free_set s' = free_set s ∧ pmm_free_count s' = pmm_free_count s ∧
    wp pmm_alloc_page s' (λ a' _, a' = a)).
Proof.
  wp_step. eapply wp_mono; [by apply pmm_alloc_page_wp|].
  intros a s1 (Hwf1&Ht&[(He&_)|(p&Hp&Hmin&->&Hf&_)]); [done|].
  pose proof (wf_free s Hwf p Hp) as Hr. pose proof (bm_pages_wf s1 Hwf1) as Hb.
  assert (Hnp : p ∉ free_set s1) by (rewrite Hf; set_solver).
  pose proof (free_page_range _ _ Hwf Hp).
  assert (Hr1 : PMM_START / PAGE_SIZE ≤ p < pmm_total_pages s1) by (rewrite Ht; done).
  wp_step. eapply wp_of_run; [by apply pmm_free_page_run|]. cbn beta. wp_go.
  set (s2 := set_free_count _ _). pose proof (pmm_wf_put s1 p Hwf1 Hnp Hr1) as Hwf2. fold s2 in Hwf2.
  assert (Hf2 : free_set s2 = free_set s).
  { transitivity ({[p]} ∪ free_set s1).
    - apply free_set_put; [apply Hwf1|lia].
    - rewrite Hf. apply set_eq. intros q. destruct (decide (q = p)) as [->|]; set_solver. }
  split_and!; [done|done| |].
  - by rewrite (wf_count _ Hwf2), (wf_count _ Hwf), Hf2.
  - eapply wp_mono; [by apply pmm_alloc_page_wp|].
    intros a' s3 (_&_&[(He&_)|(p'&Hp'&Hmin'&->&_)]); [by rewrite Hf2 in He|].
    rewrite Hf2 in Hp', Hmin'. specialize (Hmin' p Hp). specialize (Hmin p' Hp'). f_equal. lia.
Qed.

Lemma pmm_alloc_free_roundtrip_witness :
  wp (a ← pmm_alloc_page; pmm_free_page a;; mret a) one_free_phys (λ a s',
    pmm_wf s' ∧ free_set s' = free_set one_free_phys ∧
    pmm_free_count s' = pmm_free_count one_free_phys ∧
    wp pmm_alloc_page s' (λ a' _, a' = a)).
Proof.
  apply (pmm_alloc_free_roundtrip one_free_phys one_free_wf). rewrite one_free_set. set_solver.
Defined.

(** (error): the bitmap has one bit per page for 4 GiB, but the clamp in
    [pmm_init] is [BITMAP_SIZE * 32] pages (four times as many): with more
    than 4 GiB of memory the loop runs off the end of [pmm_bitmap]. *)
Theorem pmm_init_overrun s memory_size
  (Hlen : Z.of_nat (length (pmm_bitmap s)) = BITMAP_WORDS)
  (Hsize : 2 ^ 32 + PAGE_SIZE ≤ memory_size < 2 ^ 64) :
  pmm_init memory_size s = Ub.
Proof.
  unfold pmm_init. unfold mbind at 1, M_bind at 1, modify at 1. cbv beta iota.
  set (s1 := set_total _ s).
  destruct (wp_run (for_loop (Z.to_nat BITMAP_WORDS) 0 (λ i, bm_write i 0xFFFFFFFF)) s1
    (λ _ s', s' = set_bitmap (replicate (Z.to_nat BITMAP_WORDS) 0xFFFFFFFF) s1)) as ([]&s2&E&->).
  { apply fill_bitmap_wp; [exact Hlen|reflexivity]. }
  unfold mbind at 1, M_bind at 1. rewrite E. cbv beta iota. clear E.
  unfold mbind at 1, M_bind at 1, gets at 1. cbv beta iota zeta. cbn [pmm_total_pages set_bitmap s1 set_total].
  set (T := if _ <? _ then _ else _).
  assert (HT : 2 ^ 20 < T).
  { unfold T. case_if; [unfold BITMAP_SIZE; lia|]. unfold PAGE_SIZE in *. dlia. }
  clearbody T. unfold mbind at 1, M_bind at 1, modify at 1. cbv beta iota.
  set (s2 := set_free_count 0 _). rewrite first_page.
  replace (Z.to_nat (T - 1024)) with (Z.to_nat (2 ^ 20 - 1024) + S (Z.to_nat (T - 2 ^ 20 - 1)))%nat by lia.
  unfold mbind at 1, M_bind at 1. rewrite for_loop_app.
  destruct (wp_run (for_loop (Z.to_nat (2 ^ 20 - 1024)) 1024 (λ page, bitmap_clear page;;
        modify (λ s, set_free_count (u64 (pmm_free_count s + 1)) s))) s2
        (λ _ s', Z.of_nat (length (pmm_bitmap s')) = BITMAP_WORDS)) as ([]&s3&E&Hl3).
  { apply pmm_init_loop_wp.
    - cbn [s2 pmm_bitmap set_free_count set_bitmap]. rewrite length_replicate. apply bitmap_nat.
    - apply Forall_replicate. lia.
    - etrans; [|apply (free_set_full s)]. by apply free_set_bitmap.
    - reflexivity.
    - lia.
    - intros bm Hbl _ _. exact Hbl. }
  unfold mbind at 1, M_bind at 1. rewrite E. cbv beta iota. cbn [for_loop].
  unfold bitmap_clear, bm_read, mbind, M_bind, gets, lift_opt.
  rewrite arr_get_out; [done|]. rewrite Hl3, Z2Nat.id by lia.
  change ((1024 + (2 ^ 20 - 1024)) / 32) with BITMAP_WORDS. clear. lia.
Qed.

Lemma pmm_init_overrun_witness : pmm_init (5 * 2 ^ 30) boot_phys = Ub.
Proof.
  apply (pmm_init_overrun boot_phys (5 * 2 ^ 30)).
  - unfold boot_phys. cbn [pmm_bitmap]. rewrite length_replicate. exact bitmap_nat.
  - unfold PAGE_SIZE. lia.
Defined.

(** The bitmap allocator implements the page-allocator
    contract the virtual-memory code is proved against. *)
#[export] Program Instance Pmm_allocator : PageAllocator phys := {|
  pmm_alloc := pmm_alloc_page;
  pmm_free := pmm_free_page;
  pa_inv := pmm_wf;
  pa_managed s p := PMM_START / PAGE_SIZE ≤ p < pmm_total_pages s;
  pa_free := free_set;
|}.
Next Obligation. intros s p Hwf Hp. by apply (wf_free s Hwf). Qed.
Next Obligation. intros s p Hwf Hp. rewrite first_page in Hp. pose proof (wf_total s Hwf). lia. Qed.
Next Obligation. intros s Hwf. apply Hwf. Qed.
Next Obligation. intros s m Hwf Hm. split; [by apply pmm_wf_set_mem|done]. Qed.
Next Obligation.
  intros s Hwf. eapply wp_mono; [by apply pmm_alloc_page_wp|].
  intros a s' (Hwf'&Ht&Hcase). split_and!; [done|by rewrite Ht|].
  destruct Hcase as [(?&?&?)|(p&?&?&?&?&?&?)]; [by left|right; by exists p].
Qed.
Next Obligation.
  intros s p Hwf Hr Hp. eapply wp_of_run; [by apply pmm_free_page_run|].
  pose proof (bm_pages_wf s Hwf) as Hb. pose proof (wf_total s Hwf). rewrite first_page in Hr.
  split_and!; [|done| |done].
  - apply pmm_wf_put; [done..|by rewrite first_page].
  - apply free_set_put; [apply Hwf|lia].
Qed.
