(* ===== verification/Kmalloc.v ===== *)
(** * The kernel heap (src/mm/kmalloc.c)

    A first-fit allocator over the 16 MiB at [HEAP_START].  Each block starts
    with a 24-byte header in the heap itself ([size], [next], [free]); the
    blocks form a singly linked list in address order that tiles the heap.
    The operations below load and store the headers in memory, as the code
    does.  They are proved to refine operations on a list of blocks
    ([a_alloc], [a_free]), from which the properties of the heap follow:
    payloads are aligned, disjoint and inside the heap, freed neighbours are
    merged, [kfree] undoes [kmalloc]. *)
From S2P Require Import Prelude Mem.

Definition HEAP_START : Z := 0x2000000.
Definition HEAP_SIZE : Z := 0x1000000.
Definition HEAP_END : Z := HEAP_START + HEAP_SIZE.
Definition BLOCK_HEADER_SIZE : Z := 24.
Definition MIN_BLOCK_SIZE : Z := 16.

(** The static variables of the module, and memory. *)
Record kheap := KHeap {
  kh_mem : mem;
  kh_head : Z;
  heap_initialized : bool;
  total_allocated : Z;
  total_free : Z;
  allocation_count : Z;
}.

Definition set_kh_mem (m : mem) (s : kheap) : kheap :=
  KHeap m (kh_head s) (heap_initialized s) (total_allocated s) (total_free s) (allocation_count s).
Definition set_head (h : Z) (i : bool) (s : kheap) : kheap :=
  KHeap (kh_mem s) h i (total_allocated s) (total_free s) (allocation_count s).
Definition set_stats (a f c : Z) (s : kheap) : kheap :=
  KHeap (kh_mem s) (kh_head s) (heap_initialized s) a f c.

#[export] Program Instance kheap_mem : HasMem kheap :=
  {| get_mem := kh_mem; set_mem := set_kh_mem |}.
Solve Obligations with by intros; destruct s.

(** ** The header of a block: [size] at 0, [next] at 8, [free] at 16 *)
Definition get_size (b : Z) : M kheap Z := load64 b.
Definition get_next (b : Z) : M kheap Z := load64 (b + 8).
Definition get_free (b : Z) : M kheap bool := v ← load8 (b + 16); mret (negb (v =? 0)).
Definition put_size (b v : Z) : M kheap unit := store64 b v.
Definition put_next (b v : Z) : M kheap unit := store64 (b + 8) v.
Definition put_free (b : Z) (v : bool) : M kheap unit := store8 (b + 16) (if v then 1 else 0).

Definition init_heap : M kheap unit :=
  put_size HEAP_START (HEAP_SIZE - BLOCK_HEADER_SIZE);;
  put_next HEAP_START 0;;
  put_free HEAP_START true;;
  modify (set_head HEAP_START true).

(** No heap holds more headers than this, which bounds the list walks. *)
Definition HEAP_FUEL : nat := Z.to_nat (HEAP_SIZE / BLOCK_HEADER_SIZE + 1).

Fixpoint find_from (fuel : nat) (current size : Z) : M kheap Z :=
  match fuel with
  | O => out_of_fuel
  | S fuel' =>
      if current =? 0 then mret 0 else
      fr ← get_free current;
      sz ← get_size current;
      if fr && (size <=? sz) then mret current else
      next ← get_next current;
      find_from fuel' next size
  end.
Definition find_free_block (size : Z) : M kheap Z :=
  head ← gets kh_head; find_from HEAP_FUEL head size.

Definition split_block (block size : Z) : M kheap unit :=
  bsz ← get_size block;
  if u64 (size + BLOCK_HEADER_SIZE + MIN_BLOCK_SIZE) <=? bsz then
    let new_block := u64 (block + BLOCK_HEADER_SIZE + size) in
    put_size new_block (u64 (bsz - size - BLOCK_HEADER_SIZE));;
    put_free new_block true;;
    next ← get_next block;
    put_next new_block next;;
    put_size block size;;
    put_next block new_block
  else mret ().

Fixpoint coalesce_from (fuel : nat) (current : Z) : M kheap unit :=
  match fuel with
  | O => out_of_fuel
  | S fuel' =>
      if current =? 0 then mret () else
      next ← get_next current;
      if next =? 0 then mret () else
      fr ← get_free current;
      nfr ← get_free next;
      if fr && nfr then
        sz ← get_size current;
        nsz ← get_size next;
        put_size current (u64 (sz + (BLOCK_HEADER_SIZE + nsz)));;
        nnext ← get_next next;
        put_next current nnext;;
        coalesce_from fuel' current
      else coalesce_from fuel' next
  end.
Definition coalesce_free_blocks : M kheap unit :=
  head ← gets kh_head; coalesce_from HEAP_FUEL head.

Definition kmalloc (size : Z) : M kheap Z :=
  init ← gets heap_initialized;
  (if negb init then init_heap else mret ());;
  let size := mask_down 3 (u64 (size + 7)) in
  block ← find_free_block size;
  if block =? 0 then panic "kmalloc: Out of memory!" else
  split_block block size;;
  put_free block false;;
  bsz ← get_size block;
  modify (λ s, set_stats (u64 (total_allocated s + bsz)) (u64 (total_free s - bsz))
                         (u64 (allocation_count s + 1)) s);;
  mret (u64 (block + BLOCK_HEADER_SIZE)).

Definition kfree (ptr : Z) : M kheap unit :=
  if ptr =? 0 then mret () else
  let block := u64 (ptr - BLOCK_HEADER_SIZE) in
  if (block <? HEAP_START) || (HEAP_END <=? block) then panic "kfree: Invalid pointer!" else
  fr ← get_free block;
  if (fr : bool) then panic "kfree: Double free detected!" else
  put_free block true;;
  bsz ← get_size block;
  modify (λ s, set_stats (u64 (total_allocated s - bsz)) (u64 (total_free s + bsz))
                         (u64 (allocation_count s - 1)) s);;
  coalesce_free_blocks.

Definition kmalloc_stats : M kheap (Z * Z * Z) :=
  gets (λ s, (total_allocated s, total_free s, allocation_count s)).

Definition kzalloc (size : Z) : M kheap Z :=
  ptr ← kmalloc size;
  (if negb (ptr =? 0) then for_loop (Z.to_nat size) 0 (λ i, store8 (ptr + i) 0) else mret ());;
  mret ptr.

Definition krealloc (ptr new_size : Z) : M kheap Z :=
  if ptr =? 0 then kmalloc new_size else
  old_size ← get_size (u64 (ptr - BLOCK_HEADER_SIZE));
  if new_size <=? old_size then mret ptr else
  new_ptr ← kmalloc new_size;
  if new_ptr =? 0 then mret 0 else
  for_loop (Z.to_nat old_size) 0 (λ i, b ← load8 (ptr + i); store8 (new_ptr + i) b);;
  kfree ptr;;
  mret new_ptr.

(** ** The abstract heap: a list of blocks in address order *)

Record blk := Blk { bsize : Z; bfree : bool }.

Definition span (b : blk) : Z := BLOCK_HEADER_SIZE + bsize b.
(** The address just past the blocks [bs] laid out from [a]. *)
Definition end_of (a : Z) (bs : list blk) : Z := foldl (λ a b, a + span b) a bs.

(** First fit: the blocks before the one found, the block, the blocks after. *)
Fixpoint a_find (size : Z) (bs : list blk) : option (list blk * blk * list blk) :=
  match bs with
  | [] => None
  | b :: rest =>
      if bfree b && (size <=? bsize b) then Some ([], b, rest)
      else match a_find size rest with
           | Some (pre, c, post) => Some (b :: pre, c, post)
           | None => None
           end
  end.
(** The block as it is handed out, and the free remainder if there is one. *)
Definition a_split (size : Z) (b : blk) : list blk :=
  if size + BLOCK_HEADER_SIZE + MIN_BLOCK_SIZE <=? bsize b
  then [Blk size false; Blk (bsize b - size - BLOCK_HEADER_SIZE) true]
  else [Blk (bsize b) false].
(** The address of the block found, and the blocks afterwards. *)
Definition a_alloc (size : Z) (bs : list blk) : option (Z * list blk) :=
  match a_find size bs with
  | Some (pre, b, post) => Some (end_of HEAP_START pre, pre ++ a_split size b ++ post)
  | None => None
  end.

Fixpoint a_merge (cur : blk) (rest : list blk) : list blk :=
  match rest with
  | [] => [cur]
  | n :: rest' =>
      if bfree cur && bfree n
      then a_merge (Blk (bsize cur + (BLOCK_HEADER_SIZE + bsize n)) true) rest'
      else cur :: a_merge n rest'
  end.
Definition a_coalesce (bs : list blk) : list blk :=
  match bs with [] => [] | b :: rest => a_merge b rest end.

(** No two neighbours are both free. *)
Fixpoint coalesced (bs : list blk) : bool :=
  match bs with
  | b :: (c :: _) as rest => negb (bfree b && bfree c) && coalesced rest
  | _ => true
  end.

(** [kfree] on the list: mark the block whose payload is at [p], then merge. *)
Fixpoint a_mark (a p : Z) (bs : list blk) : list blk :=
  match bs with
  | [] => []
  | b :: rest =>
      (if a + BLOCK_HEADER_SIZE =? p then Blk (bsize b) true else b) :: a_mark (a + span b) p rest
  end.
Definition a_free (p : Z) (bs : list blk) : list blk := a_coalesce (a_mark HEAP_START p bs).

(** The payloads in use: address and size, in address order. *)
Fixpoint payloads (a : Z) (bs : list blk) : list (Z * Z) :=
  match bs with
  | [] => []
  | b :: rest =>
      (if bfree b then [] else [(a + BLOCK_HEADER_SIZE, bsize b)]) ++ payloads (a + span b) rest
  end.

(** ** Representation *)

Definition hdr (m : mem) (a : Z) (b : blk) (next : Z) : Prop :=
  a mod 8 = 0 ∧ ld m a = bsize b ∧ ld m (a + 8) = next ∧
  ld8 m (a + 16) = (if bfree b then 1 else 0) ∧ 0 ≤ bsize b ∧ bsize b mod 8 = 0.

(** The address the block before [bs] links to. *)
Definition nxt (a last : Z) (bs : list blk) : Z := match bs with [] => last | _ => a end.

(** Memory holds the blocks [bs] from [a] on; the last one links to [last]. *)
Fixpoint links (m : mem) (a : Z) (bs : list blk) (last : Z) : Prop :=
  match bs with
  | [] => True
  | b :: rest => hdr m a b (nxt (a + span b) last rest) ∧ links m (a + span b) rest last
  end.

Definition used_bytes (bs : list blk) : Z :=
  foldr (λ b n, (if bfree b then 0 else bsize b) + n) 0 bs.
Definition used_count (bs : list blk) : Z :=
  foldr (λ b n, (if bfree b then 0 else 1) + n) 0 bs.

(** The heap invariant: memory holds the block list [bs], which tiles the heap
    and has no two free neighbours, and the statistics describe it. *)
Record heap_inv (s : kheap) (bs : list blk) : Prop := {
  hi_init : heap_initialized s = true;
  hi_head : kh_head s = HEAP_START;
  hi_links : links (kh_mem s) HEAP_START bs 0;
  hi_end : end_of HEAP_START bs = HEAP_END;
  hi_coalesced : coalesced bs = true;
  hi_mem : mem_wf (kh_mem s);
  hi_alloc : total_allocated s = used_bytes bs;
  hi_free : total_free s = HEAP_SIZE - used_bytes bs;
  hi_count : allocation_count s = used_count bs;
}.

(** The state before the first allocation. *)
Definition heap_boot (s : kheap) : Prop :=
  heap_initialized s = false ∧ mem_wf (kh_mem s) ∧
  total_allocated s = 0 ∧ total_free s = HEAP_SIZE ∧ allocation_count s = 0.

Definition heap_start_blocks : list blk := [Blk (HEAP_SIZE - BLOCK_HEADER_SIZE) true].

(** Before the first allocation the heap counts as one free block. *)
Definition heap_at (s : kheap) (bs : list blk) : Prop :=
  heap_inv s bs ∨ (heap_boot s ∧ bs = heap_start_blocks).

(** The addresses of the headers. *)
Fixpoint starts (a : Z) (bs : list blk) : list Z :=
  match bs with [] => [] | b :: rest => a :: starts (a + span b) rest end.
(** Only [size] and [next] fields of the blocks [bs] differ. *)
Definition links_only (bs : list blk) (m m' : mem) : Prop :=
  ∀ x, x ∉ starts HEAP_START bs → x - 8 ∉ starts HEAP_START bs → ld m' x = ld m x.

(** The words outside the heap and those of the payloads [ps] are as before. *)
Definition heap_frame (ps : list (Z * Z)) (m m' : mem) : Prop :=
  (∀ x, ¬ (HEAP_START ≤ x < HEAP_END) → ld m' x = ld m x) ∧
  (∀ p n x, (p, n) ∈ ps → p ≤ x < p + n → ld m' x = ld m x).

(** [size] rounded up to a multiple of 8. *)
Definition round8 (size : Z) : Z := 8 * ((size + 7) / 8).

Definition blk_ok (b : blk) : Prop := 0 ≤ bsize b ∧ bsize b mod 8 = 0.
(** The [n] bytes at [p] do not meet the payload [x]. *)
Definition apart (p n : Z) (x : Z * Z) : Prop := p + n ≤ x.1 ∨ x.1 + x.2 ≤ p.

(** Two concrete heaps: at boot, and with one block of 104 bytes in use. *)
Definition boot_heap : kheap := KHeap ∅ 0 false 0 HEAP_SIZE 0.
Definition heap_104 : kheap :=
  KHeap (list_to_map [(HEAP_START, 104); (HEAP_START + 8, HEAP_START + 128); (HEAP_START + 16, 0);
                      (HEAP_START + 128, HEAP_SIZE - 152); (HEAP_START + 136, 0); (HEAP_START + 144, 1)])
    HEAP_START true 104 (HEAP_SIZE - 104) 1.

(** ** Lists of blocks *)

Lemma end_of_app a bs1 bs2 : end_of a (bs1 ++ bs2) = end_of (end_of a bs1) bs2.
Proof. apply foldl_app. Qed.
Lemma end_of_cons a b bs : end_of a (b :: bs) = end_of (a + span b) bs.
Proof. done. Qed.
Lemma used_bytes_cons b bs : used_bytes (b :: bs) = (if bfree b then 0 else bsize b) + used_bytes bs.
Proof. done. Qed.
Lemma used_count_cons b bs : used_count (b :: bs) = (if bfree b then 0 else 1) + used_count bs.
Proof. done. Qed.
Lemma end_of_bound a bs :
  Forall blk_ok bs → a + BLOCK_HEADER_SIZE * Z.of_nat (length bs) + used_bytes bs ≤ end_of a bs.
Proof.
  intros H. revert a. induction H as [|b bs [? ?] _ IH]; intros a.
  - cbn. lia.
  - rewrite end_of_cons. specialize (IH (a + span b)). rewrite length_cons, used_bytes_cons.
    unfold span, BLOCK_HEADER_SIZE in *. destruct (bfree b); lia.
Qed.
Lemma used_bytes_nonneg bs : Forall blk_ok bs → 0 ≤ used_bytes bs.
Proof. induction 1 as [|b bs [? ?] _ IH]; [done|]. rewrite used_bytes_cons. destruct (bfree b); lia. Qed.
Lemma used_count_bound bs : 0 ≤ used_count bs ≤ Z.of_nat (length bs).
Proof.
  induction bs as [|b bs IH]; [done|]. rewrite length_cons, used_count_cons.
  destruct (bfree b); lia.
Qed.
Lemma used_bytes_app bs1 bs2 : used_bytes (bs1 ++ bs2) = used_bytes bs1 + used_bytes bs2.
Proof. induction bs1 as [|b bs IH]; [done|]. cbn [app]. rewrite !used_bytes_cons. lia. Qed.
Lemma used_count_app bs1 bs2 : used_count (bs1 ++ bs2) = used_count bs1 + used_count bs2.
Proof. induction bs1 as [|b bs IH]; [done|]. cbn [app]. rewrite !used_count_cons. lia. Qed.
Lemma end_of_mod a bs : Forall blk_ok bs → a mod 8 = 0 → end_of a bs mod 8 = 0.
Proof.
  intros H. revert a. induction H as [|b bs [? ?] _ IH]; intros a Ha; [done|].
  rewrite end_of_cons. apply IH. unfold span, BLOCK_HEADER_SIZE. dlia.
Qed.

Lemma payloads_app a bs1 bs2 :
  payloads a (bs1 ++ bs2) = payloads a bs1 ++ payloads (end_of a bs1) bs2.
Proof.
  revert a. induction bs1 as [|b bs IH]; intros a; [done|].
  cbn [payloads app]. by rewrite IH, end_of_cons, app_assoc.
Qed.
Lemma payloads_elem a bs p n :
  (p, n) ∈ payloads a bs →
  ∃ pre post, bs = pre ++ Blk n false :: post ∧ p = end_of a pre + BLOCK_HEADER_SIZE.
Proof.
  revert a. induction bs as [|[sz fr] bs IH]; intros a H; [by apply elem_of_nil in H|].
  cbn in H. apply elem_of_app in H as [H|H].
  - destruct fr; [by apply elem_of_nil in H|]. apply list_elem_of_singleton in H.
    injection H as -> ->. by exists [], bs.
  - destruct (IH _ H) as (pre & post & -> & ->). by exists (Blk sz fr :: pre), post.
Qed.
(** The payloads lie one after the other between [a] and the end. *)
Lemma payloads_range a bs p n :
  Forall blk_ok bs → a mod 8 = 0 → (p, n) ∈ payloads a bs →
  a + BLOCK_HEADER_SIZE ≤ p ∧ p + n ≤ end_of a bs ∧ p mod 8 = 0 ∧ n mod 8 = 0 ∧ 0 ≤ n.
Proof.
  intros Hok Ha (pre & post & -> & ->)%payloads_elem.
  apply Forall_app in Hok as [Hpre [[Hn Hn8] Hpost]%Forall_cons].
  rewrite end_of_app, end_of_cons.
  pose proof (end_of_bound a pre Hpre). pose proof (used_bytes_nonneg _ Hpre).
  pose proof (end_of_bound (end_of a pre + span (Blk n false)) post Hpost).
  pose proof (used_bytes_nonneg _ Hpost). pose proof (end_of_mod a pre Hpre Ha).
  unfold span, BLOCK_HEADER_SIZE in *. cbn [bsize] in *. repeat split; (lia || dlia).
Qed.

(** ** First fit *)

Lemma a_find_some size bs pre b post :
  a_find size bs = Some (pre, b, post) →
  bs = pre ++ b :: post ∧ bfree b = true ∧ size ≤ bsize b.
Proof.
  revert pre. induction bs as [|c bs IH]; intros pre; [done|]. cbn [a_find]. case_if.
  - intros [= <- <- <-]. done.
  - destruct (a_find size bs) as [[[pre' b'] post']|]; [|done]. intros [= <- <- <-].
    destruct (IH pre' eq_refl) as (-> & ? & ?). done.
Qed.
Lemma a_find_none size bs b : a_find size bs = None → b ∈ bs → bfree b = true → bsize b < size.
Proof.
  induction bs as [|c bs IH]; intros Hf Hb Hfr; [by apply elem_of_nil in Hb|].
  cbn [a_find] in Hf. destruct (bfree c && (size <=? bsize c)) eqn:E; [done|].
  destruct (a_find size bs) as [[[? ?] ?]|]; [done|].
  apply elem_of_cons in Hb as [->|Hb]; [|by apply IH]. rewrite Hfr in E. cbn in E. lia.
Qed.
Lemma a_split_end size b a : end_of a (a_split size b) = a + span b.
Proof. unfold a_split. case_if; cbn; unfold span, BLOCK_HEADER_SIZE in *; cbn [bsize]; lia. Qed.

(** ** Merging *)

Lemma coalesced_cons2 b c l :
  coalesced (b :: c :: l) = (negb (bfree b && bfree c) && coalesced (c :: l))%bool.
Proof. done. Qed.

Lemma merge_step_payloads a b c rest :
  bfree b = true → bfree c = true →
  payloads a (Blk (bsize b + (BLOCK_HEADER_SIZE + bsize c)) true :: rest) = payloads a (b :: c :: rest).
Proof.
  intros Hb Hc. cbn [payloads bfree]. rewrite Hb, Hc. cbn [app]. f_equal.
  unfold span, BLOCK_HEADER_SIZE. cbn [bsize]. lia.
Qed.
Lemma a_merge_payloads a b rest : payloads a (a_merge b rest) = payloads a (b :: rest).
Proof.
  revert a b. induction rest as [|c rest IH]; intros a b; [done|]. cbn [a_merge]. case_if.
  - rewrite IH. by apply merge_step_payloads.
  - cbn [payloads]. by rewrite IH.
Qed.
Lemma a_merge_end a b rest : end_of a (a_merge b rest) = end_of a (b :: rest).
Proof.
  revert a b. induction rest as [|c rest IH]; intros a b; [done|]. cbn [a_merge]. case_if.
  - rewrite IH, !end_of_cons. f_equal. unfold span. cbn [bsize]. lia.
  - by rewrite end_of_cons, IH, end_of_cons.
Qed.
Lemma a_merge_used b rest :
  used_bytes (a_merge b rest) = used_bytes (b :: rest) ∧
  used_count (a_merge b rest) = used_count (b :: rest).
Proof.
  revert b. induction rest as [|c rest IH]; intros b; [done|]. cbn [a_merge].
  destruct (bfree b && bfree c) eqn:E.
  - destruct (IH (Blk (bsize b + (BLOCK_HEADER_SIZE + bsize c)) true)) as [-> ->].
    apply andb_prop in E as [Hb Hc].
    rewrite !used_bytes_cons, !used_count_cons. cbn [bfree]. by rewrite Hb, Hc.
  - rewrite used_bytes_cons, (used_bytes_cons b), used_count_cons, (used_count_cons b).
    destruct (IH c) as [-> ->]. done.
Qed.
Lemma a_merge_head b rest : ∃ c l, a_merge b rest = c :: l ∧ bfree c = bfree b.
Proof.
  revert b. induction rest as [|c rest IH]; intros b; cbn [a_merge]; [by eauto|]. case_if; [|by eauto].
  destruct (IH (Blk (bsize b + (BLOCK_HEADER_SIZE + bsize c)) true)) as (d & l & Hd & Hf).
  exists d, l. cbn [bfree] in Hf. by rewrite Hf.
Qed.
Lemma a_merge_coalesced b rest : coalesced (a_merge b rest) = true.
Proof.
  revert b. induction rest as [|c rest IH]; intros b; [done|]. cbn [a_merge].
  destruct (bfree b && bfree c) eqn:E; [apply IH|].
  destruct (a_merge_head c rest) as (d & l & Hd & Hf). specialize (IH c). rewrite Hd in *.
  by rewrite coalesced_cons2, Hf, E, IH.
Qed.
Lemma a_merge_id b rest : coalesced (b :: rest) = true → a_merge b rest = b :: rest.
Proof.
  revert b. induction rest as [|c rest IH]; intros b H; [done|]. cbn [a_merge].
  rewrite coalesced_cons2 in H. apply andb_prop in H as [H1 H2]. apply negb_true_iff in H1.
  rewrite H1. by rewrite IH.
Qed.
(** Merging after a coalesced prefix that ends in a used block (or nothing)
    leaves the prefix alone. *)
Lemma a_coalesce_app pre b b' rest :
  coalesced (pre ++ [b]) = true → bfree b' = bfree b →
  a_coalesce (pre ++ b' :: rest) = pre ++ a_merge b' rest.
Proof.
  intros H Hb. destruct pre as [|c pre]; [done|]. cbn [a_coalesce app] in *.
  revert c H. induction pre as [|d pre IH]; intros c H; cbn [app a_merge].
  - cbn [app coalesced] in H. rewrite andb_true_r in H. apply negb_true_iff in H.
    by rewrite Hb, H.
  - cbn [app] in H. change (negb (bfree c && bfree d) && coalesced (d :: pre ++ [b]) = true) in H.
    apply andb_prop in H as [H1 H2]. apply negb_true_iff in H1.
    rewrite H1. by rewrite IH.
Qed.

Lemma coalesced_app_l bs1 bs2 : coalesced (bs1 ++ bs2) = true → coalesced bs1 = true.
Proof.
  induction bs1 as [|b [|c bs] IH]; intros H; [done..|].
  change (negb (bfree b && bfree c) && coalesced ((c :: bs) ++ bs2) = true) in H.
  change (negb (bfree b && bfree c) && coalesced (c :: bs) = true).
  apply andb_prop in H as [-> H]. by rewrite IH.
Qed.
Lemma coalesced_app_r bs1 bs2 : coalesced (bs1 ++ bs2) = true → coalesced bs2 = true.
Proof.
  induction bs1 as [|b bs IH]; intros H; [done|]. apply IH. cbn [app] in H.
  destruct (bs ++ bs2) as [|c l]; [done|]. rewrite coalesced_cons2 in H. by apply andb_prop in H as [_ ?].
Qed.
(** Two coalesced lists that overlap in one block join. *)
Lemma coalesced_join pre b post :
  coalesced (pre ++ [b]) = true → coalesced (b :: post) = true → coalesced (pre ++ b :: post) = true.
Proof.
  intros H1 H2. induction pre as [|c [|d pre] IH]; [done| |].
  - cbn [app] in *. change (negb (bfree c && bfree b) && coalesced (b :: post) = true).
    cbn [coalesced] in H1. rewrite andb_true_r in H1. by rewrite H1, H2.
  - change (negb (bfree c && bfree d) && coalesced ((d :: pre) ++ [b]) = true) in H1.
    change (negb (bfree c && bfree d) && coalesced ((d :: pre) ++ b :: post) = true).
    apply andb_prop in H1 as [-> H1]. by rewrite IH.
Qed.
Lemma coalesced_snoc_used pre n : coalesced pre = true → coalesced (pre ++ [Blk n false]) = true.
Proof.
  induction pre as [|c [|d pre] IH]; intros H; [done| |].
  - cbn. by rewrite andb_false_r.
  - cbn [app]. rewrite coalesced_cons2 in *. apply andb_prop in H as [-> H]. by apply IH.
Qed.
(** Handing out a free block (or part of it) keeps the list coalesced. *)
Lemma a_split_coalesced size pre b post :
  bfree b = true → coalesced (pre ++ b :: post) = true →
  coalesced (pre ++ a_split size b ++ post) = true.
Proof.
  intros Hb H. apply coalesced_app_l in H as Hl.
  apply coalesced_app_r in H as Hr.
  unfold a_split. case_if; cbn [app]; apply coalesced_join; auto using coalesced_snoc_used.
  - destruct post as [|c post]; [done|]. rewrite !coalesced_cons2 in *. by rewrite Hb in Hr.
  - destruct post as [|c post]; [done|]. rewrite !coalesced_cons2 in *.
    by apply andb_prop in Hr as [_ ->].
Qed.

(** ** The blocks in memory *)

Ltac heap_unfold := unfold HEAP_END, HEAP_START, HEAP_SIZE, span, BLOCK_HEADER_SIZE, MIN_BLOCK_SIZE in *.

Lemma nxt_app a last bs1 bs2 : nxt a last (bs1 ++ bs2) = nxt a (nxt a last bs2) bs1.
Proof. by destruct bs1. Qed.
Lemma nxt_cons a last b bs : nxt a last (b :: bs) = a.
Proof. done. Qed.

Lemma links_app m a bs1 bs2 last :
  links m a (bs1 ++ bs2) last ↔
  links m a bs1 (nxt (end_of a bs1) last bs2) ∧ links m (end_of a bs1) bs2 last.
Proof.
  revert a. induction bs1 as [|b bs IH]; intros a; cbn [links app]; [by split; [|intros [_ ?]]|].
  rewrite IH, end_of_cons. destruct bs as [|c bs]; cbn [app nxt]; tauto.
Qed.
Lemma links_ok m a bs last : links m a bs last → Forall blk_ok bs.
Proof.
  revert a. induction bs as [|b bs IH]; intros a; cbn [links]; [done|].
  intros [(_ & _ & _ & _ & ? & ?) Hl]. constructor; [done|by eapply IH].
Qed.
Lemma hdr_frame m m' a b next :
  (∀ x, a ≤ x < a + BLOCK_HEADER_SIZE → ld m' x = ld m x) → hdr m a b next → hdr m' a b next.
Proof.
  unfold BLOCK_HEADER_SIZE. intros Hm (Ha & H1 & H2 & H3 & H4).
  split; [done|]. rewrite !Hm by lia. rewrite (ld8_word m) by (apply Hm; dlia). done.
Qed.
Lemma links_frame m m' a bs last :
  (∀ x, a ≤ x < end_of a bs → ld m' x = ld m x) → links m a bs last → links m' a bs last.
Proof.
  revert a. induction bs as [|b bs IH]; intros a Hm H; cbn [links] in *; [done|].
  destruct H as [Hh Hl]. pose proof (links_ok _ _ _ _ Hl) as Hok.
  pose proof (end_of_bound (a + span b) bs Hok). pose proof (used_bytes_nonneg _ Hok).
  assert (0 ≤ bsize b) by apply Hh. rewrite end_of_cons in Hm. heap_unfold.
  split.
  - eapply hdr_frame; [|done]. intros x Hx. apply Hm. unfold BLOCK_HEADER_SIZE in Hx. lia.
  - apply IH; [|done]. intros x Hx. apply Hm. lia.
Qed.

(** Replacing the blocks [old] by the blocks [mid] that fill the same bytes. *)
Lemma links_replace m m' a pre old mid post :
  links m a (pre ++ old ++ post) 0 → old ≠ [] → mid ≠ [] →
  let A := end_of a pre in
  end_of A mid = end_of A old →
  same_outside m m' A (end_of A old - A) →
  links m' A mid (nxt (end_of A old) 0 post) →
  links m' a (pre ++ mid ++ post) 0.
Proof.
  intros H Hold Hmid A Hend Hm Hl. apply links_app in H as [Hpre H]. fold A in H, Hpre.
  apply links_app in H as [Ho Hpost].
  pose proof (end_of_bound a pre (links_ok _ _ _ _ Hpre)) as B1.
  pose proof (end_of_bound A old (links_ok _ _ _ _ Ho)) as B2.
  pose proof (used_bytes_nonneg _ (links_ok _ _ _ _ Ho)).
  apply links_app. fold A. rewrite nxt_app, links_app, Hend. split; [|split; [done|]].
  - destruct mid as [|c mid]; [done|]. destruct old as [|o old]; [done|].
    eapply links_frame; [|done]. intros x Hx. apply Hm. fold A in Hx. lia.
  - eapply links_frame; [|done]. intros x Hx. apply Hm. unfold BLOCK_HEADER_SIZE in *. lia.
Qed.

Lemma links_fuel s bs : heap_inv s bs → (length bs < HEAP_FUEL)%nat.
Proof.
  intros Hi. pose proof (links_ok _ _ _ _ (hi_links _ _ Hi)) as Hok.
  pose proof (end_of_bound HEAP_START bs Hok) as H. pose proof (used_bytes_nonneg _ Hok).
  rewrite (hi_end _ _ Hi) in H. unfold HEAP_FUEL. apply Nat2Z.inj_lt.
  rewrite Z2Nat.id by (clear; heap_unfold; dlia). clear Hi Hok. heap_unfold. dlia.
Qed.
Lemma heap_used_bound s bs : heap_inv s bs → 0 ≤ used_bytes bs ≤ HEAP_SIZE.
Proof.
  intros Hi. pose proof (links_ok _ _ _ _ (hi_links _ _ Hi)) as Hok.
  pose proof (end_of_bound HEAP_START bs Hok) as H. pose proof (used_bytes_nonneg _ Hok).
  rewrite (hi_end _ _ Hi) in H. clear Hi Hok. heap_unfold. lia.
Qed.

(** ** The operations on memory *)

Section headers.
Context (s : kheap) (a next : Z) (b : blk) (Hh : hdr (kh_mem s) a b next).

Lemma wp_get_size (Q : Z → kheap → Prop) : Q (bsize b) s → wp (get_size a) s Q.
Proof using Hh. destruct Hh as (? & Hs & _). intros. apply wp_load64; [done|]. cbn. by rewrite Hs. Qed.
Lemma wp_get_next (Q : Z → kheap → Prop) : Q next s → wp (get_next a) s Q.
Proof using Hh.
  destruct Hh as (? & _ & Hn & _). intros. apply wp_load64; [dlia|]. cbn. by rewrite Hn.
Qed.
Lemma wp_get_free (Q : bool → kheap → Prop) : Q (bfree b) s → wp (get_free a) s Q.
Proof using Hh.
  destruct Hh as (? & _ & _ & Hf & _). intros. apply wp_bind, wp_load8. cbn. rewrite Hf.
  apply wp_ret. by destruct (bfree b).
Qed.
End headers.

Lemma wp_put_size m s a v Q :
  a mod 8 = 0 → Q () (set_kh_mem (st m a v) s) → wp (put_size a v) (set_kh_mem m s) Q.
Proof. intros. by apply wp_store64. Qed.
Lemma wp_put_next m s a v Q :
  a mod 8 = 0 → Q () (set_kh_mem (st m (a + 8) v) s) → wp (put_next a v) (set_kh_mem m s) Q.
Proof. intros. apply wp_store64; [dlia|done]. Qed.
Lemma wp_put_free m s a v Q :
  Q () (set_kh_mem (st8 m (a + 16) (if (v : bool) then 1 else 0)) s) →
  wp (put_free a v) (set_kh_mem m s) Q.
Proof. intros. by apply wp_store8. Qed.
Lemma wp_read_next m s a Q :
  a mod 8 = 0 → Q (ld m (a + 8)) (set_kh_mem m s) → wp (get_next a) (set_kh_mem m s) Q.
Proof. intros. apply wp_load64; [dlia|done]. Qed.
Lemma kheap_eta s : s = set_kh_mem (kh_mem s) s.
Proof. by destruct s. Qed.

Lemma find_from_spec fuel size bs a s :
  links (kh_mem s) a bs 0 → 0 < a → (length bs < fuel)%nat →
  wp (find_from fuel (nxt a 0 bs) size) s (λ v s',
    v = match a_find size bs with Some (pre, _, _) => end_of a pre | None => 0 end ∧ s' = s).
Proof.
  revert a bs. induction fuel as [|fuel IH]; intros a bs Hl Ha Hfuel; [lia|].
  destruct bs as [|b bs]; cbn [find_from nxt a_find]; [by apply wp_ret|].
  rewrite (proj2 (Z.eqb_neq a 0)) by lia. cbn [links] in Hl. destruct Hl as [Hh Hl].
  apply wp_bind. eapply wp_get_free; [done|]. apply wp_bind. eapply wp_get_size; [done|].
  destruct (bfree b && (size <=? bsize b)) eqn:E; [by apply wp_ret|].
  apply wp_bind. eapply wp_get_next; [done|].
  assert (0 ≤ bsize b) by apply Hh.
  eapply wp_mono; [apply IH; [done|unfold span, BLOCK_HEADER_SIZE; lia|cbn in Hfuel; lia]|].
  intros v s' [-> ->]. by destruct (a_find size bs) as [[[pre c] post]|].
Qed.

Ltac mem_simp :=
  repeat first
    [ rewrite ld_st_same | rewrite ld_st_other by lia | rewrite ld_st8_word by (lia || dlia)
    | rewrite ld8_st8_same by auto 10 with os | rewrite ld8_st8_other by (auto 10 with os; lia)
    | rewrite ld8_st_word by (lia || dlia) ].

(** Handing out the block at [A]: memory changes only inside the block, and
    then holds the split blocks. *)
Lemma wp_take s A b next size :
  hdr (kh_mem s) A b next → mem_wf (kh_mem s) →
  HEAP_START ≤ A → A + span b ≤ HEAP_END → 0 ≤ next < 2 ^ 64 →
  0 ≤ size ≤ bsize b → size mod 8 = 0 →
  wp (split_block A size ≫= λ _, put_free A false) s (λ _ s', ∃ m',
    s' = set_kh_mem m' s ∧ mem_wf m' ∧ same_outside (kh_mem s) m' A (span b) ∧
    links m' A (a_split size b) next).
Proof.
  intros Hh Hwf HA1 HA2 Hn Hsz Hsz8. pose proof Hh as (Ha & Hs & Hx & Hf & Hb & Hb8).
  apply wp_bind. unfold split_block, a_split. apply wp_bind. eapply wp_get_size; [done|].
  heap_unfold. rewrite (u64_id (size + 24 + 16)) by lia.
  rewrite (kheap_eta s) at 1. case_if.
  - rewrite (u64_id (A + 24 + size)), (u64_id (bsize b - size - 24)) by lia.
    apply wp_bind, wp_put_size; [dlia|]. apply wp_bind, wp_put_free. apply wp_bind.
    apply wp_read_next; [done|]. apply wp_bind, wp_put_next; [dlia|].
    apply wp_bind, wp_put_size; [done|]. apply wp_put_next; [done|]. apply wp_put_free.
    eexists. split; [reflexivity|]. split; [auto 10 with os|]. split.
    + intros x Hx'. mem_simp. done.
    + cbn [links nxt]. unfold hdr, span, BLOCK_HEADER_SIZE. cbn [bsize bfree].
      replace (A + (24 + size)) with (A + 24 + size) by lia.
      repeat split; try dlia; mem_simp; rewrite ?Hx, ?u64_id by lia; done.
  - apply wp_ret, wp_put_free. eexists. split; [reflexivity|]. split; [auto with os|]. split.
    + intros x Hx'. mem_simp. done.
    + cbn [links nxt]. unfold hdr. cbn [bsize bfree]. repeat split; try done; mem_simp; done.
Qed.

Lemma HEAP_START_mod : HEAP_START mod 8 = 0.
Proof. done. Qed.
#[local] Hint Resolve HEAP_START_mod : os.

(** Where the block after [pre] lies. *)
Lemma block_place m pre b post :
  links m HEAP_START (pre ++ b :: post) 0 → end_of HEAP_START (pre ++ b :: post) = HEAP_END →
  let A := end_of HEAP_START pre in
  Forall blk_ok pre ∧ Forall blk_ok post ∧ hdr m A b (nxt (A + span b) 0 post) ∧
  HEAP_START ≤ A ∧ A + span b ≤ HEAP_END ∧ end_of (A + span b) post = HEAP_END.
Proof.
  intros Hl He A. rewrite end_of_app, end_of_cons in He.
  apply links_app in Hl as [Hpre [Hb Hpost]]. fold A in Hpre, Hb, Hpost, He.
  apply links_ok in Hpre. apply links_ok in Hpost.
  pose proof (end_of_bound HEAP_START pre Hpre). pose proof (used_bytes_nonneg _ Hpre).
  pose proof (end_of_bound (A + span b) post Hpost). pose proof (used_bytes_nonneg _ Hpost).
  unfold BLOCK_HEADER_SIZE in *. split_and!; [done..| |lia|done]. fold A in H. lia.
Qed.

(** Stores inside a free block do not touch a payload. *)
Lemma frame_free_block m m' pre b post :
  links m HEAP_START (pre ++ b :: post) 0 → end_of HEAP_START (pre ++ b :: post) = HEAP_END →
  bfree b = true → same_outside m m' (end_of HEAP_START pre) (span b) →
  heap_frame (payloads HEAP_START (pre ++ b :: post)) m m'.
Proof.
  intros Hl He Hb Hm. destruct (block_place m pre b post Hl He) as (Hpre & Hpost & Hh & HA & HB & HE).
  split; [intros x Hx; apply Hm; lia|]. intros p n x Hp Hx. apply Hm.
  rewrite payloads_app in Hp. cbn [payloads] in Hp. rewrite Hb in Hp. cbn [app] in Hp.
  apply elem_of_app in Hp as [Hp|Hp]; apply payloads_range in Hp; try done.
  - unfold BLOCK_HEADER_SIZE in *. lia.
  - unfold BLOCK_HEADER_SIZE in *. lia.
  - rewrite <- HEAP_START_mod. destruct Hh as (HA8 & _ & _ & _ & _ & Hb8).
    unfold span, BLOCK_HEADER_SIZE. change (HEAP_START mod 8) with 0. dlia.
Qed.

Lemma a_split_used size b :
  bfree b = true → ∃ n, size ≤ bsize b → size ≤ n ≤ bsize b ∧
    used_bytes (a_split size b) = n ∧ used_count (a_split size b) = 1 ∧
    (∀ a, payloads a (a_split size b) = [(a + BLOCK_HEADER_SIZE, n)]) ∧
    ∃ rest, a_split size b = Blk n false :: rest.
Proof.
  intros Hb. unfold a_split. case_if; unfold BLOCK_HEADER_SIZE, MIN_BLOCK_SIZE in *.
  - exists size. intros. split_and!; [lia|lia|cbn; lia|done|done|]. by eexists.
  - exists (bsize b). intros. split_and!; [lia|lia|cbn; lia|done|done|]. by eexists.
Qed.

Lemma round8_spec size : 0 ≤ size ≤ 2 ^ 64 - 8 → mask_down 3 (u64 (size + 7)) = round8 size.
Proof.
  intros. rewrite u64_id by lia. rewrite mask_down_spec by lia. unfold round8.
  change (2 ^ 3) with 8. dlia.
Qed.

(** [kmalloc] once the heap is initialised and the size is rounded. *)
Lemma kmalloc_found s bs size pre b post :
  heap_inv s bs → 0 ≤ size → size mod 8 = 0 → a_find size bs = Some (pre, b, post) →
  let A := end_of HEAP_START pre in
  wp (split_block A size ≫= λ _, put_free A false) s (λ _ s',
    ∃ m', s' = set_kh_mem m' s ∧ mem_wf m' ∧
      links m' HEAP_START (pre ++ a_split size b ++ post) 0 ∧
      heap_frame (payloads HEAP_START bs) (kh_mem s) m').
Proof.
  intros Hi Hsz Hsz8 Hfind A. apply a_find_some in Hfind as (-> & Hb & Hle).
  pose proof (hi_links _ _ Hi) as Hl. pose proof (hi_end _ _ Hi) as He.
  destruct (block_place _ pre b post Hl He) as (Hpre & Hpost & Hh & HA & HB & HE). fold A in Hh, HA, HB.
  assert (0 ≤ bsize b) by apply Hh.
  eapply wp_mono; [eapply wp_take; try done; [apply Hi|]|].
  - destruct post; cbn [nxt]; [lia|]. heap_unfold. lia.
  - intros _ s' (m' & -> & Hwf & Hout & Hl'). exists m'. split_and!; [done..| |].
    + apply (links_replace (kh_mem s) m' HEAP_START pre [b]); fold A; try done.
      * unfold a_split. by case_if.
      * by rewrite a_split_end.
      * change (end_of A [b]) with (A + span b). by replace (A + span b - A) with (span b) by lia.
    + by eapply frame_free_block.
Qed.

Lemma init_heap_ok s :
  heap_boot s → wp init_heap s (λ _ s', heap_inv s' heap_start_blocks ∧
    ∀ x, ¬ (HEAP_START ≤ x < HEAP_END) → ld (kh_mem s') x = ld (kh_mem s) x).
Proof.
  intros (_ & Hwf & Ha & Hf & Hc). unfold init_heap. rewrite (kheap_eta s) at 1.
  apply wp_bind, wp_put_size; [done|]. apply wp_bind, wp_put_next; [done|].
  apply wp_bind, wp_put_free, wp_modify. split.
  - split; cbn [set_head set_kh_mem kh_mem kh_head heap_initialized total_allocated total_free
      allocation_count]; try done; [|auto 10 with os].
    cbn [links heap_start_blocks nxt]. unfold hdr. cbn [bsize bfree]. heap_unfold.
    repeat split; try done; mem_simp; done.
  - intros x Hx. cbn [set_head set_kh_mem kh_mem]. heap_unfold. mem_simp. done.
Qed.

Lemma hdr_of_links m pre b post : links m HEAP_START (pre ++ b :: post) 0 →
  hdr m (end_of HEAP_START pre) b (nxt (end_of HEAP_START pre + span b) 0 post).
Proof. intros H. by apply links_app in H as [_ [? _]]. Qed.

(** From the block found to the pointer returned. *)
Lemma kmalloc_finish s bs size pre b post :
  heap_inv s bs → 0 ≤ size → size mod 8 = 0 → a_find size bs = Some (pre, b, post) →
  let A := end_of HEAP_START pre in
  wp (split_block A size;;
      put_free A false;;
      bsz ← get_size A;
      modify (λ s, set_stats (u64 (total_allocated s + bsz)) (u64 (total_free s - bsz))
                             (u64 (allocation_count s + 1)) s);;
      mret (u64 (A + BLOCK_HEADER_SIZE))) s
    (λ p s', p = A + BLOCK_HEADER_SIZE ∧ heap_inv s' (pre ++ a_split size b ++ post) ∧
        heap_frame (payloads HEAP_START bs) (kh_mem s) (kh_mem s')).
Proof.
  intros Hi Hsz Hsz8 Hfind A. pose proof (kmalloc_found s bs size pre b post Hi Hsz Hsz8 Hfind) as Hrun.
  apply a_find_some in Hfind as (-> & Hb & Hle).
  apply wp_bind_inv in Hrun. apply wp_bind. eapply wp_mono; [exact Hrun|]. clear Hrun.
  intros [] s1 Hrun. apply wp_bind. eapply wp_mono; [exact Hrun|]. clear Hrun.
  intros [] s2 (m' & -> & Hwf & Hl & Hfr).
  destruct (a_split_used size b Hb) as (n & Hsp). destruct (Hsp Hle) as (Hn & Hub & Huc & _ & rest & Hrest).
  apply wp_bind. eapply wp_get_size.
  { rewrite Hrest in Hl. cbn [app] in Hl. apply (hdr_of_links m' pre _ _ Hl). }
  cbn [bsize]. apply wp_bind, wp_modify, wp_ret.
  destruct (block_place _ pre b post (hi_links _ _ Hi) (hi_end _ _ Hi)) as (Hpre & Hpost & Hh & HA & HB & HE).
  assert (0 ≤ bsize b) by apply Hh. fold A in HA, HB.
  pose proof (heap_used_bound _ _ Hi) as Hused. pose proof (links_fuel _ _ Hi) as Hfuel.
  pose proof (used_count_bound (pre ++ b :: post)) as Hcnt.
  rewrite u64_id by (clear Hfuel; heap_unfold; lia). split; [done|]. split; [|done].
  assert (Hlen : Z.of_nat (length (pre ++ b :: post)) < 2 ^ 63).
  { apply inj_lt in Hfuel. unfold HEAP_FUEL in Hfuel. rewrite Z2Nat.id in Hfuel by (clear; heap_unfold; dlia).
    clear -Hfuel. heap_unfold. change ((16777216 / 24) + 1) with 699051 in Hfuel. lia. }
  clear Hfuel. pose proof (used_bytes_app pre (b :: post)) as E1. pose proof (used_count_app pre (b :: post)) as E2.
  rewrite used_bytes_cons, Hb in E1. rewrite used_count_cons, Hb in E2.
  pose proof (end_of_bound HEAP_START pre Hpre) as B1. fold A in B1.
  pose proof (end_of_bound (A + span b) post Hpost) as B2. fold A in HE. rewrite HE in B2.
  assert (Hroom : used_bytes pre + bsize b + used_bytes post ≤ HEAP_SIZE) by (clear Hh HE; heap_unfold; lia).
  pose proof (used_bytes_nonneg _ Hpre). pose proof (used_bytes_nonneg _ Hpost).
  split; cbn [set_stats set_kh_mem kh_mem kh_head heap_initialized total_allocated total_free allocation_count].
  - apply Hi.
  - apply Hi.
  - done.
  - rewrite !end_of_app, a_split_end, <- end_of_cons, <- end_of_app. apply Hi.
  - apply a_split_coalesced; [done|apply Hi].
  - done.
  - rewrite (hi_alloc _ _ Hi), E1, !used_bytes_app, Hub, u64_id; unfold HEAP_SIZE in *; lia.
  - rewrite (hi_free _ _ Hi), E1, !used_bytes_app, Hub, u64_id; unfold HEAP_SIZE in *; lia.
  - rewrite (hi_count _ _ Hi), E2, !used_count_app, Huc, u64_id; lia.
Qed.

(** [kmalloc] implements first fit on the block list. *)
Lemma kmalloc_run s bs size :
  heap_inv s bs → 0 ≤ size ≤ 2 ^ 64 - 8 →
  match a_alloc (round8 size) bs with
  | Some (A, bs') =>
      wp (kmalloc size) s (λ p s', p = A + BLOCK_HEADER_SIZE ∧ heap_inv s' bs' ∧
        heap_frame (payloads HEAP_START bs) (kh_mem s) (kh_mem s'))
  | None => kmalloc size s = Panic "kmalloc: Out of memory!"
  end.
Proof.
  intros Hi Hsz. unfold a_alloc.
  assert (0 ≤ round8 size ∧ round8 size mod 8 = 0) as [Hr Hr8] by (unfold round8; dlia).
  assert (Hrun : wp (find_free_block (round8 size)) s (λ v s', v =
    match a_find (round8 size) bs with Some (pre, _, _) => end_of HEAP_START pre | None => 0 end
    ∧ s' = s)).
  { pose proof (links_fuel s bs Hi) as Hfuel. unfold find_free_block. revert Hfuel.
    generalize HEAP_FUEL. intros fuel Hfuel. apply wp_bind, wp_gets. rewrite (hi_head _ _ Hi).
    assert (Hne : bs ≠ []). { intros ->. by pose proof (hi_end _ _ Hi). }
    replace HEAP_START with (nxt HEAP_START 0 bs) at 1 by by destruct bs.
    apply find_from_spec; [apply Hi|done|done]. }
  apply wp_run in Hrun as (v & s' & Hrun & -> & ->).
  destruct (a_find (round8 size) bs) as [[[pre b] post]|] eqn:Hfind.
  - apply wp_bind, wp_gets. rewrite (hi_init _ _ Hi). cbn [negb]. apply wp_bind, wp_ret.
    cbv zeta. rewrite round8_spec by done. apply wp_bind. eapply wp_of_run; [exact Hrun|].
    assert (HEAP_START ≤ end_of HEAP_START pre).
    { pose proof (a_find_some _ _ _ _ _ Hfind) as (-> & _).
      by destruct (block_place _ pre b post (hi_links _ _ Hi) (hi_end _ _ Hi)) as (_ & _ & _ & ? & _). }
    rewrite (proj2 (Z.eqb_neq _ 0)) by (unfold HEAP_START in *; lia).
    by apply kmalloc_finish.
  - unfold kmalloc. erewrite run_bind by reflexivity. rewrite (hi_init _ _ Hi). cbn [negb].
    erewrite run_bind by reflexivity. cbv zeta. rewrite round8_spec by done.
    by erewrite run_bind by exact Hrun.
Qed.

Lemma heap_frame_refl ps m : heap_frame ps m m.
Proof. by split. Qed.
Lemma heap_frame_trans ps m1 m2 m3 :
  heap_frame ps m1 m2 → heap_frame ps m2 m3 → heap_frame ps m1 m3.
Proof.
  intros [A1 B1] [A2 B2]. split.
  - intros x Hx. by rewrite A2, A1.
  - intros p n x Hp Hx. by rewrite (B2 _ _ _ Hp Hx), (B1 _ _ _ Hp Hx).
Qed.

(** Merging the block at [A] with the next one: two stores in its header. *)
Lemma merge_step_links m pre b c rest :
  let A := end_of HEAP_START pre in
  let m' := st (st m A (u64 (bsize b + (BLOCK_HEADER_SIZE + bsize c)))) (A + 8)
              (nxt (A + span b + span c) 0 rest) in
  links m HEAP_START (pre ++ b :: c :: rest) 0 →
  end_of HEAP_START (pre ++ b :: c :: rest) = HEAP_END →
  bfree b = true →
  links m' HEAP_START (pre ++ Blk (bsize b + (BLOCK_HEADER_SIZE + bsize c)) true :: rest) 0 ∧
  end_of HEAP_START (pre ++ Blk (bsize b + (BLOCK_HEADER_SIZE + bsize c)) true :: rest) = HEAP_END ∧
  same_outside m m' A (span b).
Proof.
  intros A m' Hl He Hb.
  destruct (block_place _ pre b _ Hl He) as (Hpre & Hok & Hh & HA & HB & HE). fold A in Hh, HA, HB, HE.
  apply Forall_cons in Hok as [[Hc Hc8] Hok]. rewrite end_of_cons in HE.
  pose proof (end_of_bound (A + span b + span c) rest Hok) as B. rewrite HE in B.
  pose proof (used_bytes_nonneg _ Hok). destruct Hh as (HA8 & H1 & H2 & H3 & H4 & H5).
  assert (Hout : same_outside m m' A (span b)).
  { intros x Hx. unfold m'. heap_unfold. rewrite !ld_st_other by lia. done. }
  split; [|split; [|done]].
  - apply (links_replace m m' HEAP_START pre [b; c] [_] rest); fold A; try done.
    + cbn. unfold span. cbn [bsize]. lia.
    + intros x Hx. apply Hout. cbn in Hx. heap_unfold. lia.
    + cbn [links nxt end_of foldl]. split; [|done]. unfold hdr, m'. cbn [bsize bfree].
      heap_unfold. rewrite Hb in H3. split_and!; try (lia || dlia); mem_simp; try done.
      * rewrite (u64_id (bsize b + _)) by lia. apply u64_id. lia.
      * rewrite u64_id; [done|]. destruct rest; cbn [nxt]; lia.
  - rewrite end_of_app in *. fold A in He |- *. rewrite !end_of_cons in *. rewrite <- He. f_equal.
    unfold span. cbn [bsize]. lia.
Qed.

Lemma starts_app a bs1 bs2 : starts a (bs1 ++ bs2) = starts a bs1 ++ starts (end_of a bs1) bs2.
Proof.
  revert a. induction bs1 as [|b bs IH]; intros a; [done|]. cbn [starts app]. by rewrite IH.
Qed.
Lemma starts_range a bs x :
  Forall blk_ok bs → x ∈ starts a bs → a ≤ x ∧ x + BLOCK_HEADER_SIZE ≤ end_of a bs.
Proof.
  intros Hok. revert a. induction Hok as [|b bs [Hb _] Hok IH]; intros a Hx; [by apply elem_of_nil in Hx|].
  cbn [starts] in Hx. rewrite end_of_cons. pose proof (end_of_bound (a + span b) bs Hok).
  pose proof (used_bytes_nonneg _ Hok). unfold span, BLOCK_HEADER_SIZE in *.
  apply elem_of_cons in Hx as [->|Hx]; [lia|]. apply IH in Hx. lia.
Qed.
(** The headers lie apart: near the header after [pre] there is no other. *)
Lemma starts_apart pre b post x :
  Forall blk_ok (pre ++ b :: post) → x ∈ starts HEAP_START (pre ++ b :: post) →
  let A := end_of HEAP_START pre in
  x = A ∨ x + BLOCK_HEADER_SIZE ≤ A ∨ A + span b ≤ x.
Proof.
  intros Hok Hx A. apply Forall_app in Hok as [Hpre [Hb Hpost]%Forall_cons].
  rewrite starts_app in Hx. fold A in Hx. cbn [starts] in Hx.
  apply elem_of_app in Hx as [Hx|[->|Hx]%elem_of_cons]; [|by left|]; apply starts_range in Hx; try done.
  - fold A in Hx. lia.
  - lia.
Qed.
Lemma links_only_trans bs bs' m1 m2 m3 :
  (∀ x, x ∈ starts HEAP_START bs' → x ∈ starts HEAP_START bs) →
  links_only bs m1 m2 → links_only bs' m2 m3 → links_only bs m1 m3.
Proof. intros Hsub H1 H2 x Hx1 Hx2. rewrite H2 by auto. by apply H1. Qed.
Lemma links_only_frame bs m m' :
  Forall blk_ok bs → end_of HEAP_START bs = HEAP_END →
  links_only bs m m' → heap_frame (payloads HEAP_START bs) m m'.
Proof.
  intros Hok He H. split.
  - intros x Hx. apply H; intros Hin; apply starts_range in Hin; try done; heap_unfold; lia.
  - intros p n x (pre & post & -> & ->)%payloads_elem Hx.
    apply H; intros Hin; apply starts_apart in Hin; try done;
      unfold span, BLOCK_HEADER_SIZE in *; cbn [bsize] in *; lia.
Qed.

Lemma merge_starts pre b c n rest x :
  n = bsize b + (BLOCK_HEADER_SIZE + bsize c) →
  x ∈ starts HEAP_START (pre ++ Blk n true :: rest) → x ∈ starts HEAP_START (pre ++ b :: c :: rest).
Proof.
  intros ->. rewrite !starts_app, !elem_of_app. cbn [starts]. rewrite !elem_of_cons.
  unfold span at 1. cbn [bsize].
  replace (end_of HEAP_START pre + (BLOCK_HEADER_SIZE + (bsize b + (BLOCK_HEADER_SIZE + bsize c))))
    with (end_of HEAP_START pre + span b + span c) by (unfold span; lia). tauto.
Qed.
Lemma merge_only m pre b rest v w :
  links_only (pre ++ b :: rest) m (st (st m (end_of HEAP_START pre) v) (end_of HEAP_START pre + 8) w).
Proof.
  intros x H1 H2. rewrite starts_app, not_elem_of_app in H1, H2. cbn [starts] in H1, H2.
  rewrite not_elem_of_cons in H1, H2. rewrite !ld_st_other by lia. done.
Qed.

(** The walk of [coalesce_free_blocks] merges on the list. *)
Lemma coalesce_from_spec fuel pre b rest s :
  links (kh_mem s) HEAP_START (pre ++ b :: rest) 0 →
  end_of HEAP_START (pre ++ b :: rest) = HEAP_END →
  mem_wf (kh_mem s) → (length rest < fuel)%nat →
  wp (coalesce_from fuel (end_of HEAP_START pre)) s (λ _ s', ∃ m',
    s' = set_kh_mem m' s ∧ mem_wf m' ∧
    links m' HEAP_START (pre ++ a_merge b rest) 0 ∧
    links_only (pre ++ b :: rest) (kh_mem s) m').
Proof.
  revert pre b rest s. induction fuel as [|fuel IH]; intros pre b rest s Hl He Hwf Hfuel; [lia|].
  destruct (block_place _ pre b rest Hl He) as (Hpre & Hok & Hh & HA & HB & HE).
  assert (0 ≤ bsize b) by apply Hh.
  cbn [coalesce_from]. rewrite (proj2 (Z.eqb_neq (end_of _ pre) 0)) by (unfold HEAP_START in *; lia).
  apply wp_bind. eapply wp_get_next; [done|]. destruct rest as [|c rest]; cbn [nxt].
  - apply wp_ret. exists (kh_mem s). split_and!; [apply kheap_eta|done..].
  - rewrite (proj2 (Z.eqb_neq _ 0)) by (heap_unfold; lia).
    rewrite (cons_middle b pre), app_assoc in Hl. pose proof (hdr_of_links _ _ _ _ Hl) as Hhc.
    rewrite <- app_assoc in Hl. cbn [app] in Hl. rewrite end_of_app in Hhc. cbn [end_of foldl] in Hhc.
    fold (end_of HEAP_START pre) in Hhc.
    apply wp_bind. eapply wp_get_free; [done|]. apply wp_bind. eapply wp_get_free; [done|].
    cbn [a_merge]. destruct (bfree b && bfree c) eqn:E.
    + apply andb_prop in E as [Hb Hc].
      apply wp_bind. eapply wp_get_size; [done|]. apply wp_bind. eapply wp_get_size; [done|].
      rewrite (kheap_eta s) at 1. apply wp_bind, wp_put_size; [apply Hh|]. apply wp_bind.
      apply wp_read_next; [apply Hhc|]. apply wp_bind, wp_put_next; [apply Hh|].
      rewrite ld_st_other by (heap_unfold; lia). destruct Hhc as (_ & _ & -> & _).
      destruct (merge_step_links (kh_mem s) pre b c rest Hl He Hb) as (Hl' & He' & Hout).
      eapply wp_mono; [apply IH; cbn [set_kh_mem kh_mem]; [done|done|auto with os|cbn in Hfuel; lia]|].
      intros [] s' (m' & -> & Hwf' & Hlm & Hfr). exists m'. split_and!; [done..|].
      eapply links_only_trans; [|apply merge_only|exact Hfr]. intros x. by apply merge_starts.
    + replace (end_of HEAP_START pre + span b) with (end_of HEAP_START (pre ++ [b])) by by rewrite end_of_app.
      replace (pre ++ b :: a_merge c rest) with ((pre ++ [b]) ++ a_merge c rest) by by rewrite <- app_assoc.
      replace (pre ++ b :: c :: rest) with ((pre ++ [b]) ++ c :: rest) in * by by rewrite <- app_assoc.
      apply IH; [done..|]. cbn in Hfuel. lia.
Qed.

Lemma a_mark_at pre b post a p :
  Forall blk_ok (pre ++ b :: post) → p = end_of a pre + BLOCK_HEADER_SIZE →
  a_mark a p (pre ++ b :: post) = pre ++ Blk (bsize b) true :: post.
Proof.
  intros Hok ->. revert a. induction pre as [|c pre IH]; intros a; cbn [app a_mark].
  - cbn [end_of foldl]. rewrite Z.eqb_refl. f_equal.
    apply Forall_cons in Hok as [[Hb _] Hok]. unfold span.
    assert (Hlt : a + BLOCK_HEADER_SIZE < a + (BLOCK_HEADER_SIZE + bsize b) + BLOCK_HEADER_SIZE)
      by (unfold BLOCK_HEADER_SIZE; lia).
    revert Hlt. generalize (a + (BLOCK_HEADER_SIZE + bsize b)) as e.
    induction post as [|d post IH]; intros e Hlt; cbn [a_mark]; [done|].
    apply Forall_cons in Hok as [[Hd _] Hok].
    rewrite (proj2 (Z.eqb_neq _ _)) by lia. f_equal. apply IH; [done|].
    unfold span, BLOCK_HEADER_SIZE in *. lia.
  - cbn [app] in Hok. apply Forall_cons in Hok as [[Hc _] Hok]. rewrite end_of_cons.
    apply Forall_app in Hok as Hpre. destruct Hpre as [Hpre _].
    pose proof (end_of_bound (a + span c) pre Hpre). pose proof (used_bytes_nonneg _ Hpre).
    rewrite (proj2 (Z.eqb_neq _ _)) by (unfold span, BLOCK_HEADER_SIZE in *; lia).
    f_equal. by apply IH.
Qed.

Lemma heap_frame_sym ps m m' : heap_frame ps m m' → heap_frame ps m' m.
Proof. intros [H1 H2]. split; [intros x Hx; by rewrite H1|intros p n x Hp Hx; by rewrite (H2 _ _ _ Hp Hx)]. Qed.
Lemma heap_frame_sub ps ps' m m' : (∀ x, x ∈ ps' → x ∈ ps) → heap_frame ps m m' → heap_frame ps' m m'.
Proof. intros Hs [H1 H2]. split; [done|]. intros p n x Hp. apply H2. auto. Qed.

(** Setting the flag of the block after [pre] to free. *)
Lemma mark_links m pre n post :
  let A := end_of HEAP_START pre in
  let m' := st8 m (A + 16) 1 in
  links m HEAP_START (pre ++ Blk n false :: post) 0 →
  end_of HEAP_START (pre ++ Blk n false :: post) = HEAP_END → mem_wf m →
  links m' HEAP_START (pre ++ Blk n true :: post) 0 ∧ same_outside m m' A (span (Blk n true)).
Proof.
  intros A m' Hl He Hwf.
  destruct (block_place _ pre _ post Hl He) as (Hpre & Hok & Hh & HA & HB & HE). fold A in Hh, HA, HB, HE.
  destruct Hh as (HA8 & H1 & H2 & H3 & H4 & H5). cbn [bsize bfree] in *.
  assert (Hout : same_outside m m' A (span (Blk n true))).
  { intros x Hx. unfold m', span, BLOCK_HEADER_SIZE in *. cbn [bsize] in Hx.
    rewrite ld_st8_word by (lia || dlia). done. }
  split; [|done].
  apply (links_replace m m' HEAP_START pre [Blk n false] [Blk n true] post); fold A; try done.
  - change (end_of A [Blk n false] - A) with (A + span (Blk n true) - A).
    by replace (A + span (Blk n true) - A) with (span (Blk n true)) by lia.
  - cbn [links nxt end_of foldl]. split; [|done]. unfold hdr, m'. cbn [bsize bfree].
    split_and!; try done; mem_simp; done.
Qed.

Lemma a_coalesce_facts bs :
  payloads HEAP_START (a_coalesce bs) = payloads HEAP_START bs ∧
  end_of HEAP_START (a_coalesce bs) = end_of HEAP_START bs ∧
  used_bytes (a_coalesce bs) = used_bytes bs ∧ used_count (a_coalesce bs) = used_count bs ∧
  coalesced (a_coalesce bs) = true.
Proof.
  destruct bs as [|b rest]; [done|]. cbn [a_coalesce].
  destruct (a_merge_used b rest) as [-> ->].
  rewrite a_merge_payloads, a_merge_end, a_merge_coalesced. done.
Qed.

(** The whole pass from the head of the list. *)
Lemma coalesce_ok s bs :
  kh_head s = HEAP_START → links (kh_mem s) HEAP_START bs 0 → end_of HEAP_START bs = HEAP_END →
  mem_wf (kh_mem s) →
  wp coalesce_free_blocks s (λ _ s', ∃ m', s' = set_kh_mem m' s ∧ mem_wf m' ∧
    links m' HEAP_START (a_coalesce bs) 0 ∧ links_only bs (kh_mem s) m').
Proof.
  intros Hhd Hl He Hwf. pose proof (links_ok _ _ _ _ Hl) as Hok.
  assert (Hfuel : (length bs ≤ HEAP_FUEL)%nat).
  { pose proof (end_of_bound HEAP_START bs Hok) as B. pose proof (used_bytes_nonneg _ Hok).
    rewrite He in B. unfold HEAP_FUEL. apply Nat2Z.inj_le.
    rewrite Z2Nat.id by (clear; heap_unfold; dlia). clear -B H. heap_unfold. dlia. }
  unfold coalesce_free_blocks. revert Hfuel. generalize HEAP_FUEL. intros fuel Hfuel.
  apply wp_bind, wp_gets. rewrite Hhd. destruct bs as [|b rest]; [by cbn in He|].
  apply (coalesce_from_spec fuel [] b rest s); try done.
Qed.

(** The state [kfree] leaves, from what the merging pass did to memory. *)
Lemma kfree_after s pre n post m' :
  let A := end_of HEAP_START pre in
  let bs := pre ++ Blk n true :: post in
  heap_inv s (pre ++ Blk n false :: post) → mem_wf m' →
  links m' HEAP_START (a_coalesce bs) 0 → links_only bs (st8 (kh_mem s) (A + 16) 1) m' →
  heap_inv (set_kh_mem m' (set_stats (u64 (total_allocated s - n)) (u64 (total_free s + n))
      (u64 (allocation_count s - 1)) (set_kh_mem (st8 (kh_mem s) (A + 16) 1) s))) (a_coalesce bs) ∧
  heap_frame (payloads HEAP_START (a_coalesce bs)) (kh_mem s) m' ∧
  ld8 m' (A + BLOCK_HEADER_SIZE - 8) = 1.
Proof.
  intros A bs Hi Hwf Hl2 Honly. pose proof (hi_links _ _ Hi) as Hl. pose proof (hi_end _ _ Hi) as He.
  destruct (mark_links (kh_mem s) pre n post Hl He (hi_mem _ _ Hi)) as [Hl1 Hout]. fold A in Hl1, Hout.
  assert (He1 : end_of HEAP_START bs = HEAP_END) by (unfold bs; by rewrite end_of_app, end_of_cons in *).
  pose proof (links_ok _ _ _ _ Hl1) as Hok. fold bs in Hok, Hl1.
  destruct (block_place _ pre _ post Hl He) as (_ & _ & (HA8 & _ & _ & _ & Hn & _) & _). fold A in HA8.
  destruct (a_coalesce_facts bs) as (Hpay & Hend & Hub & Huc & Hco).
  split_and!.
  - destruct Hi. pose proof (used_count_bound pre). pose proof (used_count_bound post).
    pose proof (used_bytes_nonneg _ (links_ok _ _ _ _ hi_links0)) as Hnn.
    assert (Hle : used_bytes (pre ++ Blk n false :: post) ≤ HEAP_SIZE ∧
                  Z.of_nat (length (pre ++ Blk n false :: post)) < 2 ^ 63).
    { pose proof (end_of_bound HEAP_START _ (links_ok _ _ _ _ hi_links0)) as B.
      rewrite hi_end0 in B. heap_unfold. lia. }
    unfold bs in Hub, Huc.
    rewrite used_bytes_app, used_bytes_cons in hi_alloc0, hi_free0, Hub, Hle, Hnn.
    rewrite used_count_app, used_count_cons in hi_count0, Huc. cbn [bfree bsize] in *.
    apply Forall_app in Hok as [Hok1 [_ Hok2]%Forall_cons].
    pose proof (used_bytes_nonneg _ Hok1). pose proof (used_bytes_nonneg _ Hok2).
    rewrite length_app, length_cons in Hle.
    split; cbn [set_stats set_kh_mem kh_mem kh_head heap_initialized total_allocated total_free
      allocation_count]; try done.
    + by rewrite Hend.
    + fold bs in Hub. rewrite Hub, hi_alloc0, u64_id; unfold HEAP_SIZE in *; lia.
    + fold bs in Hub. rewrite Hub, hi_free0, u64_id; unfold HEAP_SIZE in *; lia.
    + fold bs in Huc. rewrite Huc, hi_count0, u64_id; lia.
  - rewrite Hpay. eapply heap_frame_trans; [|by apply links_only_frame].
    apply heap_frame_sym, frame_free_block; [done..|]. fold A. intros x Hx. by rewrite Hout.
  - replace (A + BLOCK_HEADER_SIZE - 8) with (A + 16) by (unfold BLOCK_HEADER_SIZE; lia).
    rewrite (ld8_word (st8 (kh_mem s) (A + 16) 1) m').
    + by rewrite ld8_st8_same by apply Hi.
    + replace (8 * ((A + 16) / 8)) with (A + 16) by dlia.
      apply Honly; intros Hin; apply (starts_apart pre) in Hin; try done; fold A in Hin;
        unfold span, BLOCK_HEADER_SIZE in *; cbn [bsize] in *; lia.
Qed.

(** [kfree] on a payload in use. *)
Lemma kfree_run s bs p n :
  heap_inv s bs → (p, n) ∈ payloads HEAP_START bs →
  wp (kfree p) s (λ _ s', heap_inv s' (a_free p bs) ∧
    heap_frame (payloads HEAP_START (a_free p bs)) (kh_mem s) (kh_mem s') ∧
    ld8 (kh_mem s') (p - 8) = 1).
Proof.
  intros Hi Hp. pose proof (hi_links _ _ Hi) as Hl. pose proof (hi_end _ _ Hi) as He.
  pose proof (links_ok _ _ _ _ Hl) as Hok.
  destruct (payloads_elem _ _ _ _ Hp) as (pre & post & -> & ->).
  set (A := end_of HEAP_START pre) in *.
  destruct (block_place _ pre _ post Hl He) as (Hpre & Hpost & Hh & HA & HB & HE). fold A in Hh, HA, HB, HE.
  unfold kfree. cbv zeta. rewrite (proj2 (Z.eqb_neq _ 0)) by (heap_unfold; lia).
  assert (0 ≤ n) by apply Hh.
  replace (u64 (A + BLOCK_HEADER_SIZE - BLOCK_HEADER_SIZE)) with A
    by (rewrite u64_id; heap_unfold; cbn [bsize] in *; lia).
  rewrite (proj2 (Z.ltb_ge A HEAP_START)), (proj2 (Z.leb_gt HEAP_END A))
    by (unfold span, BLOCK_HEADER_SIZE in *; cbn [bsize] in *; lia). cbn [orb].
  apply wp_bind. eapply wp_get_free; [done|]. cbn [bfree].
  destruct (mark_links (kh_mem s) pre n post Hl He (hi_mem _ _ Hi)) as [Hl1 Hout]. fold A in Hl1, Hout.
  rewrite (kheap_eta s) at 1. apply wp_bind, wp_put_free.
  apply wp_bind. eapply wp_get_size; [apply (hdr_of_links _ pre _ post Hl1)|].
  apply wp_bind, wp_modify. unfold a_free. rewrite a_mark_at by done. cbn [bsize].
  eapply wp_mono; [apply coalesce_ok; cbn; [apply Hi|exact Hl1| |apply mem_wf_st8, Hi]|].
  { rewrite end_of_app, end_of_cons in *. done. }
  intros [] s' (m' & -> & Hwf & Hl2 & Honly). by apply (kfree_after s pre n post m').
Qed.

(** ** What the list operations mean for the payloads *)

(** A block handed out by first fit: big enough, aligned, inside the heap and
    apart from every payload in use. *)
Lemma a_alloc_payloads m bs size A bs' :
  links m HEAP_START bs 0 → end_of HEAP_START bs = HEAP_END → a_alloc size bs = Some (A, bs') →
  ∃ n, size ≤ n ∧
    let p := A + BLOCK_HEADER_SIZE in
    payloads HEAP_START bs' ≡ₚ (p, n) :: payloads HEAP_START bs ∧
    p mod 8 = 0 ∧ HEAP_START < p ∧ p + n ≤ HEAP_END ∧ Forall (apart p n) (payloads HEAP_START bs).
Proof.
  intros Hl He. unfold a_alloc. destruct (a_find size bs) as [[[pre b] post]|] eqn:Hf; [|done].
  intros [= <- <-]. apply a_find_some in Hf as (-> & Hb & Hle).
  destruct (block_place _ pre b post Hl He) as (Hpre & Hpost & Hh & HA & HB & HE).
  destruct Hh as (HA8 & _ & _ & _ & Hb0 & Hb8).
  destruct (a_split_used size b Hb) as (n & Hsp). destruct (Hsp Hle) as (Hn & _ & _ & Hpay & _).
  assert (Hold : payloads HEAP_START (pre ++ b :: post) =
    payloads HEAP_START pre ++ payloads (end_of HEAP_START pre + span b) post).
  { rewrite payloads_app. cbn [payloads]. by rewrite Hb. }
  exists n. split; [lia|]. cbv zeta. rewrite Hold. split_and!.
  - rewrite payloads_app, payloads_app, Hpay, a_split_end. cbn [app]. by rewrite Permutation_middle.
  - unfold BLOCK_HEADER_SIZE. dlia.
  - unfold BLOCK_HEADER_SIZE. lia.
  - unfold span in HB. lia.
  - unfold apart. apply Forall_app. split; apply Forall_forall; intros [q k] Hq; cbn [fst snd];
      apply payloads_range in Hq; try done; unfold span, BLOCK_HEADER_SIZE in *; [lia|lia|dlia].
Qed.

Lemma a_free_payloads bs p n :
  Forall blk_ok bs → (p, n) ∈ payloads HEAP_START bs →
  payloads HEAP_START bs ≡ₚ (p, n) :: payloads HEAP_START (a_free p bs).
Proof.
  intros Hok (pre & post & -> & ->)%payloads_elem. unfold a_free. rewrite a_mark_at by done.
  cbn [bsize]. destruct (a_coalesce_facts (pre ++ Blk n true :: post)) as (-> & _).
  rewrite !payloads_app. cbn [payloads bfree bsize app]. by rewrite Permutation_middle.
Qed.

(** [kfree] after [kmalloc] restores the list. *)
Lemma a_free_alloc size bs A bs' :
  0 ≤ size → size mod 8 = 0 → Forall blk_ok bs → coalesced bs = true →
  a_alloc size bs = Some (A, bs') → a_free (A + BLOCK_HEADER_SIZE) bs' = bs.
Proof.
  intros Hsz Hsz8 Hok Hco. unfold a_alloc.
  destruct (a_find size bs) as [[[pre b] post]|] eqn:Hf; [|done].
  intros [= <- <-]. apply a_find_some in Hf as (-> & Hb & Hle).
  assert (Hprefix : coalesced (pre ++ [b]) = true).
  { apply (coalesced_app_l _ post). by rewrite <- app_assoc. }
  apply coalesced_app_r in Hco. apply Forall_app in Hok as [Hpre [[Hb0 Hb8] Hpost]%Forall_cons].
  assert (Hfr : ∀ n rest, 0 ≤ n → n mod 8 = 0 → Forall blk_ok rest →
    a_free (end_of HEAP_START pre + BLOCK_HEADER_SIZE) (pre ++ Blk n false :: rest) =
    pre ++ a_merge (Blk n true) rest).
  { intros n rest Hn Hn8 Hrest. unfold a_free. rewrite a_mark_at; [|by apply Forall_app; repeat constructor|done].
    by apply a_coalesce_app with b. }
  destruct b as [sz fr]. cbn [bfree bsize] in *. subst fr.
  unfold a_split. cbn [bsize]. case_if; cbn [app]; rewrite Hfr; unfold BLOCK_HEADER_SIZE, MIN_BLOCK_SIZE in *;
    try lia; try done.
  - cbn [a_merge bfree bsize andb]. unfold BLOCK_HEADER_SIZE.
    replace (size + (24 + (sz - size - 24))) with sz by lia. by rewrite a_merge_id.
  - constructor; [|done]. split; cbn [bsize]; [lia|dlia].
  - by rewrite a_merge_id.
Qed.

Lemma used_zero bs : used_count bs = 0 → payloads HEAP_START bs = [] ∧ used_bytes bs = 0 ∧ Forall (λ b, bfree b = true) bs.
Proof.
  generalize HEAP_START. induction bs as [|b bs IH]; intros a H; [done|].
  rewrite used_count_cons in H. pose proof (used_count_bound bs). cbn [payloads].
  rewrite used_bytes_cons. destruct (bfree b) eqn:Hb; [|lia].
  destruct (IH (a + span b) ltac:(lia)) as (-> & -> & ?). by repeat constructor.
Qed.

(** ** Correctness of the heap *)

(** Before the first call the heap is initialised on the way. *)
Lemma kmalloc_boot s size :
  heap_boot s → ∃ s1, kmalloc size s = kmalloc size s1 ∧ heap_inv s1 heap_start_blocks ∧
    ∀ x, ¬ (HEAP_START ≤ x < HEAP_END) → ld (kh_mem s1) x = ld (kh_mem s) x.
Proof.
  intros Hb. pose proof (init_heap_ok s Hb) as Hinit.
  apply wp_run in Hinit as ([] & s1 & Hrun & Hi & Hout). exists s1. split; [|done].
  destruct Hb as (Hb & _). unfold kmalloc.
  erewrite (run_bind _ _ s) by reflexivity. rewrite Hb. cbn [negb]. erewrite (run_bind _ _ s) by exact Hrun.
  symmetry. erewrite (run_bind _ _ s1) by reflexivity. rewrite (hi_init _ _ Hi). cbn [negb].
  by erewrite (run_bind _ _ s1) by reflexivity.
Qed.

Lemma heap_at_elim s bs size :
  heap_at s bs → ∃ s1, kmalloc size s = kmalloc size s1 ∧ heap_inv s1 bs ∧
    heap_frame (payloads HEAP_START bs) (kh_mem s) (kh_mem s1).
Proof.
  intros [Hi|[Hb ->]].
  - exists s. split_and!; [done..|]. apply heap_frame_refl.
  - destruct (kmalloc_boot s size Hb) as (s1 & Hrun & Hi & Hout). exists s1. split_and!; [done..|].
    split; [done|]. intros p n x Hp. by apply elem_of_nil in Hp.
Qed.
Lemma wp_eq {S A} (c d : M S A) s s1 Q : c s = d s1 → wp d s1 Q → wp c s Q.
Proof. unfold wp. by intros ->. Qed.

Lemma kmalloc_at s bs size :
  heap_at s bs → 0 ≤ size ≤ 2 ^ 64 - 8 →
  wp (kmalloc size) s (λ p s', ∃ bs' n,
      heap_inv s' bs' ∧ size ≤ n ∧
      payloads HEAP_START bs' ≡ₚ (p, n) :: payloads HEAP_START bs ∧
      p mod 8 = 0 ∧ HEAP_START < p ∧ p + n ≤ HEAP_END ∧
      Forall (apart p n) (payloads HEAP_START bs) ∧
      heap_frame (payloads HEAP_START bs) (kh_mem s) (kh_mem s'))
  ∨ (kmalloc size s = Panic "kmalloc: Out of memory!" ∧
     ∀ b, b ∈ bs → bfree b = true → bsize b < round8 size).
Proof.
  intros Hat Hsz. destruct (heap_at_elim s bs size Hat) as (s1 & Hrun & Hi & Hfr0).
  pose proof (kmalloc_run s1 bs size Hi Hsz) as Hk.
  destruct (a_alloc (round8 size) bs) as [[A bs']|] eqn:Hal.
  - left. eapply wp_eq; [exact Hrun|]. eapply wp_mono; [exact Hk|].
    intros p s' (-> & Hi' & Hfr).
    destruct (a_alloc_payloads _ _ _ _ _ (hi_links _ _ Hi) (hi_end _ _ Hi) Hal)
      as (n & Hn & Hp & H1 & H2 & H3 & H4).
    exists bs', n. split_and!; try done.
    + unfold round8 in Hn. dlia.
    + by eapply heap_frame_trans.
  - right. split; [by rewrite Hrun|]. unfold a_alloc in Hal.
    destruct (a_find (round8 size) bs) as [[[? ?] ?]|] eqn:Hf; [done|]. intros b. by apply a_find_none.
Qed.

(** C2 (functional): [kmalloc] returns a pointer to at least [size] bytes that
    are 8-aligned, inside the heap and apart from every payload in use, records
    them as in use and leaves all other payloads and the memory outside the
    heap unchanged; it panics exactly when no free block is large enough.  The
    size is at most [2^64 - 8]: rounded up to a multiple of 8 it fits. *)
Theorem kmalloc_spec s bs size :
  heap_at s bs → 0 ≤ size ≤ 2 ^ 64 - 8 →
  wp (kmalloc size) s (λ p s', ∃ bs' n,
      heap_inv s' bs' ∧ size ≤ n ∧
      payloads HEAP_START bs' ≡ₚ (p, n) :: payloads HEAP_START bs ∧
      p mod 8 = 0 ∧ HEAP_START < p ∧ p + n ≤ HEAP_END ∧
      Forall (apart p n) (payloads HEAP_START bs) ∧
      heap_frame (payloads HEAP_START bs) (kh_mem s) (kh_mem s'))
  ∨ (kmalloc size s = Panic "kmalloc: Out of memory!" ∧
     ∀ b, b ∈ bs → bfree b = true → bsize b < round8 size).
Proof. apply kmalloc_at. Qed.

Lemma boot_heap_at : heap_at boot_heap heap_start_blocks.
Proof. right. split; [|done]. split_and!; try done. Qed.

Lemma kmalloc_spec_witness :
  wp (kmalloc 100) boot_heap (λ p s', ∃ bs' n,
      heap_inv s' bs' ∧ 100 ≤ n ∧
      payloads HEAP_START bs' ≡ₚ (p, n) :: payloads HEAP_START heap_start_blocks ∧
      p mod 8 = 0 ∧ HEAP_START < p ∧ p + n ≤ HEAP_END ∧
      Forall (apart p n) (payloads HEAP_START heap_start_blocks) ∧
      heap_frame (payloads HEAP_START heap_start_blocks) (kh_mem boot_heap) (kh_mem s')).
Proof.
  destruct (kmalloc_spec boot_heap heap_start_blocks 100 boot_heap_at ltac:(lia)) as [H|[_ H]]; [exact H|].
  specialize (H _ (list_elem_of_here _ _) eq_refl). vm_compute in H. discriminate.
Defined.

Lemma heap_104_inv : heap_inv heap_104 [Blk 104 false; Blk (HEAP_SIZE - 152) true].
Proof.
  split; try reflexivity; [|by apply mem_wf_check; vm_compute].
  vm_compute. repeat split; discriminate.
Qed.

(** C25 (functional): [kfree] of a payload in use returns it: afterwards exactly
    the other payloads are in use, with their contents, no two free blocks are
    neighbours, and the header is marked so that a second [kfree] of the same
    pointer panics. *)
Theorem kfree_spec s bs p n :
  heap_inv s bs → (p, n) ∈ payloads HEAP_START bs →
  wp (kfree p) s (λ _ s', ∃ bs', heap_inv s' bs' ∧
    payloads HEAP_START bs ≡ₚ (p, n) :: payloads HEAP_START bs' ∧
    heap_frame (payloads HEAP_START bs') (kh_mem s) (kh_mem s') ∧
    kfree p s' = Panic "kfree: Double free detected!").
Proof.
  intros Hi Hp. pose proof (links_ok _ _ _ _ (hi_links _ _ Hi)) as Hok.
  eapply wp_mono; [by apply (kfree_run s bs p n)|]. intros _ s' (Hi' & Hfr & Hflag).
  exists (a_free p bs). split_and!; try done; [by apply a_free_payloads|].
  destruct (payloads_range _ _ _ _ Hok HEAP_START_mod Hp) as (H1 & H2 & _ & _ & Hn).
  rewrite (hi_end _ _ Hi) in H2. unfold kfree. cbv zeta. heap_unfold.
  rewrite (proj2 (Z.eqb_neq p 0)), u64_id by lia.
  rewrite (proj2 (Z.ltb_ge _ _)), (proj2 (Z.leb_gt _ _)) by lia. cbn [orb].
  replace (p - 8) with (p - 24 + 16) in Hflag by lia.
  unfold get_free. erewrite run_bind; [|unfold load8; erewrite run_bind by reflexivity; reflexivity].
  cbn [get_mem kheap_mem]. by rewrite Hflag.
Qed.

Lemma kfree_spec_witness :
  wp (kfree (HEAP_START + 24)) heap_104 (λ _ s', ∃ bs', heap_inv s' bs' ∧
    payloads HEAP_START [Blk 104 false; Blk (HEAP_SIZE - 152) true]
      ≡ₚ (HEAP_START + 24, 104) :: payloads HEAP_START bs' ∧
    heap_frame (payloads HEAP_START bs') (kh_mem heap_104) (kh_mem s') ∧
    kfree (HEAP_START + 24) s' = Panic "kfree: Double free detected!").
Proof. apply (kfree_spec _ _ _ 104 heap_104_inv). apply list_elem_of_here. Defined.

(** (roundtrip): freeing what was just allocated restores the heap: the same
    blocks at the same addresses, and the same statistics. *)
Theorem kmalloc_kfree_roundtrip s bs size A bs' :
  heap_inv s bs → 0 ≤ size ≤ 2 ^ 64 - 8 → a_alloc (round8 size) bs = Some (A, bs') →
  wp (p ← kmalloc size; kfree p) s (λ _ s', heap_inv s' bs).
Proof.
  intros Hi Hsz Hal. pose proof (kmalloc_run s bs size Hi Hsz) as Hk. rewrite Hal in Hk.
  pose proof (links_ok _ _ _ _ (hi_links _ _ Hi)) as Hok.
  destruct (a_alloc_payloads _ _ _ _ _ (hi_links _ _ Hi) (hi_end _ _ Hi) Hal) as (n & Hn & Hp & _).
  apply wp_bind. eapply wp_mono; [exact Hk|]. intros p s1 (-> & Hi1 & _).
  eapply wp_mono; [apply (kfree_run s1 bs' _ n Hi1); rewrite Hp; apply list_elem_of_here|].
  intros _ s2 (Hi2 & _).
  rewrite (a_free_alloc (round8 size) bs A bs') in Hi2; try done; [unfold round8; dlia..|apply Hi].
Qed.
Lemma kmalloc_kfree_roundtrip_witness :
  wp (p ← kmalloc 40; kfree p) heap_104 (λ _ s', heap_inv s' [Blk 104 false; Blk (HEAP_SIZE - 152) true]).
Proof.
  apply (kmalloc_kfree_roundtrip heap_104 _ 40 (HEAP_START + 128)
           [Blk 104 false; Blk 40 false; Blk (HEAP_SIZE - 216) true] heap_104_inv); [lia|].
  vm_compute. reflexivity.
Defined.

(** (invariant): when the allocation count is back to zero the heap is the
    single free block it started as, and the statistics are the initial ones:
    nothing leaks and nothing stays fragmented. *)
Theorem kheap_all_free s bs :
  heap_inv s bs → allocation_count s = 0 →
  bs = heap_start_blocks ∧ kmalloc_stats s = Ret ((0, HEAP_SIZE, 0), s).
Proof.
  intros Hi Hc. rewrite (hi_count _ _ Hi) in Hc. destruct (used_zero bs Hc) as (_ & Hub & Hfree).
  split.
  - pose proof (hi_end _ _ Hi) as He. pose proof (hi_coalesced _ _ Hi) as Hco.
    destruct bs as [|[sz fr] [|c bs]]; [by cbn in He| |].
    + apply Forall_cons in Hfree as [[= ->] _]. unfold heap_start_blocks. repeat f_equal.
      unfold end_of, foldl, span, HEAP_END in He. cbn [bsize] in He. lia.
    + apply Forall_cons in Hfree as [Hf1 [Hf2 _]%Forall_cons].
      rewrite coalesced_cons2, Hf1, Hf2 in Hco. discriminate.
  - unfold kmalloc_stats, gets. by rewrite (hi_alloc _ _ Hi), (hi_free _ _ Hi), (hi_count _ _ Hi), Hub, Hc.
Qed.
Lemma kheap_all_free_witness :
  kmalloc_stats (KHeap (list_to_map [(HEAP_START, HEAP_SIZE - 24); (HEAP_START + 8, 0); (HEAP_START + 16, 1)])
                   HEAP_START true 0 HEAP_SIZE 0) =
  Ret ((0, HEAP_SIZE, 0),
       KHeap (list_to_map [(HEAP_START, HEAP_SIZE - 24); (HEAP_START + 8, 0); (HEAP_START + 16, 1)])
         HEAP_START true 0 HEAP_SIZE 0).
Proof.
  apply (kheap_all_free _ heap_start_blocks); [|reflexivity].
  split; try reflexivity; [|by apply mem_wf_check; vm_compute].
  vm_compute. repeat split; discriminate.
Defined.

(** A request so large that its rounding wraps. *)
Lemma kmalloc_wraps s size : 2 ^ 64 - 8 < size < 2 ^ 64 → kmalloc size s = kmalloc 0 s.
Proof.
  intros Hsz. assert (E : mask_down 3 (u64 (size + 7)) = mask_down 3 (u64 (0 + 7))); [|unfold kmalloc; by rewrite E].
  assert (Hu : u64 (size + 7) = size + 7 - 2 ^ 64) by (unfold u64; change (2 ^ 64) with 18446744073709551616 in *; dlia).
  rewrite Hu, !mask_down_spec; [|lia|done|lia|lia]. change (2 ^ 3) with 8.
  change (u64 (0 + 7) - u64 (0 + 7) mod 8) with 0. change (2 ^ 64) with 18446744073709551616 in *. dlia.
Qed.
Lemma links_size m a bs last b : links m a bs last → b ∈ bs → 0 ≤ bsize b.
Proof.
  revert a. induction bs as [|c bs IH]; intros a; [by intros _ ?%elem_of_nil|]. intros [Hh Hl] [->|Hb]%elem_of_cons; [apply Hh|by eapply IH].
Qed.
Lemma heap_at_size s bs b : heap_at s bs → b ∈ bs → 0 ≤ bsize b.
Proof.
  intros [Hi|[_ ->]]; [by eapply links_size, hi_links|]. intros ->%list_elem_of_singleton. vm_compute. discriminate.
Qed.

(** C38 (bounds): the rounding of the size wraps.  A request of more than
    [2^64 - 8] bytes does not fail: whenever any block of the heap is free it
    returns a pointer into the heap to fewer bytes than were asked for, and
    records those as in use. *)
Theorem kmalloc_size_wraps s bs b size :
  heap_at s bs → b ∈ bs → bfree b = true → 2 ^ 64 - 8 < size < 2 ^ 64 →
  wp (kmalloc size) s (λ p s', ∃ bs' n, heap_inv s' bs' ∧ payloads HEAP_START bs' ≡ₚ (p, n) :: payloads HEAP_START bs ∧
    HEAP_START < p ∧ p + n ≤ HEAP_END ∧ n < size).
Proof.
  intros Hat Hb Hf Hsz. eapply wp_eq; [by apply kmalloc_wraps|].
  destruct (kmalloc_at s bs 0 Hat ltac:(lia)) as [H|[_ H]].
  - eapply wp_mono; [exact H|]. cbn beta. intros p s' (bs' & n & Hi & _ & Hp & _ & H1 & H2 & _). exists bs', n.
    split_and!; try done. unfold HEAP_END, HEAP_START, HEAP_SIZE in *. lia.
  - pose proof (H b Hb Hf) as Hlt. change (round8 0) with 0 in Hlt. pose proof (heap_at_size s bs b Hat Hb). lia.
Qed.
Lemma kmalloc_size_wraps_witness :
  wp (kmalloc (2 ^ 64 - 1)) boot_heap (λ p s', ∃ bs' n, heap_inv s' bs' ∧ payloads HEAP_START bs' ≡ₚ [(p, n)] ∧
    HEAP_START < p ∧ p + n ≤ HEAP_END ∧ n < 2 ^ 64 - 1).
Proof.
  apply (kmalloc_size_wraps boot_heap heap_start_blocks (Blk (HEAP_SIZE - BLOCK_HEADER_SIZE) true) (2 ^ 64 - 1)).
  - exact boot_heap_at.
  - by left.
  - reflexivity.
  - lia.
Defined.

(** ** Writing to a payload *)

Lemma payload_links m m' bs p n :
  links m HEAP_START bs 0 → end_of HEAP_START bs = HEAP_END →
  (p, n) ∈ payloads HEAP_START bs → same_outside m m' p n → links m' HEAP_START bs 0.
Proof.
  intros Hl He (pre & post & -> & ->)%payloads_elem Hout.
  destruct (block_place _ pre _ post Hl He) as (Hpre & Hpost & Hh & HA & HB & HE).
  apply (links_replace m m' HEAP_START pre [Blk n false] [Blk n false] post); try done.
  - intros x Hx. apply Hout. cbn in Hx. unfold span, BLOCK_HEADER_SIZE in *. cbn [bsize] in Hx. lia.
  - cbn [links nxt end_of foldl]. split; [|done]. eapply hdr_frame; [|exact Hh].
    intros x Hx. apply Hout. lia.
Qed.
Lemma payload_inv s bs p n m' :
  heap_inv s bs → (p, n) ∈ payloads HEAP_START bs → mem_wf m' →
  same_outside (kh_mem s) m' p n → heap_inv (set_kh_mem m' s) bs.
Proof.
  intros [] Hp Hwf Hout. split; cbn; try done. by eapply payload_links.
Qed.
Lemma payload_frame m m' p n ps :
  same_outside m m' p n → Forall (apart p n) ps → HEAP_START ≤ p → p + n ≤ HEAP_END →
  heap_frame ps m m'.
Proof.
  intros Hout Hap H1 H2. split; [intros x Hx; apply Hout; lia|].
  intros q k x Hq Hx. apply Hout. rewrite Forall_forall in Hap.
  destruct (Hap _ Hq) as [?|?]; cbn [fst snd] in *; lia.
Qed.

(** What [kmalloc] gives its callers, in the shape the next two proofs use. *)
Lemma kmalloc_got s bs size :
  heap_inv s bs → 0 ≤ size ≤ 2 ^ 64 - 8 →
  wp (kmalloc size) s (λ p s', ∃ bs' n, heap_inv s' bs' ∧ size ≤ n ∧
      payloads HEAP_START bs' ≡ₚ (p, n) :: payloads HEAP_START bs ∧
      p mod 8 = 0 ∧ n mod 8 = 0 ∧ HEAP_START < p ∧ p + n ≤ HEAP_END ∧
      Forall (apart p n) (payloads HEAP_START bs) ∧
      heap_frame (payloads HEAP_START bs) (kh_mem s) (kh_mem s'))
  ∨ kmalloc size s = Panic "kmalloc: Out of memory!".
Proof.
  intros Hi Hsz. pose proof (kmalloc_run s bs size Hi Hsz) as Hk.
  destruct (a_alloc (round8 size) bs) as [[A bs']|] eqn:Hal; [left|by right].
  eapply wp_mono; [exact Hk|]. intros p s' (-> & Hi' & Hfr).
  destruct (a_alloc_payloads _ _ _ _ _ (hi_links _ _ Hi) (hi_end _ _ Hi) Hal)
    as (n & Hn & Hp & H1 & H2 & H3 & H4).
  exists bs', n. pose proof (links_ok _ _ _ _ (hi_links _ _ Hi')) as Hok.
  destruct (payloads_range HEAP_START bs' (A + BLOCK_HEADER_SIZE) n Hok HEAP_START_mod) as (_ & _ & _ & ? & _).
  { rewrite Hp. apply list_elem_of_here. }
  split_and!; try done. unfold round8 in Hn. dlia.
Qed.

Lemma bytes_outside p n k x i :
  p mod 8 = 0 → n mod 8 = 0 → 0 ≤ k ≤ n → ¬ (p ≤ x < p + n) → 0 ≤ i < k → 8 * ((p + i) / 8) ≠ x.
Proof. intros. dlia. Qed.

Lemma kzalloc_got s bs size :
  heap_inv s bs → 0 ≤ size ≤ 2 ^ 64 - 8 →
  wp (kzalloc size) s (λ p s', ∃ bs' n, heap_inv s' bs' ∧ size ≤ n ∧
      payloads HEAP_START bs' ≡ₚ (p, n) :: payloads HEAP_START bs ∧
      p mod 8 = 0 ∧ n mod 8 = 0 ∧ HEAP_START < p ∧ p + n ≤ HEAP_END ∧
      Forall (apart p n) (payloads HEAP_START bs) ∧
      heap_frame (payloads HEAP_START bs) (kh_mem s) (kh_mem s') ∧
      (∀ i, 0 ≤ i < size → ld8 (kh_mem s') (p + i) = 0))
  ∨ kzalloc size s = Panic "kmalloc: Out of memory!".
Proof.
  intros Hi Hsz. destruct (kmalloc_got s bs size Hi Hsz) as [Hk|Hk]; [left|right].
  2: { unfold kzalloc. by erewrite run_bind_panic by exact Hk. }
  apply wp_bind. eapply wp_mono; [exact Hk|]. clear Hk.
  intros p s1 (bs' & n & Hi1 & Hn & Hp & Hp8 & Hn8 & Hlo & Hhi & Hap & Hfr).
  rewrite (proj2 (Z.eqb_neq p 0)) by (unfold HEAP_START in *; lia). cbn [negb].
  apply wp_bind, wp_zero_bytes, wp_ret. rewrite Z.add_0_r. cbn [get_mem kheap_mem set_mem].
  assert (Hout : same_outside (kh_mem s1) (zero_bytes (Z.to_nat size) p (kh_mem s1)) p n).
  { intros x Hx. apply zero_bytes_word. intros i Hi'. apply (bytes_outside p n size); lia. }
  exists bs', n. split_and!; try done.
  - eapply payload_inv; [done| |apply zero_bytes_wf, Hi1|done]. rewrite Hp. apply list_elem_of_here.
  - eapply heap_frame_trans; [done|]. eapply payload_frame; [done|done|lia|lia].
  - intros i Hi'. cbn [set_kh_mem kh_mem]. rewrite zero_bytes_spec by apply Hi1.
    rewrite (proj2 (Z.leb_le _ _)), (proj2 (Z.ltb_lt _ _)) by lia. done.
Qed.

(** (functional): memory from [kzalloc] is a fresh payload whose first
    [size] bytes are zero; the other payloads keep their contents. *)
Theorem kzalloc_spec s bs size :
  heap_inv s bs → 0 ≤ size ≤ 2 ^ 64 - 8 →
  wp (kzalloc size) s (λ p s', ∃ bs' n, heap_inv s' bs' ∧ size ≤ n ∧
      payloads HEAP_START bs' ≡ₚ (p, n) :: payloads HEAP_START bs ∧
      (∀ i, 0 ≤ i < size → ld8 (kh_mem s') (p + i) = 0) ∧
      heap_frame (payloads HEAP_START bs) (kh_mem s) (kh_mem s'))
  ∨ kzalloc size s = Panic "kmalloc: Out of memory!".
Proof.
  intros Hi Hsz. destruct (kzalloc_got s bs size Hi Hsz) as [Hk|Hk]; [left|by right].
  eapply wp_mono; [exact Hk|]. cbn beta. intros p s' (bs' & n & H). exists bs', n. tauto.
Qed.
Lemma kzalloc_spec_witness :
  wp (kzalloc 40) heap_104 (λ p s', ∃ bs' n, heap_inv s' bs' ∧ 40 ≤ n ∧
      payloads HEAP_START bs' ≡ₚ (p, n) :: [(HEAP_START + 24, 104)] ∧
      (∀ i, 0 ≤ i < 40 → ld8 (kh_mem s') (p + i) = 0) ∧
      heap_frame [(HEAP_START + 24, 104)] (kh_mem heap_104) (kh_mem s')).
Proof.
  destruct (kzalloc_spec heap_104 _ 40 heap_104_inv ltac:(lia)) as [H|H]; [exact H|].
  exfalso. vm_compute in H. discriminate.
Defined.

(** Copying into the fresh payload and freeing the old one. *)
Lemma krealloc_move s s1 bs bs1 p n q k new_size :
  heap_inv s1 bs1 → (p, n) ∈ payloads HEAP_START bs → 0 ≤ n < new_size → new_size ≤ k →
  payloads HEAP_START bs1 ≡ₚ (q, k) :: payloads HEAP_START bs →
  q mod 8 = 0 → k mod 8 = 0 → HEAP_START < q → q + k ≤ HEAP_END →
  Forall (apart q k) (payloads HEAP_START bs) →
  heap_frame (payloads HEAP_START bs) (kh_mem s) (kh_mem s1) →
  p mod 8 = 0 → n mod 8 = 0 →
  wp (for_loop (Z.to_nat n) 0 (λ i, b ← load8 (p + i); store8 (q + i) b);; kfree p;; mret q) s1
    (λ q' s', q' = q ∧ ∃ bs', heap_inv s' bs' ∧
       (p, n) :: payloads HEAP_START bs' ≡ₚ (q, k) :: payloads HEAP_START bs ∧
       (∀ i, 0 ≤ i < n → ld8 (kh_mem s') (q + i) = ld8 (kh_mem s) (p + i)) ∧
       ∀ a l x, (a, l) ∈ payloads HEAP_START bs → (a, l) ≠ (p, n) → a ≤ x < a + l →
         ld (kh_mem s') x = ld (kh_mem s) x).
Proof.
  intros Hi1 Hp Hn Hk Hperm Hq8 Hk8 Hlo Hhi Hap Hfr Hp8 Hn8.
  apply wp_bind, wp_copy_bytes. rewrite !Z.add_0_r. cbn [get_mem kheap_mem set_mem].
  set (m2 := copy_bytes _ q p (kh_mem s1)).
  assert (Hwf1 : mem_wf (kh_mem s1)) by apply Hi1.
  assert (Hout : same_outside (kh_mem s1) m2 q k).
  { intros x Hx. apply copy_bytes_word. intros i Hi'. apply (bytes_outside q k n); lia. }
  assert (Hq1 : (q, k) ∈ payloads HEAP_START bs1) by (rewrite Hperm; apply list_elem_of_here).
  assert (Hp1 : (p, n) ∈ payloads HEAP_START bs1) by (rewrite Hperm; by apply list_elem_of_further).
  assert (Hi2 : heap_inv (set_kh_mem m2 s1) bs1) by (eapply payload_inv; [exact Hi1|exact Hq1|by apply copy_bytes_wf|exact Hout]).
  apply wp_bind. eapply wp_mono; [apply (kfree_run _ _ _ _ Hi2 Hp1)|].
  intros [] s3 (Hi3 & Hfr3 & _). apply wp_ret. split; [done|].
  pose proof (a_free_payloads bs1 p n (links_ok _ _ _ _ (hi_links _ _ Hi2)) Hp1) as Hperm'.
  exists (a_free p bs1). cbn [set_kh_mem kh_mem] in Hfr3. split_and!; [done|by rewrite <- Hperm'| |].
  - intros i Hi'. assert (Hin : (q, k) ∈ payloads HEAP_START (a_free p bs1)).
    { rewrite Hperm' in Hq1. apply elem_of_cons in Hq1 as [[= -> ->]|?]; [lia|done]. }
    rewrite (ld8_word m2) by (eapply (proj2 Hfr3); [exact Hin|dlia]).
    unfold m2. rewrite copy_bytes_in; [|done| |lia].
    + apply ld8_word. eapply (proj2 Hfr); [exact Hp|dlia].
    + rewrite Forall_forall in Hap. destruct (Hap _ Hp) as [?|?]; cbn [fst snd] in *; lia.
  - intros a l x Ha Hne Hx.
    assert (Hin : (a, l) ∈ payloads HEAP_START (a_free p bs1)).
    { assert (Hin : (a, l) ∈ payloads HEAP_START bs1) by (rewrite Hperm; by apply list_elem_of_further).
      rewrite Hperm' in Hin. by apply elem_of_cons in Hin as [?|?]. }
    rewrite (proj2 Hfr3 _ _ _ Hin Hx), Hout; [apply (proj2 Hfr _ _ _ Ha Hx)|].
    rewrite Forall_forall in Hap. destruct (Hap _ Ha) as [?|?]; cbn [fst snd] in *; lia.
Qed.

Lemma krealloc_grow s bs p n new_size :
  heap_inv s bs → (p, n) ∈ payloads HEAP_START bs → n < new_size ≤ 2 ^ 64 - 8 →
  let body :=
    new_ptr ← kmalloc new_size;
    if new_ptr =? 0 then mret 0 else
    for_loop (Z.to_nat n) 0 (λ i, b ← load8 (p + i); store8 (new_ptr + i) b);;
    kfree p;;
    mret new_ptr in
  wp body s (λ q s', ∃ bs' k, heap_inv s' bs' ∧ new_size ≤ k ∧
       (p, n) :: payloads HEAP_START bs' ≡ₚ (q, k) :: payloads HEAP_START bs ∧
       (∀ i, 0 ≤ i < n → ld8 (kh_mem s') (q + i) = ld8 (kh_mem s) (p + i)) ∧
       ∀ a l x, (a, l) ∈ payloads HEAP_START bs → (a, l) ≠ (p, n) → a ≤ x < a + l →
         ld (kh_mem s') x = ld (kh_mem s) x)
  ∨ body s = Panic "kmalloc: Out of memory!".
Proof.
  intros Hi Hp Hsz body. pose proof (links_ok _ _ _ _ (hi_links _ _ Hi)) as Hok.
  destruct (payloads_range _ _ _ _ Hok HEAP_START_mod Hp) as (_ & _ & Hp8 & Hn8 & Hn).
  destruct (kmalloc_got s bs new_size Hi ltac:(lia)) as [Hk|Hk]; [left|right].
  2: { unfold body. by erewrite run_bind_panic by exact Hk. }
  apply wp_bind. eapply wp_mono; [exact Hk|]. clear Hk.
  intros q s1 (bs1 & k & Hi1 & Hk & Hperm & Hq8 & Hk8 & Hlo & Hhi & Hap & Hfr).
  rewrite (proj2 (Z.eqb_neq q 0)) by (unfold HEAP_START in *; lia).
  eapply wp_mono; [apply (krealloc_move s s1 bs bs1 p n q k new_size); (done || lia)|].
  intros q' s' (-> & bs' & H1 & H2 & H3 & H4). by exists bs', k.
Qed.

(** (functional): [krealloc] of a payload in use keeps the pointer when the
    block is large enough; otherwise it returns a fresh payload that starts
    with the contents of the old one, which is freed.  All other payloads keep
    their contents. *)
Theorem krealloc_spec s bs p n new_size :
  heap_inv s bs → (p, n) ∈ payloads HEAP_START bs → 0 ≤ new_size ≤ 2 ^ 64 - 8 →
  (new_size ≤ n → krealloc p new_size s = Ret (p, s)) ∧
  (n < new_size →
     wp (krealloc p new_size) s (λ q s', ∃ bs' k, heap_inv s' bs' ∧ new_size ≤ k ∧
       (p, n) :: payloads HEAP_START bs' ≡ₚ (q, k) :: payloads HEAP_START bs ∧
       (∀ i, 0 ≤ i < n → ld8 (kh_mem s') (q + i) = ld8 (kh_mem s) (p + i)) ∧
       ∀ a l x, (a, l) ∈ payloads HEAP_START bs → (a, l) ≠ (p, n) → a ≤ x < a + l →
         ld (kh_mem s') x = ld (kh_mem s) x)
     ∨ krealloc p new_size s = Panic "kmalloc: Out of memory!").
Proof.
  intros Hi Hp Hsz. pose proof (links_ok _ _ _ _ (hi_links _ _ Hi)) as Hok.
  destruct (payloads_range _ _ _ _ Hok HEAP_START_mod Hp) as (H1 & H2 & Hp8 & Hn8 & Hn).
  rewrite (hi_end _ _ Hi) in H2.
  assert (Hold : wp (get_size (u64 (p - BLOCK_HEADER_SIZE))) s (λ v s', v = n ∧ s' = s)).
  { destruct (payloads_elem _ _ _ _ Hp) as (pre & post & -> & ->).
    rewrite Z.add_simpl_r, u64_id by (heap_unfold; lia).
    eapply wp_get_size; [apply (hdr_of_links _ _ _ _ (hi_links _ _ Hi))|done]. }
  apply wp_run in Hold as (v & s' & Hold & -> & ->).
  assert (Hpos : p =? 0 = false) by (apply Z.eqb_neq; heap_unfold; lia).
  unfold krealloc. rewrite Hpos. split; intros Hlt.
  - erewrite run_bind by exact Hold. by rewrite (proj2 (Z.leb_le _ _)) by done.
  - assert (Hrun : ∀ k : Z → M kheap Z, (get_size (u64 (p - BLOCK_HEADER_SIZE)) ≫= k) s = k n s)
      by (intros k; by erewrite run_bind by exact Hold).
    destruct (krealloc_grow s bs p n new_size Hi Hp ltac:(lia)) as [Hk|Hk]; [left|right].
    + eapply wp_eq; [apply Hrun|]. by rewrite (proj2 (Z.leb_gt _ _)) by done.
    + rewrite Hrun. by rewrite (proj2 (Z.leb_gt _ _)) by done.
Qed.
Lemma krealloc_spec_witness :
  krealloc (HEAP_START + 24) 80 heap_104 = Ret (HEAP_START + 24, heap_104) ∧
  (wp (krealloc (HEAP_START + 24) 200) heap_104 (λ q s', ∃ bs' k, heap_inv s' bs' ∧ 200 ≤ k ∧
     (HEAP_START + 24, 104) :: payloads HEAP_START bs' ≡ₚ (q, k) :: [(HEAP_START + 24, 104)] ∧
     (∀ i, 0 ≤ i < 104 → ld8 (kh_mem s') (q + i) = ld8 (kh_mem heap_104) (HEAP_START + 24 + i)) ∧
     ∀ a l x, (a, l) ∈ [(HEAP_START + 24, 104)] → (a, l) ≠ (HEAP_START + 24, 104) → a ≤ x < a + l →
       ld (kh_mem s') x = ld (kh_mem heap_104) x)
   ∨ krealloc (HEAP_START + 24) 200 heap_104 = Panic "kmalloc: Out of memory!").
Proof.
  split.
  - apply (krealloc_spec heap_104 _ _ 104 80 heap_104_inv (list_elem_of_here _ _)); lia.
  - apply (krealloc_spec heap_104 _ _ 104 200 heap_104_inv (list_elem_of_here _ _)); lia.
Defined.
