(* ===== verification/Pcb.v ===== *)
(** * The process control block (include/kernel/process.h)

    The structures [context_t] and [process_t], their constants, and one
    functional update per field the code assigns.  Pointers are addresses
    ([Z], null is 0); [name] holds the bytes of the [char] array. *)
From S2P Require Import Prelude.

Inductive process_state_t :=
  | PROCESS_STATE_READY
  | PROCESS_STATE_RUNNING
  | PROCESS_STATE_BLOCKED
  | PROCESS_STATE_WAITING
  | PROCESS_STATE_ZOMBIE
  | PROCESS_STATE_TERMINATED.

#[export] Instance process_state_eq_dec : EqDecision process_state_t.
Proof. solve_decision. Defined.

Record context_t := Context {
  r15 : Z; r14 : Z; r13 : Z; r12 : Z; rbx : Z; rbp : Z;
  rsp : Z; rip : Z; rflags : Z;
}.

#[export] Instance context_eq_dec : EqDecision context_t.
Proof. solve_decision. Defined.

Record process_t := Process {
  p_pid : Z;
  p_name : list Z;
  p_context : context_t;
  p_state : process_state_t;
  p_page_table : Z;
  p_heap_start : Z;
  p_heap_current : Z;
  p_heap_max : Z;
  p_stack_bottom : Z;
  p_stack_top : Z;
  p_pages_allocated : Z;
  p_page_faults : Z;
  p_kernel_stack : Z;
  p_kernel_stack_size : Z;
  p_ticks_total : Z;
  p_ticks_remaining : Z;
  p_priority : Z;
  p_parent_pid : Z;
  p_exit_status : Z;
  p_fd_table : Z;
  p_next : Z;
  p_prev : Z;
  p_entry_point : Z;
}.

#[export] Instance process_eq_dec : EqDecision process_t.
Proof. solve_decision. Defined.

Definition MAX_PROCESSES : Z := 64.
Definition KERNEL_STACK_SIZE : Z := 8192.
Definition DEFAULT_QUANTUM : Z := 10.

(** A block of zero bytes read as a [process_t] ([kzalloc]). *)
Definition zero_context : context_t := Context 0 0 0 0 0 0 0 0 0.
Definition zero_process : process_t :=
  Process 0 (replicate 32 0) zero_context PROCESS_STATE_READY 0 0 0 0 0 0 0 0 0 0 0 0 0 0 0 0 0 0 0.

Definition set_pid (v : Z) (p : process_t) : process_t :=
  Process v (p_name p) (p_context p) (p_state p) (p_page_table p) (p_heap_start p)
    (p_heap_current p) (p_heap_max p) (p_stack_bottom p) (p_stack_top p)
    (p_pages_allocated p) (p_page_faults p) (p_kernel_stack p) (p_kernel_stack_size p)
    (p_ticks_total p) (p_ticks_remaining p) (p_priority p) (p_parent_pid p) (p_exit_status
    p) (p_fd_table p) (p_next p) (p_prev p) (p_entry_point p).
Definition set_name (v : list Z) (p : process_t) : process_t :=
  Process (p_pid p) v (p_context p) (p_state p) (p_page_table p) (p_heap_start p)
    (p_heap_current p) (p_heap_max p) (p_stack_bottom p) (p_stack_top p)
    (p_pages_allocated p) (p_page_faults p) (p_kernel_stack p) (p_kernel_stack_size p)
    (p_ticks_total p) (p_ticks_remaining p) (p_priority p) (p_parent_pid p) (p_exit_status
    p) (p_fd_table p) (p_next p) (p_prev p) (p_entry_point p).
Definition set_context (v : context_t) (p : process_t) : process_t :=
  Process (p_pid p) (p_name p) v (p_state p) (p_page_table p) (p_heap_start p)
    (p_heap_current p) (p_heap_max p) (p_stack_bottom p) (p_stack_top p)
    (p_pages_allocated p) (p_page_faults p) (p_kernel_stack p) (p_kernel_stack_size p)
    (p_ticks_total p) (p_ticks_remaining p) (p_priority p) (p_parent_pid p) (p_exit_status
    p) (p_fd_table p) (p_next p) (p_prev p) (p_entry_point p).
Definition set_state (v : process_state_t) (p : process_t) : process_t :=
  Process (p_pid p) (p_name p) (p_context p) v (p_page_table p) (p_heap_start p)
    (p_heap_current p) (p_heap_max p) (p_stack_bottom p) (p_stack_top p)
    (p_pages_allocated p) (p_page_faults p) (p_kernel_stack p) (p_kernel_stack_size p)
    (p_ticks_total p) (p_ticks_remaining p) (p_priority p) (p_parent_pid p) (p_exit_status
    p) (p_fd_table p) (p_next p) (p_prev p) (p_entry_point p).
Definition set_page_table (v : Z) (p : process_t) : process_t :=
  Process (p_pid p) (p_name p) (p_context p) (p_state p) v (p_heap_start p)
    (p_heap_current p) (p_heap_max p) (p_stack_bottom p) (p_stack_top p)
    (p_pages_allocated p) (p_page_faults p) (p_kernel_stack p) (p_kernel_stack_size p)
    (p_ticks_total p) (p_ticks_remaining p) (p_priority p) (p_parent_pid p) (p_exit_status
    p) (p_fd_table p) (p_next p) (p_prev p) (p_entry_point p).
Definition set_heap_start (v : Z) (p : process_t) : process_t :=
  Process (p_pid p) (p_name p) (p_context p) (p_state p) (p_page_table p) v
    (p_heap_current p) (p_heap_max p) (p_stack_bottom p) (p_stack_top p)
    (p_pages_allocated p) (p_page_faults p) (p_kernel_stack p) (p_kernel_stack_size p)
    (p_ticks_total p) (p_ticks_remaining p) (p_priority p) (p_parent_pid p) (p_exit_status
    p) (p_fd_table p) (p_next p) (p_prev p) (p_entry_point p).
Definition set_heap_current (v : Z) (p : process_t) : process_t :=
  Process (p_pid p) (p_name p) (p_context p) (p_state p) (p_page_table p) (p_heap_start p)
    v (p_heap_max p) (p_stack_bottom p) (p_stack_top p) (p_pages_allocated p)
    (p_page_faults p) (p_kernel_stack p) (p_kernel_stack_size p) (p_ticks_total p)
    (p_ticks_remaining p) (p_priority p) (p_parent_pid p) (p_exit_status p) (p_fd_table p)
    (p_next p) (p_prev p) (p_entry_point p).
Definition set_heap_max (v : Z) (p : process_t) : process_t :=
  Process (p_pid p) (p_name p) (p_context p) (p_state p) (p_page_table p) (p_heap_start p)
    (p_heap_current p) v (p_stack_bottom p) (p_stack_top p) (p_pages_allocated p)
    (p_page_faults p) (p_kernel_stack p) (p_kernel_stack_size p) (p_ticks_total p)
    (p_ticks_remaining p) (p_priority p) (p_parent_pid p) (p_exit_status p) (p_fd_table p)
    (p_next p) (p_prev p) (p_entry_point p).
Definition set_stack_bottom (v : Z) (p : process_t) : process_t :=
  Process (p_pid p) (p_name p) (p_context p) (p_state p) (p_page_table p) (p_heap_start p)
    (p_heap_current p) (p_heap_max p) v (p_stack_top p) (p_pages_allocated p)
    (p_page_faults p) (p_kernel_stack p) (p_kernel_stack_size p) (p_ticks_total p)
    (p_ticks_remaining p) (p_priority p) (p_parent_pid p) (p_exit_status p) (p_fd_table p)
    (p_next p) (p_prev p) (p_entry_point p).
Definition set_stack_top (v : Z) (p : process_t) : process_t :=
  Process (p_pid p) (p_name p) (p_context p) (p_state p) (p_page_table p) (p_heap_start p)
    (p_heap_current p) (p_heap_max p) (p_stack_bottom p) v (p_pages_allocated p)
    (p_page_faults p) (p_kernel_stack p) (p_kernel_stack_size p) (p_ticks_total p)
    (p_ticks_remaining p) (p_priority p) (p_parent_pid p) (p_exit_status p) (p_fd_table p)
    (p_next p) (p_prev p) (p_entry_point p).
Definition set_pages_allocated (v : Z) (p : process_t) : process_t :=
  Process (p_pid p) (p_name p) (p_context p) (p_state p) (p_page_table p) (p_heap_start p)
    (p_heap_current p) (p_heap_max p) (p_stack_bottom p) (p_stack_top p) v (p_page_faults
    p) (p_kernel_stack p) (p_kernel_stack_size p) (p_ticks_total p) (p_ticks_remaining p)
    (p_priority p) (p_parent_pid p) (p_exit_status p) (p_fd_table p) (p_next p) (p_prev p)
    (p_entry_point p).
Definition set_page_faults (v : Z) (p : process_t) : process_t :=
  Process (p_pid p) (p_name p) (p_context p) (p_state p) (p_page_table p) (p_heap_start p)
    (p_heap_current p) (p_heap_max p) (p_stack_bottom p) (p_stack_top p)
    (p_pages_allocated p) v (p_kernel_stack p) (p_kernel_stack_size p) (p_ticks_total p)
    (p_ticks_remaining p) (p_priority p) (p_parent_pid p) (p_exit_status p) (p_fd_table p)
    (p_next p) (p_prev p) (p_entry_point p).
Definition set_kernel_stack (v : Z) (p : process_t) : process_t :=
  Process (p_pid p) (p_name p) (p_context p) (p_state p) (p_page_table p) (p_heap_start p)
    (p_heap_current p) (p_heap_max p) (p_stack_bottom p) (p_stack_top p)
    (p_pages_allocated p) (p_page_faults p) v (p_kernel_stack_size p) (p_ticks_total p)
    (p_ticks_remaining p) (p_priority p) (p_parent_pid p) (p_exit_status p) (p_fd_table p)
    (p_next p) (p_prev p) (p_entry_point p).
Definition set_kernel_stack_size (v : Z) (p : process_t) : process_t :=
  Process (p_pid p) (p_name p) (p_context p) (p_state p) (p_page_table p) (p_heap_start p)
    (p_heap_current p) (p_heap_max p) (p_stack_bottom p) (p_stack_top p)
    (p_pages_allocated p) (p_page_faults p) (p_kernel_stack p) v (p_ticks_total p)
    (p_ticks_remaining p) (p_priority p) (p_parent_pid p) (p_exit_status p) (p_fd_table p)
    (p_next p) (p_prev p) (p_entry_point p).
Definition set_ticks_total (v : Z) (p : process_t) : process_t :=
  Process (p_pid p) (p_name p) (p_context p) (p_state p) (p_page_table p) (p_heap_start p)
    (p_heap_current p) (p_heap_max p) (p_stack_bottom p) (p_stack_top p)
    (p_pages_allocated p) (p_page_faults p) (p_kernel_stack p) (p_kernel_stack_size p) v
    (p_ticks_remaining p) (p_priority p) (p_parent_pid p) (p_exit_status p) (p_fd_table p)
    (p_next p) (p_prev p) (p_entry_point p).
Definition set_ticks_remaining (v : Z) (p : process_t) : process_t :=
  Process (p_pid p) (p_name p) (p_context p) (p_state p) (p_page_table p) (p_heap_start p)
    (p_heap_current p) (p_heap_max p) (p_stack_bottom p) (p_stack_top p)
    (p_pages_allocated p) (p_page_faults p) (p_kernel_stack p) (p_kernel_stack_size p)
    (p_ticks_total p) v (p_priority p) (p_parent_pid p) (p_exit_status p) (p_fd_table p)
    (p_next p) (p_prev p) (p_entry_point p).
Definition set_priority (v : Z) (p : process_t) : process_t :=
  Process (p_pid p) (p_name p) (p_context p) (p_state p) (p_page_table p) (p_heap_start p)
    (p_heap_current p) (p_heap_max p) (p_stack_bottom p) (p_stack_top p)
    (p_pages_allocated p) (p_page_faults p) (p_kernel_stack p) (p_kernel_stack_size p)
    (p_ticks_total p) (p_ticks_remaining p) v (p_parent_pid p) (p_exit_status p)
    (p_fd_table p) (p_next p) (p_prev p) (p_entry_point p).
Definition set_parent_pid (v : Z) (p : process_t) : process_t :=
  Process (p_pid p) (p_name p) (p_context p) (p_state p) (p_page_table p) (p_heap_start p)
    (p_heap_current p) (p_heap_max p) (p_stack_bottom p) (p_stack_top p)
    (p_pages_allocated p) (p_page_faults p) (p_kernel_stack p) (p_kernel_stack_size p)
    (p_ticks_total p) (p_ticks_remaining p) (p_priority p) v (p_exit_status p) (p_fd_table
    p) (p_next p) (p_prev p) (p_entry_point p).
Definition set_exit_status (v : Z) (p : process_t) : process_t :=
  Process (p_pid p) (p_name p) (p_context p) (p_state p) (p_page_table p) (p_heap_start p)
    (p_heap_current p) (p_heap_max p) (p_stack_bottom p) (p_stack_top p)
    (p_pages_allocated p) (p_page_faults p) (p_kernel_stack p) (p_kernel_stack_size p)
    (p_ticks_total p) (p_ticks_remaining p) (p_priority p) (p_parent_pid p) v (p_fd_table
    p) (p_next p) (p_prev p) (p_entry_point p).
Definition set_fd_table (v : Z) (p : process_t) : process_t :=
  Process (p_pid p) (p_name p) (p_context p) (p_state p) (p_page_table p) (p_heap_start p)
    (p_heap_current p) (p_heap_max p) (p_stack_bottom p) (p_stack_top p)
    (p_pages_allocated p) (p_page_faults p) (p_kernel_stack p) (p_kernel_stack_size p)
    (p_ticks_total p) (p_ticks_remaining p) (p_priority p) (p_parent_pid p) (p_exit_status
    p) v (p_next p) (p_prev p) (p_entry_point p).
Definition set_next (v : Z) (p : process_t) : process_t :=
  Process (p_pid p) (p_name p) (p_context p) (p_state p) (p_page_table p) (p_heap_start p)
    (p_heap_current p) (p_heap_max p) (p_stack_bottom p) (p_stack_top p)
    (p_pages_allocated p) (p_page_faults p) (p_kernel_stack p) (p_kernel_stack_size p)
    (p_ticks_total p) (p_ticks_remaining p) (p_priority p) (p_parent_pid p) (p_exit_status
    p) (p_fd_table p) v (p_prev p) (p_entry_point p).
Definition set_prev (v : Z) (p : process_t) : process_t :=
  Process (p_pid p) (p_name p) (p_context p) (p_state p) (p_page_table p) (p_heap_start p)
    (p_heap_current p) (p_heap_max p) (p_stack_bottom p) (p_stack_top p)
    (p_pages_allocated p) (p_page_faults p) (p_kernel_stack p) (p_kernel_stack_size p)
    (p_ticks_total p) (p_ticks_remaining p) (p_priority p) (p_parent_pid p) (p_exit_status
    p) (p_fd_table p) (p_next p) v (p_entry_point p).
Definition set_entry_point (v : Z) (p : process_t) : process_t :=
  Process (p_pid p) (p_name p) (p_context p) (p_state p) (p_page_table p) (p_heap_start p)
    (p_heap_current p) (p_heap_max p) (p_stack_bottom p) (p_stack_top p)
    (p_pages_allocated p) (p_page_faults p) (p_kernel_stack p) (p_kernel_stack_size p)
    (p_ticks_total p) (p_ticks_remaining p) (p_priority p) (p_parent_pid p) (p_exit_status
    p) (p_fd_table p) (p_next p) (p_prev p) v.
