(* ===== verification/Vmm.v ===== *)
(** * Virtual memory (src/mm/vmm.c, include/mm/vmm.h)

    Four-level page tables in physical memory.  The operations run over any
    state with a page allocator ([PageAllocator]), and load and store table
    entries in memory as the code does.  [tbl] follows a path of indices from
    a root; [vm_wf F s] says that the trees hanging off the roots in [F] are
    really trees: no page is reached on two paths, and none of them is free.
    From it follow the properties of the address spaces: mapping a page
    changes the translation of that page in that address space and no other,
    new pages are private, a clone has the same shape and the same contents in
    pages of its own.

    The translation look-aside buffer is not modelled: [invlpg] and the reload
    of [cr3] are no-ops here. *)
From S2P Require Import Prelude Mem PageAlloc Pmm Pcb.

Definition PAGE_PRESENT : Z := 1.
Definition PAGE_WRITABLE : Z := 2.
Definition PAGE_USER : Z := 4.

Definition USER_STACK_TOP : Z := 0x00007FFFFFFFE000.
Definition USER_STACK_SIZE : Z := 0x100000.
Definition USER_HEAP_START : Z := 0x400000.
Definition KERNEL_BASE : Z := 0xFFFF800000000000.

Definition PML4_INDEX (addr : Z) : Z := Z.land (Z.shiftr addr 39) 0x1FF.
Definition PDPT_INDEX (addr : Z) : Z := Z.land (Z.shiftr addr 30) 0x1FF.
Definition PD_INDEX (addr : Z) : Z := Z.land (Z.shiftr addr 21) 0x1FF.
Definition PT_INDEX (addr : Z) : Z := Z.land (Z.shiftr addr 12) 0x1FF.

(** [entry & PAGE_PRESENT], and [entry & ~0xFFF]. *)
Definition present (e : Z) : bool := negb (Z.land e PAGE_PRESENT =? 0).
Definition frame (e : Z) : Z := mask_down 12 e.

Section operations.
Context {S : Type} `{PageAllocator S}.
(** The kernel's own table, set up at boot ([pml4] of kernel.c). *)
Variable kernel_pml4 : Z.

Definition get_entry (table index : Z) : M S Z := load64 (table + 8 * index).
Definition set_entry (table index e : Z) : M S unit := store64 (table + 8 * index) e.

Definition vmm_get_or_create_table (parent_table index flags : Z) : M S Z :=
  entry ← get_entry parent_table index;
  if negb (present entry) then
    new_table ← pmm_alloc;
    if new_table =? 0 then mret 0 else
    set_entry parent_table index (Z.lor (Z.lor (frame new_table) flags) PAGE_PRESENT);;
    mret new_table
  else mret (frame entry).

Definition vmm_create_address_space : M S Z :=
  new_pml4 ← pmm_alloc;
  if new_pml4 =? 0 then mret 0 else
  for_loop 256 256 (λ i, e ← get_entry kernel_pml4 i; set_entry new_pml4 i e);;
  mret new_pml4.

Definition vmm_destroy_address_space (pml4_to_destroy : Z) : M S unit :=
  if (pml4_to_destroy =? 0) || (pml4_to_destroy =? kernel_pml4) then mret () else
  pmm_free pml4_to_destroy.

Definition vmm_map_page (pml4_table virt phys flags : Z) : M S Z :=
  let virt := mask_down 12 virt in
  let phys := mask_down 12 phys in
  let pdpt_flags := Z.lor PAGE_WRITABLE PAGE_USER in
  let pdpt_flags := if KERNEL_BASE <=? virt then Z.land pdpt_flags (Z.lnot PAGE_USER) else pdpt_flags in
  pdpt ← vmm_get_or_create_table pml4_table (PML4_INDEX virt) pdpt_flags;
  if pdpt =? 0 then mret (-1) else
  pd ← vmm_get_or_create_table pdpt (PDPT_INDEX virt) pdpt_flags;
  if pd =? 0 then mret (-1) else
  pt ← vmm_get_or_create_table pd (PD_INDEX virt) pdpt_flags;
  if pt =? 0 then mret (-1) else
  set_entry pt (PT_INDEX virt) (Z.lor (Z.lor (mask_down 12 phys) flags) PAGE_PRESENT);;
  mret 0.

Definition vmm_unmap_page (pml4_table virt : Z) : M S unit :=
  let virt := mask_down 12 virt in
  e4 ← get_entry pml4_table (PML4_INDEX virt);
  if (frame e4 =? 0) || negb (present e4) then mret () else
  e3 ← get_entry (frame e4) (PDPT_INDEX virt);
  if (frame e3 =? 0) || negb (present e3) then mret () else
  e2 ← get_entry (frame e3) (PD_INDEX virt);
  if (frame e2 =? 0) || negb (present e2) then mret () else
  set_entry (frame e2) (PT_INDEX virt) 0.

Definition vmm_get_physical (pml4_table virt : Z) : M S Z :=
  e4 ← get_entry pml4_table (PML4_INDEX virt);
  if negb (present e4) then mret 0 else
  e3 ← get_entry (frame e4) (PDPT_INDEX virt);
  if negb (present e3) then mret 0 else
  e2 ← get_entry (frame e3) (PD_INDEX virt);
  if negb (present e2) then mret 0 else
  e1 ← get_entry (frame e2) (PT_INDEX virt);
  if negb (present e1) then mret 0 else
  mret (Z.lor (frame e1) (Z.land virt 0xFFF)).

(** The loop of [vmm_alloc_user_pages] from page [i] on, [n] pages to go; the
    process structure is threaded through. *)
Fixpoint alloc_user_from (n : nat) (i virt_addr : Z) (process : process_t) : M S (Z * process_t) :=
  match n with
  | O => mret (0, process)
  | Datatypes.S n' =>
      phys_page ← pmm_alloc;
      if phys_page =? 0 then mret (-1, process) else
      let virt := u64 (virt_addr + i * PAGE_SIZE) in
      r ← vmm_map_page (p_page_table process) virt phys_page
            (Z.lor (Z.lor PAGE_PRESENT PAGE_WRITABLE) PAGE_USER);
      if r <? 0 then pmm_free phys_page;; mret (-1, process) else
      alloc_user_from n' (i + 1) virt_addr (set_pages_allocated (u64 (p_pages_allocated process + 1)) process)
  end.
Definition vmm_alloc_user_pages (process : process_t) (virt_addr count : Z) : M S (Z * process_t) :=
  if KERNEL_BASE <=? virt_addr then mret (-1, process) else
  alloc_user_from (Z.to_nat count) 0 virt_addr process.

Definition vmm_setup_user_stack (process : process_t) : M S (Z * process_t) :=
  let process := set_stack_top USER_STACK_TOP process in
  let process := set_stack_bottom (USER_STACK_TOP - USER_STACK_SIZE) process in
  vmm_alloc_user_pages process (p_stack_bottom process) (USER_STACK_SIZE / PAGE_SIZE).

Definition vmm_setup_user_heap (process : process_t) : Z * process_t :=
  let process := set_heap_start USER_HEAP_START process in
  let process := set_heap_current USER_HEAP_START process in
  let process := set_heap_max (USER_HEAP_START + 0x10000000) process in
  (0, process).

Definition clone_page (parent_page_phys flags : Z) : M S Z :=
  child_page ← pmm_alloc;
  if child_page =? 0 then mret 0 else
  for_loop 4096 0 (λ i, b ← load8 (parent_page_phys + i); store8 (child_page + i) b);;
  mret (Z.lor child_page flags).

(** One iteration of [clone_pt]; [Some] is the early return. *)
Definition clone_pt_step (parent_pt child_pt i : Z) : M S (option Z) :=
  e ← get_entry parent_pt i;
  if present e then
    v ← clone_page (frame e) (Z.land e 0xFFF);
    set_entry child_pt i v;;
    c ← get_entry child_pt i;
    if c =? 0 then pmm_free child_pt;; mret (Some 0) else mret None
  else set_entry child_pt i 0;; mret None.
Definition clone_pt (parent_pt_phys : Z) : M S Z :=
  child_pt ← pmm_alloc;
  if child_pt =? 0 then mret 0 else
  r ← for_until 512 0 (clone_pt_step parent_pt_phys child_pt);
  mret (default child_pt r).

(** One iteration of [clone_pd] and of [clone_pdpt], which differ in the
    function that clones the next level. *)
Definition clone_dir_step (clone_child : Z → M S Z) (parent child i : Z) : M S (option Z) :=
  e ← get_entry parent i;
  if present e then
    c ← clone_child (frame e);
    if c =? 0 then pmm_free child;; mret (Some 0) else
    e' ← get_entry parent i;
    set_entry child i (Z.lor c (Z.land e' 0xFFF));; mret None
  else set_entry child i 0;; mret None.
Definition clone_pd (parent_pd_phys : Z) : M S Z :=
  child_pd ← pmm_alloc;
  if child_pd =? 0 then mret 0 else
  r ← for_until 512 0 (clone_dir_step clone_pt parent_pd_phys child_pd);
  mret (default child_pd r).
Definition clone_pdpt (parent_pdpt_phys : Z) : M S Z :=
  child_pdpt ← pmm_alloc;
  if child_pdpt =? 0 then mret 0 else
  r ← for_until 512 0 (clone_dir_step clone_pd parent_pdpt_phys child_pdpt);
  mret (default child_pdpt r).

Definition clone_pml4_step (parent_pml4 child_pml4 i : Z) : M S (option Z) :=
  e ← get_entry parent_pml4 i;
  if present e then
    child_pdpt ← clone_pdpt (frame e);
    if child_pdpt =? 0 then vmm_destroy_address_space child_pml4;; mret (Some 0) else
    e' ← get_entry parent_pml4 i;
    set_entry child_pml4 i (Z.lor child_pdpt (Z.land e' 0xFFF));; mret None
  else mret None.
Definition vmm_clone_address_space (parent_pml4 : Z) : M S Z :=
  child_pml4 ← pmm_alloc;
  if child_pml4 =? 0 then mret 0 else
  for_loop 512 0 (λ i, set_entry child_pml4 i 0);;
  for_loop 256 256 (λ i, e ← get_entry parent_pml4 i; set_entry child_pml4 i e);;
  r ← for_until 256 0 (clone_pml4_step parent_pml4 child_pml4);
  mret (default child_pml4 r).

Definition vmm_clear_user_space (pml4 : Z) : M S unit :=
  for_loop 256 0 (λ i, e ← get_entry pml4 i;
    if present e then set_entry pml4 i 0 else mret ()).
End operations.

(** ** Page tables as trees *)

Definition entry (m : mem) (t i : Z) : Z := ld m (t + 8 * i).
Definition step (m : mem) (t i : Z) : option Z :=
  if present (entry m t i) then Some (frame (entry m t i)) else None.
(** The page reached from [r] along the indices [p]. *)
Fixpoint tbl (m : mem) (r : Z) (p : list Z) : option Z :=
  match p with
  | [] => Some r
  | i :: p' => match step m r i with Some t => tbl m t p' | None => None end
  end.

(** The extent of a tree: how many levels it has, and the bound on the first
    index (256 for the user half of an address space, 512 for other tables). *)
Abbreviation extent := (nat * Z)%type (only parsing).
Definition upath (h : extent) (p : list Z) : Prop :=
  (length p ≤ h.1)%nat ∧ Forall (λ i, 0 ≤ i < 512) p ∧
  match p with [] => True | i :: _ => i < h.2 end.

Abbreviation forest := (gmap Z (nat * Z)) (only parsing).
Definition reach (F : forest) (m : mem) (r : Z) (p : list Z) (t : Z) : Prop :=
  ∃ h, F !! r = Some h ∧ upath h p ∧ tbl m r p = Some t.

(** The trees of [F] are trees: aligned pages that satisfy [P], each reached in
    one way. *)
Record forest_wf (F : forest) (m : mem) (P : Z → Prop) : Prop := {
  fw_ok r p t : reach F m r p t → t mod PAGE_SIZE = 0 ∧ P t;
  fw_inj r1 p1 r2 p2 t : reach F m r1 p1 t → reach F m r2 p2 t → r1 = r2 ∧ p1 = p2;
}.

Definition page_of (x : Z) : Z := PAGE_SIZE * (x / PAGE_SIZE).

(** The page-table entry that translates [v], if it is present. *)
Definition dirs (v : Z) : list Z := [PML4_INDEX v; PDPT_INDEX v; PD_INDEX v].
Definition leaf (m : mem) (r v : Z) : option Z :=
  match tbl m r (dirs v) with
  | Some t => if present (entry m t (PT_INDEX v)) then Some (entry m t (PT_INDEX v)) else None
  | None => None
  end.

(** The entries of [c] mirror those of [t] down [k] levels, and the pages at
    the bottom have the same contents. *)
Fixpoint same_tree (m : mem) (k : nat) (n : Z) (t c : Z) : Prop :=
  match k with
  | O => ∀ i, 0 ≤ i < 512 → entry m c i = entry m t i
  | Datatypes.S k' => ∀ i, 0 ≤ i < n →
      present (entry m c i) = present (entry m t i) ∧
      (present (entry m t i) = true →
         Z.land (entry m c i) 0xFFF = Z.land (entry m t i) 0xFFF ∧
         same_tree m k' 512 (frame (entry m t i)) (frame (entry m c i)))
  end.

Section invariants.
Context {S : Type} `{PageAllocator S}.
Implicit Types s : S.

(** A page in use, as far as the allocator knows. *)
Definition owned s (t : Z) : Prop := pa_managed s (t / PAGE_SIZE) ∧ t / PAGE_SIZE ∉ pa_free s.

(** The address spaces (and loose trees) with roots in [F] are in order. *)
Record vm_wf (F : forest) s : Prop := {
  vw_pa : pa_inv s;
  vw_fw : forest_wf F (get_mem s) (owned s);
}.

(** [s'] comes from [s] by taking pages and writing only to those. *)
Record keeps s s' : Prop := {
  ke_managed p : pa_managed s' p ↔ pa_managed s p;
  ke_free : pa_free s' ⊆ pa_free s;
  ke_mem x : x / PAGE_SIZE ∉ pa_free s → ld (get_mem s') x = ld (get_mem s) x;
}.

(** Where mapping into the address space [r] may write: its tables, and pages
    that were free. *)
Definition touched (F : forest) (r : Z) s (x : Z) : Prop :=
  x / PAGE_SIZE ∈ pa_free s ∨ ∃ q, (length q ≤ 3)%nat ∧ reach F (get_mem s) r q (page_of x).

(** [s'] comes from [s] by work on the tables of [r]. *)
Record evolves (F : forest) (r : Z) s s' : Prop := {
  ev_wf : vm_wf F s';
  ev_managed p : pa_managed s' p ↔ pa_managed s p;
  ev_free : pa_free s' ⊆ pa_free s;
  ev_mem x : ¬ touched F r s x → ld (get_mem s') x = ld (get_mem s) x;
  ev_touched x : touched F r s' x → touched F r s x;
}.

(** The translations of all user addresses are the same. *)
Definition same_leaves (F : forest) s s' : Prop :=
  ∀ r h v, F !! r = Some h → (3 ≤ h.1)%nat → 256 ≤ h.2 → 0 ≤ v < 2 ^ 47 →
    leaf (get_mem s') r v = leaf (get_mem s) r v.
End invariants.

(** ** Paths *)

Lemma tbl_app m r p q : tbl m r (p ++ q) = match tbl m r p with Some t => tbl m t q | None => None end.
Proof. revert r. induction p as [|i p IH]; intros r; [done|]. cbn. destruct (step m r i); auto. Qed.
Lemma tbl_snoc m r p i : tbl m r (p ++ [i]) = match tbl m r p with Some t => step m t i | None => None end.
Proof. rewrite tbl_app. destruct (tbl m r p) as [t|]; [|done]. cbn. by destruct (step m t i). Qed.

#[local] Instance upath_dec h p : Decision (upath h p).
Proof. unfold upath. destruct p; apply _. Defined.
Lemma upath_nil h : upath h [].
Proof. split_and!; [cbn; lia|constructor|done]. Qed.
Lemma upath_app_l h p q : upath h (p ++ q) → upath h p.
Proof.
  intros (Hl & Hf & Hh). rewrite length_app in Hl. apply Forall_app in Hf as [Hf _].
  split_and!; [lia|done|]. by destruct p.
Qed.
Lemma upath_snoc h p i : upath h (p ++ [i]) → upath h p ∧ 0 ≤ i < 512.
Proof.
  intros Hp. split; [by eapply upath_app_l|]. destruct Hp as (_ & Hf & _).
  by apply Forall_app in Hf as [_ [? _]%Forall_cons].
Qed.

(** An entry belongs to one page only. *)
Lemma entry_addr t i t' i' :
  t mod PAGE_SIZE = 0 → t' mod PAGE_SIZE = 0 → 0 ≤ i < 512 → 0 ≤ i' < 512 →
  t + 8 * i = t' + 8 * i' → t = t' ∧ i = i'.
Proof. unfold PAGE_SIZE. intros. dlia. Qed.
Lemma entry_page t i : t mod PAGE_SIZE = 0 → 0 ≤ i < 512 → page_of (t + 8 * i) = t.
Proof. unfold page_of, PAGE_SIZE. intros. dlia. Qed.
Lemma entry_aligned t i : t mod PAGE_SIZE = 0 → (t + 8 * i) mod 8 = 0.
Proof. unfold PAGE_SIZE. intros. dlia. Qed.

Lemma prefix_snoc (p q : list Z) j : p `prefix_of` q → p `prefix_of` q ++ [j].
Proof. intros [k ->]. exists (k ++ [j]). by rewrite app_assoc. Qed.

Section forest_lemmas.
Context (F : forest) (m : mem) (P : Z → Prop) (Hwf : forest_wf F m P).

Lemma fw_root r h : F !! r = Some h → r mod PAGE_SIZE = 0 ∧ P r.
Proof using Hwf. intros Hr. apply (fw_ok _ _ _ Hwf r []). exists h. split_and!; [done|apply upath_nil|done]. Qed.

(** Memory outside the tables does not matter. *)
Lemma tbl_frame m' r h p :
  (∀ x, P (page_of x) → ld m' x = ld m x) → F !! r = Some h → upath h p →
  tbl m' r p = tbl m r p.
Proof using Hwf.
  intros Hm Hr. induction p as [|j p IH] using rev_ind; intros Hp; [done|].
  apply upath_snoc in Hp as [Hp Hj]. rewrite !tbl_snoc, IH by done.
  destruct (tbl m r p) as [t|] eqn:Ht; [|done].
  destruct (fw_ok _ _ _ Hwf r p t) as [Ht4 HPt]; [by exists h|].
  unfold step, entry. rewrite Hm; [done|]. by rewrite entry_page.
Qed.
Lemma forest_frame m' (P' : Z → Prop) :
  (∀ x, P (page_of x) → ld m' x = ld m x) → (∀ t, P t → P' t) → forest_wf F m' P'.
Proof using Hwf.
  intros Hm HP.
  assert (Hsame : ∀ r p t, reach F m' r p t → reach F m r p t).
  { intros r p t (h & Hr & Hp & Ht). exists h. split_and!; [done..|]. by rewrite <- (tbl_frame m' r h). }
  split.
  - intros r p t Ht%Hsame. destruct (fw_ok _ _ _ Hwf r p t Ht). auto.
  - intros r1 p1 r2 p2 t H1%Hsame H2%Hsame. by apply (fw_inj _ _ _ Hwf r1 p1 r2 p2 t).
Qed.

(** Writing entry [i] of the table at [r, p] changes only the paths through
    that entry. *)
Lemma tbl_write r p t i e r' h' q :
  reach F m r p t → 0 ≤ i < 512 → F !! r' = Some h' → upath h' q →
  ¬ (r' = r ∧ p ++ [i] `prefix_of` q) →
  tbl (st m (t + 8 * i) e) r' q = tbl m r' q.
Proof using Hwf.
  intros Ht Hi Hr'. induction q as [|j q IH] using rev_ind; intros Hq Hne; [done|].
  apply upath_snoc in Hq as [Hq Hj]. rewrite !tbl_snoc.
  rewrite IH; [|done|intros [-> Hpre]; apply Hne; split; [done|by apply prefix_snoc]].
  destruct (tbl m r' q) as [t'|] eqn:Ht'; [|done].
  assert (Hreach' : reach F m r' q t') by by exists h'.
  destruct (fw_ok _ _ _ Hwf _ _ _ Ht) as [Ht4 _]. destruct (fw_ok _ _ _ Hwf _ _ _ Hreach') as [Ht4' _].
  unfold step, entry. rewrite ld_st_other; [done|]. intros E.
  apply entry_addr in E as [-> ->]; [|done..].
  destruct (fw_inj _ _ _ Hwf r p r' q t') as [-> ->]; [done..|]. by apply Hne.
Qed.

(** An entry outside the extent of its tree is on no path. *)
Lemma forest_write_out r h p t i e :
  F !! r = Some h → reach F m r p t → 0 ≤ i < 512 → ¬ upath h (p ++ [i]) →
  forest_wf F (st m (t + 8 * i) e) P ∧
  ∀ r' h' q, F !! r' = Some h' → upath h' q → tbl (st m (t + 8 * i) e) r' q = tbl m r' q.
Proof using Hwf.
  intros Hr Ht Hi Hno.
  assert (Hsame : ∀ r' h' q, F !! r' = Some h' → upath h' q → tbl (st m (t + 8 * i) e) r' q = tbl m r' q).
  { intros r' h' q Hr' Hq. eapply tbl_write; try done. intros [-> [k ->]]. simplify_eq.
    apply Hno. by eapply upath_app_l. }
  split; [|done]. split.
  - intros r' q t' (h' & Hr' & Hq & Ht'). rewrite (Hsame r' h') in Ht' by done.
    apply (fw_ok _ _ _ Hwf r' q). by exists h'.
  - intros r1 p1 r2 p2 t' (h1 & Hr1 & Hp1 & Ht1) (h2 & Hr2 & Hp2 & Ht2).
    rewrite (Hsame r1 h1) in Ht1 by done. rewrite (Hsame r2 h2) in Ht2 by done.
    apply (fw_inj _ _ _ Hwf r1 p1 r2 p2 t'); [by exists h1|by exists h2].
Qed.

(** Clearing an entry cuts off the subtree below it. *)
Lemma forest_cut r h p t i e :
  F !! r = Some h → reach F m r p t → upath h (p ++ [i]) → present (u64 e) = false →
  forest_wf F (st m (t + 8 * i) e) P ∧
  (∀ q, tbl (st m (t + 8 * i) e) r (p ++ i :: q) = None).
Proof using Hwf.
  intros Hr Ht Hpi He. destruct (upath_snoc _ _ _ Hpi) as [Hp Hi].
  assert (Hcut : ∀ q, tbl (st m (t + 8 * i) e) r (p ++ i :: q) = None).
  { intros q. rewrite tbl_app. rewrite (tbl_write r p t i e r h p) by (try done; intros [_ [k Hk]];
      apply (f_equal length) in Hk; rewrite !length_app in Hk; cbn in Hk; lia).
    destruct Ht as (h0 & _ & _ & ->). cbn. unfold step, entry. by rewrite ld_st_same, He. }
  split; [|done].
  assert (Hsame : ∀ r' q t', reach F (st m (t + 8 * i) e) r' q t' → reach F m r' q t').
  { intros r' q t' (h' & Hr' & Hq & Ht'). exists h'. split_and!; [done..|].
    rewrite <- Ht'. symmetry. eapply tbl_write; try done. intros [-> [k ->]].
    rewrite <- app_assoc in Ht'. cbn in Ht'. by rewrite Hcut in Ht'. }
  split.
  - intros r' q t' Ht'%Hsame. by apply (fw_ok _ _ _ Hwf r' q).
  - intros r1 p1 r2 p2 t' H1%Hsame H2%Hsame. by apply (fw_inj _ _ _ Hwf r1 p1 r2 p2 t').
Qed.
End forest_lemmas.

(** Hanging the tree at [c] below entry [i] of the table at [r, p]. *)
Lemma forest_graft F m P c hc r h p t i e :
  forest_wf (<[c := hc]> F) m P → F !! c = None →
  F !! r = Some h → reach F m r p t → upath h (p ++ [i]) →
  (h.1 ≤ length p + 1 + hc.1)%nat → 512 ≤ hc.2 →
  present (u64 e) = true → frame (u64 e) = c →
  let m' := st m (t + 8 * i) e in
  forest_wf F m' P ∧ (∀ q, upath hc q → tbl m' r (p ++ i :: q) = tbl m c q).
Proof.
  intros Hwf Hc Hr Ht Hpi Hlen Hall He Hfr m'. destruct (upath_snoc _ _ _ Hpi) as [Hp Hi].
  assert (Hrc : r ≠ c) by congruence.
  assert (HF : ∀ r' h', F !! r' = Some h' → <[c:=hc]> F !! r' = Some h').
  { intros r' h' Hr'. rewrite lookup_insert_ne; [done|congruence]. }
  assert (Hbig : ∀ r' q t', reach F m r' q t' → reach (<[c:=hc]> F) m r' q t').
  { intros r' q t' (h' & Hr' & ? & ?). exists h'. auto. }
  assert (Hext : ∀ q, upath hc q → tbl m' r (p ++ i :: q) = tbl m c q).
  { intros q Hq. rewrite tbl_app. unfold m'.
    rewrite (tbl_write _ m P Hwf r p t i e r h p); [|auto..|].
    - pose proof Ht as (h0 & _ & _ & ->). cbn [tbl]. unfold step at 1, entry. rewrite ld_st_same, He, Hfr.
      apply (tbl_write _ m P Hwf r p t i e c hc q); auto.
      + by rewrite lookup_insert_eq.
      + intros [? _]. congruence.
    - intros [_ [k Hk]]. apply (f_equal length) in Hk. rewrite !length_app in Hk. cbn in Hk. lia. }
  split; [|done].
  (* a path either goes through the new entry or is as before *)
  assert (Hcase : ∀ r' q t', reach F m' r' q t' →
    (∃ k, r' = r ∧ q = p ++ i :: k ∧ reach (<[c:=hc]> F) m c k t') ∨
    (reach F m r' q t' ∧ F !! r' ≠ None)).
  { intros r' q t' (h' & Hr' & Hq & Ht').
    destruct (decide (r' = r ∧ p ++ [i] `prefix_of` q)) as [[-> [k ->]]|Hne].
    - left. rewrite <- app_assoc in *. cbn in *. simplify_eq. exists k. split_and!; [done..|].
      assert (Hk : upath hc k).
      { destruct Hq as (Hl & Hf & _). apply Forall_app in Hf as [_ [_ Hf]%Forall_cons].
        rewrite length_app, length_cons in Hl. split_and!; [lia|done|].
        destruct k; [done|]. apply Forall_cons in Hf as [? _]. lia. }
      exists hc. split_and!; [by rewrite lookup_insert_eq|done|]. by rewrite <- Hext.
    - right. split; [|congruence]. exists h'. split_and!; [done..|]. rewrite <- Ht'. symmetry.
      apply (tbl_write _ m P Hwf r p t i e r' h' q); auto. }
  split.
  - intros r' q t' [(k & -> & -> & Hk)|[Hk _]]%Hcase; eapply (fw_ok _ _ _ Hwf); eauto.
  - intros r1 p1 r2 p2 t' [(k1 & -> & -> & H1)|[H1 N1]]%Hcase [(k2 & -> & -> & H2)|[H2 N2]]%Hcase.
    + destruct (fw_inj _ _ _ Hwf c k1 c k2 t') as [_ ->]; auto.
    + destruct (fw_inj _ _ _ Hwf c k1 r2 p2 t') as [<- _]; auto. congruence.
    + destruct (fw_inj _ _ _ Hwf r1 p1 c k2 t') as [-> _]; auto. congruence.
    + apply (fw_inj _ _ _ Hwf r1 p1 r2 p2 t'); auto.
Qed.

(** A zeroed page is a tree of its own. *)
Lemma present_0 : present 0 = false.
Proof. done. Qed.
Lemma forest_fresh F m P c h :
  forest_wf F m P → ¬ P c → c mod PAGE_SIZE = 0 → (∀ i, 0 ≤ i < 512 → entry m c i = 0) ∨ h.1 = 0%nat →
  forest_wf (<[c := h]> F) m (λ t, P t ∨ t = c).
Proof.
  intros Hwf Hc Hc4 Hz.
  assert (Hcase : ∀ r p t, reach (<[c:=h]> F) m r p t → (r = c ∧ p = [] ∧ t = c) ∨ (reach F m r p t ∧ r ≠ c ∧ t ≠ c)).
  { intros r p t (h' & Hr & Hp & Ht). destruct (decide (r = c)) as [->|Hne].
    - rewrite lookup_insert_eq in Hr. simplify_eq. left. destruct p as [|i p]; [by injection Ht as ->|].
      exfalso. destruct Hp as (Hl & Hf & _). apply Forall_cons in Hf as [Hi _].
      destruct Hz as [Hz|Hz]; [|cbn in Hl; lia].
      cbn [tbl] in Ht. unfold step in Ht. by rewrite Hz in Ht.
    - rewrite lookup_insert_ne in Hr by done. right.
      assert (Hreach : reach F m r p t) by by exists h'. split_and!; [done..|].
      intros ->. apply Hc. by apply (fw_ok _ _ _ Hwf r p). }
  split.
  - intros r p t [(-> & -> & ->)|(Ht & _)]%Hcase; [by auto|].
    destruct (fw_ok _ _ _ Hwf r p t Ht). auto.
  - intros r1 p1 r2 p2 t [(-> & -> & ->)|(H1 & ? & ?)]%Hcase [(-> & -> & ?)|(H2 & ? & ?)]%Hcase; try done.
    by apply (fw_inj _ _ _ Hwf r1 p1 r2 p2 t).
Qed.
(** Forgetting a tree. *)
Lemma forest_drop F m P c h :
  forest_wf (<[c := h]> F) m P → F !! c = None →
  forest_wf F m (λ t, P t ∧ t ≠ c ∧ t mod PAGE_SIZE = 0).
Proof.
  intros Hwf Hc.
  assert (Hsub : ∀ r p t, reach F m r p t → reach (<[c := h]> F) m r p t ∧ r ≠ c).
  { intros r p t (h' & Hr & Hp & Ht). assert (r ≠ c) by congruence. split; [|done].
    exists h'. by rewrite lookup_insert_ne. }
  assert (Hroot : reach (<[c := h]> F) m c [] c)
    by (exists h; split_and!; [by rewrite lookup_insert_eq|apply upath_nil|done]).
  split.
  - intros r p t [Ht Hne]%Hsub. destruct (fw_ok _ _ _ Hwf r p t Ht). split_and!; [done..| |done].
    intros ->. destruct (fw_inj _ _ _ Hwf r p c [] c); auto.
  - intros r1 p1 r2 p2 t [H1 _]%Hsub [H2 _]%Hsub. by apply (fw_inj _ _ _ Hwf r1 p1 r2 p2 t).
Qed.
Lemma forest_sub F m P c h : forest_wf (<[c := h]> F) m P → F !! c = None → forest_wf F m P.
Proof. intros Hwf Hc. eapply forest_frame; [by eapply forest_drop|done|]. by intros t (? & _). Qed.

(** ** Entries and indices *)

Lemma present_odd e : present e = negb (e mod 2 =? 0).
Proof. unfold present, PAGE_PRESENT. change 1 with (2 ^ 1 - 1). by rewrite land_mask by lia. Qed.
Lemma frame_spec e : 0 ≤ e < 2 ^ 64 → frame e = e - e mod PAGE_SIZE.
Proof. intros. unfold frame. by rewrite mask_down_spec by lia. Qed.
Lemma frame_aligned a : 0 ≤ a < 2 ^ 64 → a mod PAGE_SIZE = 0 → frame a = a.
Proof. intros. rewrite frame_spec by done. lia. Qed.
Lemma frame_mod e : 0 ≤ e < 2 ^ 64 → frame e mod PAGE_SIZE = 0.
Proof. intros. rewrite frame_spec by done. unfold PAGE_SIZE. dlia. Qed.
Lemma flags_mod e : Z.land e 0xFFF = e mod PAGE_SIZE.
Proof. change 0xFFF with (2 ^ 12 - 1). by rewrite land_mask by lia. Qed.

(** The low bits of an entry hold the flags and the others the address. *)
Lemma lor_low a f : a mod PAGE_SIZE = 0 → 0 ≤ f < PAGE_SIZE → Z.lor a f = a + f.
Proof.
  intros Ha Hf. assert (Hland : Z.land a f = 0).
  { apply Z.bits_inj'. intros i Hi. rewrite Z.land_spec, Z.bits_0.
    destruct (decide (i < 12)).
    - assert (E : Z.testbit a i = false); [|by rewrite E].
      rewrite <- (Z.mod_pow2_bits_low a 12 i) by lia. change (2 ^ 12) with PAGE_SIZE. rewrite Ha. apply Z.bits_0.
    - rewrite (testbit_above 12 f); [apply andb_false_r|done|lia]. }
  by rewrite Z.add_nocarry_lxor, Z.lxor_lor.
Qed.
Lemma lor_flags f : 0 ≤ f < PAGE_SIZE → 0 ≤ Z.lor f PAGE_PRESENT < PAGE_SIZE.
Proof. intros. apply (lor_range 12); [done..|]. unfold PAGE_PRESENT. lia. Qed.
Lemma lor_present f : Z.lor f PAGE_PRESENT mod 2 = 1.
Proof. rewrite <- Z.bit0_mod, Z.lor_spec. change (Z.testbit PAGE_PRESENT 0) with true. by rewrite orb_true_r. Qed.
Lemma mk_entry a f :
  a mod PAGE_SIZE = 0 → 0 ≤ a < 2 ^ 64 → 0 ≤ f < PAGE_SIZE →
  let e := Z.lor (Z.lor a f) PAGE_PRESENT in
  u64 e = e ∧ present e = true ∧ frame e = a ∧ Z.land e 0xFFF = Z.lor f PAGE_PRESENT.
Proof.
  intros Ha Ha64 Hf. cbv zeta. rewrite <- Z.lor_assoc.
  pose proof (lor_flags f Hf) as Hr. pose proof (lor_present f) as Hp.
  rewrite lor_low by done. revert Hr Hp. generalize (Z.lor f PAGE_PRESENT). intros g Hg Hp.
  assert (a + g < 2 ^ 64) by (unfold PAGE_SIZE in *; change (2 ^ 64) with 18446744073709551616 in *; dlia).
  rewrite u64_id by lia. rewrite present_odd, frame_spec, flags_mod by lia.
  unfold PAGE_SIZE in *. split_and!; [done| |dlia|dlia]. apply negb_true_iff, Z.eqb_neq. dlia.
Qed.
(** [x | (e & 0xFFF)] for a present entry [e]. *)
Lemma mk_entry_like c e :
  c mod PAGE_SIZE = 0 → 0 ≤ c < 2 ^ 64 → present e = true →
  let e' := Z.lor c (Z.land e 0xFFF) in
  u64 e' = e' ∧ present e' = true ∧ frame e' = c ∧ Z.land e' 0xFFF = Z.land e 0xFFF.
Proof.
  intros Hc Hc64 He. cbv zeta. rewrite !flags_mod. rewrite present_odd in He. apply negb_true_iff, Z.eqb_neq in He.
  assert (Hf : 0 ≤ e mod PAGE_SIZE < PAGE_SIZE) by (apply Z.mod_pos_bound; done).
  rewrite lor_low by done.
  assert (c + e mod PAGE_SIZE < 2 ^ 64) by (unfold PAGE_SIZE in *; change (2 ^ 64) with 18446744073709551616 in *; dlia).
  rewrite u64_id by lia. rewrite present_odd, frame_spec by lia.
  unfold PAGE_SIZE in *. split_and!; [done| |dlia|dlia]. apply negb_true_iff, Z.eqb_neq. dlia.
Qed.

Lemma index_mod k v : 0 ≤ k → 0 ≤ v → Z.land (Z.shiftr v k) 0x1FF = (v / 2 ^ k) mod 512.
Proof. intros. change 0x1FF with (2 ^ 9 - 1). rewrite land_mask, Z.shiftr_div_pow2 by lia. done. Qed.
Lemma indices v : 0 ≤ v < 2 ^ 48 →
  v / PAGE_SIZE = ((PML4_INDEX v * 512 + PDPT_INDEX v) * 512 + PD_INDEX v) * 512 + PT_INDEX v ∧
  0 ≤ PML4_INDEX v < 512 ∧ 0 ≤ PDPT_INDEX v < 512 ∧ 0 ≤ PD_INDEX v < 512 ∧ 0 ≤ PT_INDEX v < 512.
Proof.
  intros Hv. unfold PML4_INDEX, PDPT_INDEX, PD_INDEX, PT_INDEX, PAGE_SIZE. rewrite !index_mod by lia.
  change (2 ^ 39) with 549755813888. change (2 ^ 30) with 1073741824. change (2 ^ 21) with 2097152.
  change (2 ^ 12) with 4096. change (2 ^ 48) with 281474976710656 in Hv. dlia.
Qed.
Lemma user_index v : 0 ≤ v < 2 ^ 47 → PML4_INDEX v < 256.
Proof.
  intros Hv. unfold PML4_INDEX. rewrite index_mod by lia. change (2 ^ 39) with 549755813888.
  change (2 ^ 47) with 140737488355328 in Hv. dlia.
Qed.
Lemma mask_index k v : 12 ≤ k → 0 ≤ v < 2 ^ 64 →
  Z.land (Z.shiftr (mask_down 12 v) k) 0x1FF = Z.land (Z.shiftr v k) 0x1FF.
Proof.
  intros Hk Hv. f_equal. apply Z.bits_inj'. intros i Hi. rewrite !Z.shiftr_spec by done.
  rewrite mask_down_bits by lia. by rewrite (proj2 (Z.ltb_ge _ _)) by lia.
Qed.
Lemma dirs_mask v : 0 ≤ v < 2 ^ 64 → dirs (mask_down 12 v) = dirs v ∧ PT_INDEX (mask_down 12 v) = PT_INDEX v.
Proof.
  intros Hv. unfold dirs, PML4_INDEX, PDPT_INDEX, PD_INDEX, PT_INDEX. by rewrite !mask_index by lia.
Qed.
Lemma dirs_inj v v' :
  0 ≤ v < 2 ^ 48 → 0 ≤ v' < 2 ^ 48 → dirs v = dirs v' → PT_INDEX v = PT_INDEX v' →
  v / PAGE_SIZE = v' / PAGE_SIZE.
Proof.
  intros Hv Hv' [= E1 E2 E3] E4. destruct (indices v Hv) as [-> _]. destruct (indices v' Hv') as [-> _].
  by rewrite E1, E2, E3, E4.
Qed.
Lemma dirs_page v v' :
  0 ≤ v < 2 ^ 48 → 0 ≤ v' < 2 ^ 48 → v / PAGE_SIZE = v' / PAGE_SIZE →
  dirs v = dirs v' ∧ PT_INDEX v = PT_INDEX v'.
Proof.
  intros Hv Hv' E. destruct (indices v Hv) as (E1 & ? & ? & ? & ?). destruct (indices v' Hv') as (E2 & ? & ? & ? & ?).
  rewrite E1, E2 in E. unfold dirs.
  assert (PT_INDEX v = PT_INDEX v' ∧ PD_INDEX v = PD_INDEX v' ∧ PDPT_INDEX v = PDPT_INDEX v' ∧
    PML4_INDEX v = PML4_INDEX v') as (-> & -> & -> & ->) by lia. done.
Qed.
Lemma leaf_page m r v v' :
  0 ≤ v < 2 ^ 48 → 0 ≤ v' < 2 ^ 48 → v / PAGE_SIZE = v' / PAGE_SIZE → leaf m r v = leaf m r v'.
Proof. intros Hv Hv' E. unfold leaf. by destruct (dirs_page v v' Hv Hv' E) as [-> ->]. Qed.
Lemma dirs_upath h v : 0 ≤ v < 2 ^ 47 → (3 ≤ h.1)%nat → 256 ≤ h.2 → upath h (dirs v).
Proof.
  intros Hv H1 H2. pose proof (user_index v Hv). destruct (indices v ltac:(lia)) as (_ & ? & ? & ? & ?).
  split_and!; [done| |cbn; lia]. unfold dirs. by rewrite !Forall_cons.
Qed.

(** ** Taking a page *)
Section pages.
Context {S : Type} `{PageAllocator S}.
Implicit Types s : S.

Lemma owned_range s t : pa_inv s → owned s t → t mod PAGE_SIZE = 0 → 0 < t < 2 ^ 52.
Proof.
  intros Hi [Hm _] Ht. pose proof (pa_managed_range s _ Hi Hm). unfold PAGE_SIZE in *.
  change (2 ^ 52) with (4096 * 2 ^ 40). dlia.
Qed.
Lemma reach_range F s r p t : vm_wf F s → reach F (get_mem s) r p t → t mod PAGE_SIZE = 0 ∧ 0 < t < 2 ^ 52.
Proof.
  intros Hwf Ht. destruct (fw_ok _ _ _ (vw_fw _ _ Hwf) _ _ _ Ht) as [H4 Ho].
  split; [done|]. eapply owned_range; [apply Hwf|done..].
Qed.
Lemma page_of_div x : page_of x / PAGE_SIZE = x / PAGE_SIZE.
Proof. unfold page_of, PAGE_SIZE. dlia. Qed.
Lemma keeps_refl s : keeps s s.
Proof. by split. Qed.
Lemma keeps_trans s1 s2 s3 : keeps s1 s2 → keeps s2 s3 → keeps s1 s3.
Proof.
  intros [A1 B1 C1] [A2 B2 C2]. split.
  - intros p. by rewrite A2, A1.
  - by transitivity (pa_free s2).
  - intros x Hx. rewrite C2 by set_solver. auto.
Qed.
Lemma keeps_owned s s' t : keeps s s' → owned s t → owned s' t.
Proof. intros [A B _] [H1 H2]. split; [by rewrite A|set_solver]. Qed.
Lemma keeps_wf F s s' : vm_wf F s → keeps s s' → pa_inv s' → vm_wf F s'.
Proof.
  intros [Hi Hf] Hk Hi'. split; [done|]. eapply forest_frame; [done| |].
  - intros x [_ Hx]. apply Hk. by rewrite page_of_div in Hx.
  - intros t. by apply keeps_owned.
Qed.
Lemma keeps_tbl F s s' r h p :
  vm_wf F s → keeps s s' → F !! r = Some h → upath h p → tbl (get_mem s') r p = tbl (get_mem s) r p.
Proof.
  intros [Hi Hf] Hk Hr Hp. eapply tbl_frame; [done| |done..].
  intros x [_ Hx]. apply Hk. by rewrite page_of_div in Hx.
Qed.

(** [pmm_alloc_page] gives the root of a new tree, a zeroed page. *)
Lemma wp_new_page F s h :
  vm_wf F s →
  wp pmm_alloc s (λ a s',
    (a = 0 ∧ pa_free s = ∅ ∧ s' = s) ∨
    (vm_wf (<[a := h]> F) s' ∧ F !! a = None ∧ keeps s s' ∧
     0 < a < 2 ^ 52 ∧ a mod PAGE_SIZE = 0 ∧ a / PAGE_SIZE ∈ pa_free s ∧
     pa_free s' = pa_free s ∖ {[a / PAGE_SIZE]} ∧ ∀ i, 0 ≤ i < 512 → entry (get_mem s') a i = 0)).
Proof.
  intros Hwf. eapply wp_mono; [apply pmm_alloc_ok, Hwf|].
  intros a s' (Hi' & Hman & [?|(p & -> & Hp & Hfree & Hz & Hout)]); [by left|right].
  assert (Hdiv : p * PAGE_SIZE / PAGE_SIZE = p) by (unfold PAGE_SIZE; dlia).
  assert (Hk : keeps s s').
  { split; [done|set_solver|]. intros x Hx. apply Hout. intros Hr. apply Hx.
    assert (x / PAGE_SIZE = p) as -> by (unfold PAGE_SIZE in *; dlia). done. }
  pose proof (pa_managed_range s p (vw_pa _ _ Hwf) (pa_free_managed s p (vw_pa _ _ Hwf) Hp)) as Hr.
  pose proof (keeps_wf _ _ _ Hwf Hk Hi') as Hwf'.
  assert (Hno : ¬ owned s (p * PAGE_SIZE)) by (intros [_ Hn]; by rewrite Hdiv in Hn).
  assert (Hc4 : (p * PAGE_SIZE) mod PAGE_SIZE = 0) by (unfold PAGE_SIZE; dlia).
  rewrite Hdiv. split_and!; try done.
  - split; [done|]. eapply (forest_frame _ _ (λ t, owned s t ∨ t = p * PAGE_SIZE)); [|done|].
    + eapply forest_fresh; [|done|done|by left].
      eapply forest_frame; [apply Hwf| |done]. intros x [_ Hx]. apply Hk. by rewrite page_of_div in Hx.
    + intros t [Ht| ->]; [by eapply keeps_owned|]. unfold owned. rewrite Hdiv, Hfree, Hman.
      split; [|set_solver]. by apply pa_free_managed; [apply Hwf|].
  - destruct (F !! (p * PAGE_SIZE)) as [h'|] eqn:E; [|done]. exfalso. apply Hno.
    by apply (fw_root F (get_mem s) (owned s) (vw_fw _ _ Hwf) _ h').
  - unfold PAGE_SIZE. lia.
  - change (2 ^ 52) with (2 ^ 40 * PAGE_SIZE). unfold PAGE_SIZE. lia.
Qed.
End pages.

(** ** Walking and extending the tables of one address space *)
Section walk.
Context {S : Type} `{PageAllocator S}.
Implicit Types s : S.

Lemma store_facts s m :
  pa_inv s → mem_wf m →
  pa_inv (set_mem m s) ∧ pa_free (set_mem m s) = pa_free s ∧
  (∀ p, pa_managed (set_mem m s) p ↔ pa_managed s p) ∧ (∀ t, owned (set_mem m s) t ↔ owned s t).
Proof.
  intros Hi Hm. destruct (pa_store s m Hi Hm) as (A & B & C). split_and!; [done..|].
  intros t. unfold owned. by rewrite B, C.
Qed.
Lemma wp_get_entry s t i Q : t mod PAGE_SIZE = 0 → Q (entry (get_mem s) t i) s → wp (get_entry t i) s Q.
Proof. intros. apply wp_load64; [by apply entry_aligned|done]. Qed.
Lemma wp_set_entry s t i e Q :
  t mod PAGE_SIZE = 0 → Q () (set_mem (st (get_mem s) (t + 8 * i) e) s) → wp (set_entry t i e) s Q.
Proof. intros. apply wp_store64; [by apply entry_aligned|done]. Qed.
(** Re-establish the invariant after a store, from the change to the forest. *)
Lemma vm_wf_store F F' s m :
  vm_wf F s → mem_wf m → forest_wf F' m (owned s) → vm_wf F' (set_mem m s).
Proof.
  intros Hwf Hm Hf. destruct (store_facts s m (vw_pa _ _ Hwf) Hm) as (A & B & C & D).
  split; [done|]. rewrite get_set_mem. eapply forest_frame; [exact Hf|done|]. intros t. by apply D.
Qed.
Lemma vm_mem_wf F s : vm_wf F s → mem_wf (get_mem s).
Proof. intros [Hi _]. by apply pa_mem_wf. Qed.

Lemma evolves_refl F r s : vm_wf F s → evolves F r s s.
Proof. by split. Qed.
Lemma evolves_trans F r s1 s2 s3 : evolves F r s1 s2 → evolves F r s2 s3 → evolves F r s1 s3.
Proof.
  intros [A1 B1 C1 D1 E1] [A2 B2 C2 D2 E2]. split; [done|..].
  - intros p. by rewrite B2, B1.
  - by transitivity (pa_free s2).
  - intros x Hx. rewrite D2 by auto. auto.
  - auto.
Qed.
Lemma same_leaves_trans F s1 s2 s3 : same_leaves F s1 s2 → same_leaves F s2 s3 → same_leaves F s1 s3.
Proof. intros A B r h v ????. rewrite (B r h), (A r h) by done. done. Qed.

Lemma leaf_same m m' r v :
  tbl m' r (dirs v) = tbl m r (dirs v) →
  (∀ t, tbl m r (dirs v) = Some t → entry m' t (PT_INDEX v) = entry m t (PT_INDEX v)) →
  leaf m' r v = leaf m r v.
Proof. intros Ht He. unfold leaf. rewrite Ht. destruct (tbl m r (dirs v)); [|done]. by rewrite He. Qed.

(** A fresh table linked below an absent entry: no translation changes. *)
Section link.
Context (F : forest) (s s1 : S) (r : Z) (h : extent) (p : list Z) (t i a e : Z).
Context (Hwf : vm_wf F s) (Hr : F !! r = Some h) (Ht : reach F (get_mem s) r p t)
  (Hpi : upath h (p ++ [i])) (Hlen : (length p ≤ 2)%nat)
  (Habs : present (entry (get_mem s) t i) = false).
Let hc : extent := ((h.1 - length p - 1)%nat, 512).
Context (Hwf1 : vm_wf (<[a := hc]> F) s1) (Hnone : F !! a = None) (Hk : keeps s s1)
  (Hin : a / PAGE_SIZE ∈ pa_free s) (Ha4 : a mod PAGE_SIZE = 0)
  (Hz : ∀ j, 0 ≤ j < 512 → entry (get_mem s1) a j = 0)
  (Hpe : present (u64 e) = true) (Hfe : frame (u64 e) = a).
Let s2 : S := set_mem (st (get_mem s1) (t + 8 * i) e) s1.

Lemma link_reach1 : reach F (get_mem s1) r p t.
Proof using Hwf Hk Ht.
  destruct Ht as (h0 & E1 & E2 & E3). exists h0. split_and!; [done..|]. by rewrite (keeps_tbl F s s1 r h0).
Qed.
Lemma link_graft :
  forest_wf F (get_mem s2) (owned s1) ∧
  ∀ q, upath hc q → tbl (get_mem s2) r (p ++ i :: q) = tbl (get_mem s1) a q.
Proof using All.
  unfold s2. rewrite get_set_mem. apply (forest_graft F _ (owned s1) a hc r h p t i e); try done.
  - apply Hwf1.
  - apply link_reach1.
  - destruct Hpi as [Hpl _]. rewrite length_app in Hpl. cbn in *. lia.
Qed.
Lemma link_other r' h' q :
  F !! r' = Some h' → upath h' q → ¬ (r' = r ∧ p ++ [i] `prefix_of` q) →
  tbl (get_mem s2) r' q = tbl (get_mem s) r' q.
Proof using Hwf Hwf1 Hk Hnone Ht Hpi.
  intros Hr' Hq Hne. unfold s2. rewrite get_set_mem, <- (keeps_tbl F s s1 r' h') by done.
  apply (tbl_write _ (get_mem s1) _ (vw_fw _ _ Hwf1) r p t i e r' h' q); try done.
  - destruct link_reach1 as (h0 & E1 & E2 & E3). exists h0. rewrite lookup_insert_ne by congruence. done.
  - by apply upath_snoc in Hpi as [_ ?].
  - rewrite lookup_insert_ne by congruence. done.
Qed.
(** Below the new entry there is only the new, empty table. *)
Lemma link_below q :
  upath h (p ++ i :: q) → tbl (get_mem s2) r (p ++ i :: q) = match q with [] => Some a | _ => None end.
Proof using All.
  intros (Hl & Hf & _). apply Forall_app in Hf as [_ [_ Hf]%Forall_cons]. rewrite length_app, length_cons in Hl.
  rewrite (proj2 link_graft q).
  - destruct q as [|j q]; [done|]. apply Forall_cons in Hf as [Hj _]. cbn [tbl]. unfold step. by rewrite Hz.
  - split_and!; [unfold hc; cbn; lia|done|]. destruct q; [done|]. apply Forall_cons in Hf as [? _]. unfold hc. cbn. lia.
Qed.
Lemma link_evolves : evolves F r s s2.
Proof using All.
  assert (Hm2 : mem_wf (st (get_mem s1) (t + 8 * i) e)) by (apply mem_wf_st; by eapply vm_mem_wf).
  destruct (store_facts s1 _ (vw_pa _ _ Hwf1) Hm2) as (Hi2 & Hfree2 & Hman2 & _).
  destruct (reach_range F s r p t Hwf Ht) as [Ht4 _]. destruct (upath_snoc _ _ _ Hpi) as [_ Hi].
  split.
  - eapply vm_wf_store; [done|done|]. pose proof (proj1 link_graft) as Hg. unfold s2 in Hg. by rewrite get_set_mem in Hg.
  - intros p'. unfold s2. rewrite Hman2. apply Hk.
  - unfold s2. rewrite Hfree2. apply Hk.
  - intros x Hx. unfold s2. rewrite get_set_mem, ld_st_other.
    + apply Hk. intros Hf. apply Hx. by left.
    + intros <-. apply Hx. right. exists p. rewrite entry_page by done. split; [lia|done].
  - intros x [Hf|(q & Hq & h0 & E1 & Hq' & E3)].
    + left. unfold s2 in Hf. rewrite Hfree2 in Hf. by apply (ke_free _ _ Hk).
    + assert (h0 = h) as -> by congruence. clear E1. destruct (decide (r = r ∧ p ++ [i] `prefix_of` q)) as [[_ [k ->]]|Hne].
      * left. rewrite <- app_assoc in E3, Hq'. cbn in E3, Hq'. rewrite link_below in E3 by done.
        destruct k; [|done]. injection E3 as E3. rewrite <- page_of_div, <- E3. done.
      * right. exists q. split; [done|]. exists h. split_and!; [done..|]. by rewrite <- (link_other r h).
Qed.
Lemma link_same_leaves : same_leaves F s s2.
Proof using All.
  intros r' h' v Hr' Hh3 Hh2 Hv. pose proof (dirs_upath h' v Hv Hh3 Hh2) as Hdv.
  destruct (indices v ltac:(lia)) as (_ & _ & _ & _ & Hpt).
  destruct (reach_range F s r p t Hwf Ht) as [Ht4 _]. destruct (upath_snoc _ _ _ Hpi) as [_ Hi].
  destruct (decide (r' = r ∧ p ++ [i] `prefix_of` dirs v)) as [[-> [k Hd]]|Hne].
  - rewrite <- app_assoc in Hd. cbn in Hd. assert (h' = h) as -> by congruence.
    unfold leaf. rewrite Hd in *.
    assert (Hold : tbl (get_mem s) r (p ++ i :: k) = None).
    { rewrite tbl_app. destruct Ht as (? & _ & _ & ->). cbn [tbl]. unfold step. by rewrite Habs. }
    rewrite Hold, link_below by done. destruct k as [|j k]; [|done].
    unfold s2, entry. rewrite get_set_mem, ld_st_other.
    + fold (entry (get_mem s1) a (PT_INDEX v)). by rewrite Hz.
    + intros E. apply entry_addr in E as [-> _]; [|done..].
      destruct (fw_ok _ _ _ (vw_fw _ _ Hwf) _ _ _ Ht) as [_ [_ Hn]]. done.
  - apply leaf_same; [by apply (link_other r' h')|]. intros t' Ht'.
    assert (Hreach' : reach F (get_mem s) r' (dirs v) t') by by exists h'.
    destruct (reach_range F s _ _ _ Hwf Hreach') as [Ht4' _].
    unfold s2, entry. rewrite get_set_mem, ld_st_other.
    + apply Hk. destruct (fw_ok _ _ _ (vw_fw _ _ Hwf) _ _ _ Hreach') as [_ [_ Hn]].
      rewrite <- page_of_div. by rewrite entry_page.
    + intros E. apply entry_addr in E as [<- _]; [|done..].
      destruct (fw_inj _ _ _ (vw_fw _ _ Hwf) _ _ _ _ _ Ht Hreach') as [_ Hpd]. subst p. cbn in Hlen. lia.
Qed.
Lemma link_reach : reach F (get_mem s2) r (p ++ [i]) a.
Proof using All. exists h. split_and!; [done..|]. by rewrite link_below. Qed.
End link.

Lemma wp_get_or_create F s r h p t i fl :
  vm_wf F s → F !! r = Some h → reach F (get_mem s) r p t → upath h (p ++ [i]) → (length p ≤ 2)%nat →
  0 ≤ fl < PAGE_SIZE →
  wp (vmm_get_or_create_table t i fl) s (λ a s',
    (a = 0 ∧ pa_free s = ∅ ∧ s' = s) ∨
    (a ≠ 0 ∧ evolves F r s s' ∧ same_leaves F s s' ∧ reach F (get_mem s') r (p ++ [i]) a)).
Proof.
  intros Hwf Hr Ht Hpi Hlen Hfl. destruct (reach_range F s r p t Hwf Ht) as [Ht4 _].
  apply wp_bind, wp_get_entry; [done|]. destruct (present _) eqn:He; cbn [negb].
  - apply wp_ret. right.
    assert (Hreach : reach F (get_mem s) r (p ++ [i]) (frame (entry (get_mem s) t i))).
    { exists h. split_and!; [done..|]. rewrite tbl_snoc. destruct Ht as (? & _ & _ & ->).
      unfold step. by rewrite He. }
    split_and!; [|by apply evolves_refl|done|done].
    pose proof (reach_range F s _ _ _ Hwf Hreach). lia.
  - apply wp_bind. eapply wp_mono; [by eapply wp_new_page|].
    intros a s1 [(-> & Hfree & ->)|(Hwf1 & Hnone & Hk & Ha & Ha4 & Hin & _ & Hz)].
    + apply wp_ret. by left.
    + rewrite (proj2 (Z.eqb_neq a 0)) by lia.
      rewrite (frame_aligned a) by (done || lia).
      destruct (mk_entry a fl Ha4 ltac:(lia) Hfl) as (Hu & Hpr & Hfr & _).
      apply wp_bind, wp_set_entry; [done|]. apply wp_ret. right. split; [lia|].
      rewrite <- Hu in Hpr, Hfr. split_and!.
      * by apply (link_evolves F s s1 r h p t i a).
      * by apply (link_same_leaves F s s1 r h p t i a).
      * by apply (link_reach F s s1 r h p t i a).
Qed.

Lemma user_not_kernel v : 0 ≤ v < 2 ^ 47 → KERNEL_BASE <=? mask_down 12 v = false.
Proof.
  intros Hv. rewrite mask_down_spec by lia. apply Z.leb_gt. unfold KERNEL_BASE.
  change (2 ^ 47) with 140737488355328 in Hv. change (2 ^ 12) with 4096. dlia.
Qed.
Lemma frame_frame x : 0 ≤ x < 2 ^ 64 → frame (frame x) = frame x.
Proof. intros. apply frame_aligned; [|by apply frame_mod]. rewrite frame_spec by done. unfold PAGE_SIZE. dlia. Qed.

(** [vmm_map_page] up to the final store. *)
Lemma map_page_walk F s r h virt phys fl (Q : Z → S → Prop) :
  vm_wf F s → F !! r = Some h → (3 ≤ h.1)%nat → 256 ≤ h.2 → 0 ≤ virt < 2 ^ 47 → 0 ≤ phys < 2 ^ 64 →
  (∀ s' pt, evolves F r s s' → same_leaves F s s' → reach F (get_mem s') r (dirs virt) pt →
     wp (set_entry pt (PT_INDEX virt) (Z.lor (Z.lor (frame phys) fl) PAGE_PRESENT);; mret 0) s' Q) →
  (∀ s', evolves F r s s' → same_leaves F s s' → pa_free s' = ∅ → Q (-1) s') →
  wp (vmm_map_page r virt phys fl) s Q.
Proof.
  intros Hwf Hr H3 H2 Hv Hph Hok Hfail. unfold vmm_map_page. cbv zeta.
  pose proof (dirs_upath h virt Hv H3 H2) as Hd.
  destruct (dirs_mask virt ltac:(lia)) as [Hdm Hpm]. injection Hdm as E1 E2 E3.
  rewrite E1, E2, E3, Hpm, user_not_kernel by done. fold (frame phys) (frame (frame phys)).
  rewrite frame_frame by done. change (Z.lor PAGE_WRITABLE PAGE_USER) with 6.
  assert (Hd2 : upath h [PML4_INDEX virt; PDPT_INDEX virt]) by apply (upath_app_l h [_; _] [_] Hd).
  assert (Hd1 : upath h [PML4_INDEX virt]) by apply (upath_app_l h [_] [_] Hd2).
  assert (Hr0 : reach F (get_mem s) r [] r) by (exists h; split_and!; [done|apply upath_nil|done]).
  apply wp_bind. eapply wp_mono; [apply (wp_get_or_create F s r h [] r _ 6); cbn; (done || lia)|].
  intros t1 s1 [(-> & Hf & ->)|(Ht1 & Hev1 & Hsl1 & Hre1)].
  { apply wp_ret, Hfail; [by apply evolves_refl|done|done]. }
  rewrite (proj2 (Z.eqb_neq t1 0)) by done.
  apply wp_bind. eapply wp_mono.
  { apply (wp_get_or_create F s1 r h [PML4_INDEX virt] t1 _ 6); cbn; try (done || lia). apply Hev1. }
  intros t2 s2 [(-> & Hf & ->)|(Ht2 & Hev2 & Hsl2 & Hre2)].
  { apply wp_ret, Hfail; done. }
  pose proof (evolves_trans _ _ _ _ _ Hev1 Hev2) as Hev2'. pose proof (same_leaves_trans _ _ _ _ Hsl1 Hsl2) as Hsl2'.
  rewrite (proj2 (Z.eqb_neq t2 0)) by done.
  apply wp_bind. eapply wp_mono.
  { apply (wp_get_or_create F s2 r h [PML4_INDEX virt; PDPT_INDEX virt] t2 _ 6); cbn; try (done || lia). apply Hev2. }
  intros t3 s3 [(-> & Hf & ->)|(Ht3 & Hev3 & Hsl3 & Hre3)].
  { apply wp_ret, Hfail; done. }
  rewrite (proj2 (Z.eqb_neq t3 0)) by done. apply Hok; [|by eapply same_leaves_trans|done].
  by eapply evolves_trans.
Qed.

(** Writing the last entry on the way to [virt] changes the translation of that
    page in that address space and nothing else. *)
Lemma set_leaf F s r h virt pt e :
  vm_wf F s → F !! r = Some h → (3 ≤ h.1)%nat → 256 ≤ h.2 → 0 ≤ virt < 2 ^ 47 →
  reach F (get_mem s) r (dirs virt) pt →
  let m' := st (get_mem s) (pt + 8 * PT_INDEX virt) e in
  leaf m' r virt = (if present (u64 e) then Some (u64 e) else None) ∧
  (∀ r' h' v, F !! r' = Some h' → (3 ≤ h'.1)%nat → 256 ≤ h'.2 → 0 ≤ v < 2 ^ 47 →
     r' ≠ r ∨ v / PAGE_SIZE ≠ virt / PAGE_SIZE → leaf m' r' v = leaf (get_mem s) r' v).
Proof.
  intros Hwf Hr H3 H2 Hv Hpt m'. destruct (indices virt ltac:(lia)) as (_ & _ & _ & _ & Hi).
  destruct (reach_range F s _ _ _ Hwf Hpt) as [Hpt4 _].
  assert (Hsame : ∀ r' h' v, F !! r' = Some h' → (3 ≤ h'.1)%nat → 256 ≤ h'.2 → 0 ≤ v < 2 ^ 47 →
    tbl m' r' (dirs v) = tbl (get_mem s) r' (dirs v)).
  { intros r' h' v Hr' ???. apply (tbl_write F _ (owned s) (vw_fw _ _ Hwf) r (dirs virt) pt _ e r' h'); try done.
    - by apply dirs_upath.
    - intros [_ Hpre]. apply prefix_length in Hpre. cbn in Hpre. lia. }
  split.
  - unfold leaf. rewrite (Hsame r h) by done. pose proof Hpt as (? & _ & _ & ->).
    unfold m', entry. by rewrite ld_st_same.
  - intros r' h' v Hr' ??? Hne. apply leaf_same; [by eapply Hsame|]. intros t Ht.
    assert (Hreach : reach F (get_mem s) r' (dirs v) t) by (exists h'; split_and!; [done|by apply dirs_upath|done]).
    destruct (reach_range F s _ _ _ Hwf Hreach) as [Ht4 _].
    destruct (indices v ltac:(lia)) as (_ & _ & _ & _ & Hi').
    unfold m', entry. rewrite ld_st_other; [done|]. intros E. apply entry_addr in E as [<- E]; [|done..].
    destruct (fw_inj _ _ _ (vw_fw _ _ Hwf) _ _ _ _ _ Hpt Hreach) as [-> Hd].
    destruct Hne as [?|Hne]; [done|]. apply Hne. symmetry. by apply dirs_inj; [lia|lia|..].
Qed.

(** The memory a write to a table of [r] may change. *)
Lemma set_leaf_evolves F s r h virt pt e :
  vm_wf F s → F !! r = Some h → (3 ≤ h.1)%nat → 256 ≤ h.2 → 0 ≤ virt < 2 ^ 47 →
  reach F (get_mem s) r (dirs virt) pt →
  let m' := st (get_mem s) (pt + 8 * PT_INDEX virt) e in
  forest_wf F m' (owned s) → evolves F r s (set_mem m' s).
Proof.
  intros Hwf Hr H3 H2 Hv Hpt m' Hf'. destruct (indices virt ltac:(lia)) as (_ & _ & _ & _ & Hi).
  destruct (reach_range F s _ _ _ Hwf Hpt) as [Hpt4 _].
  assert (Hm : mem_wf m') by (apply mem_wf_st; by eapply vm_mem_wf).
  destruct (store_facts s m' (vw_pa _ _ Hwf) Hm) as (Hi2 & Hfree2 & Hman2 & _).
  split; [by eapply vm_wf_store|done|by rewrite Hfree2|..].
  - intros x Hx. rewrite get_set_mem. apply ld_st_other. intros <-. apply Hx. right.
    exists (dirs virt). rewrite entry_page by done. split; [cbn; lia|done].
  - intros x [Hx|(q & Hq & h' & E1 & E2 & E3)]; [left; by rewrite <- Hfree2|right].
    exists q. split; [done|]. exists h'. split_and!; [done..|]. rewrite <- E3, get_set_mem. symmetry.
    apply (tbl_write F _ (owned s) (vw_fw _ _ Hwf) r (dirs virt) pt _ e r h'); try done.
    intros [_ Hpre]. apply prefix_length in Hpre. cbn in Hpre. lia.
Qed.
End walk.

(** A state of the bitmap allocator with an empty address space at
    [demo_root], a kernel table at [demo_kernel] and ten free pages. *)
Definition demo_root : Z := 0x500000.
Definition demo_kernel : Z := 0x300000.
Definition demo_phys : phys := some_free_phys (seqZ 1024 10).
Definition demo_forest (h : nat) : forest := {[ demo_root := (h, 256) ]}.

Lemma demo_wf h : vm_wf (demo_forest h) demo_phys.
Proof.
  destruct (some_free_ok (seqZ 1024 10)) as (Hwf & Hf & Ht & Hm).
  { apply NoDup_seqZ. }
  { apply Forall_forall. intros p. rewrite elem_of_seqZ. lia. }
  split; [exact Hwf|]. cbn [get_mem phys_mem]. unfold demo_phys. rewrite Hm.
  eapply (forest_frame _ _ (λ t, False ∨ t = demo_root)); [|done|].
  - apply forest_fresh; [|by intros []|done|by left].
    split; [intros r p t (h' & Hr & _)|intros r1 p1 r2 p2 t (h' & Hr & _)]; by rewrite lookup_empty in Hr.
  - intros t [[]| ->]. unfold owned. cbn [pa_managed pa_free Pmm_allocator].
    rewrite Ht, Hf, elem_of_list_to_set, elem_of_seqZ, first_page. change (demo_root / PAGE_SIZE) with 1280. lia.
Qed.

(** ** Address spaces *)
Section theorems.
Context {S : Type} `{PageAllocator S}.
Implicit Types s : S.

Lemma map_page_ok F s r virt phys fl :
  vm_wf F s → F !! r = Some (3%nat, 256) → 0 ≤ virt < 2 ^ 47 → 0 ≤ phys < 2 ^ 64 → 0 ≤ fl < PAGE_SIZE →
  wp (vmm_map_page r virt phys fl) s (λ res s',
    vm_wf F s' ∧ pa_free s' ⊆ pa_free s ∧
    (∀ x, ¬ touched F r s x → ld (get_mem s') x = ld (get_mem s) x) ∧
    ((res = 0 ∧
      leaf (get_mem s') r virt = Some (Z.lor (Z.lor (frame phys) fl) PAGE_PRESENT) ∧
      ∀ r' h v, F !! r' = Some h → (3 ≤ h.1)%nat → 256 ≤ h.2 → 0 ≤ v < 2 ^ 47 →
        r' ≠ r ∨ v / PAGE_SIZE ≠ virt / PAGE_SIZE → leaf (get_mem s') r' v = leaf (get_mem s) r' v) ∨
     (res = -1 ∧ pa_free s' = ∅ ∧ same_leaves F s s'))).
Proof.
  intros Hwf Hr Hv Hph Hfl. eapply (map_page_walk F s r (3%nat, 256)); try (done || cbn; lia).
  - intros s1 pt Hev Hsl Hpt. pose proof (ev_wf _ _ _ _ Hev) as Hwf1.
    destruct (reach_range F s1 _ _ _ Hwf1 Hpt) as [Hpt4 _].
    destruct (indices virt ltac:(lia)) as (_ & _ & _ & _ & Hi).
    apply wp_bind, wp_set_entry; [done|]. apply wp_ret.
    assert (Hf64 : 0 ≤ frame phys < 2 ^ 64) by (rewrite frame_spec by done; unfold PAGE_SIZE; dlia).
    destruct (mk_entry (frame phys) fl (frame_mod _ Hph) Hf64 Hfl) as (Hu & Hp & _).
    set (e := Z.lor _ PAGE_PRESENT) in *.
    destruct (forest_write_out F _ _ (vw_fw _ _ Hwf1) r (3%nat, 256) (dirs virt) pt (PT_INDEX virt) e Hr Hpt Hi)
      as [Hf' _].
    { intros [Hl _]. cbn in Hl. lia. }
    destruct (set_leaf F s1 r (3%nat, 256) virt pt e Hwf1 Hr ltac:(cbn; lia) ltac:(done) Hv Hpt) as [Hl1 Hl2].
    pose proof (set_leaf_evolves F s1 r (3%nat, 256) virt pt e Hwf1 Hr ltac:(cbn; lia) ltac:(done) Hv Hpt Hf') as Hev2.
    pose proof (evolves_trans _ _ _ _ _ Hev Hev2) as [W _ Fr Me _].
    split_and!; [done..|]. left. rewrite get_set_mem. split_and!; [done| |].
    + by rewrite Hl1, Hu, Hp.
    + intros r' h v Hr' A B C Hne. rewrite (Hl2 r' h v Hr' A B C Hne). by apply (Hsl r' h).
  - intros s1 [W _ Fr Me _] Hsl Hemp. split_and!; [done..|]. by right.
Qed.

(** C26 (functional): [vmm_map_page] makes the translation of the page of [virt] in
    the address space [r] the given frame and flags, and changes no other
    translation, in this or in any other address space; memory other than the
    tables of [r] and freshly taken pages is unchanged.  It fails only when it
    runs out of pages, and then no translation has changed.  [virt] is in the
    user half, and the flags are bits 0 to 11. *)
Theorem vmm_map_page_spec F s r virt phys fl :
  vm_wf F s → F !! r = Some (3%nat, 256) → 0 ≤ virt < 2 ^ 47 → 0 ≤ phys < 2 ^ 64 → 0 ≤ fl < PAGE_SIZE →
  wp (vmm_map_page r virt phys fl) s (λ res s',
    vm_wf F s' ∧ pa_free s' ⊆ pa_free s ∧
    (∀ x, ¬ touched F r s x → ld (get_mem s') x = ld (get_mem s) x) ∧
    ((res = 0 ∧
      leaf (get_mem s') r virt = Some (Z.lor (Z.lor (frame phys) fl) PAGE_PRESENT) ∧
      ∀ r' h v, F !! r' = Some h → (3 ≤ h.1)%nat → 256 ≤ h.2 → 0 ≤ v < 2 ^ 47 →
        r' ≠ r ∨ v / PAGE_SIZE ≠ virt / PAGE_SIZE → leaf (get_mem s') r' v = leaf (get_mem s) r' v) ∨
     (res = -1 ∧ pa_free s' = ∅ ∧ same_leaves F s s'))).
Proof. apply map_page_ok. Qed.

(** One step of a walk. *)
Lemma tbl_next m r p t i :
  tbl m r p = Some t → present (entry m t i) = true → tbl m r (p ++ [i]) = Some (frame (entry m t i)).
Proof. intros Ht He. rewrite tbl_snoc, Ht. unfold step. by rewrite He. Qed.
Lemma tbl_stop m r p t i q :
  tbl m r p = Some t → present (entry m t i) = false → tbl m r (p ++ i :: q) = None.
Proof. intros Ht He. rewrite tbl_app, Ht. cbn [tbl]. unfold step. by rewrite He. Qed.
Lemma wp_walk F s r h p t i Q :
  vm_wf F s → F !! r = Some h → upath h p → tbl (get_mem s) r p = Some t →
  Q (entry (get_mem s) t i) s → wp (get_entry t i) s Q.
Proof. intros Hwf Hr Hp Ht HQ. apply wp_get_entry; [|done]. eapply (reach_range F s r p t Hwf). by exists h. Qed.
Lemma dirs_prefixes h v : upath h (dirs v) → upath h [PML4_INDEX v; PDPT_INDEX v] ∧ upath h [PML4_INDEX v].
Proof.
  intros Hd. assert (Hd2 : upath h [PML4_INDEX v; PDPT_INDEX v]) by apply (upath_app_l h [_; _] [_] Hd).
  split; [done|]. apply (upath_app_l h [_] [_] Hd2).
Qed.

(** The four loads of [vmm_get_physical] compute [leaf]. *)
Lemma get_physical_run F s r h v :
  vm_wf F s → F !! r = Some h → (3 ≤ h.1)%nat → 256 ≤ h.2 → 0 ≤ v < 2 ^ 47 →
  vmm_get_physical r v s =
    Ret (match leaf (get_mem s) r v with Some e => Z.lor (frame e) (Z.land v 0xFFF) | None => 0 end, s).
Proof.
  intros Hwf Hr H3 H2 Hv. pose proof (dirs_upath h v Hv H3 H2) as Hd. destruct (dirs_prefixes h v Hd) as [Hd2 Hd1].
  assert (Hgoal : wp (vmm_get_physical r v) s (λ a s', a = match leaf (get_mem s) r v with
    | Some e => Z.lor (frame e) (Z.land v 0xFFF) | None => 0 end ∧ s' = s));
    [|by apply wp_run in Hgoal as (a & s' & -> & -> & ->)].
  unfold leaf. pose proof (eq_refl : tbl (get_mem s) r [] = Some r) as T0.
  apply wp_bind. eapply wp_walk; [done|done|apply upath_nil|exact T0|].
  destruct (present _) eqn:E4; cbn [negb].
  2: { apply wp_ret. by rewrite (tbl_stop _ _ [] _ _ [PDPT_INDEX v; PD_INDEX v] T0 E4 : tbl _ _ (dirs v) = None). }
  pose proof (tbl_next _ _ [] _ _ T0 E4) as T1. cbn [app] in T1.
  apply wp_bind. eapply wp_walk; [done|done|exact Hd1|exact T1|]. destruct (present (entry _ _ (PDPT_INDEX v))) eqn:E3; cbn [negb].
  2: { apply wp_ret. by rewrite (tbl_stop _ _ _ _ _ [PD_INDEX v] T1 E3 : tbl _ _ (dirs v) = None). }
  pose proof (tbl_next _ _ _ _ _ T1 E3) as T2. cbn [app] in T2.
  apply wp_bind. eapply wp_walk; [done|done|exact Hd2|exact T2|]. destruct (present (entry _ _ (PD_INDEX v))) eqn:E2; cbn [negb].
  2: { apply wp_ret. by rewrite (tbl_stop _ _ _ _ _ [] T2 E2 : tbl _ _ (dirs v) = None). }
  pose proof (tbl_next _ _ _ _ _ T2 E2 : tbl _ _ (dirs v) = _) as T3. rewrite T3.
  apply wp_bind. eapply wp_walk; [done|done|exact Hd|exact T3|]. destruct (present (entry _ _ (PT_INDEX v))); by apply wp_ret.
Qed.

(** (roundtrip): after a successful [vmm_map_page], [vmm_get_physical] of any
    address in the page gives the frame with the offset of the address. *)
Theorem vmm_map_get_roundtrip F s r virt phys fl v s' :
  vm_wf F s → F !! r = Some (3%nat, 256) → 0 ≤ virt < 2 ^ 47 → 0 ≤ phys < 2 ^ 64 → 0 ≤ fl < PAGE_SIZE →
  0 ≤ v < 2 ^ 47 → v / PAGE_SIZE = virt / PAGE_SIZE →
  vmm_map_page r virt phys fl s = Ret (0, s') →
  vmm_get_physical r v s' = Ret (frame phys + v mod PAGE_SIZE, s').
Proof.
  intros Hwf Hr Hv Hph Hfl Hv' Hpage Hrun.
  pose proof (map_page_ok F s r virt phys fl Hwf Hr Hv Hph Hfl) as Hok. unfold wp in Hok. rewrite Hrun in Hok.
  destruct Hok as (Hwf' & _ & _ & [(_ & Hl & _)|[? _]]); [|lia].
  assert (Hf64 : 0 ≤ frame phys < 2 ^ 64) by (rewrite frame_spec by done; unfold PAGE_SIZE; dlia).
  destruct (mk_entry (frame phys) fl (frame_mod _ Hph) Hf64 Hfl) as (_ & _ & Hfr & _).
  rewrite (get_physical_run F s' r (3%nat, 256)) by (done || cbn; lia).
  rewrite (leaf_page _ r v virt) by (lia || done). rewrite Hl, Hfr, flags_mod, lor_low; [done|by apply frame_mod|].
  by apply Z.mod_pos_bound.
Qed.

(** One level of [vmm_unmap_page]. *)
Lemma wp_unmap_level F s r h p t i (k : Z → M S unit) Q :
  vm_wf F s → F !! r = Some h → upath h (p ++ [i]) → tbl (get_mem s) r p = Some t →
  (present (entry (get_mem s) t i) = false → Q () s) →
  (tbl (get_mem s) r (p ++ [i]) = Some (frame (entry (get_mem s) t i)) → wp (k (entry (get_mem s) t i)) s Q) →
  wp (e ← get_entry t i; if (frame e =? 0) || negb (present e) then mret () else k e) s Q.
Proof.
  intros Hwf Hr Hpi Ht Hno Hyes. destruct (upath_snoc _ _ _ Hpi) as [Hp _].
  apply wp_bind. eapply wp_walk; [done..|]. destruct (present _) eqn:He; cbn [negb].
  - pose proof (tbl_next _ _ _ _ _ Ht He) as Ht'. rewrite orb_false_r.
    destruct (reach_range F s r (p ++ [i]) _ Hwf ltac:(by exists h)) as [_ Hr0].
    rewrite (proj2 (Z.eqb_neq _ _)) by lia. by apply Hyes.
  - rewrite orb_true_r. apply wp_ret. by apply Hno.
Qed.

Lemma unmap_page_ok F s r h virt :
  vm_wf F s → F !! r = Some h → (h.1 = 3 ∨ h.1 = 4)%nat → 256 ≤ h.2 → 0 ≤ virt < 2 ^ 47 →
  wp (vmm_unmap_page r virt) s (λ _ s',
    vm_wf F s' ∧ pa_free s' = pa_free s ∧ leaf (get_mem s') r virt = None ∧
    (∀ x, ¬ touched F r s x → ld (get_mem s') x = ld (get_mem s) x) ∧
    ∀ r' h' v, F !! r' = Some h' → (3 ≤ h'.1)%nat → 256 ≤ h'.2 → 0 ≤ v < 2 ^ 47 →
      r' ≠ r ∨ v / PAGE_SIZE ≠ virt / PAGE_SIZE → leaf (get_mem s') r' v = leaf (get_mem s) r' v).
Proof.
  intros Hwf Hr Hh H2 Hv. assert (H3 : (3 ≤ h.1)%nat) by lia.
  pose proof (dirs_upath h virt Hv H3 H2) as Hd. destruct (dirs_prefixes h virt Hd) as [Hd2 Hd1].
  destruct (dirs_mask virt ltac:(lia)) as [Hdm Hpm]. injection Hdm as E1 E2 E3.
  unfold vmm_unmap_page. cbv zeta. rewrite E1, E2, E3, Hpm. clear E1 E2 E3 Hpm.
  assert (Hdone : ∀ p t i q, tbl (get_mem s) r p = Some t → present (entry (get_mem s) t i) = false →
    dirs virt = p ++ i :: q → leaf (get_mem s) r virt = None).
  { intros p t i q Ht He Heq. unfold leaf. by rewrite Heq, (tbl_stop _ _ _ _ _ q Ht He). }
  eapply (wp_unmap_level F s r h []); [done..|intros He; split_and!; try done; exact (Hdone [] _ _ [_; _] eq_refl He eq_refl)|]. intros T1.
  eapply (wp_unmap_level F s r h [_] _ (PDPT_INDEX virt) _ _ Hwf Hr Hd2 T1); [intros He; split_and!; try done; exact (Hdone [_] _ _ [_] T1 He eq_refl)|]. intros T2.
  eapply (wp_unmap_level F s r h [_; _] _ (PD_INDEX virt) _ _ Hwf Hr Hd T2); [intros He; split_and!; try done; exact (Hdone [_; _] _ _ [] T2 He eq_refl)|]. intros T3.
  assert (Hpt : reach F (get_mem s) r (dirs virt) (frame (entry (get_mem s)
    (frame (entry (get_mem s) (frame (entry (get_mem s) r (PML4_INDEX virt))) (PDPT_INDEX virt))) (PD_INDEX virt))))
    by by exists h.
  set (pt := frame (entry _ _ (PD_INDEX virt))) in *. clearbody pt.
  destruct (reach_range F s _ _ _ Hwf Hpt) as [Hpt4 _]. destruct (indices virt ltac:(lia)) as (_ & _ & _ & _ & Hi).
  apply wp_set_entry; [done|]. rewrite get_set_mem.
  destruct (set_leaf F s r h virt pt 0 Hwf Hr H3 H2 Hv Hpt) as [Hl1 Hl2].
  assert (Hm : mem_wf (st (get_mem s) (pt + 8 * PT_INDEX virt) 0)) by (apply mem_wf_st; by eapply vm_mem_wf).
  destruct (store_facts s _ (vw_pa _ _ Hwf) Hm) as (_ & Hfree & _).
  split_and!; [|done|done| |done].
  2: { intros x Hx. apply ld_st_other. intros <-. apply Hx. right. exists (dirs virt). split; [cbn; lia|]. by rewrite entry_page. }
  eapply vm_wf_store; [done|done|].
  destruct (decide (upath h (dirs virt ++ [PT_INDEX virt]))) as [Hu|Hu].
  - by apply (forest_cut F _ _ (vw_fw _ _ Hwf) r h (dirs virt) pt (PT_INDEX virt) 0).
  - by apply (forest_write_out F _ _ (vw_fw _ _ Hwf) r h (dirs virt) pt (PT_INDEX virt) 0).
Qed.

(** (functional): [vmm_unmap_page] removes the translation of the page of
    [virt] in the address space [r] and changes no other translation. *)
Theorem vmm_unmap_page_spec F s r h virt :
  vm_wf F s → F !! r = Some h → (h.1 = 3 ∨ h.1 = 4)%nat → 256 ≤ h.2 → 0 ≤ virt < 2 ^ 47 →
  wp (vmm_unmap_page r virt) s (λ _ s',
    vm_wf F s' ∧ pa_free s' = pa_free s ∧ leaf (get_mem s') r virt = None ∧
    ∀ r' h' v, F !! r' = Some h' → (3 ≤ h'.1)%nat → 256 ≤ h'.2 → 0 ≤ v < 2 ^ 47 →
      r' ≠ r ∨ v / PAGE_SIZE ≠ virt / PAGE_SIZE → leaf (get_mem s') r' v = leaf (get_mem s) r' v).
Proof. intros. eapply wp_mono; [by apply (unmap_page_ok F s r h)|]. cbn beta. by intros _ s' (? & ? & ? & _ & ?). Qed.

(** Work on fresh pages leaves the translations alone. *)
Lemma keeps_leaves F s s' : vm_wf F s → keeps s s' → same_leaves F s s'.
Proof.
  intros Hwf Hk r h v Hr H3 H2 Hv. pose proof (dirs_upath h v Hv H3 H2) as Hd.
  apply leaf_same; [by eapply keeps_tbl|]. intros t Ht.
  destruct (indices v ltac:(lia)) as (_ & _ & _ & _ & Hi).
  destruct (fw_ok _ _ _ (vw_fw _ _ Hwf) r (dirs v) t) as [Ht4 [_ Hn]]; [by exists h|].
  unfold entry. apply Hk. rewrite <- page_of_div. by rewrite entry_page.
Qed.
(** Stores into a page that was free at the start. *)
Lemma keeps_store s s1 t i e :
  keeps s s1 → pa_inv s1 → t mod PAGE_SIZE = 0 → 0 ≤ i < 512 → t / PAGE_SIZE ∈ pa_free s →
  keeps s (set_mem (st (get_mem s1) (t + 8 * i) e) s1).
Proof.
  intros Hk Hi1 Ht Hi Hfree.
  destruct (store_facts s1 (st (get_mem s1) (t + 8 * i) e) Hi1) as (_ & Hf & Hm & _).
  { by apply mem_wf_st, pa_mem_wf. }
  split.
  - intros p. rewrite Hm. apply Hk.
  - rewrite Hf. apply Hk.
  - intros x Hx. rewrite get_set_mem, ld_st_other; [by apply Hk|].
    intros <-. apply Hx. rewrite <- page_of_div. by rewrite entry_page.
Qed.
Lemma keeps_entry s s1 t i :
  keeps s s1 → t mod PAGE_SIZE = 0 → 0 ≤ i < 512 → t / PAGE_SIZE ∉ pa_free s →
  entry (get_mem s1) t i = entry (get_mem s) t i.
Proof.
  intros Hk Ht Hi Hfree. unfold entry. apply Hk. rewrite <- page_of_div. by rewrite entry_page.
Qed.
Lemma entry_store m t i e j :
  t mod PAGE_SIZE = 0 → 0 ≤ i < 512 → 0 ≤ j < 512 →
  entry (st m (t + 8 * i) e) t j = if decide (i = j) then u64 e else entry m t j.
Proof.
  intros Ht Hi Hj. unfold entry. case_decide as E; [subst; apply ld_st_same|]. apply ld_st_other. lia.
Qed.
Lemma root_reach F m r h : F !! r = Some h → reach F m r [] r.
Proof. intros Hr. exists h. split_and!; [done|apply upath_nil|done]. Qed.

(** The loop that copies the kernel half into a fresh root. *)
Lemma wp_copy_kernel F s s1 k a n Q :
  vm_wf (<[a := (n, 256)]> F) s1 → F !! a = None → keeps s s1 →
  a mod PAGE_SIZE = 0 → a / PAGE_SIZE ∈ pa_free s →
  k mod PAGE_SIZE = 0 → k / PAGE_SIZE ∉ pa_free s → mem_wf (get_mem s) →
  (∀ i, 0 ≤ i < 512 → entry (get_mem s1) a i = 0) →
  (∀ s', vm_wf (<[a := (n, 256)]> F) s' → keeps s s' →
     (∀ i, 0 ≤ i < 512 → entry (get_mem s') a i = if decide (i < 256) then 0 else entry (get_mem s) k i) →
     pa_free s' = pa_free s1 → Q () s') →
  wp (for_loop 256 256 (λ i, e ← get_entry k i; set_entry a i e)) s1 Q.
Proof.
  intros Hwf Hnone Hk Ha4 Hfree Hk4 Hkf Hmw Hz HQ.
  apply (wp_for (λ i s', vm_wf (<[a := (n, 256)]> F) s' ∧ keeps s s' ∧ pa_free s' = pa_free s1 ∧
    ∀ j, 0 ≤ j < 512 → entry (get_mem s') a j = if decide (256 ≤ j < i) then entry (get_mem s) k j else 0)).
  - split_and!; [done..|]. intros j Hj. rewrite decide_False by lia. auto.
  - intros i s' Hi (W & K & E & Hent).
    apply wp_bind, wp_get_entry; [done|]. rewrite (keeps_entry s s') by (done || lia).
    apply wp_set_entry; [done|]. set (e := entry (get_mem s) k i).
    assert (Hu : u64 e = e) by (apply u64_id, Hmw).
    assert (Hm' : mem_wf (st (get_mem s') (a + 8 * i) e)) by (apply mem_wf_st; by eapply vm_mem_wf).
    destruct (store_facts s' _ (vw_pa _ _ W) Hm') as (_ & Hf & _).
    split_and!.
    + eapply vm_wf_store; [done|done|].
      apply (forest_write_out _ _ _ (vw_fw _ _ W) a (n, 256) [] a i e); try (done || lia).
      * by rewrite lookup_insert_eq.
      * apply (root_reach _ _ _ (n, 256)). by rewrite lookup_insert_eq.
      * intros (_ & _ & Hlt). cbn in Hlt. lia.
    + apply keeps_store; try done; [apply W|lia].
    + by rewrite Hf.
    + intros j Hj. rewrite get_set_mem, entry_store by (done || lia). destruct (decide (i = j)) as [->|Hne].
      * rewrite Hu, decide_True by lia. done.
      * rewrite Hent by done. do 2 case_decide; (done || lia).
  - intros s' (W & K & E & Hent). apply HQ; [done..| |done]. intros i Hi. rewrite Hent by done.
    do 2 case_decide; (done || lia).
Qed.

Lemma create_space_ok F s k n :
  vm_wf F s → k mod PAGE_SIZE = 0 → k / PAGE_SIZE ∉ pa_free s →
  wp (vmm_create_address_space k) s (λ a s',
    (a = 0 ∧ pa_free s = ∅ ∧ s' = s) ∨
    (a ≠ 0 ∧ vm_wf (<[a := (n, 256)]> F) s' ∧ F !! a = None ∧ keeps s s' ∧ same_leaves F s s' ∧
     (∀ v, 0 ≤ v < 2 ^ 47 → leaf (get_mem s') a v = None) ∧
     (∀ i, 256 ≤ i < 512 → entry (get_mem s') a i = entry (get_mem s) k i))).
Proof.
  intros Hwf Hk4 Hkf. apply wp_bind. eapply wp_mono; [by eapply (wp_new_page F s (n, 256))|].
  intros a s1 [(-> & Hf & ->)|(Hwf1 & Hnone & Hk & Ha & Ha4 & Hin & _ & Hz)]; [apply wp_ret; by left|].
  rewrite (proj2 (Z.eqb_neq a 0)) by lia. apply wp_bind.
  eapply (wp_copy_kernel F s s1); try done; [by eapply vm_mem_wf|].
  intros s' W K Hent _. apply wp_ret. right. split_and!; [lia|done|done|done|..].
  - by eapply keeps_leaves.
  - intros v Hv. pose proof (user_index v Hv). destruct (indices v ltac:(lia)) as (_ & ? & _).
    unfold leaf. cbn [tbl dirs]. unfold step. rewrite Hent, decide_True by lia. done.
  - intros i Hi. by rewrite Hent, decide_False by lia.
Qed.

(** (functional): a new address space has no user mapping, shares the kernel
    half, and is separate from all others, whose translations and pages are
    unchanged; 0 is returned only when no page is free. *)
Theorem vmm_create_address_space_spec F s k n :
  vm_wf F s → k mod PAGE_SIZE = 0 → k / PAGE_SIZE ∉ pa_free s →
  wp (vmm_create_address_space k) s (λ a s',
    (a = 0 ∧ pa_free s = ∅ ∧ s' = s) ∨
    (a ≠ 0 ∧ vm_wf (<[a := (n, 256)]> F) s' ∧ F !! a = None ∧ keeps s s' ∧ same_leaves F s s' ∧
     (∀ v, 0 ≤ v < 2 ^ 47 → leaf (get_mem s') a v = None) ∧
     (∀ i, 256 ≤ i < 512 → entry (get_mem s') a i = entry (get_mem s) k i))).
Proof. apply create_space_ok. Qed.

(** ** Private pages *)

Lemma touched_insert F r c h s x : r ≠ c → touched (<[c := h]> F) r s x ↔ touched F r s x.
Proof.
  intros Hne. unfold touched, reach. by setoid_rewrite (lookup_insert_ne F c r h) at 1.
Qed.
Lemma leaves_insert F c h s s' : F !! c = None → same_leaves (<[c := h]> F) s s' → same_leaves F s s'.
Proof. intros Hc Hs r h' v Hr. apply Hs. rewrite lookup_insert_ne; [done|congruence]. Qed.

(** Mapping a loose page [c] moves it into the address space. *)
Lemma map_private F s r virt c fl :
  vm_wf (<[c := (0%nat, 512)]> F) s → F !! c = None → F !! r = Some (4%nat, 256) →
  0 ≤ virt < 2 ^ 47 → 0 ≤ fl < PAGE_SIZE →
  wp (vmm_map_page r virt c fl) s (λ res s',
    (res = 0 ∧ evolves F r s s' ∧
     leaf (get_mem s') r virt = Some (Z.lor (Z.lor c fl) PAGE_PRESENT) ∧
     reach F (get_mem s') r (dirs virt ++ [PT_INDEX virt]) c ∧
     (∀ r' h v, F !! r' = Some h → (3 ≤ h.1)%nat → 256 ≤ h.2 → 0 ≤ v < 2 ^ 47 →
        r' ≠ r ∨ v / PAGE_SIZE ≠ virt / PAGE_SIZE → leaf (get_mem s') r' v = leaf (get_mem s) r' v)) ∨
    (res = -1 ∧ evolves (<[c := (0%nat, 512)]> F) r s s' ∧ pa_free s' = ∅ ∧ same_leaves F s s')).
Proof.
  intros Hwf Hnone Hr Hv Hfl. assert (Hrc : r ≠ c) by congruence.
  assert (HrB : <[c := (0%nat, 512)]> F !! r = Some (4%nat, 256)) by (by rewrite lookup_insert_ne).
  destruct (reach_range _ s c [] c Hwf) as [Hc4 Hc].
  { apply (root_reach _ _ _ (0%nat, 512)). by rewrite lookup_insert_eq. }
  eapply (map_page_walk _ s r (4%nat, 256)); try (done || cbn; lia).
  - intros s1 pt Hev Hsl Hpt. pose proof (ev_wf _ _ _ _ Hev) as Hwf1.
    destruct (reach_range _ s1 _ _ _ Hwf1 Hpt) as [Hpt4 _].
    destruct (indices virt ltac:(lia)) as (_ & ? & ? & ? & Hi). pose proof (user_index virt Hv).
    apply wp_bind, wp_set_entry; [done|]. apply wp_ret. left.
    rewrite frame_aligned by (done || lia).
    destruct (mk_entry c fl Hc4 ltac:(lia) Hfl) as (Hu & Hp & Hfr & _). set (e := Z.lor _ PAGE_PRESENT) in *.
    assert (HptF : reach F (get_mem s1) r (dirs virt) pt).
    { destruct Hpt as (h & E1 & E2 & E3). rewrite HrB in E1. injection E1 as <-. by exists (4%nat, 256). }
    assert (Hup : upath (4%nat, 256) (dirs virt ++ [PT_INDEX virt])).
    { split_and!; [done| |done]. unfold dirs. by rewrite Forall_app, !Forall_cons. }
    destruct (forest_graft F (get_mem s1) (owned s1) c (0%nat, 512) r (4%nat, 256) (dirs virt) pt (PT_INDEX virt) e)
      as [Hf' Hext]; try done; [apply Hwf1|by rewrite Hu|by rewrite Hu|].
    destruct (set_leaf _ s1 r (4%nat, 256) virt pt e Hwf1 HrB ltac:(cbn; lia) ltac:(done) Hv Hpt) as [Hl1 Hl2].
    assert (HwfF : vm_wf F s1) by (split; [apply Hwf1|by eapply forest_sub; [apply Hwf1|]]).
    pose proof (set_leaf_evolves F s1 r (4%nat, 256) virt pt e HwfF Hr ltac:(cbn; lia) ltac:(done) Hv HptF Hf') as Hev2.
    split_and!; [done| |..].
    + eapply evolves_trans; [|exact Hev2]. destruct Hev as [A B C D E]. split; try done.
      * intros x Hx. apply D. by rewrite touched_insert.
      * intros x Hx. rewrite <- (touched_insert F r c (0%nat, 512)) by done. apply E. by rewrite touched_insert.
    + rewrite get_set_mem, Hl1, Hu. by rewrite Hp.
    + rewrite get_set_mem. exists (4%nat, 256). split_and!; [done..|]. by rewrite (Hext []) by apply upath_nil.
    + intros r' h v Hr' A B C Hne. rewrite get_set_mem.
      assert (Hr'B : <[c := (0%nat, 512)]> F !! r' = Some h) by (rewrite lookup_insert_ne; [done|congruence]).
      rewrite (Hl2 r' h v Hr'B A B C Hne). by apply (Hsl r' h).
  - intros s1 Hev Hsl Hemp. right. split_and!; [done..|]. by eapply leaves_insert.
Qed.

(** Returning a loose page. *)
Lemma wp_free_loose F s c h Q :
  vm_wf (<[c := h]> F) s → F !! c = None →
  (∀ s', vm_wf F s' → (∀ p, pa_managed s' p ↔ pa_managed s p) →
     pa_free s' = {[c / PAGE_SIZE]} ∪ pa_free s → get_mem s' = get_mem s → Q () s') →
  wp (pmm_free c) s Q.
Proof.
  intros Hwf Hnone HQ.
  assert (Hc : <[c := h]> F !! c = Some h) by by rewrite lookup_insert_eq.
  destruct (fw_root _ _ _ (vw_fw _ _ Hwf) c h Hc) as [Hc4 [Hman Hnf]].
  assert (Hcd : c / PAGE_SIZE * PAGE_SIZE = c) by (unfold PAGE_SIZE in *; dlia).
  rewrite <- Hcd at 1. eapply wp_mono; [by apply pmm_free_ok; [apply Hwf|..]|].
  intros [] s' (Hi' & Hm & Hf & Hmem). apply HQ; try done. split; [done|]. rewrite Hmem.
  eapply forest_frame; [by eapply forest_drop; [apply Hwf|]|done|].
  intros t ([H1 H2] & Hne & Ht4). unfold owned. rewrite Hm, Hf. split; [done|].
  apply not_elem_of_union. split; [|done]. rewrite not_elem_of_singleton. intros E. apply Hne.
  unfold PAGE_SIZE in *. dlia.
Qed.

(** What mapping the pages numbered [lo, lo + n) of [r] has done by the time it
    returns [res]. *)
Record mapped_pages (F : forest) (r lo n res : Z) s s' : Prop := {
  mp_evolves : evolves F r s s';
  mp_other r' h v : F !! r' = Some h → (3 ≤ h.1)%nat → 256 ≤ h.2 → 0 ≤ v < 2 ^ 47 →
    ¬ (r' = r ∧ lo ≤ v / PAGE_SIZE < lo + n) → leaf (get_mem s') r' v = leaf (get_mem s) r' v;
  mp_new v : res = 0 → 0 ≤ v < 2 ^ 47 → lo ≤ v / PAGE_SIZE < lo + n → ∃ c,
    leaf (get_mem s') r v = Some (Z.lor (Z.lor c 7) PAGE_PRESENT) ∧
    c mod PAGE_SIZE = 0 ∧ c / PAGE_SIZE ∈ pa_free s ∧ ∀ i, 0 ≤ i < 512 → entry (get_mem s') c i = 0;
}.

(** A page mapped in [r] is not among its tables. *)
Lemma private_untouched F s r v c i :
  vm_wf F s → reach F (get_mem s) r (dirs v ++ [PT_INDEX v]) c → 0 ≤ i < 512 →
  ¬ touched F r s (c + 8 * i).
Proof.
  intros Hwf Hc Hi. destruct (fw_ok _ _ _ (vw_fw _ _ Hwf) _ _ _ Hc) as [Hc4 [_ Hn]].
  intros [Hx|(q & Hq & Hr)].
  - rewrite <- page_of_div, entry_page in Hx by done. done.
  - rewrite entry_page in Hr by done. destruct (fw_inj _ _ _ (vw_fw _ _ Hwf) _ _ _ _ _ Hc Hr) as [_ <-].
    cbn in Hq. lia.
Qed.
(** Taking a page is work on any address space. *)
Lemma keeps_evolves F r h s s' : vm_wf F s → vm_wf F s' → F !! r = Some h → keeps s s' → evolves F r s s'.
Proof.
  intros Hwf Hwf' Hr Hk. split; [done|apply Hk|apply Hk|..].
  - intros x Hx. apply Hk. intros Hin. apply Hx. by left.
  - intros x [Hx|(q & Hq & h' & E1 & E2 & E3)]; [left; by apply (ke_free _ _ Hk)|right].
    exists q. split; [done|]. exists h'. split_and!; [done..|]. by rewrite <- (keeps_tbl F s s' r h').
Qed.

(** The first page of the range. *)
Lemma mapped_one F s s' s1 r c virt :
  0 ≤ virt < 2 ^ 47 → vm_wf F s → keeps s s1 → F !! r = Some (4%nat, 256) →
  vm_wf F s1 → c / PAGE_SIZE ∈ pa_free s →
  (∀ i, 0 ≤ i < 512 → entry (get_mem s1) c i = 0) →
  (∀ i, 0 ≤ i < 512 → ¬ touched F r s1 (c + 8 * i)) →
  evolves F r s1 s' → leaf (get_mem s') r virt = Some (Z.lor (Z.lor c 7) PAGE_PRESENT) →
  reach F (get_mem s') r (dirs virt ++ [PT_INDEX virt]) c →
  (∀ r' h v, F !! r' = Some h → (3 ≤ h.1)%nat → 256 ≤ h.2 → 0 ≤ v < 2 ^ 47 →
     r' ≠ r ∨ v / PAGE_SIZE ≠ virt / PAGE_SIZE → leaf (get_mem s') r' v = leaf (get_mem s1) r' v) →
  mapped_pages F r (virt / PAGE_SIZE) 1 0 s s' ∧ ∀ i, 0 ≤ i < 512 → ¬ touched F r s' (c + 8 * i).
Proof.
  intros Hv Hwf Hk Hr Hwf1 Hin Hz Hunt Hev Hl Hreach Hoth.
  pose proof (ev_wf _ _ _ _ Hev) as Hwf'.
  destruct (reach_range F s' _ _ _ Hwf' Hreach) as [Hc4 _].
  split; [|intros i Hi; by apply (private_untouched F s' r virt)].
  split.
  - eapply evolves_trans; [|exact Hev]. by apply (keeps_evolves F r (4%nat, 256)).
  - intros r' h v Hr' H3 H2 Hv' Hne. rewrite (Hoth r' h) by (done || lia).
    by apply (keeps_leaves F s s1 Hwf Hk r' h).
  - intros v _ Hv' Hpg. exists c. rewrite (leaf_page _ r v virt) by lia. split_and!; [done..|].
    intros i Hi. unfold entry. rewrite (ev_mem _ _ _ _ Hev); [by apply Hz|by apply Hunt].
Qed.

Lemma mapped_trans F r lo n res s1 s2 s3 :
  mapped_pages F r lo 1 0 s1 s2 → 0 ≤ n → F !! r = Some (4%nat, 256) →
  (∀ v, 0 ≤ v < 2 ^ 47 → v / PAGE_SIZE = lo → ∀ c, leaf (get_mem s2) r v = Some (Z.lor (Z.lor c 7) PAGE_PRESENT) →
     c mod PAGE_SIZE = 0 → c / PAGE_SIZE ∈ pa_free s1 → (∀ i, 0 ≤ i < 512 → ¬ touched F r s2 (c + 8 * i))) →
  mapped_pages F r (lo + 1) n res s2 s3 → mapped_pages F r lo (1 + n) res s1 s3.
Proof.
  intros [A1 B1 C1] Hn Hr Hunt [A2 B2 C2]. split.
  - by eapply evolves_trans.
  - intros r' h v Hr' H3 H2 Hv Hne. rewrite (B2 r' h), (B1 r' h) by (done || lia). done.
  - intros v Hres Hv Hpg. destruct (decide (v / PAGE_SIZE = lo)) as [E|E].
    + destruct (C1 v eq_refl Hv ltac:(lia)) as (c & Hl & Hc4 & Hcf & Hcz). exists c. split_and!; [|done|done|].
      * rewrite (B2 r (4%nat, 256)) by (done || cbn; lia). done.
      * intros i Hi. unfold entry. rewrite (ev_mem _ _ _ _ A2); [by apply Hcz|]. by apply (Hunt v Hv E c).
    + destruct (C2 v Hres Hv ltac:(lia)) as (c & Hl & Hc4 & Hcf & Hcz). exists c. split_and!; [done|done| |done].
      by apply (ev_free _ _ _ _ A1).
Qed.

(** A failed attempt returns the page it had taken. *)
Lemma failed_evolves F s s1 s2 s3 r c :
  vm_wf F s → F !! c = None → F !! r = Some (4%nat, 256) → keeps s s1 → vm_wf (<[c := (0%nat, 512)]> F) s1 →
  c / PAGE_SIZE ∈ pa_free s → evolves (<[c := (0%nat, 512)]> F) r s1 s2 →
  vm_wf F s3 → (∀ p, pa_managed s3 p ↔ pa_managed s2 p) → pa_free s3 = {[c / PAGE_SIZE]} ∪ pa_free s2 →
  get_mem s3 = get_mem s2 → evolves F r s s3.
Proof.
  intros Hwf Hnone Hr Hk Hwf1 Hin [A B C D E] Hwf3 Hman Hfree Hmem.
  assert (Hrc : r ≠ c) by congruence.
  assert (HwfF1 : vm_wf F s1) by (split; [apply Hwf1|by eapply forest_sub; [apply Hwf1|]]).
  destruct (keeps_evolves F r _ s s1 Hwf HwfF1 Hr Hk) as [_ _ _ _ T1].
  assert (Hback : ∀ x, touched (<[c := (0%nat, 512)]> F) r s1 x → touched F r s x).
  { intros x. rewrite touched_insert by done. apply T1. }
  assert (Hsub : pa_free s3 ⊆ pa_free s).
  { rewrite Hfree. intros p [->%elem_of_singleton|Hp]%elem_of_union; [done|]. by apply (ke_free _ _ Hk), C. }
  split; [done|..].
  - intros p. rewrite Hman, B. apply Hk.
  - exact Hsub.
  - intros x Hx. rewrite Hmem, D by auto. apply Hk. intros Hf. apply Hx. by left.
  - intros x [Hx|(q & Hq & h & E1 & E2 & E3)].
    + left. by apply Hsub.
    + apply Hback, E. right. exists q. split; [done|]. exists h. rewrite lookup_insert_ne by done. by rewrite <- Hmem.
Qed.

Lemma alloc_user_ok F r va n : ∀ i s p,
  vm_wf F s → p_page_table p = r → F !! r = Some (4%nat, 256) → 0 ≤ va → 0 ≤ i →
  va + (i + Z.of_nat n) * PAGE_SIZE ≤ 2 ^ 47 → 0 ≤ p_pages_allocated p < 2 ^ 64 →
  wp (alloc_user_from n i va p) s (λ x s', mapped_pages F r (va / PAGE_SIZE + i) (Z.of_nat n) x.1 s s' ∧
    (x.1 = 0 ∨ x.1 = -1) ∧
    (x.1 = 0 → x.2 = set_pages_allocated (u64 (p_pages_allocated p + Z.of_nat n)) p) ∧
    ∃ k, x.2 = set_pages_allocated k p).
Proof.
  induction n as [|n IH]; intros i s p Hwf Hp Hr Hva Hi Hmax Hpa; cbn [alloc_user_from].
  { apply wp_ret. split_and!; [|by left| |exists (p_pages_allocated p); by destruct p].
    - split; [by apply evolves_refl|done|]. intros v _ _ ?. lia.
    - intros _. rewrite Z.add_0_r, u64_id by done. by destruct p. }
  apply wp_bind. eapply wp_mono; [by eapply (wp_new_page F s (0%nat, 512))|].
  intros c s1 [(-> & Hf & ->)|(Hwf1 & Hnone & Hk & Hc & Hc4 & Hin & Hf1 & Hz)].
  { apply wp_ret. cbn. split_and!; [|by right|done|exists (p_pages_allocated p); by destruct p]. split; [by apply evolves_refl|done|done]. }
  rewrite (proj2 (Z.eqb_neq c 0)) by lia. cbv zeta.
  set (virt := va + i * PAGE_SIZE). unfold PAGE_SIZE in Hmax.
  assert (Hv : 0 ≤ virt < 2 ^ 47) by (unfold virt, PAGE_SIZE; lia).
  assert (Hpg : virt / PAGE_SIZE = va / PAGE_SIZE + i) by (unfold virt, PAGE_SIZE; by rewrite Z.div_add).
  rewrite (u64_id virt) by lia. rewrite Hp.
  change (Z.lor (Z.lor PAGE_PRESENT PAGE_WRITABLE) PAGE_USER) with 7.
  apply wp_bind. eapply wp_mono; [by apply (map_private F s1 r virt c 7)|].
  assert (HwfF1 : vm_wf F s1) by (split; [apply Hwf1|by eapply forest_sub; [apply Hwf1|]]).
  intros res s2 [(-> & Hev & Hl & Hreach & Hoth)|(-> & Hev & _ & Hsl)].
  - assert (Hunt1 : ∀ j, 0 ≤ j < 512 → ¬ touched F r s1 (c + 8 * j)).
    { intros j Hj [Hx|(q & Hq & Hreach')]; [|rewrite entry_page in Hreach' by done].
      - rewrite <- page_of_div, entry_page, Hf1 in Hx by done. by apply elem_of_difference in Hx as [_ []%not_elem_of_singleton].
      - destruct (fw_inj _ _ _ (vw_fw _ _ Hwf1) r q c [] c) as [-> _]; [|by apply (root_reach _ _ _ (0%nat, 512)), lookup_insert_eq|congruence].
        destruct Hreach' as (h & E1 & E2 & E3). exists h. rewrite lookup_insert_ne by congruence. done. }
    destruct (mapped_one F s s2 s1 r c virt) as [Hone Hunt2]; try done.
    cbn [Z.ltb Z.compare]. eapply wp_mono.
    { apply (IH (i + 1) s2 (set_pages_allocated (u64 (p_pages_allocated p + 1)) p)); try done; [apply Hev|lia|unfold PAGE_SIZE; lia|].
      apply u64_range. }
    intros [res' p'] s3 (Hmp & Hres & Hp' & [k Hk']). cbn [fst snd] in *. split_and!; [|done| |by exists k; rewrite Hk'].
    + rewrite Nat2Z.inj_succ, <- Z.add_1_l. apply (mapped_trans F r _ _ res' s s2 s3); try done; [by rewrite <- Hpg|lia| |by rewrite <- Z.add_assoc].
      intros v Hv' Hvp c' Hl' Hc4' Hcf' j Hj. rewrite (leaf_page _ r v virt), Hl in Hl' by lia.
      injection Hl' as Hl'. apply (f_equal frame) in Hl'.
      destruct (mk_entry c 7 Hc4 ltac:(lia) ltac:(done)) as (_ & _ & Hfr & _). rewrite Hfr in Hl'.
      pose proof (pa_managed_range s _ (vw_pa _ _ Hwf) (pa_free_managed s _ (vw_pa _ _ Hwf) Hcf')) as Hc'.
      destruct (mk_entry c' 7 Hc4') as (_ & _ & Hfr' & _); [unfold PAGE_SIZE in *; dlia|done|].
      rewrite Hfr' in Hl'. subst c'. by apply Hunt2.
    + intros Hz'. rewrite (Hp' Hz').
      transitivity (set_pages_allocated (u64 (u64 (p_pages_allocated p + 1) + Z.of_nat n)) p); [done|]. f_equal.
      rewrite Nat2Z.inj_succ. unfold u64. rewrite Zplus_mod_idemp_l. f_equal. lia.
  - cbn [Z.ltb Z.compare]. apply wp_bind. eapply wp_free_loose; [apply Hev|done|].
    intros s3 Hwf3 Hman Hfree Hmem. apply wp_ret. cbn [fst snd]. split_and!; [|by right|done|exists (p_pages_allocated p); by destruct p].
    split; [by eapply failed_evolves| |done].
    intros r' h v Hr' A B C _. rewrite Hmem, (Hsl r' h) by done. by apply (keeps_leaves F s s1 Hwf Hk r' h).
Qed.

Lemma alloc_pages_ok F s p va count :
  vm_wf F s → F !! p_page_table p = Some (4%nat, 256) → 0 ≤ va → 0 ≤ count →
  va + count * PAGE_SIZE ≤ 2 ^ 47 → 0 ≤ p_pages_allocated p < 2 ^ 64 →
  wp (vmm_alloc_user_pages p va count) s (λ x s',
    mapped_pages F (p_page_table p) (va / PAGE_SIZE) count x.1 s s' ∧ (x.1 = 0 ∨ x.1 = -1) ∧
    (x.1 = 0 → x.2 = set_pages_allocated (u64 (p_pages_allocated p + count)) p)).
Proof.
  intros Hwf Hr Hva Hc Hmax Hpa. unfold vmm_alloc_user_pages.
  rewrite (proj2 (Z.leb_gt _ _)) by (unfold KERNEL_BASE, PAGE_SIZE in *; lia).
  eapply wp_mono; [apply (alloc_user_ok F (p_page_table p)); try done; rewrite Z2Nat.id by done; lia|].
  rewrite Z2Nat.id, Z.add_0_r by done. cbn beta. intros x s' (? & ? & ? & _). done.
Qed.

(** (functional): [vmm_alloc_user_pages] backs each page of the range with a
    zeroed page of its own that was free before, mapped writable for the user,
    and counts them; it changes no other translation, and memory other than
    the tables of the process and fresh pages is unchanged. *)
Theorem vmm_alloc_user_pages_spec F s p va count :
  vm_wf F s → F !! p_page_table p = Some (4%nat, 256) → 0 ≤ va → 0 ≤ count →
  va + count * PAGE_SIZE ≤ 2 ^ 47 → 0 ≤ p_pages_allocated p < 2 ^ 64 →
  wp (vmm_alloc_user_pages p va count) s (λ x s',
    mapped_pages F (p_page_table p) (va / PAGE_SIZE) count x.1 s s' ∧ (x.1 = 0 ∨ x.1 = -1) ∧
    (x.1 = 0 → x.2 = set_pages_allocated (u64 (p_pages_allocated p + count)) p)).
Proof. apply alloc_pages_ok. Qed.

Lemma leaf_reach F s r h v e :
  F !! r = Some h → h.1 = 4%nat → 256 ≤ h.2 → 0 ≤ v < 2 ^ 47 → leaf (get_mem s) r v = Some e →
  reach F (get_mem s) r (dirs v ++ [PT_INDEX v]) (frame e).
Proof.
  intros Hr H4 H2 Hv Hl. unfold leaf in Hl. destruct (tbl (get_mem s) r (dirs v)) as [t|] eqn:Ht; [|done].
  destruct (present _) eqn:He; [|done]. injection Hl as <-.
  destruct (indices v ltac:(lia)) as (_ & ? & ? & ? & Hi). pose proof (user_index v Hv).
  exists h. split_and!; [done| |by apply tbl_next].
  split_and!; [cbn; lia| |cbn; lia]. unfold dirs. by rewrite Forall_app, !Forall_cons.
Qed.

(** A frame has one address in one address space. *)
Lemma leaf_inj F s r1 r2 v1 v2 e1 e2 :
  vm_wf F s → F !! r1 = Some (4%nat, 256) → F !! r2 = Some (4%nat, 256) → 0 ≤ v1 < 2 ^ 47 → 0 ≤ v2 < 2 ^ 47 →
  leaf (get_mem s) r1 v1 = Some e1 → leaf (get_mem s) r2 v2 = Some e2 → frame e1 = frame e2 →
  r1 = r2 ∧ v1 / PAGE_SIZE = v2 / PAGE_SIZE.
Proof.
  intros Hwf Hr1 Hr2 Hv1 Hv2 Hl1 Hl2 Heq.
  pose proof (leaf_reach F s r1 _ v1 e1 Hr1 eq_refl ltac:(done) Hv1 Hl1) as Hre1.
  pose proof (leaf_reach F s r2 _ v2 e2 Hr2 eq_refl ltac:(done) Hv2 Hl2) as Hre2.
  rewrite <- Heq in Hre2. destruct (fw_inj _ _ _ (vw_fw _ _ Hwf) _ _ _ _ _ Hre1 Hre2) as [-> Hp].
  apply app_inj_2 in Hp as [Hd [= Hi]]; [|done]. split; [done|]. apply dirs_inj; [lia|lia|done|done].
Qed.

(** ** Cloning *)

Lemma upath_cons k n i q : upath (k, 512) q → 0 ≤ i < 512 → i < n → upath (Datatypes.S k, n) (i :: q).
Proof.
  intros (Hl & Hf & _) Hi Hn. split_and!; [cbn in *; lia|by constructor|done].
Qed.

(** [same_tree] depends only on the pages of the two trees. *)
Lemma same_tree_frame m m' k n t c :
  mem_wf m → t mod PAGE_SIZE = 0 → c mod PAGE_SIZE = 0 → n ≤ 512 →
  (∀ q x, upath (k, n) q → tbl m t q = Some (page_of x) → ld m' x = ld m x) →
  (∀ q x, upath (k, n) q → tbl m c q = Some (page_of x) → ld m' x = ld m x) →
  same_tree m k n t c → same_tree m' k n t c.
Proof.
  intros Hm. revert n t c. induction k as [|k IH]; intros n t c Ht Hc Hn Hmt Hmc Hs; cbn [same_tree] in *.
  - intros i Hi. unfold entry in *. rewrite (Hmc []), (Hmt []); [by apply Hs|apply upath_nil| |apply upath_nil|];
      cbn; by rewrite entry_page.
  - intros i Hi.
    assert (Et : entry m' t i = entry m t i).
    { apply (Hmt []); [apply upath_nil|]. cbn. rewrite entry_page by (done || lia). done. }
    assert (Ec : entry m' c i = entry m c i).
    { apply (Hmc []); [apply upath_nil|]. cbn. rewrite entry_page by (done || lia). done. }
    rewrite Et, Ec. destruct (Hs i Hi) as [Hp Hsub]. split; [done|]. intros He.
    destruct (Hsub He) as [Hfl Hst]. split; [done|].
    apply IH; [apply frame_mod, Hm|apply frame_mod, Hm|done|..|done].
    + intros q x Hq Hx. apply (Hmt (i :: q)); [apply upath_cons; (done || lia)|].
      cbn [tbl]. unfold step. by rewrite He.
    + intros q x Hq Hx. apply (Hmc (i :: q)); [apply upath_cons; (done || lia)|].
      cbn [tbl]. unfold step. by rewrite Hp, He.
Qed.

(** The tree of [k] levels at [t] lies inside the forest. *)
Definition covers (F : forest) (m : mem) (t : Z) (k : nat) (n : Z) : Prop :=
  ∃ r h p, F !! r = Some h ∧ tbl m r p = Some t ∧ ∀ q, upath (k, n) q → upath h (p ++ q).

Lemma covers_reach F m t k n : covers F m t k n → ∃ r p, ∀ q t', upath (k, n) q → tbl m t q = Some t' → reach F m r (p ++ q) t'.
Proof.
  intros (r & h & p & Hr & Ht & Hp). exists r, p. intros q t' Hq Ht'. exists h. split_and!; [done|by apply Hp|].
  by rewrite tbl_app, Ht.
Qed.
Lemma covers_root F m r k n : F !! r = Some (k, n) → covers F m r k n.
Proof. intros Hr. exists r, (k, n), []. split_and!; [done..|]. done. Qed.
Lemma covers_child F m t k n i :
  covers F m t (Datatypes.S k) n → 0 ≤ i < 512 → i < n → present (entry m t i) = true →
  covers F m (frame (entry m t i)) k 512.
Proof.
  intros (r & h & p & Hr & Ht & Hp) Hi Hn He. exists r, h, (p ++ [i]). split_and!; [done|by apply tbl_next|].
  intros q Hq. rewrite <- app_assoc. cbn. apply Hp. by apply upath_cons.
Qed.
Lemma covers_insert F m t k n c h : F !! c = None → covers F m t k n → covers (<[c := h]> F) m t k n.
Proof.
  intros Hc (r & h' & p & Hr & Ht & Hp). exists r, h', p. split_and!; [|done..]. rewrite lookup_insert_ne; [done|congruence].
Qed.
Lemma covers_keeps F s s' t k n : vm_wf F s → keeps s s' → covers F (get_mem s) t k n → covers F (get_mem s') t k n.
Proof.
  intros Hwf Hk (r & h & p & Hr & Ht & Hp). exists r, h, p. split_and!; [done| |done].
  rewrite (keeps_tbl F s s' r h); [done..|]. rewrite <- (app_nil_r p). apply Hp, upath_nil.
Qed.
Lemma covers_owned F s t k n : vm_wf F s → covers F (get_mem s) t k n → t mod PAGE_SIZE = 0 ∧ owned s t.
Proof.
  intros Hwf (r & h & p & Hr & Ht & Hp). apply (fw_ok _ _ _ (vw_fw _ _ Hwf) r p). exists h. split_and!; [done| |done].
  rewrite <- (app_nil_r p). apply Hp, upath_nil.
Qed.

(** Two covered trees look the same after work on fresh pages, ... *)
Lemma same_tree_keeps F s s' k n t c :
  vm_wf F s → keeps s s' → n ≤ 512 → covers F (get_mem s) t k n → covers F (get_mem s) c k n →
  same_tree (get_mem s) k n t c → same_tree (get_mem s') k n t c.
Proof.
  intros Hwf Hk Hn Ht Hc. destruct (covers_owned _ _ _ _ _ Hwf Ht) as [Ht4 _]. destruct (covers_owned _ _ _ _ _ Hwf Hc) as [Hc4 _].
  assert (Hfr : ∀ u q x, covers F (get_mem s) u k n → upath (k, n) q → tbl (get_mem s) u q = Some (page_of x) →
    ld (get_mem s') x = ld (get_mem s) x).
  { intros u q x Hu Hq Hx. destruct (covers_reach _ _ _ _ _ Hu) as (r & p & Hr).
    destruct (fw_ok _ _ _ (vw_fw _ _ Hwf) _ _ _ (Hr q _ Hq Hx)) as [_ [_ Hn']]. apply Hk. by rewrite page_of_div in Hn'. }
  apply same_tree_frame; [by eapply vm_mem_wf|done..| |]; intros q x; by apply Hfr.
Qed.
(** ... and after a store into a page that is in neither. *)
Lemma same_tree_store F s k n t c d i e :
  vm_wf F s → n ≤ 512 → covers F (get_mem s) t k n → covers F (get_mem s) c k n →
  d mod PAGE_SIZE = 0 → 0 ≤ i < 512 →
  (∀ q, upath (k, n) q → tbl (get_mem s) t q ≠ Some d) → (∀ q, upath (k, n) q → tbl (get_mem s) c q ≠ Some d) →
  same_tree (get_mem s) k n t c → same_tree (st (get_mem s) (d + 8 * i) e) k n t c.
Proof.
  intros Hwf Hn Ht Hc Hd Hi Hnt Hnc. destruct (covers_owned _ _ _ _ _ Hwf Ht) as [Ht4 _]. destruct (covers_owned _ _ _ _ _ Hwf Hc) as [Hc4 _].
  apply same_tree_frame; [by eapply vm_mem_wf|done..| |]; intros q x Hq Hx; apply ld_st_other; intros <-;
    rewrite entry_page in Hx by done.
  - by apply (Hnt q).
  - by apply (Hnc q).
Qed.

(** The contract of a function that clones trees of [k] levels. *)
Definition clone_ok (k : nat) (f : Z → M S Z) : Prop := ∀ F s t,
  vm_wf F s → covers F (get_mem s) t k 512 →
  wp (f t) s (λ c s',
    (c = 0 ∧ vm_wf F s' ∧ keeps s s') ∨
    (0 < c < 2 ^ 52 ∧ c mod PAGE_SIZE = 0 ∧ vm_wf (<[c := (k, 512)]> F) s' ∧ F !! c = None ∧ keeps s s' ∧
     same_tree (get_mem s') k 512 t c)).

(** The table at [c] mirrors the table at [t] up to entry [i]. *)
Record cloning (F : forest) (s0 : S) (t c : Z) (k : nat) (n i : Z) s : Prop := {
  cl_wf : vm_wf (<[c := (Datatypes.S k, n)]> F) s;
  cl_keeps : keeps s0 s;
  cl_todo j : i ≤ j < n → entry (get_mem s) c j = 0;
  cl_done j : 0 ≤ j < i → present (entry (get_mem s) c j) = present (entry (get_mem s) t j) ∧
    (present (entry (get_mem s) t j) = true →
       Z.land (entry (get_mem s) c j) 0xFFF = Z.land (entry (get_mem s) t j) 0xFFF ∧
       same_tree (get_mem s) k 512 (frame (entry (get_mem s) t j)) (frame (entry (get_mem s) c j)));
}.

Section cloning_lemmas.
Context (F : forest) (s0 : S) (t c : Z) (k : nat) (n : Z).
Context (Hwf0 : vm_wf F s0) (Hcov0 : covers F (get_mem s0) t (Datatypes.S k) n) (Hn : n ≤ 512)
  (Hnone : F !! c = None) (Hcf : c / PAGE_SIZE ∈ pa_free s0) (Hc4 : c mod PAGE_SIZE = 0).
Let FC : forest := <[c := (Datatypes.S k, n)]> F.

Lemma cl_parent s j : keeps s0 s → 0 ≤ j < 512 → entry (get_mem s) t j = entry (get_mem s0) t j.
Proof using Hwf0 Hcov0.
  intros Hk Hj. destruct (covers_owned _ _ _ _ _ Hwf0 Hcov0) as [Ht4 [_ Ht]]. by apply keeps_entry.
Qed.
Lemma cl_cov s : keeps s0 s → covers FC (get_mem s) t (Datatypes.S k) n.
Proof using Hwf0 Hcov0 Hnone. intros Hk. apply covers_insert; [done|]. by eapply covers_keeps. Qed.
Lemma cl_cov_c m : covers FC m c (Datatypes.S k) n.
Proof using Type. apply covers_root. apply lookup_insert_eq. Qed.
Lemma cl_tc : t ≠ c.
Proof using Hwf0 Hcov0 Hcf. intros ->. by destruct (covers_owned _ _ _ _ _ Hwf0 Hcov0) as [_ [_ ?]]. Qed.

(** The finished subtrees survive a store into [c]. *)
Lemma cl_store s i e j :
  vm_wf FC s → keeps s0 s → 0 ≤ i < 512 → 0 ≤ j < n →
  present (entry (get_mem s) c j) = true → present (entry (get_mem s) t j) = true →
  same_tree (get_mem s) k 512 (frame (entry (get_mem s) t j)) (frame (entry (get_mem s) c j)) →
  same_tree (st (get_mem s) (c + 8 * i) e) k 512 (frame (entry (get_mem s) t j)) (frame (entry (get_mem s) c j)).
Proof using Hwf0 Hcov0 Hnone Hc4 Hn.
  intros Hwf Hk Hi Hj Hpc Hpt.
  assert (Hroot : reach FC (get_mem s) c [] c) by apply (root_reach _ _ _ (Datatypes.S k, n)), lookup_insert_eq.
  apply (same_tree_store FC); try done.
  - eapply covers_child; [by apply cl_cov|lia|lia|done].
  - eapply covers_child; [apply cl_cov_c|lia|lia|done].
  - intros q Hq Hx. assert (HcovF : covers F (get_mem s) t (Datatypes.S k) n) by by eapply covers_keeps.
    destruct HcovF as (r & h & p & Hr & Ht & Hp).
    assert (Hre : reach FC (get_mem s) r (p ++ j :: q) c).
    { exists h. split_and!; [unfold FC; rewrite lookup_insert_ne; congruence|apply Hp; apply upath_cons; (done || lia)|].
      rewrite tbl_app, Ht. cbn [tbl]. unfold step. by rewrite Hpt. }
    destruct (fw_inj _ _ _ (vw_fw _ _ Hwf) _ _ _ _ _ Hre Hroot) as [-> _]. congruence.
  - intros q Hq Hx.
    assert (Hre : reach FC (get_mem s) c (j :: q) c).
    { exists (Datatypes.S k, n). split_and!; [apply lookup_insert_eq|apply upath_cons; (done || lia)|].
      cbn [tbl]. unfold step. by rewrite Hpc. }
    destruct (fw_inj _ _ _ (vw_fw _ _ Hwf) _ _ _ _ _ Hre Hroot) as [_ ?]. done.
Qed.

(** Entry [i] is absent in the parent. *)
Lemma cl_skip s i :
  cloning F s0 t c k n i s → 0 ≤ i < n → present (entry (get_mem s) t i) = false → cloning F s0 t c k n (i + 1) s.
Proof using Type.
  intros [W K T D] Hi He. split; [done|done| |].
  - intros j Hj. apply T. lia.
  - intros j Hj. destruct (decide (j = i)) as [->|]; [|apply D; lia]. rewrite T by lia. by rewrite He.
Qed.
(** Writing the zero that is there already. *)
Lemma cl_zero s i :
  cloning F s0 t c k n i s → 0 ≤ i < n →
  cloning F s0 t c k n i (set_mem (st (get_mem s) (c + 8 * i) 0) s).
Proof using Hwf0 Hcov0 Hnone Hc4 Hn Hcf.
  intros [W K T D] Hi. pose proof cl_tc as Htc.
  destruct (covers_owned _ _ _ _ _ Hwf0 Hcov0) as [Ht4 _].
  assert (Hm : mem_wf (st (get_mem s) (c + 8 * i) 0)) by (apply mem_wf_st; by eapply vm_mem_wf).
  assert (Hmem : ∀ x, ld (st (get_mem s) (c + 8 * i) 0) x = ld (get_mem s) x).
  { intros x. destruct (decide (x = c + 8 * i)) as [->|]; [|by apply ld_st_other].
    rewrite ld_st_same. change (u64 0) with 0. symmetry. apply (T i). lia. }
  split.
  - eapply vm_wf_store; [done|done|]. eapply forest_frame; [apply W|done|done].
  - apply keeps_store; try done; [apply W|lia].
  - intros j Hj. rewrite get_set_mem. unfold entry. rewrite Hmem. by apply T.
  - intros j Hj. rewrite get_set_mem. unfold entry. rewrite !Hmem. destruct (D j Hj) as [D1 D2]. split; [done|].
    intros He. destruct (D2 He) as [D3 D4]. split; [done|]. apply cl_store; try (done || lia). unfold entry in *. congruence.
Qed.
(** The clone [c'] of the child survives being linked. *)
Lemma cl_link_new s s2 i c' e :
  vm_wf (<[c' := (k, 512)]> FC) s2 → FC !! c' = None → keeps s0 s2 → 0 ≤ i < n →
  entry (get_mem s2) t i = entry (get_mem s) t i → present (entry (get_mem s) t i) = true →
  same_tree (get_mem s2) k 512 (frame (entry (get_mem s) t i)) c' →
  same_tree (st (get_mem s2) (c + 8 * i) e) k 512 (frame (entry (get_mem s) t i)) c'.
Proof using Hwf0 Hcov0 Hnone Hc4 Hn.
  intros Hwf2 Hnone2 K2 Hi Et He. assert (Hcc : c ≠ c') by (intros <-; unfold FC in Hnone2; by rewrite lookup_insert_eq in Hnone2).
  assert (Hroot : reach (<[c' := (k, 512)]> FC) (get_mem s2) c [] c).
  { apply (root_reach _ _ _ (Datatypes.S k, n)). rewrite lookup_insert_ne by done. apply lookup_insert_eq. }
  rewrite <- Et in *. apply (same_tree_store (<[c' := (k, 512)]> FC)); try (done || lia).
  - apply covers_insert; [done|]. eapply covers_child; [by apply cl_cov|lia|lia|done].
  - apply covers_root, lookup_insert_eq.
  - intros q Hq Hx. assert (HcovF : covers F (get_mem s2) t (Datatypes.S k) n) by by eapply covers_keeps.
    destruct HcovF as (r & h & p & Hr & Ht & Hp).
    assert (Hrc : r ≠ c) by congruence.
    assert (Hrc' : r ≠ c') by (intros ->; unfold FC in Hnone2; rewrite lookup_insert_ne in Hnone2; congruence).
    assert (Hre : reach (<[c' := (k, 512)]> FC) (get_mem s2) r (p ++ i :: q) c).
    { exists h. split_and!; [unfold FC; by rewrite !lookup_insert_ne by congruence|apply Hp; apply upath_cons; (done || lia)|].
      rewrite tbl_app, Ht. cbn [tbl]. unfold step. by rewrite He. }
    by destruct (fw_inj _ _ _ (vw_fw _ _ Hwf2) _ _ _ _ _ Hre Hroot) as [-> _].
  - intros q Hq Hx.
    assert (Hre : reach (<[c' := (k, 512)]> FC) (get_mem s2) c' q c)
      by (exists (k, 512); split_and!; [apply lookup_insert_eq|done|done]).
    by destruct (fw_inj _ _ _ (vw_fw _ _ Hwf2) _ _ _ _ _ Hre Hroot) as [-> _].
Qed.
(** Linking the clone [c'] of the child. *)
Lemma cl_link s s2 i c' :
  cloning F s0 t c k n i s → 0 ≤ i < n → present (entry (get_mem s) t i) = true →
  vm_wf (<[c' := (k, 512)]> FC) s2 → FC !! c' = None → keeps s s2 → 0 < c' < 2 ^ 52 → c' mod PAGE_SIZE = 0 →
  same_tree (get_mem s2) k 512 (frame (entry (get_mem s) t i)) c' →
  cloning F s0 t c k n (i + 1)
    (set_mem (st (get_mem s2) (c + 8 * i) (Z.lor c' (Z.land (entry (get_mem s2) t i) 0xFFF))) s2).
Proof using Hwf0 Hcov0 Hnone Hc4 Hn Hcf.
  intros [W K T D] Hi He Hwf2 Hnone2 Hk2 Hc' Hc'4 Hst. pose proof cl_tc as Htc.
  destruct (covers_owned _ _ _ _ _ Hwf0 Hcov0) as [Ht4 [_ Htf]].
  assert (HcFC : FC !! c = Some (Datatypes.S k, n)) by apply lookup_insert_eq.
  destruct (fw_root _ _ _ (vw_fw _ _ W) c _ HcFC) as [_ [_ Hcn]].
  pose proof (keeps_trans _ _ _ K Hk2) as K2.
  assert (Et : ∀ j, 0 ≤ j < 512 → entry (get_mem s2) t j = entry (get_mem s) t j).
  { intros j Hj. by rewrite (cl_parent s2 j K2 Hj), (cl_parent s j K Hj). }
  assert (Ec : ∀ j, 0 ≤ j < 512 → entry (get_mem s2) c j = entry (get_mem s) c j).
  { intros j Hj. by apply keeps_entry. }
  rewrite Et by lia. destruct (mk_entry_like c' (entry (get_mem s) t i) Hc'4 ltac:(lia) He) as (Hu & Hp & Hfr & Hfl).
  set (e' := Z.lor c' _) in *.
  assert (Hm : mem_wf (st (get_mem s2) (c + 8 * i) e')) by (apply mem_wf_st; by eapply vm_mem_wf).
  assert (HwfFC : vm_wf FC s2) by (split; [apply Hwf2|by eapply forest_sub; [apply Hwf2|]]).
  assert (Ect : ∀ j, 0 ≤ j < 512 → entry (st (get_mem s2) (c + 8 * i) e') t j = entry (get_mem s) t j).
  { intros j Hj. rewrite <- Et by done. unfold entry. apply ld_st_other. intros E.
    apply entry_addr in E as [? _]; [congruence|done|done|lia|done]. }
  split.
  - eapply vm_wf_store; [exact HwfFC|done|].
    apply (forest_graft FC _ _ c' (k, 512) c (Datatypes.S k, n) [] c i e'); try done.
    + apply Hwf2.
    + by apply (root_reach _ _ _ (Datatypes.S k, n)).
    + apply (upath_cons k n i []); [apply upath_nil|lia|lia].
    + by rewrite Hu.
    + by rewrite Hu.
  - apply keeps_store; try done; [apply Hwf2|lia].
  - intros j Hj. rewrite get_set_mem, entry_store, decide_False by (done || lia). rewrite Ec by lia. apply T. lia.
  - intros j Hj. rewrite get_set_mem, Ect by lia. rewrite entry_store by (done || lia). case_decide as Eij.
    + subst j. rewrite Hu, Hp, He, Hfr. split; [done|]. intros _. split; [done|]. apply cl_link_new; [done|done|done|done|apply Et; lia|done|done].
    + rewrite Ec by lia. destruct (D j ltac:(lia)) as [D1 D2]. split; [done|]. intros Hpj.
      destruct (D2 Hpj) as [D3 D4]. split; [done|]. rewrite <- Et, <- Ec in * by lia.
      apply cl_store; try done; [lia|lia|congruence|]. rewrite Et, Ec in * by lia.
      eapply (same_tree_keeps FC s s2); try done.
      * eapply covers_child; [by apply cl_cov|lia|lia|done].
      * eapply covers_child; [apply cl_cov_c|lia|lia|congruence].
Qed.
End cloning_lemmas.

(** What an iteration must do for the whole loop to clone a table. *)
Definition clone_step_ok (F : forest) (s0 : S) (t c : Z) (k : nat) (n : Z) (body : Z → M S (option Z)) : Prop :=
  ∀ i s, 0 ≤ i < n → cloning F s0 t c k n i s →
    wp (body i) s (λ r s', match r with
      | Some v => v = 0 ∧ vm_wf F s' ∧ keeps s0 s'
      | None => cloning F s0 t c k n (i + 1) s'
      end).

Lemma cl_start F s0 s1 t c k n :
  vm_wf (<[c := (Datatypes.S k, n)]> F) s1 → keeps s0 s1 → n ≤ 512 →
  (∀ i, 0 ≤ i < n → entry (get_mem s1) c i = 0) → cloning F s0 t c k n 0 s1.
Proof. intros W K Hn Hz. split; [done|done|done|]. intros j Hj. lia. Qed.
Lemma cl_finish F s0 t c k n s : cloning F s0 t c k n n s → same_tree (get_mem s) (Datatypes.S k) n t c.
Proof. intros [_ _ _ D] i Hi. by apply D. Qed.
(** Giving up: the half-built table is returned, its children are lost. *)
Lemma wp_give_back F s0 s c h (Q : option Z → S → Prop) :
  vm_wf (<[c := h]> F) s → F !! c = None → keeps s0 s → c / PAGE_SIZE ∈ pa_free s0 →
  (∀ s', vm_wf F s' → keeps s0 s' → Q (Some 0) s') →
  wp (pmm_free c;; mret (Some 0)) s Q.
Proof.
  intros Hwf Hnone Hk Hc HQ. apply wp_bind. eapply wp_free_loose; [done|done|].
  intros s' Hwf' Hm Hf Hmem. apply wp_ret, HQ; [done|]. split.
  - intros p. rewrite Hm. apply Hk.
  - rewrite Hf. intros p [->%elem_of_singleton|Hp]%elem_of_union; [done|]. by apply (ke_free _ _ Hk).
  - intros x Hx. rewrite Hmem. by apply Hk.
Qed.

Lemma clone_table_ok k (body : Z → Z → Z → M S (option Z)) :
  (∀ F s0 t c, vm_wf F s0 → covers F (get_mem s0) t (Datatypes.S k) 512 → F !! c = None →
     c / PAGE_SIZE ∈ pa_free s0 → c mod PAGE_SIZE = 0 → clone_step_ok F s0 t c k 512 (body t c)) →
  clone_ok (Datatypes.S k) (λ t,
    child ← pmm_alloc;
    if child =? 0 then mret 0 else
    r ← for_until 512 0 (body t child);
    mret (default child r)).
Proof.
  intros Hbody F s t Hwf Hcov. apply wp_bind.
  eapply wp_mono; [by eapply (wp_new_page F s (Datatypes.S k, 512))|].
  intros c s1 [(-> & Hf & ->)|(Hwf1 & Hnone & Hk & Hc & Hc4 & Hin & _ & Hz)].
  { apply wp_ret. left. split_and!; [done..|]. apply keeps_refl. }
  rewrite (proj2 (Z.eqb_neq c 0)) by lia. apply wp_bind.
  specialize (Hbody F s t c Hwf Hcov Hnone Hin Hc4).
  apply (wp_for_until (λ i s', cloning F s t c k 512 i s')).
  - by apply cl_start.
  - intros i s' Hi Hcl. eapply wp_mono; [apply Hbody; [lia|done]|].
    intros [v|] s'' Hr; [|done]. destruct Hr as (-> & W & K). apply wp_ret. by left.
  - intros s' Hcl. apply wp_ret. right. cbn [default].
    split_and!; [lia|lia|done|apply Hcl|done|apply Hcl|]. by apply (cl_finish F s t c).
Qed.

Lemma clone_page_ok F s t fl :
  vm_wf F s → covers F (get_mem s) t 0 512 →
  wp (clone_page t fl) s (λ v s',
    (v = 0 ∧ s' = s) ∨
    ∃ c, v = Z.lor c fl ∧ 0 < c < 2 ^ 52 ∧ c mod PAGE_SIZE = 0 ∧ vm_wf (<[c := (0%nat, 512)]> F) s' ∧
      F !! c = None ∧ keeps s s' ∧ same_tree (get_mem s') 0 512 t c).
Proof.
  intros Hwf Hcov. destruct (covers_owned _ _ _ _ _ Hwf Hcov) as [Ht4 [_ Htf]]. apply wp_bind.
  eapply wp_mono; [by eapply (wp_new_page F s (0%nat, 512))|].
  intros c s1 [(-> & Hf & ->)|(Hwf1 & Hnone & Hk & Hc & Hc4 & Hin & _ & _)]; [apply wp_ret; by left|].
  rewrite (proj2 (Z.eqb_neq c 0)) by lia. apply wp_bind, wp_copy_bytes, wp_ret. right. exists c.
  rewrite !Z.add_0_r. assert (Htc : t ≠ c) by by intros ->.
  assert (HN : Z.of_nat 4096 = 4096) by reflexivity. revert HN. generalize 4096%nat. intros N HN.
  set (m1 := get_mem s1). set (m' := copy_bytes N c t m1).
  assert (Hm1 : mem_wf m1) by by eapply vm_mem_wf. assert (Hm' : mem_wf m') by by apply copy_bytes_wf.
  assert (Hout : ∀ x, x / PAGE_SIZE ≠ c / PAGE_SIZE → ld m' x = ld m1 x).
  { intros x Hx. apply copy_bytes_word. intros i Hi <-. apply Hx. rewrite HN in Hi. unfold PAGE_SIZE in *. dlia. }
  destruct (store_facts s1 m' (vw_pa _ _ Hwf1) Hm') as (_ & Hf & Hman & _).
  split_and!; try done; [lia|lia|..].
  - eapply vm_wf_store; [done|done|].
    set (P := λ u, owned s1 u ∧ u ≠ c ∧ u mod PAGE_SIZE = 0).
    assert (Hd : forest_wf F m' P).
    { eapply (forest_frame F m1 P); [by eapply forest_drop; [apply Hwf1|]| |done].
      intros x (_ & Hx & _). apply Hout. intros E. apply Hx. unfold page_of. rewrite E. unfold PAGE_SIZE in *. dlia. }
    eapply (forest_frame _ m'); [apply (forest_fresh F m' P c (0%nat, 512) Hd)|done|]; [by intros (_ & ? & _)|done|by right|].
    intros u [(? & _)| ->]; [done|]. by apply (fw_root _ _ _ (vw_fw _ _ Hwf1) c (0%nat, 512)), lookup_insert_eq.
  - split.
    + intros p. rewrite Hman. apply Hk.
    + rewrite Hf. apply Hk.
    + intros x Hx. rewrite get_set_mem, Hout; [by apply Hk|]. congruence.
  - intros i Hi. rewrite get_set_mem. unfold entry. rewrite (Hout (t + 8 * i)).
    + apply ld_ext; [done|done|by apply entry_aligned|by apply entry_aligned|].
      intros j Hj. rewrite <- !Z.add_assoc. apply copy_bytes_in; [done| |lia].
      rewrite HN. unfold PAGE_SIZE in *. dlia.
    + intros E. apply Htc. unfold PAGE_SIZE in *. dlia.
Qed.

(** The iteration over an absent entry, common to [clone_pt], [clone_pd] and
    [clone_pdpt]. *)
Lemma wp_clone_absent F s0 t c k i s :
  vm_wf F s0 → covers F (get_mem s0) t (Datatypes.S k) 512 → F !! c = None →
  c / PAGE_SIZE ∈ pa_free s0 → c mod PAGE_SIZE = 0 → 0 ≤ i < 512 →
  cloning F s0 t c k 512 i s → present (entry (get_mem s) t i) = false →
  wp (set_entry c i 0;; mret None) s (λ (r : option Z) s', match r with
      | Some v => v = 0 ∧ vm_wf F s' ∧ keeps s0 s'
      | None => cloning F s0 t c k 512 (i + 1) s'
      end).
Proof.
  intros Hwf0 Hcov Hnone Hcf Hc4 Hi Hcl He. apply wp_bind, wp_set_entry; [done|]. apply wp_ret.
  pose proof (cl_zero F s0 t c k 512 Hwf0 Hcov ltac:(lia) Hnone Hcf Hc4 s i Hcl Hi) as Hcl'.
  apply cl_skip; [done|done|].
  rewrite (cl_parent F s0 t k 512 Hwf0 Hcov) by (done || apply Hcl').
  by rewrite (cl_parent F s0 t k 512 Hwf0 Hcov) in He by (done || apply Hcl).
Qed.

Lemma clone_pt_step_ok F s0 t c :
  vm_wf F s0 → covers F (get_mem s0) t 1 512 → F !! c = None →
  c / PAGE_SIZE ∈ pa_free s0 → c mod PAGE_SIZE = 0 → clone_step_ok F s0 t c 0 512 (clone_pt_step t c).
Proof.
  intros Hwf0 Hcov Hnone Hcf Hc4 i s Hi Hcl. destruct (covers_owned _ _ _ _ _ Hwf0 Hcov) as [Ht4 _].
  apply wp_bind, wp_get_entry; [done|]. destruct (present _) eqn:He; [|by apply wp_clone_absent].
  pose proof Hcl as [W K _ _].
  assert (Hch : covers (<[c := (1%nat, 512)]> F) (get_mem s) (frame (entry (get_mem s) t i)) 0 512).
  { eapply covers_child; [by apply (cl_cov F s0 t c 0 512)|lia|lia|done]. }
  apply wp_bind. eapply wp_mono; [by apply (clone_page_ok _ s _ _ W Hch)|].
  intros v s2 [(-> & ->)|(c' & -> & Hc' & Hc'4 & W2 & N2 & K2 & Hst)].
  - apply wp_bind, wp_set_entry; [done|]. apply wp_bind, wp_get_entry; [done|].
    rewrite get_set_mem, entry_store, decide_True by (done || lia). change (u64 0 =? 0) with true.
    pose proof (cl_zero F s0 t c 0 512 Hwf0 Hcov ltac:(lia) Hnone Hcf Hc4 s i Hcl Hi) as [W' K' _ _].
    eapply wp_give_back; [exact W'|done|done|done|]. done.
  - pose proof (cl_link F s0 t c 0 512 Hwf0 Hcov ltac:(lia) Hnone Hcf Hc4 s s2 i c' Hcl Hi He W2 N2 K2 Hc' Hc'4 Hst) as Hcl'.
    assert (Et : entry (get_mem s2) t i = entry (get_mem s) t i).
    { rewrite (cl_parent F s0 t 0 512 Hwf0 Hcov s2), (cl_parent F s0 t 0 512 Hwf0 Hcov s); try done.
      by eapply keeps_trans. }
    rewrite Et in Hcl'. destruct (mk_entry_like c' _ Hc'4 ltac:(lia) He) as (Hu & Hp & _).
    apply wp_bind, wp_set_entry; [done|]. apply wp_bind, wp_get_entry; [done|].
    rewrite get_set_mem, entry_store, decide_True by (done || lia). rewrite Hu.
    destruct (Z.eqb_spec (Z.lor c' (Z.land (entry (get_mem s) t i) 0xFFF)) 0) as [E|E]; [by rewrite E in Hp|].
    by apply wp_ret.
Qed.

Lemma clone_dir_step_ok k clone_child F s0 t c :
  clone_ok k clone_child →
  vm_wf F s0 → covers F (get_mem s0) t (Datatypes.S k) 512 → F !! c = None →
  c / PAGE_SIZE ∈ pa_free s0 → c mod PAGE_SIZE = 0 →
  clone_step_ok F s0 t c k 512 (clone_dir_step clone_child t c).
Proof.
  intros Hchild Hwf0 Hcov Hnone Hcf Hc4 i s Hi Hcl. destruct (covers_owned _ _ _ _ _ Hwf0 Hcov) as [Ht4 _].
  apply wp_bind, wp_get_entry; [done|]. destruct (present _) eqn:He; [|by apply wp_clone_absent].
  pose proof Hcl as [W K _ _].
  assert (Hch : covers (<[c := (Datatypes.S k, 512)]> F) (get_mem s) (frame (entry (get_mem s) t i)) k 512).
  { eapply covers_child; [by apply (cl_cov F s0 t c k 512)|lia|lia|done]. }
  apply wp_bind. eapply wp_mono; [by apply (Hchild _ s _ W Hch)|].
  intros c' s2 [(-> & W2 & K2)|(Hc' & Hc'4 & W2 & N2 & K2 & Hst)].
  - eapply wp_give_back; [exact W2|done|exact (keeps_trans _ _ _ K K2)|done|]. done.
  - rewrite (proj2 (Z.eqb_neq c' 0)) by lia. apply wp_bind, wp_get_entry; [done|].
    apply wp_bind, wp_set_entry; [done|]. apply wp_ret. by apply (cl_link F s0 t c k 512) with (s := s).
Qed.

Lemma clone_pt_ok : clone_ok 1 clone_pt.
Proof. unfold clone_pt. apply (clone_table_ok 0 clone_pt_step). intros. by apply clone_pt_step_ok. Qed.
Lemma clone_pd_ok : clone_ok 2 clone_pd.
Proof. unfold clone_pd. apply (clone_table_ok 1 (clone_dir_step clone_pt)). intros. apply clone_dir_step_ok; try done. apply clone_pt_ok. Qed.
Lemma clone_pdpt_ok : clone_ok 3 clone_pdpt.
Proof. unfold clone_pdpt. apply (clone_table_ok 2 (clone_dir_step clone_pd)). intros. apply clone_dir_step_ok; try done. apply clone_pd_ok. Qed.

(** One iteration of the loop over the user half; the kernel half of the child
    stays as it is. *)
Lemma clone_pml4_step_ok kernel F s0 t c i s :
  vm_wf F s0 → F !! t = Some (4%nat, 256) → F !! c = None →
  c / PAGE_SIZE ∈ pa_free s0 → c mod PAGE_SIZE = 0 → kernel / PAGE_SIZE ∉ pa_free s0 → 0 < c →
  0 ≤ i < 256 → cloning F s0 t c 3 256 i s →
  wp (clone_pml4_step kernel t c i) s (λ r s', match r with
    | Some v => v = 0 ∧ vm_wf F s' ∧ keeps s0 s'
    | None => cloning F s0 t c 3 256 (i + 1) s' ∧
        ∀ j, 256 ≤ j < 512 → entry (get_mem s') c j = entry (get_mem s) c j
    end).
Proof.
  intros Hwf0 Ht Hnone Hcf Hc4 Hker Hc0 Hi Hcl.
  pose proof (covers_root F (get_mem s0) t 4 256 Ht) as Hcov. destruct (covers_owned _ _ _ _ _ Hwf0 Hcov) as [Ht4 _].
  apply wp_bind, wp_get_entry; [done|]. destruct (present _) eqn:He.
  2: { apply wp_ret. split; [|done]. by apply cl_skip. }
  pose proof Hcl as [W K _ _].
  assert (Hch : covers (<[c := (4%nat, 256)]> F) (get_mem s) (frame (entry (get_mem s) t i)) 3 512).
  { eapply covers_child; [by apply (cl_cov F s0 t c 3 256)|lia|lia|done]. }
  apply wp_bind. eapply wp_mono; [by apply (clone_pdpt_ok _ s _ W Hch)|].
  intros c' s2 [(-> & W2 & K2)|(Hc' & Hc'4 & W2 & N2 & K2 & Hst)].
  - cbn [Z.eqb]. unfold vmm_destroy_address_space.
    rewrite (proj2 (Z.eqb_neq c 0)), (proj2 (Z.eqb_neq c kernel)) by (lia || intros ->; done). cbn [orb].
    eapply wp_give_back; [exact W2|done|exact (keeps_trans _ _ _ K K2)|done|]. done.
  - rewrite (proj2 (Z.eqb_neq c' 0)) by lia. apply wp_bind, wp_get_entry; [done|].
    apply wp_bind, wp_set_entry; [done|]. apply wp_ret. split.
    + by apply (cl_link F s0 t c 3 256) with (s := s).
    + intros j Hj. rewrite get_set_mem, entry_store, decide_False by (done || lia). apply keeps_entry; [done|done|lia|].
      by apply (fw_root _ _ _ (vw_fw _ _ W) c (4%nat, 256)), lookup_insert_eq.
Qed.

(** What the mirrored tables mean for translations. *)
Lemma same_tree_leaf m r c v :
  same_tree m 4 256 r c → 0 ≤ v < 2 ^ 47 →
  match leaf m r v, leaf m c v with
  | Some e, Some e' => Z.land e' 0xFFF = Z.land e 0xFFF ∧
      ∀ i, 0 ≤ i < 512 → entry m (frame e') i = entry m (frame e) i
  | None, None => True
  | _, _ => False
  end.
Proof.
  intros Hs Hv. pose proof (user_index v Hv). destruct (indices v ltac:(lia)) as (_ & ? & ? & ? & ?).
  unfold leaf, dirs. cbn [tbl]. unfold step.
  destruct (Hs (PML4_INDEX v) ltac:(lia)) as [-> Hs1]. destruct (present (entry m r _)); [|done].
  destruct (Hs1 eq_refl) as [_ Hs1']. destruct (Hs1' (PDPT_INDEX v) ltac:(lia)) as [-> Hs2].
  destruct (present _); [|done]. destruct (Hs2 eq_refl) as [_ Hs2'].
  destruct (Hs2' (PD_INDEX v) ltac:(lia)) as [-> Hs3]. destruct (present _); [|done]. destruct (Hs3 eq_refl) as [_ Hs3'].
  destruct (Hs3' (PT_INDEX v) ltac:(lia)) as [-> Hs4]. destruct (present _); [|done]. by destruct (Hs4 eq_refl).
Qed.

(** Clearing the fresh table again changes nothing. *)
Lemma wp_clear_fresh F s s1 c n Q :
  vm_wf (<[c := (n, 256)]> F) s1 → keeps s s1 → c mod PAGE_SIZE = 0 →
  (∀ i, 0 ≤ i < 512 → entry (get_mem s1) c i = 0) →
  (∀ s', vm_wf (<[c := (n, 256)]> F) s' → keeps s s' →
     (∀ i, 0 ≤ i < 512 → entry (get_mem s') c i = 0) → Q () s') →
  wp (for_loop 512 0 (λ i, set_entry c i 0)) s1 Q.
Proof.
  intros Hwf1 Hk Hc4 Hz HQ. apply wp_zero_words; [unfold PAGE_SIZE in *; dlia|]. rewrite Z.mul_0_r, Z.add_0_r.
  assert (HN : Z.of_nat 512 = 512) by reflexivity. revert HN. generalize 512%nat. intros N HN.
  assert (Hm' : mem_wf (zero_words N c (get_mem s1))) by (apply zero_words_wf; by eapply vm_mem_wf).
  assert (Hsame : ∀ x, ld (zero_words N c (get_mem s1)) x = ld (get_mem s1) x).
  { intros x. destruct (decide (0 ≤ (x - c) / 8 < 512 ∧ (x - c) mod 8 = 0)) as [[Hi Hx]|Hno].
    - replace x with (c + 8 * ((x - c) / 8)) by dlia. rewrite zero_words_in by lia. symmetry. by apply Hz.
    - apply zero_words_out. intros i Hi ->. apply Hno. dlia. }
  destruct (store_facts s1 _ (vw_pa _ _ Hwf1) Hm') as (_ & Hf & Hman & _).
  apply HQ.
  - eapply vm_wf_store; [done|done|]. eapply forest_frame; [apply Hwf1|done|done].
  - split; [intros p; rewrite Hman; apply Hk|rewrite Hf; apply Hk|]. intros x Hx. rewrite get_set_mem, Hsame. by apply Hk.
  - intros i Hi. rewrite get_set_mem. unfold entry. rewrite Hsame. by apply Hz.
Qed.

Lemma clone_result F s s' r c :
  vm_wf F s → F !! r = Some (4%nat, 256) → F !! c = None → 0 < c < 2 ^ 52 →
  cloning F s r c 3 256 256 s' →
  (∀ j, 256 ≤ j < 512 → entry (get_mem s') c j = entry (get_mem s) r j) →
  keeps s s' ∧ same_leaves F s s' ∧
    ((c = 0 ∧ vm_wf F s') ∨
     (c ≠ 0 ∧ vm_wf (<[c := (4%nat, 256)]> F) s' ∧ F !! c = None ∧
      (∀ i, 256 ≤ i < 512 → entry (get_mem s') c i = entry (get_mem s) r i) ∧
      ∀ v, 0 ≤ v < 2 ^ 47 →
        match leaf (get_mem s) r v, leaf (get_mem s') c v with
        | Some e, Some e' => Z.land e' 0xFFF = Z.land e 0xFFF ∧ frame e' ≠ frame e ∧
            ∀ i, 0 ≤ i < 512 → entry (get_mem s') (frame e') i = entry (get_mem s) (frame e) i
        | None, None => True
        | _, _ => False
        end)).
Proof.
  intros Hwf Hr Hnone Hc Hcl Hup. pose proof Hcl as [W K _ _].
  pose proof (keeps_leaves F s s' Hwf K) as Hsl. split_and!; [done|done|]. right. split_and!; [lia|done..|].
  intros v Hv. pose proof (same_tree_leaf (get_mem s') r c v (cl_finish _ _ _ _ _ _ _ Hcl) Hv) as Hst.
  rewrite (Hsl r (4%nat, 256) v Hr ltac:(cbn; lia) ltac:(done) Hv) in Hst.
  destruct (leaf (get_mem s) r v) as [e|] eqn:El; [|done]. destruct (leaf (get_mem s') c v) as [e'|] eqn:El'; [|done].
  destruct Hst as [Hfl Hcont]. split_and!; [done|..].
  - assert (Hrc : r ≠ c) by congruence. intros E.
    pose proof (leaf_reach (<[c := (4%nat, 256)]> F) s' c _ v e' (lookup_insert_eq _ _ _) eq_refl ltac:(done) Hv El') as R1.
    rewrite <- (Hsl r (4%nat, 256) v Hr ltac:(cbn; lia) ltac:(done) Hv) in El.
    assert (HrF : <[c := (4%nat, 256)]> F !! r = Some (4%nat, 256)) by (by rewrite lookup_insert_ne).
    pose proof (leaf_reach (<[c := (4%nat, 256)]> F) s' r _ v e HrF eq_refl ltac:(done) Hv El) as R2.
    rewrite E in R1. destruct (fw_inj _ _ _ (vw_fw _ _ W) _ _ _ _ _ R1 R2) as [? _]. congruence.
  - intros i Hi. rewrite Hcont by done. apply keeps_entry; [done|..|done|].
    + by apply (reach_range F s _ _ _ Hwf (leaf_reach F s r _ v e Hr eq_refl ltac:(done) Hv El)).
    + by apply (fw_ok _ _ _ (vw_fw _ _ Hwf) _ _ _ (leaf_reach F s r _ v e Hr eq_refl ltac:(done) Hv El)).
Qed.

Lemma clone_space_ok kernel F s r :
  vm_wf F s → F !! r = Some (4%nat, 256) → kernel / PAGE_SIZE ∉ pa_free s →
  wp (vmm_clone_address_space kernel r) s (λ c s',
    keeps s s' ∧ same_leaves F s s' ∧
    ((c = 0 ∧ vm_wf F s') ∨
     (c ≠ 0 ∧ vm_wf (<[c := (4%nat, 256)]> F) s' ∧ F !! c = None ∧
      (∀ i, 256 ≤ i < 512 → entry (get_mem s') c i = entry (get_mem s) r i) ∧
      ∀ v, 0 ≤ v < 2 ^ 47 →
        match leaf (get_mem s) r v, leaf (get_mem s') c v with
        | Some e, Some e' => Z.land e' 0xFFF = Z.land e 0xFFF ∧ frame e' ≠ frame e ∧
            ∀ i, 0 ≤ i < 512 → entry (get_mem s') (frame e') i = entry (get_mem s) (frame e) i
        | None, None => True
        | _, _ => False
        end))).
Proof.
  intros Hwf Hr Hker. pose proof (covers_root F (get_mem s) r 4 256 Hr) as Hcov.
  destruct (covers_owned _ _ _ _ _ Hwf Hcov) as [Hr4 [_ Hrf]].
  apply wp_bind. eapply wp_mono; [by eapply (wp_new_page F s (4%nat, 256))|].
  intros c s1 [(-> & Hf & ->)|(Hwf1 & Hnone & Hk & Hc & Hc4 & Hin & _ & Hz)].
  { apply wp_ret. split_and!; [apply keeps_refl|done|by left]. }
  rewrite (proj2 (Z.eqb_neq c 0)) by lia.
  apply wp_bind. eapply (wp_clear_fresh F s); [done..|]. intros s2 W2 K2 Z2.
  apply wp_bind. eapply (wp_copy_kernel F s s2 r c 4); try done; [by eapply vm_mem_wf|]. intros s3 W3 K3 Z3 _.
  apply wp_bind. apply (wp_for_until (λ i s', cloning F s r c 3 256 i s' ∧
    ∀ j, 256 ≤ j < 512 → entry (get_mem s') c j = entry (get_mem s) r j)).
  - split; [apply cl_start; try done|].
    + intros i Hi. by rewrite Z3, decide_True by lia.
    + intros j Hj. by rewrite Z3, decide_False by lia.
  - intros i s' Hi [Hcl Hup]. eapply wp_mono; [apply (clone_pml4_step_ok kernel F s r c i s'); try (done || lia)|].
    intros [v|] s''; [intros (-> & W & K)|intros [Hcl' Hup']].
    + apply wp_ret. split_and!; [done|by apply keeps_leaves|by left].
    + split; [done|]. intros j Hj. rewrite Hup' by done. by apply Hup.
  - intros s' [Hcl Hup]. change (0 + Z.of_nat 256) with 256 in Hcl. apply wp_ret. cbn [default].
    by apply (clone_result F s s' r c).
Qed.

(** C27 (functional): [vmm_clone_address_space] either fails with no effect on any
    address space, or returns a new address space in which each user address
    is mapped exactly when it is in the parent, with the same flags, to a page
    with the same contents that belongs to the child alone; the kernel half is
    shared, and the parent and all other address spaces are unchanged.  The
    page of the kernel's top table is not one the allocator can hand out. *)
Theorem vmm_clone_address_space_spec kernel F s r :
  vm_wf F s → F !! r = Some (4%nat, 256) → kernel / PAGE_SIZE ∉ pa_free s →
  wp (vmm_clone_address_space kernel r) s (λ c s',
    keeps s s' ∧ same_leaves F s s' ∧
    ((c = 0 ∧ vm_wf F s') ∨
     (c ≠ 0 ∧ vm_wf (<[c := (4%nat, 256)]> F) s' ∧ F !! c = None ∧
      (∀ i, 256 ≤ i < 512 → entry (get_mem s') c i = entry (get_mem s) r i) ∧
      ∀ v, 0 ≤ v < 2 ^ 47 →
        match leaf (get_mem s) r v, leaf (get_mem s') c v with
        | Some e, Some e' => Z.land e' 0xFFF = Z.land e 0xFFF ∧ frame e' ≠ frame e ∧
            ∀ i, 0 ≤ i < 512 → entry (get_mem s') (frame e') i = entry (get_mem s) (frame e) i
        | None, None => True
        | _, _ => False
        end))).
Proof. apply clone_space_ok. Qed.

Lemma clear_space_ok F s r h :
  vm_wf F s → F !! r = Some h → (1 ≤ h.1)%nat → 256 ≤ h.2 →
  wp (vmm_clear_user_space r) s (λ _ s',
    vm_wf F s' ∧ pa_free s' = pa_free s ∧ (∀ v, 0 ≤ v < 2 ^ 47 → leaf (get_mem s') r v = None) ∧
    (∀ x, page_of x ≠ r → ld (get_mem s') x = ld (get_mem s) x) ∧
    ∀ r' h' v, F !! r' = Some h' → (3 ≤ h'.1)%nat → 256 ≤ h'.2 → 0 ≤ v < 2 ^ 47 → r' ≠ r →
      leaf (get_mem s') r' v = leaf (get_mem s) r' v).
Proof.
  intros Hwf Hr H1 H2. destruct (fw_root _ _ _ (vw_fw _ _ Hwf) r h Hr) as [Hr4 _].
  apply (wp_for (λ i s', vm_wf F s' ∧ pa_free s' = pa_free s ∧
    (∀ j, 0 ≤ j < i → present (entry (get_mem s') r j) = false) ∧
    (∀ x, page_of x ≠ r → ld (get_mem s') x = ld (get_mem s) x) ∧
    ∀ r' h' v, F !! r' = Some h' → (3 ≤ h'.1)%nat → 256 ≤ h'.2 → 0 ≤ v < 2 ^ 47 → r' ≠ r →
      leaf (get_mem s') r' v = leaf (get_mem s) r' v)).
  - split_and!; [done..| |done|done]. intros j Hj. lia.
  - intros i s1 Hi (W & Hf & Hz & Hx & Ho). apply wp_bind, wp_get_entry; [done|].
    destruct (present _) eqn:He.
    2: { apply wp_ret. split_and!; [done..| |done|done]. intros j Hj. destruct (decide (j = i)) as [->|]; [done|]. apply Hz. lia. }
    apply wp_set_entry; [done|]. rewrite get_set_mem.
    pose proof (root_reach F (get_mem s1) r h Hr) as Hroot.
    assert (Hup : upath h ([] ++ [i])) by (split_and!; [cbn; lia|by apply Forall_singleton; lia|cbn; lia]).
    assert (Hm : mem_wf (st (get_mem s1) (r + 8 * i) 0)) by (apply mem_wf_st; by eapply vm_mem_wf).
    destruct (store_facts s1 _ (vw_pa _ _ W) Hm) as (_ & Hf' & _). split_and!.
    + eapply vm_wf_store; [done|done|]. by apply (forest_cut F _ _ (vw_fw _ _ W) r h [] r i 0).
    + by rewrite Hf'.
    + intros j Hj. rewrite entry_store by (done || lia). case_decide; [done|]. apply Hz. lia.
    + intros x Hxr. rewrite ld_st_other; [by apply Hx|]. intros <-. apply Hxr. apply entry_page; [done|lia].
    + intros r' h' v Hr' A B C Hne. rewrite <- (Ho r' h' v) by done.
      pose proof (dirs_upath h' v C A B) as Hd. destruct (indices v ltac:(lia)) as (_ & _ & _ & _ & Hpt). apply leaf_same.
      * apply (tbl_write F _ _ (vw_fw _ _ W) r [] r i 0 r' h'); try (done || lia).
      * intros t Ht. assert (Hre : reach F (get_mem s1) r' (dirs v) t) by by exists h'.
        destruct (reach_range F s1 _ _ _ W Hre) as [Ht4 _]. unfold entry. apply ld_st_other. intros E.
        apply entry_addr in E as [<- _]; [|done|done|lia|done].
        by destruct (fw_inj _ _ _ (vw_fw _ _ W) _ _ _ _ _ Hre Hroot) as [-> _].
  - intros s' (W & Hf & Hz & Hx & Ho). split_and!; [done..| |done|done]. intros v Hv.
    pose proof (user_index v Hv). destruct (indices v ltac:(lia)) as (_ & ? & _).
    unfold leaf, dirs. cbn [tbl]. unfold step. by rewrite Hz by lia.
Qed.
(** (functional): [vmm_clear_user_space] removes every user translation of the
    address space [r] and no other; the pages it mapped are not returned to
    the allocator. *)
Theorem vmm_clear_user_space_spec F s r h :
  vm_wf F s → F !! r = Some h → (1 ≤ h.1)%nat → 256 ≤ h.2 →
  wp (vmm_clear_user_space r) s (λ _ s',
    vm_wf F s' ∧ pa_free s' = pa_free s ∧ (∀ v, 0 ≤ v < 2 ^ 47 → leaf (get_mem s') r v = None) ∧
    ∀ r' h' v, F !! r' = Some h' → (3 ≤ h'.1)%nat → 256 ≤ h'.2 → 0 ≤ v < 2 ^ 47 → r' ≠ r →
      leaf (get_mem s') r' v = leaf (get_mem s) r' v).
Proof. intros. eapply wp_mono; [by apply (clear_space_ok F s r h)|]. cbn beta. by intros _ s' (? & ? & ? & _ & ?). Qed.
(** ** Isolation

    A client of the address-space code: any sequence of its operations, on the
    address spaces created so far, which are numbered in the order of their
    creation. *)
Inductive vm_op : Type :=
  | OpCreate
  | OpAlloc (i : nat) (va count : Z)
  | OpUnmap (i : nat) (va : Z)
  | OpClone (i : nat)
  | OpClear (i : nat).
Definition op_ok (op : vm_op) : Prop :=
  match op with
  | OpAlloc _ va count => 0 ≤ va ∧ 0 ≤ count ∧ va + count * PAGE_SIZE ≤ 2 ^ 47
  | OpUnmap _ va => 0 ≤ va < 2 ^ 47
  | _ => True
  end.
(** The space an operation changes. *)
Definition target (op : vm_op) : option nat :=
  match op with OpAlloc i _ _ | OpUnmap i _ | OpClear i => Some i | OpCreate | OpClone _ => None end.
Definition vm_exec (kernel : Z) (op : vm_op) (spaces : list Z) : M S (list Z) :=
  let add a := if a =? 0 then spaces else spaces ++ [a] in
  let on i (c : Z → M S (list Z)) := match spaces !! i with Some r => c r | None => mret spaces end in
  match op with
  | OpCreate => a ← vmm_create_address_space kernel; mret (add a)
  | OpAlloc i va count => on i (λ r, vmm_alloc_user_pages (set_page_table r zero_process) va count;; mret spaces)
  | OpUnmap i va => on i (λ r, vmm_unmap_page r va;; mret spaces)
  | OpClone i => on i (λ r, a ← vmm_clone_address_space kernel r; mret (add a))
  | OpClear i => on i (λ r, vmm_clear_user_space r;; mret spaces)
  end.
Fixpoint vm_run (kernel : Z) (ops : list vm_op) (spaces : list Z) : M S (list Z) :=
  match ops with [] => mret spaces | op :: ops' => spaces' ← vm_exec kernel op spaces; vm_run kernel ops' spaces' end.

(** No two user translations share a frame, and none leads to a free page or to
    a table. *)
Definition isolated (spaces : list Z) (s : S) : Prop :=
  ∀ i1 r1 v1 e1, spaces !! i1 = Some r1 → 0 ≤ v1 < 2 ^ 47 → leaf (get_mem s) r1 v1 = Some e1 →
    frame e1 / PAGE_SIZE ∉ pa_free s ∧
    ∀ i2 r2, spaces !! i2 = Some r2 →
      (∀ q, upath (3%nat, 256) q → tbl (get_mem s) r2 q ≠ Some (frame e1)) ∧
      ∀ v2 e2, 0 ≤ v2 < 2 ^ 47 → leaf (get_mem s) r2 v2 = Some e2 → frame e1 = frame e2 →
        i1 = i2 ∧ v1 / PAGE_SIZE = v2 / PAGE_SIZE.
(** The translations of [r] and the pages they lead to are the same. *)
Definition kept (r : Z) (s s' : S) : Prop :=
  ∀ v, 0 ≤ v < 2 ^ 47 → leaf (get_mem s') r v = leaf (get_mem s) r v ∧
    ∀ e, leaf (get_mem s) r v = Some e → ∀ i, 0 ≤ i < 512 → entry (get_mem s') (frame e) i = entry (get_mem s) (frame e) i.

Definition forest_of (spaces : list Z) : forest := list_to_map ((λ r, (r, (4%nat, 256))) <$> spaces).
Lemma forest_of_lookup sp r : r ∈ sp → forest_of sp !! r = Some (4%nat, 256).
Proof.
  induction sp as [|a sp IH]; [by intros ?%elem_of_nil|]. intros Hr. cbn. destruct (decide (a = r)) as [->|Hne]; [by apply lookup_insert_eq|].
  rewrite lookup_insert_ne by done. apply IH. by apply elem_of_cons in Hr as [->|?].
Qed.
Lemma forest_of_snoc sp a : a ∉ sp → forest_of (sp ++ [a]) = <[a := (4%nat, 256)]> (forest_of sp).
Proof.
  intros Ha. unfold forest_of. rewrite fmap_app. cbn. apply list_to_map_snoc. rewrite <- list_fmap_compose. cbn.
  by rewrite list_fmap_id.
Qed.
Lemma forest_of_empty s : pa_inv s → vm_wf (forest_of []) s.
Proof. intros Hi. split; [done|]. split; [by intros r p t (h & Hr & _)|by intros r1 p1 r2 p2 t (h & Hr & _)]. Qed.

(** Work on one space leaves the pages of the others alone. *)
Lemma leaf_untouched F s r r' v e i :
  vm_wf F s → F !! r = Some (4%nat, 256) → 0 ≤ v < 2 ^ 47 → leaf (get_mem s) r v = Some e → 0 ≤ i < 512 →
  ¬ touched F r' s (frame e + 8 * i).
Proof.
  intros Hwf Hr Hv Hl Hi. pose proof (leaf_reach F s r _ v e Hr eq_refl ltac:(done) Hv Hl) as Hc.
  destruct (fw_ok _ _ _ (vw_fw _ _ Hwf) _ _ _ Hc) as [Hc4 [_ Hn]]. intros [Hx|(q & Hq & Hr')].
  - by rewrite <- page_of_div, entry_page in Hx.
  - rewrite entry_page in Hr' by done. destruct (fw_inj _ _ _ (vw_fw _ _ Hwf) _ _ _ _ _ Hc Hr') as [_ <-]. cbn in Hq. lia.
Qed.
Lemma kept_frame F s s' r r' :
  vm_wf F s → F !! r = Some (4%nat, 256) →
  (∀ v, 0 ≤ v < 2 ^ 47 → leaf (get_mem s') r v = leaf (get_mem s) r v) →
  (∀ x, ¬ touched F r' s x → ld (get_mem s') x = ld (get_mem s) x) → kept r s s'.
Proof. intros Hwf Hr Hl Hx v Hv. split; [by apply Hl|]. intros e He i Hi. by apply Hx, (leaf_untouched F s r r' v). Qed.
Lemma kept_keeps F s s' r : vm_wf F s → F !! r = Some (4%nat, 256) → keeps s s' → kept r s s'.
Proof.
  intros Hwf Hr Hk. apply (kept_frame F _ _ _ r); [done..| |].
  - intros v Hv. by apply (keeps_leaves F s s' Hwf Hk r (4%nat, 256) v Hr); [cbn; lia|cbn; lia|].
  - intros x Hx. apply Hk. intros Hf. apply Hx. by left.
Qed.

(** What one operation does; [done_with] is what holds between them. *)
Record done_with (kernel : Z) (spaces : list Z) (s : S) : Prop := {
  dw_wf : vm_wf (forest_of spaces) s;
  dw_nodup : NoDup spaces;
  dw_kernel : kernel / PAGE_SIZE ∉ pa_free s;
}.
Definition progress (kernel : Z) (t : option nat) (spaces : list Z) (s : S) (spaces' : list Z) (s' : S) : Prop :=
  done_with kernel spaces' s' ∧ spaces `prefix_of` spaces' ∧ ∀ j r, spaces !! j = Some r → t ≠ Some j → kept r s s'.

Lemma progress_new kernel sp s a s' :
  done_with kernel sp s → keeps s s' →
  (a = 0 ∧ vm_wf (forest_of sp) s') ∨ (a ≠ 0 ∧ vm_wf (<[a := (4%nat, 256)]> (forest_of sp)) s' ∧ forest_of sp !! a = None) →
  progress kernel None sp s (if a =? 0 then sp else sp ++ [a]) s'.
Proof.
  intros [Hwf Hnd Hk] Hks Ha.
  assert (Hkept : ∀ j r, sp !! j = Some r → kept r s s').
  { intros j r Hj. by eapply kept_keeps; [exact Hwf|eapply forest_of_lookup, list_elem_of_lookup_2|]. }
  assert (Hk' : kernel / PAGE_SIZE ∉ pa_free s') by (intros H'; by apply Hk, (ke_free _ _ Hks)).
  destruct Ha as [[-> Hwf']|(Ha & Hwf' & Hnone)]; [split; [by split|split; [done|eauto]]|].
  rewrite (proj2 (Z.eqb_neq a 0)) by done.
  assert (Hin : a ∉ sp) by (intros Hin%forest_of_lookup; congruence).
  split; [split; [by rewrite forest_of_snoc| |done]|split; [by exists [a]|eauto]].
  apply NoDup_app. split_and!; [done| |apply NoDup_singleton]. by intros x Hx ->%list_elem_of_singleton.
Qed.
Lemma progress_on kernel sp s i r s' :
  done_with kernel sp s → sp !! i = Some r → vm_wf (forest_of sp) s' → pa_free s' ⊆ pa_free s →
  (∀ x, ¬ touched (forest_of sp) r s x → ld (get_mem s') x = ld (get_mem s) x) →
  (∀ r' v, forest_of sp !! r' = Some (4%nat, 256) → 0 ≤ v < 2 ^ 47 → r' ≠ r → leaf (get_mem s') r' v = leaf (get_mem s) r' v) →
  progress kernel (Some i) sp s sp s'.
Proof.
  intros [Hwf Hnd Hk] Hi Hwf' Hf Hx Hl. split; [split; [done..|set_solver]|]. split; [done|]. intros j r' Hj Hne.
  pose proof (forest_of_lookup sp r' (list_elem_of_lookup_2 _ _ _ Hj)) as Hr'.
  apply (kept_frame (forest_of sp) _ _ _ r); try done. intros v Hv. apply Hl; [done..|]. intros ->. apply Hne. f_equal. by eapply NoDup_lookup.
Qed.
Lemma progress_none kernel t sp s : done_with kernel sp s → progress kernel t sp s sp s.
Proof. intros H'. split; [done|]. split; [done|]. by intros j r _ _ v _. Qed.
Lemma vm_exec_ok kernel op sp s :
  done_with kernel sp s → kernel mod PAGE_SIZE = 0 → op_ok op →
  wp (vm_exec kernel op sp) s (λ sp' s', progress kernel (target op) sp s sp' s').
Proof.
  intros Hd Hk4 Hop. pose proof Hd as [Hwf Hnd Hk]. unfold vm_exec. cbv zeta.
  assert (Hon : ∀ i c, (∀ r, sp !! i = Some r → forest_of sp !! r = Some (4%nat, 256) → wp (c r) s (λ sp' s', progress kernel (target op) sp s sp' s')) →
    wp (match sp !! i with Some r => c r | None => mret sp end) s (λ sp' s', progress kernel (target op) sp s sp' s')).
  { intros i c Hc. destruct (sp !! i) as [r|] eqn:Hr; [|by apply wp_ret, progress_none].
    apply Hc; [done|]. by eapply forest_of_lookup, list_elem_of_lookup_2. }
  destruct op as [|i va count|i va|i|i]; [|apply Hon; intros r Hi Hr..]; cbn [op_ok target] in *; apply wp_bind.
  - eapply wp_mono; [by apply (create_space_ok (forest_of sp) s kernel 4)|]. cbn beta. intros a s' Ha. apply wp_ret, progress_new; [done|..].
    + destruct Ha as [(_ & _ & ->)|(_ & _ & _ & ? & _)]; [apply keeps_refl|done].
    + destruct Ha as [(-> & _ & ->)|(? & ? & ? & _)]; [by left|by right].
  - destruct Hop as (H1 & H2 & H3). eapply wp_mono; [apply (alloc_pages_ok (forest_of sp) s (set_page_table r zero_process)); try done; cbn; lia|].
    cbn beta. intros x s' ([[] Ho _] & _). apply wp_ret. eapply progress_on; try done.
    intros r' v Hr' Hv Hne. apply (Ho r' (4%nat, 256)); [done|cbn; lia|cbn; lia|done|]. by intros [-> _].
  - eapply wp_mono; [apply (unmap_page_ok (forest_of sp) s r (4%nat, 256)); try done; by right|].
    cbn beta. intros _ s' (W & Hf & _ & Hx & Ho). apply wp_ret. eapply progress_on; try done; [by rewrite Hf|].
    intros r' v Hr' Hv Hne. apply (Ho r' (4%nat, 256)); [done|cbn; lia|cbn; lia|done|by left].
  - eapply wp_mono; [by apply (clone_space_ok kernel (forest_of sp) s r)|]. cbn beta. intros a s' (Hks & _ & Ha).
    apply wp_ret, progress_new; [done..|]. destruct Ha as [[-> ?]|(? & ? & ? & _)]; [by left|by right].
  - eapply wp_mono; [apply (clear_space_ok (forest_of sp) s r (4%nat, 256)); try done; cbn; lia|].
    cbn beta. intros _ s' (W & Hf & _ & Hx & Ho). apply wp_ret. eapply progress_on; try done; [by rewrite Hf| |].
    + intros x Ht. apply Hx. intros E. apply Ht. right. exists []. split; [cbn; lia|]. rewrite E. by eapply root_reach.
    + intros r' v Hr' Hv Hne. apply (Ho r' (4%nat, 256)); [done|cbn; lia|cbn; lia|done..].
Qed.
Lemma kept_trans r s1 s2 s3 : kept r s1 s2 → kept r s2 s3 → kept r s1 s3.
Proof.
  intros H1 H2 v Hv. destruct (H1 v Hv) as [E1 C1], (H2 v Hv) as [E2 C2]. split; [congruence|].
  intros e He i Hi. rewrite C2 by (rewrite ?E1; done). by apply C1.
Qed.
Lemma vm_run_ok kernel ops sp s :
  done_with kernel sp s → kernel mod PAGE_SIZE = 0 → Forall op_ok ops →
  wp (vm_run kernel ops sp) s (λ sp' s', done_with kernel sp' s' ∧
    ∀ j r, sp !! j = Some r → Forall (λ op, target op ≠ Some j) ops → kept r s s').
Proof.
  intros Hd Hk Hops. revert sp s Hd. induction Hops as [|op ops Hop _ IH]; intros sp s Hd; cbn [vm_run].
  { apply wp_ret. split; [done|]. by intros j r _ _ v _. }
  apply wp_bind. eapply wp_mono; [by apply vm_exec_ok|]. cbn beta. intros sp1 s1 (Hd1 & Hpre & Hk1).
  eapply wp_mono; [by apply IH|]. cbn beta. intros sp2 s2 [Hd2 Hk2]. split; [done|]. intros j r Hj [Ht Hts]%Forall_cons.
  eapply kept_trans; [by eapply Hk1|]. eapply Hk2; [by eapply prefix_lookup_Some|done].
Qed.
Lemma done_isolated kernel sp s : done_with kernel sp s → isolated sp s.
Proof.
  intros [Hwf Hnd _] i1 r1 v1 e1 Hi1 Hv1 Hl1. pose proof (forest_of_lookup sp r1 (list_elem_of_lookup_2 _ _ _ Hi1)) as Hr1.
  pose proof (leaf_reach _ s r1 _ v1 e1 Hr1 eq_refl ltac:(done) Hv1 Hl1) as Hre1.
  split; [by apply (fw_ok _ _ _ (vw_fw _ _ Hwf) _ _ _ Hre1)|]. intros i2 r2 Hi2.
  pose proof (forest_of_lookup sp r2 (list_elem_of_lookup_2 _ _ _ Hi2)) as Hr2. split.
  - intros q (Hq & Hq2 & Hq3) Ht. cbn in Hq. destruct (fw_inj _ _ _ (vw_fw _ _ Hwf) r1 _ r2 q _ Hre1) as [_ <-]; [|cbn in Hq; lia].
    exists (4%nat, 256). split; [done|]. split; [|done]. split; [cbn; lia|done].
  - intros v2 e2 Hv2 Hl2 E. destruct (leaf_inj _ s r1 r2 v1 v2 e1 e2 Hwf Hr1 Hr2 Hv1 Hv2 Hl1 Hl2 E) as [-> Hp]. split; [|done].
    by eapply NoDup_lookup.
Qed.

(** C3 (safety): isolation.  Whatever address spaces are created, cloned, cleared
    and given pages, and whatever pages are unmapped, in any order, as long as
    the kernel's own table is not among the free pages: every operation returns,
    no two user translations in any of the spaces lead to the same frame, and
    none leads to a free page or to a page table; and operations on other spaces
    leave the translations of a space and the contents of its pages as they
    were. *)
Theorem vmm_isolation kernel ops ops' j s :
  pa_inv s → kernel mod PAGE_SIZE = 0 → kernel / PAGE_SIZE ∉ pa_free s → Forall op_ok (ops ++ ops') →
  Forall (λ op, target op ≠ Some j) ops' →
  wp (spaces ← vm_run kernel ops []; s1 ← gets id; spaces' ← vm_run kernel ops' spaces; mret (spaces, s1, spaces')) s (λ x s2,
    let '(spaces, s1, spaces') := x in
    isolated spaces s1 ∧ isolated spaces' s2 ∧ ∀ r, spaces !! j = Some r → kept r s1 s2).
Proof.
  intros Hi Hk4 Hk [Ho Ho']%Forall_app Ht. assert (Hd : done_with kernel [] s) by (split; [by apply forest_of_empty|apply NoDup_nil_2|done]).
  apply wp_bind. eapply wp_mono; [by apply vm_run_ok|]. cbn beta. intros sp s1 [Hd1 _]. apply wp_bind, wp_gets, wp_bind.
  eapply wp_mono; [by apply vm_run_ok|]. cbn beta. intros sp' s2 [Hd2 Hk2]. apply wp_ret. split_and!; [by eapply done_isolated..|].
  intros r Hr. by eapply Hk2.
Qed.
End theorems.

Lemma vmm_map_page_spec_witness :
  wp (vmm_map_page demo_root 0x7000 0x600000 6) demo_phys (λ res s',
    vm_wf (demo_forest 3) s' ∧ pa_free s' ⊆ pa_free demo_phys ∧
    (∀ x, ¬ touched (demo_forest 3) demo_root demo_phys x → ld (get_mem s') x = ld (get_mem demo_phys) x) ∧
    ((res = 0 ∧
      leaf (get_mem s') demo_root 0x7000 = Some 0x600007 ∧
      ∀ r' h v, demo_forest 3 !! r' = Some h → (3 ≤ h.1)%nat → 256 ≤ h.2 → 0 ≤ v < 2 ^ 47 →
        r' ≠ demo_root ∨ v / PAGE_SIZE ≠ 7 → leaf (get_mem s') r' v = leaf (get_mem demo_phys) r' v) ∨
     (res = -1 ∧ pa_free s' = ∅ ∧ same_leaves (demo_forest 3) demo_phys s'))).
Proof.
  apply (vmm_map_page_spec (demo_forest 3) demo_phys demo_root 0x7000 0x600000 6 (demo_wf 3)).
  - apply lookup_singleton_eq.
  - lia.
  - lia.
  - unfold PAGE_SIZE. lia.
Defined.

Lemma demo_lookup h : demo_forest h !! demo_root = Some (h, 256).
Proof. apply lookup_singleton_eq. Qed.
Lemma demo_kernel_used : demo_kernel / PAGE_SIZE ∉ pa_free demo_phys.
Proof.
  destruct (some_free_ok (seqZ 1024 10)) as (_ & Hf & _).
  { apply NoDup_seqZ. }
  { apply Forall_forall. intros p. rewrite elem_of_seqZ. lia. }
  change (demo_kernel / PAGE_SIZE) with 768. cbn [pa_free Pmm_allocator]. unfold demo_phys.
  rewrite Hf, elem_of_list_to_set, elem_of_seqZ. lia.
Qed.

(** A successful mapping on the concrete allocator. *)
Definition demo_mapped : outcome (Z * phys) := vmm_map_page demo_root 0x7000 0x600000 6 demo_phys.

Lemma vmm_map_get_roundtrip_witness :
  match demo_mapped with
  | Ret (res, s') => res = 0 ∧ vmm_get_physical demo_root 0x7123 s' = Ret (0x600123, s')
  | _ => False
  end.
Proof.
  assert (Hok : match demo_mapped with Ret (res, _) => res =? 0 | _ => false end = true) by (vm_compute; reflexivity).
  destruct demo_mapped as [[res s']| | | |] eqn:E; [|discriminate Hok..]. apply Z.eqb_eq in Hok. subst res. split; [reflexivity|].
  apply (vmm_map_get_roundtrip (demo_forest 3) demo_phys demo_root 0x7000 0x600000 6 0x7123 s' (demo_wf 3)
           (demo_lookup 3)); [lia|lia|unfold PAGE_SIZE; lia|lia|reflexivity|exact E].
Defined.

Lemma vmm_unmap_page_spec_witness :
  wp (vmm_unmap_page demo_root 0x7000) demo_phys (λ _ s',
    vm_wf (demo_forest 4) s' ∧ pa_free s' = pa_free demo_phys ∧ leaf (get_mem s') demo_root 0x7000 = None ∧
    ∀ r' h' v, demo_forest 4 !! r' = Some h' → (3 ≤ h'.1)%nat → 256 ≤ h'.2 → 0 ≤ v < 2 ^ 47 →
      r' ≠ demo_root ∨ v / PAGE_SIZE ≠ 0x7000 / PAGE_SIZE → leaf (get_mem s') r' v = leaf (get_mem demo_phys) r' v).
Proof.
  apply (vmm_unmap_page_spec (demo_forest 4) demo_phys demo_root (4%nat, 256) 0x7000 (demo_wf 4) (demo_lookup 4));
    [by right|cbn; lia|lia].
Defined.

Lemma vmm_create_address_space_spec_witness :
  wp (vmm_create_address_space demo_kernel) demo_phys (λ a s',
    (a = 0 ∧ pa_free demo_phys = ∅ ∧ s' = demo_phys) ∨
    (a ≠ 0 ∧ vm_wf (<[a := (4%nat, 256)]> (demo_forest 4)) s' ∧ demo_forest 4 !! a = None ∧ keeps demo_phys s' ∧
     same_leaves (demo_forest 4) demo_phys s' ∧
     (∀ v, 0 ≤ v < 2 ^ 47 → leaf (get_mem s') a v = None) ∧
     (∀ i, 256 ≤ i < 512 → entry (get_mem s') a i = entry (get_mem demo_phys) demo_kernel i))).
Proof.
  apply (vmm_create_address_space_spec (demo_forest 4) demo_phys demo_kernel 4 (demo_wf 4)).
  - reflexivity.
  - exact demo_kernel_used.
Defined.

Lemma vmm_alloc_user_pages_spec_witness :
  wp (vmm_alloc_user_pages (set_page_table demo_root zero_process) 0x400000 2) demo_phys (λ x s',
    mapped_pages (demo_forest 4) demo_root 0x400 2 x.1 demo_phys s' ∧ (x.1 = 0 ∨ x.1 = -1) ∧
    (x.1 = 0 → x.2 = set_pages_allocated 2 (set_page_table demo_root zero_process))).
Proof.
  apply (vmm_alloc_user_pages_spec (demo_forest 4) demo_phys (set_page_table demo_root zero_process) 0x400000 2
           (demo_wf 4) (demo_lookup 4)); [lia|lia|unfold PAGE_SIZE; lia|cbn; lia].
Defined.

Lemma vmm_clone_address_space_spec_witness :
  wp (vmm_clone_address_space demo_kernel demo_root) demo_phys (λ c s',
    keeps demo_phys s' ∧ same_leaves (demo_forest 4) demo_phys s' ∧
    ((c = 0 ∧ vm_wf (demo_forest 4) s') ∨
     (c ≠ 0 ∧ vm_wf (<[c := (4%nat, 256)]> (demo_forest 4)) s' ∧ demo_forest 4 !! c = None ∧
      (∀ i, 256 ≤ i < 512 → entry (get_mem s') c i = entry (get_mem demo_phys) demo_root i) ∧
      ∀ v, 0 ≤ v < 2 ^ 47 →
        match leaf (get_mem demo_phys) demo_root v, leaf (get_mem s') c v with
        | Some e, Some e' => Z.land e' 0xFFF = Z.land e 0xFFF ∧ frame e' ≠ frame e ∧
            ∀ i, 0 ≤ i < 512 → entry (get_mem s') (frame e') i = entry (get_mem demo_phys) (frame e) i
        | None, None => True
        | _, _ => False
        end))).
Proof.
  exact (vmm_clone_address_space_spec demo_kernel (demo_forest 4) demo_phys demo_root (demo_wf 4) (demo_lookup 4)
           demo_kernel_used).
Defined.

Lemma vmm_clear_user_space_spec_witness :
  wp (vmm_clear_user_space demo_root) demo_phys (λ _ s',
    vm_wf (demo_forest 4) s' ∧ pa_free s' = pa_free demo_phys ∧
    (∀ v, 0 ≤ v < 2 ^ 47 → leaf (get_mem s') demo_root v = None) ∧
    ∀ r' h' v, demo_forest 4 !! r' = Some h' → (3 ≤ h'.1)%nat → 256 ≤ h'.2 → 0 ≤ v < 2 ^ 47 → r' ≠ demo_root →
      leaf (get_mem s') r' v = leaf (get_mem demo_phys) r' v).
Proof.
  apply (vmm_clear_user_space_spec (demo_forest 4) demo_phys demo_root (4%nat, 256) (demo_wf 4) (demo_lookup 4)); cbn; lia.
Defined.


(** Two spaces with a page each; a clone of the first, which is then cleared. *)
Lemma vmm_isolation_witness :
  wp (spaces ← vm_run demo_kernel [OpCreate; OpCreate; OpAlloc 0 0x400000 1; OpAlloc 1 0x400000 1] []; s1 ← gets id;
      spaces' ← vm_run demo_kernel [OpClone 0; OpUnmap 2 0x400000; OpClear 0] spaces; mret (spaces, s1, spaces')) demo_phys (λ x s2,
    let '(spaces, s1, spaces') := x in
    isolated spaces s1 ∧ isolated spaces' s2 ∧ ∀ r, spaces !! 1%nat = Some r → kept r s1 s2).
Proof.
  apply (vmm_isolation demo_kernel [OpCreate; OpCreate; OpAlloc 0 0x400000 1; OpAlloc 1 0x400000 1] [OpClone 0; OpUnmap 2 0x400000; OpClear 0] 1 demo_phys).
  - apply (demo_wf 4).
  - reflexivity.
  - exact demo_kernel_used.
  - repeat constructor; unfold PAGE_SIZE; lia.
  - repeat constructor; done.
Defined.
