(* ===== verification/Pipe.v ===== *)
(** * Pipes (src/ipc/pipe.c, include/ipc/pipe.h)

    A ring buffer of 4096 bytes with a read and a write position.  The two
    loops poll: an iteration that can make no progress is repeated, so an
    operation that has to wait for the other side runs for ever when nothing
    else runs ([NoFuel] for every amount of fuel).  The ring buffer is proved
    to implement a bounded queue ([contents]), and [pstep] interleaves the
    iterations of one writer and one reader on a shared pipe. *)
From S2P Require Import Prelude.

Definition PIPE_SIZE : Z := 4096.

Record pipe_t := Pipe {
  pi_buffer : list Z;
  read_pos : Z;
  write_pos : Z;
  pi_count : Z;
  reader_closed : Z;
  writer_closed : Z;
}.

(** [pipe_create], on the block [kmalloc] returned: its old contents [raw] stay
    in the buffer. *)
Definition pipe_create (raw : list Z) : pipe_t := Pipe raw 0 0 0 0 0.

Definition pipe_destroy : M pipe_t unit :=
  modify (λ p, Pipe (pi_buffer p) (read_pos p) (write_pos p) (pi_count p) 1 1).

(** The body of the loop of [pipe_read] once there is a byte. *)
Definition read_byte : M pipe_t Z :=
  p ← gets id;
  b ← lift_opt (arr_get (pi_buffer p) (read_pos p));
  modify (λ p, Pipe (pi_buffer p) (u32 ((read_pos p + 1) mod PIPE_SIZE)) (write_pos p)
                    (u32 (pi_count p - 1)) (reader_closed p) (writer_closed p));;
  mret b.
(** The body of the loop of [pipe_write] once there is room. *)
Definition write_byte (b : Z) : M pipe_t unit :=
  p ← gets id;
  buf ← lift_opt (arr_set (pi_buffer p) (write_pos p) b);
  modify (λ p, Pipe buf (read_pos p) (u32 ((write_pos p + 1) mod PIPE_SIZE))
                    (u32 (pi_count p + 1)) (reader_closed p) (writer_closed p)).

(** One iteration of a loop: it leaves the loop, polls again ([continue]), or
    moves a byte. *)
Inductive turn : Type := Leave | Again | Byte (b : Z).
Definition read_turn (count bytes_read : Z) : M pipe_t turn :=
  if bytes_read <? count then
    p ← gets id;
    if pi_count p =? 0 then mret (if negb (writer_closed p =? 0) then Leave else Again)
    else b ← read_byte; mret (Byte b)
  else mret Leave.
Definition write_turn (buf : list Z) (count bytes_written : Z) : M pipe_t turn :=
  if bytes_written <? count then
    p ← gets id;
    if pi_count p =? PIPE_SIZE then mret Again
    else b ← lift_opt (arr_get buf bytes_written); write_byte b;; mret (Byte b)
  else mret Leave.

(** The loops; [out] is what has been stored in the caller's buffer so far, and
    [buf] is the caller's data. *)
Fixpoint pipe_read_loop (fuel : nat) (count bytes_read : Z) (out : list Z) : M pipe_t (list Z) :=
  match fuel with
  | O => out_of_fuel
  | S fuel' =>
      t ← read_turn count bytes_read;
      match t with
      | Leave => mret out
      | Again => pipe_read_loop fuel' count bytes_read out
      | Byte b => pipe_read_loop fuel' count (bytes_read + 1) (out ++ [b])
      end
  end.
Definition pipe_read (fuel : nat) (count : Z) : M pipe_t (Z * list Z) :=
  p ← gets id;
  if negb (reader_closed p =? 0) then mret (-1, []) else
  out ← pipe_read_loop fuel count 0 [];
  mret (s32 (Z.of_nat (length out)), out).

Fixpoint pipe_write_loop (fuel : nat) (buf : list Z) (count bytes_written : Z) : M pipe_t Z :=
  match fuel with
  | O => out_of_fuel
  | S fuel' =>
      t ← write_turn buf count bytes_written;
      match t with
      | Leave => mret bytes_written
      | Again => pipe_write_loop fuel' buf count bytes_written
      | Byte _ => pipe_write_loop fuel' buf count (bytes_written + 1)
      end
  end.
Definition pipe_write (fuel : nat) (buf : list Z) (count : Z) : M pipe_t Z :=
  p ← gets id;
  if negb (writer_closed p =? 0) then mret (-1) else
  if negb (reader_closed p =? 0) then mret (-1) else
  n ← pipe_write_loop fuel buf count 0;
  mret (s32 n).

(** ** The queue the ring buffer stands for *)

Definition slot (p : pipe_t) (i : Z) : Z :=
  default 0 (pi_buffer p !! Z.to_nat ((read_pos p + i) mod PIPE_SIZE)).
Definition contents (p : pipe_t) : list Z := slot p <$> seqZ 0 (pi_count p).

Record pipe_wf (p : pipe_t) : Prop := {
  pw_len : Z.of_nat (length (pi_buffer p)) = PIPE_SIZE;
  pw_read : 0 ≤ read_pos p < PIPE_SIZE;
  pw_count : 0 ≤ pi_count p ≤ PIPE_SIZE;
  pw_write : write_pos p = (read_pos p + pi_count p) mod PIPE_SIZE;
}.

(** ** One writer and one reader

    [in_buf] is the data of one [pipe_write] call, [d_sent] how much of it has
    been written, [d_got] what the reader has stored and [want] how much it asked
    for.  [pturn] is one iteration of the loop of the writer or of the reader,
    whichever the scheduler runs; [prun] runs the first iterations of a
    schedule. *)
Record duplex := Duplex {
  d_pipe : pipe_t;
  d_sent : nat;
  d_got : list Z;
}.
Definition at_dpipe {A} (c : M pipe_t A) : M duplex A :=
  zoom d_pipe (λ p d, Duplex p (d_sent d) (d_got d)) c.

Definition pturn (in_buf : list Z) (want : Z) (writer : bool) : M duplex unit :=
  d ← gets id;
  if writer then
    t ← at_dpipe (write_turn in_buf (Z.of_nat (length in_buf)) (Z.of_nat (d_sent d)));
    modify (λ d, Duplex (d_pipe d) (match t with Byte _ => S (d_sent d) | _ => d_sent d end) (d_got d))
  else
    t ← at_dpipe (read_turn want (Z.of_nat (length (d_got d))));
    modify (λ d, Duplex (d_pipe d) (d_sent d) (match t with Byte b => d_got d ++ [b] | _ => d_got d end)).

Inductive pstep (in_buf : list Z) (want : Z) : duplex → duplex → Prop :=
  | step_turn writer d d' : pturn in_buf want writer d = Ret ((), d') → pstep in_buf want d d'.

Fixpoint prun (in_buf : list Z) (want : Z) (σ : nat → bool) (n : nat) : M duplex unit :=
  match n with
  | O => mret ()
  | S n' => prun in_buf want σ n';; pturn in_buf want (σ n')
  end.
(** Neither side is left out for ever. *)
Definition fair (σ : nat → bool) : Prop := ∀ w n, ∃ m, (n ≤ m)%nat ∧ σ m = w.

Definition duplex_inv (in_buf : list Z) (d : duplex) : Prop :=
  pipe_wf (d_pipe d) ∧ (d_sent d ≤ length in_buf)%nat ∧
  d_got d ++ contents (d_pipe d) = take (d_sent d) in_buf.

(** ** The two primitive steps *)

Lemma contents_length p : pipe_wf p → Z.of_nat (length (contents p)) = pi_count p.
Proof. intros Hwf. unfold contents. rewrite length_fmap, length_seqZ. pose proof (pw_count p Hwf). lia. Qed.
Lemma contents_nil p : pipe_wf p → contents p = [] ↔ pi_count p = 0.
Proof. intros Hwf. rewrite <- (contents_length p Hwf). destruct (contents p); cbn; split; (done || lia). Qed.

Lemma read_byte_ok p :
  pipe_wf p → pi_count p ≠ 0 → ∃ b p',
    read_byte p = Ret (b, p') ∧ pipe_wf p' ∧ contents p = b :: contents p' ∧
    reader_closed p' = reader_closed p ∧ writer_closed p' = writer_closed p.
Proof.
  intros Hwf Hc. pose proof Hwf as [Hl Hr Hn Hw]. unfold PIPE_SIZE in *.
  assert (Hmod : 0 ≤ (read_pos p + 1) mod 4096 < 4096) by by apply Z.mod_pos_bound.
  eexists _, _. split.
  { unfold read_byte. erewrite run_bind by reflexivity. unfold id.
    rewrite (arr_get_in 0) by (unfold PIPE_SIZE in *; lia). reflexivity. }
  rewrite (u32_id ((read_pos p + 1) mod PIPE_SIZE)), u32_id by (unfold PIPE_SIZE; lia).
  split_and!; [|..|done|done].
  - split; cbn [pi_buffer read_pos write_pos pi_count]; unfold PIPE_SIZE in *; [done|done|lia|]. rewrite Hw. dlia.
  - unfold contents. cbn [pi_count]. replace (pi_count p) with (Z.succ (pi_count p - 1)) at 1 by lia.
    rewrite seqZ_cons, Z.pred_succ by lia. cbn. f_equal.
    + unfold slot. unfold PIPE_SIZE. rewrite Z.add_0_r, Z.mod_small by lia. done.
    + rewrite <- (fmap_add_seqZ 1 0), <- list_fmap_compose. apply list_fmap_ext. intros i x _. unfold slot, compose, PIPE_SIZE.
      cbn [pi_buffer read_pos]. do 2 f_equal. dlia.
Qed.

Lemma write_byte_ok p b :
  pipe_wf p → pi_count p ≠ PIPE_SIZE → ∃ p',
    write_byte b p = Ret ((), p') ∧ pipe_wf p' ∧ contents p' = contents p ++ [b] ∧
    reader_closed p' = reader_closed p ∧ writer_closed p' = writer_closed p.
Proof.
  intros Hwf Hc. pose proof Hwf as [Hl Hr Hn Hw]. unfold PIPE_SIZE in *.
  assert (Hmod : 0 ≤ (write_pos p + 1) mod 4096 < 4096) by by apply Z.mod_pos_bound.
  assert (Hw' : 0 ≤ write_pos p < 4096) by (rewrite Hw; by apply Z.mod_pos_bound).
  eexists. split.
  { unfold write_byte. erewrite run_bind by reflexivity. unfold id.
    rewrite arr_set_in by lia. reflexivity. }
  rewrite (u32_id ((write_pos p + 1) mod PIPE_SIZE)), u32_id by (unfold PIPE_SIZE; lia).
  split_and!; [|..|done|done].
  - split; cbn [pi_buffer read_pos write_pos pi_count]; unfold PIPE_SIZE in *; [by rewrite length_insert|done|lia|].
    rewrite Hw. dlia.
  - unfold contents. cbn [pi_count]. change (pi_count p + 1) with (Z.succ (pi_count p)).
    rewrite <- (Z.add_1_r (pi_count p)), seqZ_app by lia. rewrite fmap_app. f_equal.
    + apply list_fmap_ext. intros k i Hk. unfold slot, PIPE_SIZE. cbn [pi_buffer read_pos].
      apply lookup_seqZ in Hk as [-> Hk]. rewrite list_lookup_insert_ne; [done|]. rewrite Hw. intros E.
      apply Z2Nat.inj in E; [|dlia..]. dlia.
    + change (seqZ (0 + pi_count p) 1) with [pi_count p]. cbn. f_equal.
      unfold slot, PIPE_SIZE. cbn [pi_buffer read_pos]. rewrite <- Hw, list_lookup_insert_eq by lia. done.
Qed.

(** ** The iterations *)

Lemma read_turn_leave count br p : count ≤ br → read_turn count br p = Ret (Leave, p).
Proof. intros H. unfold read_turn. by rewrite (proj2 (Z.ltb_ge br count)). Qed.
Lemma read_turn_empty count br p :
  br < count → pi_count p = 0 → read_turn count br p = Ret (if negb (writer_closed p =? 0) then Leave else Again, p).
Proof.
  intros H Hz. unfold read_turn. rewrite (proj2 (Z.ltb_lt br count)) by done. erewrite run_bind by reflexivity. unfold id.
  by rewrite Hz.
Qed.
Lemma read_turn_byte count br p :
  pipe_wf p → br < count → pi_count p ≠ 0 → ∃ b p',
    read_turn count br p = Ret (Byte b, p') ∧ pipe_wf p' ∧ contents p = b :: contents p' ∧
    reader_closed p' = reader_closed p ∧ writer_closed p' = writer_closed p.
Proof.
  intros Hwf H Hnz. destruct (read_byte_ok p Hwf Hnz) as (b & p' & Hrun & Hrest). exists b, p'. split; [|done].
  unfold read_turn. rewrite (proj2 (Z.ltb_lt br count)) by done. erewrite run_bind by reflexivity. unfold id.
  rewrite (proj2 (Z.eqb_neq _ 0)) by done. by erewrite run_bind by exact Hrun.
Qed.
Lemma write_turn_leave buf count bw p : count ≤ bw → write_turn buf count bw p = Ret (Leave, p).
Proof. intros H. unfold write_turn. by rewrite (proj2 (Z.ltb_ge bw count)). Qed.
Lemma write_turn_full buf count bw p : bw < count → pi_count p = PIPE_SIZE → write_turn buf count bw p = Ret (Again, p).
Proof.
  intros H Hf. unfold write_turn. rewrite (proj2 (Z.ltb_lt bw count)) by done. erewrite run_bind by reflexivity. unfold id.
  by rewrite Hf.
Qed.
Lemma write_turn_byte buf count bw p :
  pipe_wf p → 0 ≤ bw < count → count ≤ Z.of_nat (length buf) → pi_count p ≠ PIPE_SIZE → ∃ b p',
    write_turn buf count bw p = Ret (Byte b, p') ∧ buf !! Z.to_nat bw = Some b ∧ pipe_wf p' ∧
    contents p' = contents p ++ [b] ∧ reader_closed p' = reader_closed p ∧ writer_closed p' = writer_closed p.
Proof.
  intros Hwf H Hlen Hnf. destruct (lookup_lt_is_Some_2 buf (Z.to_nat bw)) as [b Hb]; [lia|].
  destruct (write_byte_ok p b Hwf Hnf) as (p' & Hrun & Hrest). exists b, p'. split; [|done].
  unfold write_turn. rewrite (proj2 (Z.ltb_lt bw count)) by lia. erewrite run_bind by reflexivity. unfold id.
  rewrite (proj2 (Z.eqb_neq _ PIPE_SIZE)) by done.
  assert (Hget : arr_get buf bw = Some b) by (unfold arr_get; by rewrite (proj2 (Z.leb_le 0 bw)) by lia).
  rewrite Hget. cbn [lift_opt]. erewrite run_bind by reflexivity. by erewrite run_bind by exact Hrun.
Qed.

(** ** The loops *)

Lemma read_loop_ok fuel count br out p :
  pipe_wf p → br ≤ count → (Z.to_nat (count - br) < fuel)%nat →
  writer_closed p ≠ 0 ∨ count - br ≤ pi_count p →
  ∃ p', pipe_read_loop fuel count br out p = Ret (out ++ take (Z.to_nat (count - br)) (contents p), p') ∧
    pipe_wf p' ∧ contents p' = drop (Z.to_nat (count - br)) (contents p) ∧
    reader_closed p' = reader_closed p ∧ writer_closed p' = writer_closed p.
Proof.
  revert br out p. induction fuel as [|fuel IH]; intros br out p Hwf Hbr Hfuel Hok; [lia|].
  cbn [pipe_read_loop]. destruct (Z.ltb_spec br count) as [Hlt|Hge].
  - destruct (Z.eqb_spec (pi_count p) 0) as [Hz|Hnz].
    + erewrite run_bind by by apply read_turn_empty. rewrite (proj2 (Z.eqb_neq (writer_closed p) 0)) by lia. cbn [negb].
      apply contents_nil in Hz as Hnil; [|done]. rewrite Hnil, take_nil, drop_nil, app_nil_r. by exists p.
    + destruct (read_turn_byte count br p Hwf Hlt Hnz) as (b & p1 & Hrun & Hwf1 & Hcont & Hrc & Hwc).
      erewrite run_bind by exact Hrun.
      pose proof (contents_length p Hwf) as L. pose proof (contents_length p1 Hwf1) as L1. rewrite Hcont in L. cbn in L.
      destruct (IH (br + 1) (out ++ [b]) p1) as (p' & Hrun' & H1 & H2 & H3 & H4); [done|lia|lia|rewrite Hwc; lia|].
      replace (Z.to_nat (count - br)) with (S (Z.to_nat (count - (br + 1)))) by lia.
      exists p'. rewrite Hrun', Hcont. cbn [take drop]. rewrite <- app_assoc. split_and!; [done..| |]; congruence.
  - replace (Z.to_nat (count - br)) with 0%nat by lia. rewrite take_0, drop_0, app_nil_r.
    erewrite run_bind by by apply read_turn_leave. by exists p.
Qed.

(** Too little data and an open writer: the loop never ends by itself. *)
Lemma read_loop_blocks fuel count br out p :
  pipe_wf p → writer_closed p = 0 → pi_count p < count - br → pipe_read_loop fuel count br out p = NoFuel.
Proof.
  revert br out p. induction fuel as [|fuel IH]; intros br out p Hwf Hwc Hlt; [done|].
  cbn [pipe_read_loop]. pose proof (pw_count p Hwf).
  assert (Hbr : br < count) by lia. destruct (Z.eqb_spec (pi_count p) 0) as [Hz|Hnz].
  - erewrite run_bind by by apply read_turn_empty. rewrite Hwc. cbn [negb Z.eqb]. by apply IH.
  - destruct (read_turn_byte count br p Hwf Hbr Hnz) as (b & p1 & Hrun & Hwf1 & Hcont & Hrc & Hwc1).
    erewrite run_bind by exact Hrun.
    pose proof (contents_length p Hwf) as L. pose proof (contents_length p1 Hwf1) as L1. rewrite Hcont in L. cbn in L.
    apply IH; [done|congruence|lia].
Qed.

Lemma write_loop_ok fuel buf count bw p :
  pipe_wf p → 0 ≤ bw ≤ count → count ≤ Z.of_nat (length buf) → (Z.to_nat (count - bw) < fuel)%nat →
  pi_count p + (count - bw) ≤ PIPE_SIZE →
  ∃ p', pipe_write_loop fuel buf count bw p = Ret (count, p') ∧ pipe_wf p' ∧
    contents p' = contents p ++ take (Z.to_nat (count - bw)) (drop (Z.to_nat bw) buf) ∧
    reader_closed p' = reader_closed p ∧ writer_closed p' = writer_closed p.
Proof.
  revert bw p. induction fuel as [|fuel IH]; intros bw p Hwf Hbw Hlen Hfuel Hroom; [lia|].
  cbn [pipe_write_loop]. destruct (Z.ltb_spec bw count) as [Hlt|Hge].
  - destruct (write_turn_byte buf count bw p Hwf ltac:(lia) Hlen ltac:(lia)) as (b & p1 & Hrun & Hb & Hwf1 & Hcont & Hrc & Hwc).
    erewrite run_bind by exact Hrun.
    pose proof (contents_length p Hwf) as L. pose proof (contents_length p1 Hwf1) as L1.
    rewrite Hcont, length_app in L1. cbn in L1.
    destruct (IH (bw + 1) p1) as (p' & Hrun' & H1 & H2 & H3 & H4); [done|lia|lia|lia|lia|].
    exists p'. split_and!; [done..| |congruence|congruence]. rewrite H2, Hcont, <- app_assoc. f_equal.
    replace (Z.to_nat (count - bw)) with (S (Z.to_nat (count - (bw + 1)))) by lia.
    rewrite (drop_S buf b (Z.to_nat bw) Hb). cbn. by replace (Z.to_nat (bw + 1)) with (S (Z.to_nat bw)) by lia.
  - replace (Z.to_nat (count - bw)) with 0%nat by lia. rewrite take_0, app_nil_r. exists p.
    erewrite run_bind by by apply write_turn_leave.
    assert (bw = count) as -> by lia. done.
Qed.
Lemma write_loop_blocks fuel buf count bw p :
  pipe_wf p → 0 ≤ bw → count ≤ Z.of_nat (length buf) → PIPE_SIZE < pi_count p + (count - bw) →
  pipe_write_loop fuel buf count bw p = NoFuel.
Proof.
  revert bw p. induction fuel as [|fuel IH]; intros bw p Hwf Hbw Hlen Hroom; [done|].
  cbn [pipe_write_loop]. pose proof (pw_count p Hwf).
  assert (Hlt : bw < count) by lia. destruct (Z.eqb_spec (pi_count p) PIPE_SIZE) as [Hz|Hnz].
  { erewrite run_bind by by apply write_turn_full. by apply IH. }
  destruct (write_turn_byte buf count bw p Hwf ltac:(lia) Hlen Hnz) as (b & p1 & Hrun & Hb & Hwf1 & Hcont & Hrc & Hwc).
  erewrite run_bind by exact Hrun.
  pose proof (contents_length p Hwf) as L. pose proof (contents_length p1 Hwf1) as L1.
  rewrite Hcont, length_app in L1. cbn in L1. apply IH; [done|lia..].
Qed.

(** ** The pipe as a bounded queue *)

Definition demo_pipe : pipe_t := pipe_create (replicate 4096 0).
Lemma demo_pipe_wf : pipe_wf demo_pipe.
Proof. split; unfold PIPE_SIZE; cbn [demo_pipe pipe_create read_pos write_pos pi_count pi_buffer]; [|lia|lia|done].
  by rewrite length_replicate. Qed.

(** (refinement): [pipe_read] takes the oldest bytes: all [count] when they are
    there, what there is when the writer has closed.  With an open writer and
    too few bytes it polls for ever. *)
Theorem pipe_read_spec p count fuel :
  pipe_wf p → reader_closed p = 0 → 0 ≤ count < 2 ^ 31 → (Z.to_nat count < fuel)%nat →
  let n := Z.to_nat count in
  (writer_closed p ≠ 0 ∨ count ≤ pi_count p →
     ∃ p', pipe_read fuel count p = Ret ((Z.of_nat (length (take n (contents p))), take n (contents p)), p') ∧
       pipe_wf p' ∧ contents p' = drop n (contents p)) ∧
  (writer_closed p = 0 → pi_count p < count → pipe_read fuel count p = NoFuel).
Proof.
  intros Hwf Hrc Hc Hfuel n. unfold pipe_read. split.
  - intros Hok. destruct (read_loop_ok fuel count 0 [] p) as (p' & Hrun & H1 & H2 & _); [done|lia|lia|lia|].
    rewrite Z.sub_0_r in *. exists p'. split_and!; [|done|done].
    erewrite run_bind by reflexivity. unfold id. rewrite Hrc. cbn [negb Z.eqb].
    erewrite run_bind by exact Hrun. cbn [app]. unfold mret, M_ret. rewrite s32_id; [done|].
    rewrite length_take. lia.
  - intros Hwc Hlt. erewrite run_bind by reflexivity. unfold id. rewrite Hrc. cbn [negb Z.eqb].
    unfold mbind, M_bind. by rewrite read_loop_blocks by (done || lia).
Qed.
Lemma pipe_read_spec_witness : pipe_read 10 3 demo_pipe = NoFuel.
Proof. apply (pipe_read_spec demo_pipe 3 10 demo_pipe_wf); try reflexivity; cbn; lia. Defined.

(** (refinement): [pipe_write] appends its bytes when they all fit, and polls
    for ever when they do not (nobody reads); a closed end gives -1. *)
Theorem pipe_write_spec p buf count fuel :
  pipe_wf p → 0 ≤ count < 2 ^ 31 → count ≤ Z.of_nat (length buf) → (Z.to_nat count < fuel)%nat →
  (reader_closed p = 0 → writer_closed p = 0 → pi_count p + count ≤ PIPE_SIZE →
     ∃ p', pipe_write fuel buf count p = Ret (count, p') ∧ pipe_wf p' ∧
       contents p' = contents p ++ take (Z.to_nat count) buf) ∧
  (reader_closed p = 0 → writer_closed p = 0 → PIPE_SIZE < pi_count p + count →
     pipe_write fuel buf count p = NoFuel) ∧
  (reader_closed p ≠ 0 ∨ writer_closed p ≠ 0 → pipe_write fuel buf count p = Ret (-1, p)).
Proof.
  intros Hwf Hc Hlen Hfuel. unfold pipe_write. split_and!.
  - intros Hrc Hwc Hroom. destruct (write_loop_ok fuel buf count 0 p) as (p' & Hrun & H1 & H2 & _); [done|lia..|].
    rewrite Z.sub_0_r in H2. exists p'. split_and!; [|done|done].
    erewrite run_bind by reflexivity. unfold id. rewrite Hrc, Hwc. cbn [negb Z.eqb].
    erewrite run_bind by exact Hrun. unfold mret, M_ret. rewrite s32_id by lia. done.
  - intros Hrc Hwc Hroom. erewrite run_bind by reflexivity. unfold id. rewrite Hrc, Hwc. cbn [negb Z.eqb].
    unfold mbind, M_bind. by rewrite write_loop_blocks by (done || lia).
  - intros Hcl. erewrite run_bind by reflexivity. unfold id.
    destruct (Z.eqb_spec (writer_closed p) 0); [|done]. cbn [negb].
    destruct (Z.eqb_spec (reader_closed p) 0); [lia|done].
Qed.
Lemma pipe_write_spec_witness :
  ∃ p', pipe_write 10 [1; 2; 3] 3 demo_pipe = Ret (3, p') ∧ pipe_wf p' ∧
    contents p' = contents demo_pipe ++ take (Z.to_nat 3) [1; 2; 3].
Proof. apply (pipe_write_spec demo_pipe [1; 2; 3] 3 10 demo_pipe_wf); try reflexivity; (lia || (vm_compute; discriminate) || cbn; lia). Defined.

(** (roundtrip): what [pipe_write] put into an empty pipe is what [pipe_read]
    gives back. *)
Theorem pipe_roundtrip raw buf fuel :
  Z.of_nat (length raw) = PIPE_SIZE → Z.of_nat (length buf) ≤ PIPE_SIZE → (length buf < fuel)%nat →
  ∃ p', (pipe_write fuel buf (Z.of_nat (length buf));; pipe_read fuel (Z.of_nat (length buf))) (pipe_create raw)
          = Ret ((Z.of_nat (length buf), buf), p') ∧ contents p' = [].
Proof.
  intros Hraw Hlen Hfuel. unfold PIPE_SIZE in *.
  assert (Hwf : pipe_wf (pipe_create raw)) by (split; cbn; unfold PIPE_SIZE; [done|lia|lia|done]).
  destruct (write_loop_ok fuel buf (Z.of_nat (length buf)) 0 (pipe_create raw))
    as (p1 & Hrun1 & Hwf1 & Hc1 & Hr1 & Hw1); [done|lia|lia|lia|cbn; unfold PIPE_SIZE; lia|].
  rewrite Z.sub_0_r, Nat2Z.id, drop_0, firstn_all in Hc1. change (contents (pipe_create raw)) with (@nil Z) in Hc1. cbn [app] in Hc1.
  pose proof (contents_length p1 Hwf1) as L1. rewrite Hc1 in L1.
  destruct (read_loop_ok fuel (Z.of_nat (length buf)) 0 [] p1) as (p2 & Hrun2 & Hwf2 & Hc2 & _); [done|lia|lia|lia|].
  rewrite Z.sub_0_r, Nat2Z.id, Hc1, firstn_all in Hrun2. rewrite Z.sub_0_r, Nat2Z.id, Hc1, drop_all in Hc2.
  exists p2. split; [|done].
  erewrite run_bind.
  2: { unfold pipe_write. erewrite run_bind by reflexivity. cbn [id pipe_create writer_closed reader_closed negb Z.eqb].
       erewrite run_bind by exact Hrun1. reflexivity. }
  unfold pipe_read. erewrite run_bind by reflexivity. unfold id. rewrite Hr1. cbn [pipe_create reader_closed negb Z.eqb].
  erewrite run_bind by exact Hrun2. cbn [app]. unfold mret, M_ret. rewrite s32_id by lia. done.
Qed.
Lemma pipe_roundtrip_witness :
  ∃ p', (pipe_write 5 [104; 105] 2;; pipe_read 5 2) (pipe_create (replicate 4096 0)) = Ret ((2, [104; 105]), p') ∧
    contents p' = [].
Proof.
  apply (pipe_roundtrip (replicate 4096 0) [104; 105] 5); [|unfold PIPE_SIZE; cbn; lia|cbn; lia].
  by rewrite length_replicate.
Defined.

(** ** A writer and a reader *)

Lemma zoom_run {A} (c : M pipe_t A) d a p : c (d_pipe d) = Ret (a, p) → at_dpipe c d = Ret (a, Duplex p (d_sent d) (d_got d)).
Proof. unfold at_dpipe, zoom. by intros ->. Qed.
Lemma pturn_run_write in_buf want d t p :
  write_turn in_buf (Z.of_nat (length in_buf)) (Z.of_nat (d_sent d)) (d_pipe d) = Ret (t, p) →
  pturn in_buf want true d = Ret ((), Duplex p (match t with Byte _ => S (d_sent d) | _ => d_sent d end) (d_got d)).
Proof. intros H. unfold pturn. erewrite run_bind by reflexivity. unfold id. by erewrite run_bind by by apply zoom_run. Qed.
Lemma pturn_run_read in_buf want d t p :
  read_turn want (Z.of_nat (length (d_got d))) (d_pipe d) = Ret (t, p) →
  pturn in_buf want false d = Ret ((), Duplex p (d_sent d) (match t with Byte b => d_got d ++ [b] | _ => d_got d end)).
Proof. intros H. unfold pturn. erewrite run_bind by reflexivity. unfold id. by erewrite run_bind by by apply zoom_run. Qed.

(** How far the transfer is from its end. *)
Definition remaining (in_buf : list Z) (want : Z) (d : duplex) : nat :=
  ((length in_buf - d_sent d) + (Z.to_nat want - length (d_got d)))%nat.
(** The side that runs can move a byte. *)
Definition enabled (in_buf : list Z) (want : Z) (writer : bool) (d : duplex) : Prop :=
  if writer then (d_sent d < length in_buf)%nat ∧ pi_count (d_pipe d) ≠ PIPE_SIZE
  else Z.of_nat (length (d_got d)) < want ∧ pi_count (d_pipe d) ≠ 0.
#[export] Instance enabled_dec in_buf want w d : Decision (enabled in_buf want w d).
Proof. unfold enabled. destruct w; apply _. Defined.

(** An iteration always returns; it moves a byte when its side is enabled and
    changes nothing otherwise. *)
Lemma pturn_ok in_buf want w d :
  duplex_inv in_buf d → ∃ d', pturn in_buf want w d = Ret ((), d') ∧ duplex_inv in_buf d' ∧
    (enabled in_buf want w d → (remaining in_buf want d' < remaining in_buf want d)%nat) ∧
    (¬ enabled in_buf want w d → d' = d).
Proof.
  intros (Hwf & Hs & Hq). destruct (decide (enabled in_buf want w d)) as [He|He].
  - destruct w; destruct He as [Hlt Hc].
    + destruct (write_turn_byte in_buf (Z.of_nat (length in_buf)) (Z.of_nat (d_sent d)) _ Hwf ltac:(lia) ltac:(lia) Hc)
        as (b & p & Hrun & Hb & Hwf' & Hcont & _). rewrite Nat2Z.id in Hb.
      eexists. split; [by apply pturn_run_write|]. split; [split_and!; cbn; [done|lia|]|].
      * by rewrite Hcont, app_assoc, Hq, (take_S_r in_buf _ b).
      * split; [|by intros []]. intros _. unfold remaining. cbn. lia.
    + destruct (read_turn_byte want (Z.of_nat (length (d_got d))) _ Hwf Hlt Hc) as (b & p & Hrun & Hwf' & Hcont & _).
      eexists. split; [by apply pturn_run_read|]. split; [split_and!; cbn; [done|done|]|].
      * by rewrite <- app_assoc, <- Hq, Hcont.
      * split; [|by intros []]. intros _. unfold remaining. cbn. rewrite length_app. cbn. lia.
  - exists d. split; [|done]. destruct d as [p n got]; destruct w; cbn [enabled d_pipe d_sent d_got] in *.
    + destruct (decide (n < length in_buf)%nat) as [Hlt|Hge].
      * rewrite (pturn_run_write _ _ _ Again p); [done|]. apply write_turn_full; [cbn; lia|]. cbn.
        destruct (decide (pi_count p = PIPE_SIZE)); [done|]. by destruct He.
      * rewrite (pturn_run_write _ _ _ Leave p); [done|]. apply write_turn_leave. cbn. lia.
    + destruct (decide (Z.of_nat (length got) < want)) as [Hlt|Hge].
      * assert (Hz : pi_count p = 0) by (destruct (decide (pi_count p = 0)); [done|]; by destruct He).
        rewrite (pturn_run_read _ _ (Duplex p n got) _ p (read_turn_empty _ _ _ Hlt Hz)). by destruct (negb _).
      * rewrite (pturn_run_read _ _ _ Leave p); [done|]. apply read_turn_leave. cbn. lia.
Qed.
Lemma psteps_inv in_buf want d d' : duplex_inv in_buf d → rtc (pstep in_buf want) d d' → duplex_inv in_buf d'.
Proof.
  intros Hi Hs. revert Hi. induction Hs as [|d1 d2 d3 [w d d' Hrun] _ IH]; [done|]. intros Hi. apply IH.
  destruct (pturn_ok in_buf want w d Hi) as (d'' & Hrun' & Hi' & _). rewrite Hrun in Hrun'. by injection Hrun' as ->.
Qed.
Lemma start_inv in_buf raw : Z.of_nat (length raw) = PIPE_SIZE → duplex_inv in_buf (Duplex (pipe_create raw) 0 []).
Proof. intros Hraw. split_and!; cbn; [|lia|done]. split; cbn; unfold PIPE_SIZE in *; [done|lia|lia|done]. Qed.
Lemma demo_duplex in_buf : duplex_inv in_buf (Duplex demo_pipe 0 []).
Proof. apply start_inv. by rewrite length_replicate. Qed.

(** C30 (invariant): under every interleaving of the loop iterations of one writer
    and one reader, polling iterations included, what the reader has is a prefix of what the writer was given: no byte is lost,
    duplicated or reordered. *)
Theorem pipe_interleaved_fifo in_buf want raw d :
  Z.of_nat (length raw) = PIPE_SIZE →
  rtc (pstep in_buf want) (Duplex (pipe_create raw) 0 []) d →
  d_got d `prefix_of` in_buf ∧ d_got d ++ contents (d_pipe d) = take (d_sent d) in_buf ∧
  Z.of_nat (length (contents (d_pipe d))) ≤ PIPE_SIZE.
Proof.
  intros Hraw Hsteps. destruct (psteps_inv in_buf want (Duplex (pipe_create raw) 0 []) d) as (Hwf & Hs & Hq).
  { by apply start_inv. }
  { done. }
  split_and!; [|done|].
  - exists (contents (d_pipe d) ++ drop (d_sent d) in_buf). by rewrite app_assoc, Hq, take_drop.
  - rewrite contents_length by done. apply (pw_count _ Hwf).
Qed.
Lemma pipe_interleaved_fifo_witness :
  ∃ d, d_got d = [7] ∧ d_got d `prefix_of` [7; 8] ∧ d_got d ++ contents (d_pipe d) = take (d_sent d) [7; 8] ∧
    Z.of_nat (length (contents (d_pipe d))) ≤ PIPE_SIZE.
Proof.
  pose proof (demo_duplex [7; 8]) as I0. destruct (pturn_ok [7; 8] 2 true _ I0) as (d1 & R1 & I1 & _).
  destruct (pturn_ok [7; 8] 2 false _ I1) as (d2 & R2 & _). exists d2.
  assert (Hg : match (pturn [7; 8] 2 true;; pturn [7; 8] 2 false) (Duplex demo_pipe 0 []) with Ret (_, d) => d_got d | _ => [] end = [7])
    by (vm_compute; reflexivity).
  rewrite (run_bind _ _ _ _ _ R1), R2 in Hg. split; [exact Hg|].
  apply (pipe_interleaved_fifo [7; 8] 2 (replicate 4096 0)); [by rewrite length_replicate|].
  eapply rtc_l; [exact (step_turn _ _ true _ _ R1)|]. eapply rtc_l; [exact (step_turn _ _ false _ _ R2)|apply rtc_refl].
Defined.

(** Iterations from [d] on along the schedule; the state after them. *)
Lemma prun_more in_buf want σ n k d d' :
  prun in_buf want σ n d = Ret ((), d') → prun in_buf want σ (n + k) d = prun in_buf want (λ i, σ (n + i)%nat) k d'.
Proof.
  intros H. induction k as [|k IH]; [by rewrite Nat.add_0_r|]. rewrite Nat.add_succ_r. cbn [prun]. unfold mbind, M_bind. by rewrite IH.
Qed.
(** Nothing is enabled any more: the reader has what there is for it. *)
Definition finished (in_buf : list Z) (want : Z) (d : duplex) : Prop := ∀ w, ¬ enabled in_buf want w d.
Lemma finished_stays in_buf want σ n d :
  duplex_inv in_buf d → finished in_buf want d → prun in_buf want σ n d = Ret ((), d).
Proof.
  intros Hi Hf. induction n as [|n IH]; [done|]. cbn [prun]. erewrite run_bind by exact IH.
  destruct (pturn_ok in_buf want (σ n) d Hi) as (d' & Hrun & _ & _ & Hst). by rewrite Hrun, (Hst (Hf _)).
Qed.
Lemma finished_result in_buf want d :
  duplex_inv in_buf d → Z.of_nat (length (d_got d)) ≤ want → finished in_buf want d →
  d_got d = take (Z.to_nat want) in_buf ∧
  (Z.of_nat (length in_buf) ≤ want + PIPE_SIZE → d_sent d = length in_buf).
Proof.
  intros (Hwf & Hs & Hq) Hle Hf. pose proof (Hf true) as Hw. pose proof (Hf false) as Hr. cbn [enabled] in Hw, Hr.
  pose proof (contents_length _ Hwf) as Hl. pose proof (pw_count _ Hwf). unfold PIPE_SIZE in *.
  assert (Hlen : (length (d_got d) + length (contents (d_pipe d)) = d_sent d)%nat).
  { apply (f_equal length) in Hq. rewrite length_app, length_take in Hq. lia. }
  assert (Hpre : d_got d = take (length (d_got d)) in_buf).
  { rewrite <- (take_app_length (d_got d) (contents (d_pipe d))) at 1. rewrite Hq, take_take. f_equal. lia. }
  destruct (decide (Z.of_nat (length (d_got d)) = want)) as [E|Hne]; [split; [by rewrite Hpre at 1; f_equal; lia|lia]|].
  assert (Hz : pi_count (d_pipe d) = 0) by lia.
  split; [|lia]. rewrite Hpre, take_ge, take_ge by lia. done.
Qed.

(** Until nothing is enabled, a fair schedule moves a byte. *)
Lemma fair_progress in_buf want σ d w k :
  duplex_inv in_buf d → enabled in_buf want w d → σ k = w → ∃ n d', prun in_buf want σ n d = Ret ((), d') ∧
    duplex_inv in_buf d' ∧ (remaining in_buf want d' < remaining in_buf want d)%nat.
Proof.
  revert σ. induction k as [|k IH]; intros σ Hi He Hk.
  all: destruct (pturn_ok in_buf want (σ 0%nat) d Hi) as (d' & Hrun & Hi' & Hdec & Hst).
  all: assert (H1 : prun in_buf want σ 1 d = Ret ((), d')) by (cbn [prun]; by erewrite run_bind by reflexivity).
  - exists 1%nat, d'. split_and!; [done..|]. apply Hdec. by rewrite Hk.
  - destruct (decide (enabled in_buf want (σ 0%nat) d)) as [H0|H0]; [exists 1%nat, d'; auto|].
    rewrite (Hst H0) in H1. destruct (IH (λ i, σ (S i))) as (n & d'' & Hr & Hrest); [done..|].
    exists (1 + n)%nat, d''. split; [|done]. by rewrite (prun_more _ _ _ _ _ _ _ H1).
Qed.
Lemma pturn_bound in_buf want w d d' :
  duplex_inv in_buf d → Z.of_nat (length (d_got d)) ≤ want → pturn in_buf want w d = Ret ((), d') →
  Z.of_nat (length (d_got d')) ≤ want.
Proof.
  intros (Hwf & _) Hle Hrun. destruct w.
  - revert Hrun. unfold pturn. erewrite run_bind by reflexivity. unfold id, at_dpipe, zoom, mbind, M_bind.
    destruct (write_turn _ _ _ _) as [[t p]| | | |]; [|done..]. by intros [= <-].
  - destruct (decide (Z.of_nat (length (d_got d)) < want)) as [Hlt|Hge].
    2: { rewrite (pturn_run_read _ _ _ Leave (d_pipe d)) in Hrun by (apply read_turn_leave; lia). by injection Hrun as <-. }
    revert Hrun. unfold pturn. erewrite run_bind by reflexivity. unfold id, at_dpipe, zoom, mbind, M_bind.
    destruct (read_turn _ _ _) as [[t p]| | | |]; [|done..]. intros [= <-]. cbn. destruct t; [done..|]. rewrite length_app. cbn. lia.
Qed.
Lemma prun_ok in_buf want σ n d :
  duplex_inv in_buf d → Z.of_nat (length (d_got d)) ≤ want → ∃ d', prun in_buf want σ n d = Ret ((), d') ∧
    duplex_inv in_buf d' ∧ Z.of_nat (length (d_got d')) ≤ want.
Proof.
  intros Hi Hle. induction n as [|n (d1 & R1 & I1 & B1)]; [by exists d|].
  destruct (pturn_ok in_buf want (σ n) d1 I1) as (d' & Hrun & Hi' & _). exists d'. cbn [prun]. erewrite run_bind by exact R1.
  split; [done|]. split; [done|]. by apply (pturn_bound in_buf want (σ n) d1).
Qed.
Lemma fair_finishes in_buf want σ d :
  duplex_inv in_buf d → fair σ → ∃ n d', prun in_buf want σ n d = Ret ((), d') ∧ duplex_inv in_buf d' ∧ finished in_buf want d'.
Proof.
  remember (remaining in_buf want d) as k eqn:Ek. revert σ d Ek. induction k as [k IH] using lt_wf_ind. intros σ d -> Hi Hf.
  assert ((∃ w, enabled in_buf want w d) ∨ finished in_buf want d) as [[w He]|Hno].
  { destruct (decide (enabled in_buf want true d)); [left; by exists true|].
    destruct (decide (enabled in_buf want false d)); [left; by exists false|right; by intros []]. }
  2: { by exists 0%nat, d. }
  destruct (Hf w 0%nat) as (m & _ & Hm). destruct (fair_progress in_buf want σ d w m Hi He Hm) as (n & d1 & R1 & I1 & Hlt).
  destruct (IH _ Hlt (λ i, σ (n + i)%nat) d1 eq_refl I1) as (n' & d2 & R2 & Hrest).
  { intros w' j. destruct (Hf w' (n + j)%nat) as (m' & Hm' & E). exists (m' - n)%nat. split; [lia|].
    by replace (n + (m' - n))%nat with m' by lia. }
  exists (n + n')%nat, d2. split; [|done]. by rewrite (prun_more _ _ _ _ _ _ _ R1).
Qed.

