(* ===== verification/Sched.v ===== *)
(** * Processes in the ready queue, the scheduler and signals
    (src/kernel/process.c, src/kernel/scheduler.c, src/ipc/signal.c)

    [sched] holds the process control blocks, reached through pointers, the
    doubly linked ready queue threaded through them, and the scheduler's static
    variables.  A dereference of a pointer without a block is undefined.  The
    queue is proved to implement a list; the scheduler is proved to be a round
    robin over it.

    [schedule] returns [true] when it has switched to another process: the code
    after the call then runs when the calling process is resumed.  The switch
    itself is the assembly routine of Switch.v, here its effect on the saved
    contexts and on the registers it loads. *)
From S2P Require Import Prelude Pcb.

Record sched := Sched {
  pcbs : gmap Z process_t;
  process_table : list Z;
  next_pid : Z;
  ready_queue_head : Z;
  ready_queue_tail : Z;
  current_process : Z;
  scheduler_enabled : bool;
  schedule_count : Z;
  cr3 : Z;
  tss_rsp0 : Z;
  cpu : context_t;
  interrupts : bool;
  terminal : list (list Z);
}.

Definition set_pcbs v s := Sched v (process_table s) (next_pid s) (ready_queue_head s) (ready_queue_tail s)
  (current_process s) (scheduler_enabled s) (schedule_count s) (cr3 s) (tss_rsp0 s) (cpu s) (interrupts s) (terminal s).
Definition set_process_table v s := Sched (pcbs s) v (next_pid s) (ready_queue_head s) (ready_queue_tail s)
  (current_process s) (scheduler_enabled s) (schedule_count s) (cr3 s) (tss_rsp0 s) (cpu s) (interrupts s) (terminal s).
Definition set_next_pid v s := Sched (pcbs s) (process_table s) v (ready_queue_head s) (ready_queue_tail s)
  (current_process s) (scheduler_enabled s) (schedule_count s) (cr3 s) (tss_rsp0 s) (cpu s) (interrupts s) (terminal s).
Definition set_rq_head v s := Sched (pcbs s) (process_table s) (next_pid s) v (ready_queue_tail s)
  (current_process s) (scheduler_enabled s) (schedule_count s) (cr3 s) (tss_rsp0 s) (cpu s) (interrupts s) (terminal s).
Definition set_rq_tail v s := Sched (pcbs s) (process_table s) (next_pid s) (ready_queue_head s) v
  (current_process s) (scheduler_enabled s) (schedule_count s) (cr3 s) (tss_rsp0 s) (cpu s) (interrupts s) (terminal s).
Definition set_current v s := Sched (pcbs s) (process_table s) (next_pid s) (ready_queue_head s) (ready_queue_tail s)
  v (scheduler_enabled s) (schedule_count s) (cr3 s) (tss_rsp0 s) (cpu s) (interrupts s) (terminal s).
Definition set_enabled v s := Sched (pcbs s) (process_table s) (next_pid s) (ready_queue_head s) (ready_queue_tail s)
  (current_process s) v (schedule_count s) (cr3 s) (tss_rsp0 s) (cpu s) (interrupts s) (terminal s).
Definition set_count v s := Sched (pcbs s) (process_table s) (next_pid s) (ready_queue_head s) (ready_queue_tail s)
  (current_process s) (scheduler_enabled s) v (cr3 s) (tss_rsp0 s) (cpu s) (interrupts s) (terminal s).
Definition set_cr3 v s := Sched (pcbs s) (process_table s) (next_pid s) (ready_queue_head s) (ready_queue_tail s)
  (current_process s) (scheduler_enabled s) (schedule_count s) v (tss_rsp0 s) (cpu s) (interrupts s) (terminal s).
Definition set_tss v s := Sched (pcbs s) (process_table s) (next_pid s) (ready_queue_head s) (ready_queue_tail s)
  (current_process s) (scheduler_enabled s) (schedule_count s) (cr3 s) v (cpu s) (interrupts s) (terminal s).
Definition set_cpu v s := Sched (pcbs s) (process_table s) (next_pid s) (ready_queue_head s) (ready_queue_tail s)
  (current_process s) (scheduler_enabled s) (schedule_count s) (cr3 s) (tss_rsp0 s) v (interrupts s) (terminal s).
Definition set_interrupts v s := Sched (pcbs s) (process_table s) (next_pid s) (ready_queue_head s) (ready_queue_tail s)
  (current_process s) (scheduler_enabled s) (schedule_count s) (cr3 s) (tss_rsp0 s) (cpu s) v (terminal s).
Definition set_terminal v s := Sched (pcbs s) (process_table s) (next_pid s) (ready_queue_head s) (ready_queue_tail s)
  (current_process s) (scheduler_enabled s) (schedule_count s) (cr3 s) (tss_rsp0 s) (cpu s) (interrupts s) v.

(** [*p], and an assignment to a field of [*p]. *)
Definition deref (p : Z) : M sched process_t := s ← gets pcbs; lift_opt (s !! p).
Definition assign (p : Z) (f : process_t → process_t) : M sched unit :=
  pr ← deref p; modify (λ s, set_pcbs (<[p := f pr]> (pcbs s)) s).

(** [terminal_writestring], as the sequence of strings written. *)
Definition writestring (b : list Z) : M sched unit := modify (λ s, set_terminal (terminal s ++ [b]) s).
Definition say (s : string) : M sched unit := writestring (bytes_of s).

(** ** The ready queue *)

Definition ready_queue_push (proc : Z) : M sched unit :=
  assign proc (set_next 0);;
  tail ← gets ready_queue_tail;
  assign proc (set_prev tail);;
  (if negb (tail =? 0) then assign tail (set_next proc)
   else modify (set_rq_head proc));;
  modify (set_rq_tail proc).

Definition ready_queue_remove (proc : Z) : M sched unit :=
  pr ← deref proc;
  (if negb (p_prev pr =? 0) then assign (p_prev pr) (set_next (p_next pr))
   else modify (set_rq_head (p_next pr)));;
  pr ← deref proc;
  (if negb (p_next pr =? 0) then assign (p_next pr) (set_prev (p_prev pr))
   else modify (set_rq_tail (p_prev pr)));;
  assign proc (set_next 0);;
  assign proc (set_prev 0).

Definition ready_queue_pop : M sched Z :=
  proc ← gets ready_queue_head;
  (if negb (proc =? 0) then ready_queue_remove proc else mret ());;
  mret proc.

(** ** The scheduler *)
Section scheduler.
(** The address of the static [idle_process]. *)
Variable idle_process : Z.

Definition process_get_current : M sched Z :=
  c ← gets current_process; mret (if negb (c =? 0) then c else idle_process).

Definition vmm_switch_address_space (new_pml4 : Z) : M sched unit := modify (set_cr3 new_pml4).

(** [context_switch(&old->context, &new->context)]. *)
Definition context_switch (old new : Z) : M sched unit :=
  regs ← gets cpu;
  assign old (set_context regs);;
  n ← deref new;
  modify (set_cpu (p_context n)).

Definition schedule : M sched bool :=
  en ← gets scheduler_enabled;
  if negb en then mret false else
  modify (set_interrupts false);;
  modify (λ s, set_count (u64 (schedule_count s + 1)) s);;
  current ← process_get_current;
  cur ← deref current;
  (if bool_decide (p_state cur = PROCESS_STATE_RUNNING) then
     assign current (set_state PROCESS_STATE_READY);;
     ready_queue_push current
   else mret ());;
  popped ← ready_queue_pop;
  table ← gets process_table;
  next ← (if popped =? 0 then lift_opt (arr_get table 0) else mret popped);
  if negb (current =? next) then
    assign next (set_state PROCESS_STATE_RUNNING);;
    modify (set_current next);;
    cur ← deref current;
    nxt ← deref next;
    (if negb (p_page_table cur =? p_page_table nxt) && negb (p_page_table nxt =? 0)
     then vmm_switch_address_space (p_page_table nxt) else mret ());;
    context_switch current next;;
    modify (set_interrupts true);;
    mret true
  else
    modify (set_interrupts true);;
    mret false.

Definition scheduler_tick : M sched bool :=
  en ← gets scheduler_enabled;
  if negb en then mret false else
  current ← process_get_current;
  if current =? 0 then mret false else
  assign current (λ p, set_ticks_total (u64 (p_ticks_total p + 1)) p);;
  cur ← deref current;
  (if 0 <? p_ticks_remaining cur
   then assign current (λ p, set_ticks_remaining (p_ticks_remaining p - 1) p) else mret ());;
  cur ← deref current;
  if p_ticks_remaining cur =? 0 then
    assign current (set_ticks_remaining DEFAULT_QUANTUM);;
    schedule
  else mret false.

Definition scheduler_init : M sched unit :=
  modify (set_enabled false);;
  modify (set_count 0);;
  say "Scheduler initialized (disabled)
".
Definition scheduler_enable : M sched bool :=
  modify (set_enabled true);;
  say "Scheduler enabled
";;
  schedule.
Definition scheduler_disable : M sched unit :=
  modify (set_enabled false);;
  say "Scheduler disabled
".

(** ** Processes giving up the CPU *)

Definition tss_set_kernel_stack (stack : Z) : M sched unit := modify (set_tss stack).

Definition process_get_pid : M sched Z := c ← process_get_current; p ← deref c; mret (p_pid p).
Definition process_get_name : M sched (list Z) := c ← process_get_current; p ← deref c; mret (p_name p).
Definition process_get_state (process : Z) : M sched process_state_t :=
  if negb (process =? 0) then p ← deref process; mret (p_state p) else mret PROCESS_STATE_TERMINATED.

Definition process_yield : M sched bool :=
  current ← process_get_current;
  (if negb (current =? 0) && negb (current =? idle_process) then
     c ← deref current;
     tss_set_kernel_stack (u64 (p_kernel_stack c + p_kernel_stack_size c))
   else mret ());;
  schedule.

Definition process_block : M sched bool :=
  c ← gets current_process;
  if negb (c =? 0) && negb (c =? idle_process) then
    assign c (set_state PROCESS_STATE_BLOCKED);;
    schedule
  else mret false.

Definition process_unblock (process : Z) : M sched unit :=
  if process =? 0 then mret () else
  p ← deref process;
  if bool_decide (p_state p = PROCESS_STATE_BLOCKED) then
    assign process (set_state PROCESS_STATE_READY);;
    ready_queue_push process
  else mret ().

Definition process_exit (status : Z) : M sched bool :=
  c ← gets current_process;
  if negb (c =? 0) && negb (c =? idle_process) then
    say "Process exiting: ";;
    p ← deref c;
    writestring (c_string (p_name p));;
    say "
";;
    assign c (set_state PROCESS_STATE_TERMINATED);;
    switched ← schedule;
    (* the code after the call runs only if control comes back *)
    if (switched : bool) then mret true else panic "process_exit: schedule() returned!"
  else mret false.
End scheduler.

(** ** Signals *)
Section signals.
(** [process_find_by_pid] is declared nowhere in the repository and defined
    nowhere: the address of the block with the given pid, or 0. *)
Variable process_find_by_pid : Z → sched → Z.

Definition SIGINT : Z := 2.
Definition SIGKILL : Z := 9.
Definition SIGTERM : Z := 15.
Definition SIGCONT : Z := 18.
Definition SIGSTOP : Z := 19.

Definition signal_report (what : string) (proc : Z) (new : process_state_t) : M sched unit :=
  say what;;
  p ← deref proc;
  writestring (c_string (p_name p));;
  say "
";;
  assign proc (set_state new).

Definition signal_send (pid sig : Z) : M sched unit :=
  proc ← gets (process_find_by_pid pid);
  if proc =? 0 then mret () else
  p ← deref proc;
  if sig =? SIGKILL then signal_report "[SIGNAL] Killing process " proc PROCESS_STATE_TERMINATED
  else if sig =? SIGTERM then signal_report "[SIGNAL] Terminating process " proc PROCESS_STATE_TERMINATED
  else if sig =? SIGSTOP then
    if bool_decide (p_state p = PROCESS_STATE_RUNNING) || bool_decide (p_state p = PROCESS_STATE_READY)
    then signal_report "[SIGNAL] Stopping process " proc PROCESS_STATE_BLOCKED else mret ()
  else if sig =? SIGCONT then
    if bool_decide (p_state p = PROCESS_STATE_BLOCKED)
    then signal_report "[SIGNAL] Continuing process " proc PROCESS_STATE_READY else mret ()
  else if sig =? SIGINT then signal_report "[SIGNAL] Interrupting process " proc PROCESS_STATE_TERMINATED
  else say "[SIGNAL] Unknown signal
".
End signals.

(** ** The queue as a list of pointers *)

(** The blocks [l] are linked in order, between [prv] and [nxt]. *)
Fixpoint dlseg (m : gmap Z process_t) (prv : Z) (l : list Z) (nxt : Z) : Prop :=
  match l with
  | [] => True
  | p :: l' => (∃ pr, m !! p = Some pr ∧ p_prev pr = prv ∧ p_next pr = hd nxt l') ∧ dlseg m p l' nxt
  end.
Record queue (s : sched) (l : list Z) : Prop := {
  q_head : ready_queue_head s = hd 0 l;
  q_tail : ready_queue_tail s = default 0 (last l);
  q_links : dlseg (pcbs s) 0 l 0;
  q_nodup : NoDup l;
  q_null : 0 ∉ l;
}.

(** A block without its links: what the queue operations leave alone. *)
Definition unlink (p : process_t) : process_t := set_next 0 (set_prev 0 p).
(** [s'] differs from [s] in the links of the queue only. *)
Definition relinked (s s' : sched) : Prop :=
  (∃ m h t, s' = set_rq_tail t (set_rq_head h (set_pcbs m s))) ∧
  ∀ p, unlink <$> pcbs s' !! p = unlink <$> pcbs s !! p.

(** The state of the process at [p]. *)
Definition pstate (s : sched) (p : Z) : option process_state_t := p_state <$> pcbs s !! p.

(** The process that has the CPU, as [process_get_current] finds it. *)
Definition running (idle : Z) (s : sched) : Z :=
  if negb (current_process s =? 0) then current_process s else idle.
(** The registers of a process: in the CPU when it runs, saved when not. *)
Definition regs_of (idle : Z) (s : sched) (q : Z) : option context_t :=
  if decide (q = running idle s) then (λ _, cpu s) <$> pcbs s !! q else p_context <$> pcbs s !! q.
(** A block without its links, state and saved registers: what the scheduler
    leaves alone. *)
Definition still (p : process_t) : process_t := set_context zero_context (set_state PROCESS_STATE_READY (unlink p)).
(** No process loses its registers or any field but state and links, and the
    tables stay. *)
Record switched (idle : Z) (s s' : sched) : Prop := {
  sw_regs q : regs_of idle s' q = regs_of idle s q;
  sw_still q : still <$> pcbs s' !! q = still <$> pcbs s !! q;
  sw_table : process_table s' = process_table s;
  sw_next_pid : next_pid s' = next_pid s;
  sw_enabled : scheduler_enabled s' = scheduler_enabled s;
  sw_terminal : terminal s' = terminal s;
}.
(** The address space in use is that of the running process; a process
    without one (the idle process) runs in any. *)
Definition space_ok (idle : Z) (s : sched) : Prop :=
  ∀ pr, pcbs s !! running idle s = Some pr → p_page_table pr ≠ 0 → cr3 s = p_page_table pr.

(** The process [c] runs, those in [l] wait in this order for the CPU. *)
Record ring (idle : Z) (s : sched) (c : Z) (l : list Z) : Prop := {
  rg_queue : queue s l;
  rg_enabled : scheduler_enabled s = true;
  rg_current : c = running idle s;
  rg_running : pstate s c = Some PROCESS_STATE_RUNNING;
  rg_ready p : p ∈ l → pstate s p = Some PROCESS_STATE_READY;
  rg_idle : idle ≠ 0;
}.

(** [n] calls of [schedule], and [n] timer ticks. *)
Fixpoint schedule_n (idle : Z) (n : nat) : M sched unit :=
  match n with O => mret () | S n' => schedule idle;; schedule_n idle n' end.
Fixpoint tick_n (idle : Z) (n : nat) : M sched unit :=
  match n with O => mret () | S n' => scheduler_tick idle;; tick_n idle n' end.

(** ** Segments *)

Lemma dlseg_app m prv l1 l2 nxt :
  dlseg m prv (l1 ++ l2) nxt ↔ dlseg m prv l1 (hd nxt l2) ∧ dlseg m (default prv (last l1)) l2 nxt.
Proof.
  revert prv. induction l1 as [|p l1 IH]; intros prv; cbn [dlseg app]; [by split; [|intros [_ ?]]|].
  rewrite IH. destruct l1 as [|q l1]; cbn [hd app last default]; [tauto|].
  rewrite !last_cons. cbn. destruct (last l1); tauto.
Qed.
(** Only the links matter. *)
Lemma dlseg_links m m' prv l nxt :
  (∀ p pr, p ∈ l → m !! p = Some pr → ∃ pr', m' !! p = Some pr' ∧ p_prev pr' = p_prev pr ∧ p_next pr' = p_next pr) →
  dlseg m prv l nxt → dlseg m' prv l nxt.
Proof.
  revert prv. induction l as [|p l IH]; intros prv Hm H; [done|]. destruct H as [(pr & H1 & H2 & H3) H].
  destruct (Hm p pr) as (pr' & H1' & H2' & H3'); [by constructor|done|]. split.
  - exists pr'. split_and!; [done|congruence|congruence].
  - apply IH; [|done]. intros q qr Hq. apply Hm. by constructor.
Qed.
Lemma dlseg_frame m m' prv l nxt : (∀ p, p ∈ l → m' !! p = m !! p) → dlseg m prv l nxt → dlseg m' prv l nxt.
Proof. intros Hm. apply dlseg_links. intros p pr Hp Hpr. exists pr. by rewrite Hm. Qed.
Lemma dlseg_elem m prv l nxt p : dlseg m prv l nxt → p ∈ l → ∃ pr, m !! p = Some pr.
Proof.
  revert prv. induction l as [|q l IH]; intros prv H Hp; [by apply elem_of_nil in Hp|].
  destruct H as [(pr & H1 & _) H]. apply elem_of_cons in Hp as [->|Hp]; [by eauto|]. by eapply IH.
Qed.

Lemma wp_deref s p pr Q : pcbs s !! p = Some pr → Q pr s → wp (deref p) s Q.
Proof. intros Hp HQ. unfold deref. wp_go. by rewrite Hp. Qed.
Lemma wp_assign s p pr f Q :
  pcbs s !! p = Some pr → Q () (set_pcbs (<[p := f pr]> (pcbs s)) s) → wp (assign p f) s Q.
Proof. intros Hp HQ. unfold assign. apply wp_bind. by eapply wp_deref. Qed.
Lemma run_deref s p pr : pcbs s !! p = Some pr → deref p s = Ret (pr, s).
Proof. intros Hp. unfold deref. erewrite run_bind by done. by rewrite Hp. Qed.
Lemma run_assign s p pr f : pcbs s !! p = Some pr → assign p f s = Ret ((), set_pcbs (<[p := f pr]> (pcbs s)) s).
Proof. intros Hp. unfold assign. by erewrite run_bind by by apply run_deref. Qed.

(** ** Relinking *)

Lemma relinked_refl s : relinked s s.
Proof. split; [|done]. exists (pcbs s), (ready_queue_head s), (ready_queue_tail s). by destruct s. Qed.
Lemma relinked_trans s1 s2 s3 : relinked s1 s2 → relinked s2 s3 → relinked s1 s3.
Proof.
  intros [(m & h & t & ->) H1] [(m' & h' & t' & ->) H2]. split; [by eexists _, _, _|].
  intros p. by rewrite H2, H1.
Qed.
Lemma relinked_head s h : relinked s (set_rq_head h s).
Proof. split; [|done]. exists (pcbs s), h, (ready_queue_tail s). by destruct s. Qed.
Lemma relinked_tail s t : relinked s (set_rq_tail t s).
Proof. split; [|done]. exists (pcbs s), (ready_queue_head s), t. by destruct s. Qed.
Lemma relinked_assign s p pr f :
  pcbs s !! p = Some pr → (∀ x, unlink (f x) = unlink x) → relinked s (set_pcbs (<[p := f pr]> (pcbs s)) s).
Proof.
  intros Hp Hf. split; [exists (<[p := f pr]> (pcbs s)), (ready_queue_head s), (ready_queue_tail s); by destruct s|].
  intros q. cbn. destruct (decide (p = q)) as [->|Hne].
  - rewrite lookup_insert_eq, Hp. cbn. by rewrite Hf.
  - by rewrite lookup_insert_ne.
Qed.
Lemma relinked_state s s' p : relinked s s' → pstate s' p = pstate s p.
Proof.
  intros [_ H]. specialize (H p). unfold pstate. destruct (pcbs s !! p), (pcbs s' !! p); try done.
  injection H as H. cbn. by f_equal.
Qed.
Lemma relinked_dom s s' p pr : relinked s s' → pcbs s !! p = Some pr → ∃ pr', pcbs s' !! p = Some pr' ∧ unlink pr' = unlink pr.
Proof.
  intros [_ H] Hp. specialize (H p). rewrite Hp in H. destruct (pcbs s' !! p) as [pr'|]; [|done]. exists pr'. split; [done|]. by apply (inj Some) in H.
Qed.

(** ** The queue operations *)

Lemma unlink_next v p : unlink (set_next v p) = unlink p.
Proof. done. Qed.
Lemma unlink_prev v p : unlink (set_prev v p) = unlink p.
Proof. done. Qed.

Lemma wp_push s l p pr :
  queue s l → p ∉ l → p ≠ 0 → pcbs s !! p = Some pr →
  wp (ready_queue_push p) s (λ _ s', queue s' (l ++ [p]) ∧ relinked s s').
Proof.
  intros [Hh Ht Hl Hnd H0] Hp Hp0 Hpr. unfold ready_queue_push.
  apply wp_bind. eapply wp_assign; [done|]. set (s1 := set_pcbs _ s).
  assert (R1 : relinked s s1) by (by apply relinked_assign).
  apply wp_bind, wp_gets. apply wp_bind. eapply wp_assign; [apply lookup_insert_eq|]. set (s2 := set_pcbs _ s1).
  assert (R2 : relinked s1 s2) by (apply relinked_assign; [apply lookup_insert_eq|done]).
  assert (Em2 : pcbs s2 = <[p := set_prev (ready_queue_tail s) (set_next 0 pr)]> (pcbs s)) by apply insert_insert_eq.
  change (ready_queue_tail s1) with (ready_queue_tail s). rewrite Ht in *.
  assert (Hnd' : NoDup (l ++ [p])) by (apply NoDup_app; split_and!; [done|set_solver|apply NoDup_singleton]).
  assert (H0' : 0 ∉ l ++ [p]) by set_solver.
  destruct (last l) as [t|] eqn:Elast; cbn [from_option id] in *.
  - apply last_Some in Elast as [l0 ->]. assert (t ≠ 0 ∧ t ≠ p) as [Ht0 Htp] by set_solver.
    rewrite (proj2 (Z.eqb_neq t 0)) by done. cbn [negb].
    apply dlseg_app in Hl as [Hl0 [(tr & Htr & Htp' & _) _]].
    apply wp_bind. eapply (wp_assign _ _ tr); [rewrite Em2, lookup_insert_ne; done|]. apply wp_modify.
    assert (R3 : relinked s2 (set_pcbs (<[t := set_next p tr]> (pcbs s2)) s2)).
    { apply (relinked_assign _ _ tr (set_next p)); [rewrite Em2, lookup_insert_ne; done|done]. }
    split; [|eauto using relinked_trans, relinked_tail].
    apply NoDup_app in Hnd as (_ & Hdis & _).
    split; [|by rewrite last_snoc|..|done|done].
    + cbn. rewrite Hh. by destruct l0.
    + cbn [pcbs set_rq_tail set_pcbs]. rewrite Em2. rewrite <- app_assoc. apply dlseg_app. split; [|].
      * eapply dlseg_frame; [|exact Hl0]. intros q Hq.
        assert (q ≠ t) by (intros ->; by apply (Hdis t Hq); constructor).
        rewrite !lookup_insert_ne by set_solver. done.
      * cbn [app dlseg hd]. split_and!; [|..|done].
        -- exists (set_next p tr). by rewrite lookup_insert_eq.
        -- eexists. rewrite lookup_insert_ne, lookup_insert_eq by done. by split_and!.
  - apply last_None in Elast as ->. cbn [negb Z.eqb]. apply wp_bind, wp_modify, wp_modify.
    split; [|eauto using relinked_trans, relinked_tail, relinked_head].
    split; [done|done| |done|done]. cbn [app dlseg hd pcbs set_rq_tail set_rq_head]. rewrite Em2. split; [|done].
    eexists. rewrite lookup_insert_eq. by split_and!.
Qed.

Lemma wp_remove s l1 p l2 :
  queue s (l1 ++ p :: l2) →
  wp (ready_queue_remove p) s (λ _ s', queue s' (l1 ++ l2) ∧ relinked s s').
Proof.
  intros [Hh Ht Hl Hnd H0]. apply dlseg_app in Hl as [Hl1 [(pr & Hpr & Hpp & Hpn) Hl2]]. cbn [hd] in Hl1.
  apply NoDup_app in Hnd as (Hnd1 & Hdis & (Hp2 & Hnd2)%NoDup_cons).
  assert (Hp1 : p ∉ l1) by (intros Hin; by apply (Hdis p Hin), elem_of_cons; left).
  assert (Hdis' : ∀ q, q ∈ l1 → q ∉ l2) by (intros q Hin Hin2; by apply (Hdis q Hin), elem_of_cons; right).
  unfold ready_queue_remove. apply wp_bind. eapply wp_deref; [exact Hpr|]. rewrite Hpp, Hpn.
  (* the block before, or the head *)
  set (a := default 0 (last l1)). set (b := hd 0 l2).
  assert (Hstep1 : ∀ Q, (∀ s1, relinked s s1 → pcbs s1 !! p = Some pr → ready_queue_head s1 = hd 0 (l1 ++ l2) →
      ready_queue_tail s1 = ready_queue_tail s → dlseg (pcbs s1) 0 l1 b → dlseg (pcbs s1) p l2 0 → Q () s1) →
      wp (if negb (a =? 0) then assign a (set_next b) else modify (set_rq_head b)) s Q).
  { intros Q HQ. unfold a. destruct (last l1) as [t|] eqn:Elast; cbn [from_option id] in *.
    - apply last_Some in Elast as [l0 ->]. assert (t ≠ 0 ∧ t ≠ p ∧ t ∉ l2) as (Ht0 & Htp & Ht2) by set_solver.
      rewrite (proj2 (Z.eqb_neq t 0)) by done. cbn [negb].
      apply dlseg_app in Hl1 as [Hl0 [(tr & Htr & Htp' & _) _]]. apply NoDup_app in Hnd1 as (_ & Hd0 & _).
      eapply wp_assign; [exact Htr|]. apply HQ; cbn [pcbs set_pcbs].
      + by apply (relinked_assign s t tr (set_next b)).
      + by rewrite lookup_insert_ne.
      + cbn. rewrite Hh. by destruct l0.
      + done.
      + apply dlseg_app. split.
        * eapply dlseg_frame; [|exact Hl0]. intros q Hq.
          rewrite lookup_insert_ne; [done|]. intros ->. by apply (Hd0 q Hq); constructor.
        * cbn [dlseg hd]. split; [|done]. exists (set_next b tr). by rewrite lookup_insert_eq.
      + eapply dlseg_frame; [|exact Hl2]. intros q Hq. rewrite lookup_insert_ne; [done|]. by intros ->.
    - apply last_None in Elast as ->. cbn [negb Z.eqb]. apply wp_modify. apply HQ; try done; [apply relinked_head]. }
  apply wp_bind, Hstep1. clear Hstep1. intros s1 R1 Hpr1 Hh1 Ht1 Hs1 Hs2.
  apply wp_bind. eapply wp_deref; [exact Hpr1|]. rewrite Hpp, Hpn. fold a b.
  (* the block after, or the tail *)
  assert (Hstep2 : ∀ Q, (∀ s2, relinked s1 s2 → pcbs s2 !! p = Some pr → ready_queue_head s2 = hd 0 (l1 ++ l2) →
      ready_queue_tail s2 = default 0 (last (l1 ++ l2)) → dlseg (pcbs s2) 0 l1 b → dlseg (pcbs s2) a l2 0 → Q () s2) →
      wp (if negb (b =? 0) then assign b (set_prev a) else modify (set_rq_tail a)) s1 Q).
  { intros Q HQ. unfold b in *. destruct l2 as [|t l2]; cbn [hd] in *.
    - cbn [negb Z.eqb]. apply wp_modify, HQ; try done; [apply relinked_tail|]. cbn. by rewrite app_nil_r.
    - assert (t ≠ 0 ∧ t ≠ p ∧ t ∉ l1) as (Ht0 & Htp & Ht2) by set_solver.
      rewrite (proj2 (Z.eqb_neq t 0)) by done. cbn [negb].
      destruct Hs2 as [(tr & Htr & Htp' & Htn) Hs2]. apply NoDup_cons in Hnd2 as [Ht3 _].
      eapply wp_assign; [exact Htr|]. apply HQ; cbn [pcbs set_pcbs].
      + by apply (relinked_assign s1 t tr (set_prev a)).
      + by rewrite lookup_insert_ne.
      + done.
      + cbn. rewrite Ht1, Ht, !last_app. done.
      + eapply dlseg_frame; [|exact Hs1]. intros q Hq. rewrite lookup_insert_ne; [done|]. by intros ->.
      + cbn [dlseg]. split; [exists (set_prev a tr); by rewrite lookup_insert_eq|].
        eapply dlseg_frame; [|exact Hs2]. intros q Hq. rewrite lookup_insert_ne; [done|]. by intros ->. }
  apply wp_bind, Hstep2. clear Hstep2. intros s2 R2 Hpr2 Hh2 Ht2 Hs3 Hs4.
  apply wp_bind. eapply wp_assign; [exact Hpr2|]. eapply wp_assign; [apply lookup_insert_eq|].
  assert (R3 : relinked s2 (set_pcbs (<[p := set_next 0 pr]> (pcbs s2)) s2)) by by apply relinked_assign.
  set (s3 := set_pcbs (<[p := set_next 0 pr]> (pcbs s2)) s2) in *.
  assert (R4 : relinked s3 (set_pcbs (<[p := set_prev 0 (set_next 0 pr)]> (pcbs s3)) s3))
    by (apply relinked_assign; [apply lookup_insert_eq|done]).
  split; [|eauto using relinked_trans].
  split; cbn [pcbs set_pcbs ready_queue_head ready_queue_tail]; [done|done|..].
  - unfold s3; cbn [pcbs set_pcbs]; rewrite insert_insert_eq. apply dlseg_app. fold b a.
    split; (eapply dlseg_frame; [|eassumption]); intros q Hq; rewrite lookup_insert_ne; try done; by intros ->.
  - apply NoDup_app. split_and!; [done|exact Hdis'|done].
  - set_solver.
Qed.

Lemma wp_pop s l :
  queue s l →
  wp ready_queue_pop s (λ p s', p = hd 0 l ∧ queue s' (tail l) ∧ relinked s s').
Proof.
  intros Hq. unfold ready_queue_pop. apply wp_bind, wp_gets. rewrite (q_head _ _ Hq).
  destruct l as [|p l]; cbn [hd tail].
  - cbn [Z.eqb negb]. apply wp_bind, wp_ret, wp_ret. split_and!; [done|done|apply relinked_refl].
  - assert (p ≠ 0) by (intros ->; apply (q_null _ _ Hq); constructor).
    rewrite (proj2 (Z.eqb_neq p 0)) by done. cbn [negb]. apply wp_bind.
    eapply wp_mono; [apply (wp_remove s [] p l Hq)|]. intros _ s' [Hq' R]. by apply wp_ret.
Qed.

(** ** One call of [schedule] *)

(** Links, states and the scheduler's own counters may differ. *)
Record restated (s s' : sched) : Prop := {
  rs_rest : ∃ m h t n i, s' = set_interrupts i (set_count n (set_rq_tail t (set_rq_head h (set_pcbs m s))));
  rs_pcb q : set_state PROCESS_STATE_READY ∘ unlink <$> pcbs s' !! q = set_state PROCESS_STATE_READY ∘ unlink <$> pcbs s !! q;
}.
Lemma restated_trans s1 s2 s3 : restated s1 s2 → restated s2 s3 → restated s1 s3.
Proof.
  intros [(m & h & t & n & i & ->) H1] [(m' & h' & t' & n' & i' & ->) H2]. split; [by exists m', h', t', n', i'|].
  intros q. by rewrite H2, H1.
Qed.
Lemma relinked_restated s s' : relinked s s' → restated s s'.
Proof.
  intros [(m & h & t & ->) H]. split; [exists m, h, t, (schedule_count s), (interrupts s); by destruct s|].
  intros q. by rewrite !option_fmap_compose, H.
Qed.
Lemma restated_assign s p pr st :
  pcbs s !! p = Some pr → restated s (set_pcbs (<[p := set_state st pr]> (pcbs s)) s).
Proof.
  intros Hp. split.
  - exists (<[p := set_state st pr]> (pcbs s)), (ready_queue_head s), (ready_queue_tail s), (schedule_count s), (interrupts s).
    by destruct s.
  - intros q. cbn. destruct (decide (p = q)) as [->|]; [by rewrite lookup_insert_eq, Hp|by rewrite lookup_insert_ne].
Qed.
Lemma restated_counters s n i : restated s (set_count n (set_interrupts i s)).
Proof. split; [exists (pcbs s), (ready_queue_head s), (ready_queue_tail s), n, i; by destruct s|done]. Qed.
Lemma restated_lookup s s' p pr :
  restated s s' → pcbs s !! p = Some pr →
  ∃ pr', pcbs s' !! p = Some pr' ∧ p_context pr' = p_context pr ∧ p_page_table pr' = p_page_table pr ∧ still pr' = still pr.
Proof.
  intros [_ H] Hp. specialize (H p). rewrite Hp in H. destruct (pcbs s' !! p) as [pr'|]; [|done].
  exists pr'. apply (inj Some) in H. split_and!; [done|..].
  - by apply (f_equal p_context) in H.
  - by apply (f_equal p_page_table) in H.
  - by apply (f_equal (set_context zero_context)) in H.
Qed.
Lemma restated_still s s' q : restated s s' → still <$> pcbs s' !! q = still <$> pcbs s !! q.
Proof.
  intros [_ H]. specialize (H q). apply (f_equal (fmap (set_context zero_context))) in H.
  by rewrite <- !option_fmap_compose in H.
Qed.
Lemma restated_context s s' q : restated s s' → p_context <$> pcbs s' !! q = p_context <$> pcbs s !! q.
Proof.
  intros [_ H]. specialize (H q). apply (f_equal (fmap p_context)) in H. by rewrite <- !option_fmap_compose in H.
Qed.
Lemma restated_fields s s' :
  restated s s' → current_process s' = current_process s ∧ cpu s' = cpu s ∧ cr3 s' = cr3 s ∧
    process_table s' = process_table s ∧ next_pid s' = next_pid s ∧ scheduler_enabled s' = scheduler_enabled s ∧
    terminal s' = terminal s.
Proof. by intros [(? & ? & ? & ? & ? & ->) _]. Qed.

Lemma queue_assign s l p pr f :
  (p_prev (f pr) = p_prev pr) → (p_next (f pr) = p_next pr) → pcbs s !! p = Some pr →
  queue s l → queue (set_pcbs (<[p := f pr]> (pcbs s)) s) l.
Proof.
  intros Hp Hn Hpr [? ? Hl ? ?]. split; [done..| |done|done]. cbn.
  eapply dlseg_links; [|exact Hl]. intros q qr _ Hq. destruct (decide (p = q)) as [->|].
  - rewrite lookup_insert_eq. exists (f pr). rewrite Hpr in Hq. apply (inj Some) in Hq as <-. done.
  - rewrite lookup_insert_ne by done. by exists qr.
Qed.
Lemma queue_ext s s' l :
  pcbs s' = pcbs s → ready_queue_head s' = ready_queue_head s → ready_queue_tail s' = ready_queue_tail s →
  queue s l → queue s' l.
Proof. intros E1 E2 E3 [????]. split; by rewrite ?E1, ?E2, ?E3. Qed.
Lemma pstate_assign s p pr f q :
  pcbs s !! p = Some pr →
  pstate (set_pcbs (<[p := f pr]> (pcbs s)) s) q = if decide (q = p) then Some (p_state (f pr)) else pstate s q.
Proof.
  intros Hp. unfold pstate. cbn. destruct (decide (q = p)) as [->|]; [by rewrite lookup_insert_eq|by rewrite lookup_insert_ne].
Qed.

(** The first part: the process that runs goes to the end of the queue. *)
Lemma wp_requeue s l c cur :
  queue s l → c ≠ 0 → pcbs s !! c = Some cur → (p_state cur = PROCESS_STATE_RUNNING → c ∉ l) →
  let run := bool_decide (p_state cur = PROCESS_STATE_RUNNING) in
  wp (if run then assign c (set_state PROCESS_STATE_READY);; ready_queue_push c else mret ()) s (λ _ s',
    queue s' (if run then l ++ [c] else l) ∧ restated s s' ∧
    ∀ q, pstate s' q = if decide (q = c ∧ run = true) then Some PROCESS_STATE_READY else pstate s q).
Proof.
  intros Hq Hc0 Hc Hin run. unfold run. destruct (bool_decide_reflect (p_state cur = PROCESS_STATE_RUNNING)) as [Hr|Hr].
  - apply wp_bind. eapply wp_assign; [exact Hc|]. eapply wp_mono; [eapply wp_push|].
    + by apply (queue_assign s l c cur (set_state PROCESS_STATE_READY)).
    + by apply Hin.
    + done.
    + apply lookup_insert_eq.
    + intros _ s' [Hq' R]. split_and!; [done|..].
      * eapply restated_trans; [by apply restated_assign|by apply relinked_restated].
      * intros q. rewrite (relinked_state _ _ _ R), (pstate_assign s c cur (set_state PROCESS_STATE_READY)) by done.
        repeat case_decide; naive_solver.
  - apply wp_ret. split_and!; [done|by apply relinked_restated, relinked_refl|].
    intros q. case_decide; naive_solver.
Qed.

(** The second part: to another process. *)
Lemma wp_switch_to idle s c next cur n :
  running idle s = c → c ≠ next → next ≠ 0 → pcbs s !! c = Some cur → pcbs s !! next = Some n →
  wp (assign next (set_state PROCESS_STATE_RUNNING);;
      modify (set_current next);;
      cur ← deref c;
      nxt ← deref next;
      (if negb (p_page_table cur =? p_page_table nxt) && negb (p_page_table nxt =? 0)
       then vmm_switch_address_space (p_page_table nxt) else mret ());;
      context_switch c next;;
      modify (set_interrupts true);;
      mret true) s (λ b s',
    b = true ∧ (∀ l, queue s l → queue s' l) ∧ switched idle s s' ∧ running idle s' = next ∧
    (∀ q, pstate s' q = if decide (q = next) then Some PROCESS_STATE_RUNNING else pstate s q) ∧
    (space_ok idle s → space_ok idle s')).
Proof.
  intros Hc Hne Hn0 Hcur Hn.
  apply wp_bind. eapply wp_assign; [exact Hn|]. apply wp_bind, wp_modify. set (n' := set_state PROCESS_STATE_RUNNING n).
  apply wp_bind. eapply wp_deref; [cbn; by rewrite lookup_insert_ne|].
  apply wp_bind. eapply wp_deref; [cbn; apply lookup_insert_eq|].
  change (p_page_table n') with (p_page_table n).
  set (cr3' := if negb (p_page_table cur =? p_page_table n) && negb (p_page_table n =? 0) then p_page_table n else cr3 s).
  apply wp_bind. eapply (wp_mono _ _ (λ _ s', s' = set_cr3 cr3' (set_current next (set_pcbs (<[next := n']> (pcbs s)) s)))).
  { unfold cr3'. destruct (negb _ && negb _)%bool; [by apply wp_modify|apply wp_ret; by destruct s]. }
  intros _ ? ->. apply wp_bind. unfold context_switch. apply wp_bind, wp_gets. apply wp_bind.
  eapply wp_assign; [cbn; rewrite lookup_insert_ne; done|]. apply wp_bind.
  eapply wp_deref; [cbn; rewrite lookup_insert_ne by done; apply lookup_insert_eq|].
  apply wp_modify, wp_bind, wp_modify, wp_ret.
  assert (Hrun : ∀ s', current_process s' = next → running idle s' = next).
  { intros s' E. unfold running. rewrite E. by rewrite (proj2 (Z.eqb_neq next 0)). }
  split_and!; [done|..].
  - intros l Hq. set (s1 := set_cr3 cr3' (set_current next (set_pcbs (<[next := n']> (pcbs s)) s))).
    apply (queue_ext (set_pcbs (<[c := set_context (cpu s1) cur]> (pcbs s1)) s1)); [done..|].
    apply (queue_assign s1 l c cur (set_context (cpu s1))); [done|done|cbn; by rewrite lookup_insert_ne|].
    apply (queue_ext (set_pcbs (<[next := n']> (pcbs s)) s)); [done..|].
    by apply (queue_assign s l next n (set_state PROCESS_STATE_RUNNING)).
  - split; try done; intros q.
    + unfold regs_of. rewrite Hrun by done. rewrite Hc. cbn.
      destruct (decide (q = next)) as [->|]; [|destruct (decide (q = c)) as [->|]].
      * rewrite decide_False by done. rewrite lookup_insert_ne, lookup_insert_eq, Hn by done. done.
      * by rewrite lookup_insert_eq, Hcur.
      * by rewrite !lookup_insert_ne.
    + cbn. destruct (decide (q = next)) as [->|]; [|destruct (decide (q = c)) as [->|]].
      * rewrite lookup_insert_ne, lookup_insert_eq, Hn by done. done.
      * by rewrite lookup_insert_eq, Hcur.
      * by rewrite !lookup_insert_ne.
  - by apply Hrun.
  - intros q. unfold pstate. cbn. destruct (decide (q = next)) as [->|]; [|destruct (decide (q = c)) as [->|]].
    + rewrite lookup_insert_ne, lookup_insert_eq by done. done.
    + by rewrite lookup_insert_eq, Hcur.
    + by rewrite !lookup_insert_ne.
  - intros Hs pr. rewrite Hrun by done. cbn. rewrite lookup_insert_ne, lookup_insert_eq by done.
    intros [= <-] Hpt. change (p_page_table n') with (p_page_table n) in *. unfold cr3'.
    rewrite (proj2 (Z.eqb_neq _ 0) Hpt). cbn [negb]. rewrite andb_true_r.
    destruct (Z.eqb_spec (p_page_table cur) (p_page_table n)) as [E|]; [|done]. cbn [negb].
    rewrite <- E in *. apply Hs; [by rewrite Hc|done].
Qed.

Lemma restated_running idle s s' : restated s s' → running idle s' = running idle s.
Proof. intros R. unfold running. by destruct (restated_fields _ _ R) as (-> & _). Qed.
Lemma restated_switched idle s s' : restated s s' → switched idle s s'.
Proof.
  intros R. destruct (restated_fields _ _ R) as (Ec & Eu & _ & ? & ? & ? & ?). split; try done; intros q.
  - unfold regs_of. rewrite (restated_running _ _ _ R), Eu. destruct (decide _).
    + pose proof (restated_still _ _ q R) as E. by destruct (pcbs s !! q), (pcbs s' !! q).
    + by apply restated_context.
  - by apply restated_still.
Qed.
Lemma switched_trans idle s1 s2 s3 : switched idle s1 s2 → switched idle s2 s3 → switched idle s1 s3.
Proof. intros [A1 A2 ????] [B1 B2 ????]. split; intros; try congruence. Qed.
Lemma restated_space idle s s' : restated s s' → space_ok idle s → space_ok idle s'.
Proof.
  intros R Hs pr Hpr Hpt. rewrite (restated_running _ _ _ R) in Hpr.
  pose proof (restated_still _ _ (running idle s) R) as E. rewrite Hpr in E.
  destruct (pcbs s !! running idle s) as [pr0|] eqn:E0; [|done]. apply (inj Some), (f_equal p_page_table) in E.
  change (p_page_table pr = p_page_table pr0) in E. destruct (restated_fields _ _ R) as (_ & _ & -> & _).
  rewrite E in *. by apply Hs.
Qed.

(** [schedule]: the process that runs, if it is still RUNNING, goes to the end
    of the queue and the first of the queue gets the CPU, or the idle process
    when there is none. *)
Lemma wp_schedule idle s l cur t0 :
  let c := running idle s in
  let run := bool_decide (p_state cur = PROCESS_STATE_RUNNING) in
  let l' := if run then l ++ [c] else l in
  let next := match l' with [] => t0 | p :: _ => p end in
  queue s l → scheduler_enabled s = true → c ≠ 0 → pcbs s !! c = Some cur → (run = true → c ∉ l) →
  (l' = [] → arr_get (process_table s) 0 = Some t0 ∧ t0 ≠ 0 ∧ ∃ n, pcbs s !! t0 = Some n) →
  wp (schedule idle) s (λ b s',
    b = negb (c =? next) ∧ queue s' (tail l') ∧ switched idle s s' ∧ running idle s' = next ∧
    (∀ q, pstate s' q = if decide (q = next ∧ q ≠ c) then Some PROCESS_STATE_RUNNING
                        else if decide (q = c ∧ run = true) then Some PROCESS_STATE_READY else pstate s q) ∧
    (space_ok idle s → space_ok idle s')).
Proof.
  intros c run l' next Hq Hen Hc0 Hcur Hrun Ht0. unfold schedule.
  apply wp_bind, wp_gets. rewrite Hen. cbn [negb]. apply wp_bind, wp_modify, wp_bind, wp_modify.
  set (s1 := set_count _ _). assert (R1 : restated s s1) by apply restated_counters.
  apply wp_bind. eapply (wp_mono _ _ (λ x s', x = c ∧ s' = s1)); [unfold process_get_current; by wp_go|]. intros ? ? [-> ->].
  apply wp_bind. eapply wp_deref; [exact Hcur|]. fold run. apply wp_bind.
  eapply wp_mono; [apply (wp_requeue s1 l c cur); [by apply (queue_ext s)|done|done|]|].
  { intros Hr. apply Hrun. unfold run. by rewrite bool_decide_true. }
  fold run. fold l'. cbn beta zeta. intros _ s2 (Hq2 & R2 & Hst2). apply wp_bind.
  eapply wp_mono; [by apply wp_pop|]. intros popped s3 (-> & Hq3 & R3).
  assert (R : restated s s3) by eauto using restated_trans, relinked_restated.
  apply wp_bind, wp_gets. apply wp_bind. destruct (restated_fields _ _ R) as (Ec3 & _ & _ & Et3 & _).
  eapply (wp_mono _ _ (λ x s', x = next ∧ s' = s3 ∧ next ≠ 0 ∧ ∃ n, pcbs s3 !! next = Some n)).
  { unfold next. destruct l' as [|p l''] eqn:El; cbn [hd].
    - cbn [Z.eqb]. rewrite Et3. destruct Ht0 as (E0 & Ht & n & Hn); [done|]. eapply wp_lift_opt; [exact E0|]. split_and!; try done.
      destruct (restated_lookup _ _ _ _ R Hn) as (n' & Hn' & _). by exists n'.
    - assert (Hp0 : p ≠ 0) by (intros ->; apply (q_null _ _ Hq2); constructor).
      rewrite (proj2 (Z.eqb_neq p 0)) by done. apply wp_ret. split_and!; try done.
      destruct (dlseg_elem _ _ _ _ p (q_links _ _ Hq2)) as (n & Hn); [constructor|].
      destruct (relinked_dom _ _ _ _ R3 Hn) as (n' & Hn' & _). by exists n'. }
  intros ? ? (-> & -> & Hn0 & n & Hn).
  assert (Hst3 : ∀ q, pstate s3 q = if decide (q = c ∧ run = true) then Some PROCESS_STATE_READY else pstate s q).
  { intros q. rewrite (relinked_state _ _ _ R3). apply Hst2. }
  assert (Hr3 : running idle s3 = c) by (rewrite (restated_running _ _ _ R); done).
  destruct (Z.eqb_spec c next) as [E|Hne]; cbn [negb].
  - apply wp_bind, wp_modify, wp_ret. split_and!; [done|by apply (queue_ext s3)|..].
    + eapply switched_trans; [apply restated_switched; exact R|done].
    + by rewrite <- E.
    + intros q. etransitivity; [apply (Hst3 q)|]. by rewrite (decide_False (P := q = next ∧ q ≠ c)) by naive_solver.
    + intros Hs. eapply (restated_space idle s s3); done.
  - destruct (restated_lookup _ _ _ _ R Hcur) as (cur3 & Hcur3 & _).
    eapply wp_mono; [by apply (wp_switch_to idle s3 c next cur3 n)|]. cbn beta.
    intros b s4 (-> & Hq4 & Sw & Hr4 & Hst4 & Hsp). split_and!; [done|by apply Hq4|..].
    + eapply switched_trans; [apply restated_switched; exact R|done].
    + exact Hr4.
    + intros q. rewrite Hst4, Hst3. destruct (decide (q = next)) as [->|]; [by rewrite decide_True|].
      by rewrite (decide_False (P := q = next ∧ q ≠ c)) by naive_solver.
    + intros Hs. apply Hsp. by eapply restated_space.
Qed.

(** ** Round robin *)

Lemma ring_cur idle s c l :
  ring idle s c l → c ≠ 0 ∧ c ∉ l ∧ ∃ cur, pcbs s !! c = Some cur ∧ p_state cur = PROCESS_STATE_RUNNING.
Proof.
  intros [Hq _ Hc Hr Hl Hi]. split_and!.
  - rewrite Hc. unfold running. destruct (Z.eqb_spec (current_process s) 0); done.
  - intros Hin. by rewrite (Hl _ Hin) in Hr.
  - unfold pstate in Hr. destruct (pcbs s !! c) as [cur|]; [|done]. exists cur. naive_solver.
Qed.

Lemma wp_ring idle s c p l :
  ring idle s c (p :: l) →
  wp (schedule idle) s (λ b s', b = true ∧ ring idle s' p (l ++ [c]) ∧ switched idle s s' ∧
    (space_ok idle s → space_ok idle s')).
Proof.
  intros Hrg. destruct (ring_cur _ _ _ _ Hrg) as (Hc0 & Hcl & cur & Hcur & Hst). destruct Hrg as [Hq Hen Hc Hr Hl Hi].
  pose proof (wp_schedule idle s (p :: l) cur 0) as W. rewrite <- Hc in W. cbn zeta in W.
  rewrite bool_decide_true in W by done. cbn [app tail] in W.
  eapply wp_mono; [by apply W|]. clear W. cbn beta. intros b s' (-> & Hq' & Sw & Hr' & Hst' & Hsp).
  assert (c ≠ p) by (intros ->; apply Hcl; constructor). rewrite (proj2 (Z.eqb_neq c p)) by done.
  split_and!; [done| |done|done]. split; [done|by rewrite (sw_enabled _ _ _ Sw)|done|..|done].
  - rewrite Hst'. by rewrite decide_True.
  - intros q Hin. rewrite Hst'. pose proof (q_nodup _ _ Hq) as [Hp _]%NoDup_cons.
    destruct (decide (q = p)) as [->|].
    { apply elem_of_app in Hin as [|Hin]; [done|]. by apply list_elem_of_singleton in Hin. }
    rewrite decide_False by naive_solver. destruct (decide (q = c)) as [->|]; [by rewrite decide_True|rewrite decide_False by naive_solver]. apply Hl. set_solver.
Qed.

(** A change of fields that the scheduler does not read. *)
Lemma ring_assign idle s c l q pr f :
  pcbs s !! q = Some pr → p_prev (f pr) = p_prev pr → p_next (f pr) = p_next pr → p_state (f pr) = p_state pr →
  ring idle s c l → ring idle (set_pcbs (<[q := f pr]> (pcbs s)) s) c l.
Proof.
  intros Hpr E1 E2 E3 [Hq Hen Hc Hr Hl Hi].
  assert (Hst : ∀ x, pstate (set_pcbs (<[q := f pr]> (pcbs s)) s) x = pstate s x).
  { intros x. rewrite pstate_assign by done. case_decide as E; [|done]. subst. unfold pstate. rewrite Hpr. cbn. by f_equal. }
  split; [by apply queue_assign|done|done|by rewrite Hst|intros x Hx; rewrite Hst; auto|done].
Qed.
Lemma regs_assign idle s q pr f x :
  pcbs s !! q = Some pr → p_context (f pr) = p_context pr →
  regs_of idle (set_pcbs (<[q := f pr]> (pcbs s)) s) x = regs_of idle s x.
Proof.
  intros Hpr E. unfold regs_of. change (running idle (set_pcbs _ s)) with (running idle s). cbn.
  destruct (decide (q = x)) as [->|]; [rewrite lookup_insert_eq, Hpr|by rewrite lookup_insert_ne].
  cbn. by rewrite E.
Qed.
Lemma space_assign idle s q pr f :
  pcbs s !! q = Some pr → p_page_table (f pr) = p_page_table pr →
  space_ok idle s → space_ok idle (set_pcbs (<[q := f pr]> (pcbs s)) s).
Proof.
  intros Hpr E Hs x. change (running idle (set_pcbs _ s)) with (running idle s). cbn.
  destruct (decide (q = running idle s)) as [->|]; [rewrite lookup_insert_eq|rewrite lookup_insert_ne by done; apply Hs].
  intros [= <-]. rewrite E. by apply Hs.
Qed.

(** What is left of the quantum of a process. *)
Definition ticks_left (s : sched) (q : Z) : option Z := p_ticks_remaining <$> pcbs s !! q.
Lemma ticks_assign s q pr f x :
  pcbs s !! q = Some pr →
  ticks_left (set_pcbs (<[q := f pr]> (pcbs s)) s) x = if decide (x = q) then Some (p_ticks_remaining (f pr)) else ticks_left s x.
Proof.
  intros Hp. unfold ticks_left. cbn. destruct (decide (x = q)) as [->|]; [by rewrite lookup_insert_eq|by rewrite lookup_insert_ne].
Qed.
Lemma switched_ticks idle s s' x : switched idle s s' → ticks_left s' x = ticks_left s x.
Proof.
  intros Sw. pose proof (sw_still _ _ _ Sw x) as E. apply (f_equal (fmap p_ticks_remaining)) in E.
  by rewrite <- !option_fmap_compose in E.
Qed.

(** From [s] to [s'] no process lost its registers, and the running one is in
    its address space. *)
Definition runs_on (idle : Z) (s s' : sched) : Prop :=
  (∀ q, regs_of idle s' q = regs_of idle s q) ∧ (space_ok idle s → space_ok idle s').
Lemma runs_on_trans idle s1 s2 s3 : runs_on idle s1 s2 → runs_on idle s2 s3 → runs_on idle s1 s3.
Proof. intros [A1 A2] [B1 B2]. split; [intros q; by rewrite B1|auto]. Qed.

(** A tick that leaves [k - 1] ticks of the quantum; at 0 the next process runs. *)
Lemma wp_tick idle s c p l k :
  ring idle s c (p :: l) → ticks_left s c = Some k → 0 < k →
  wp (scheduler_tick idle) s (λ b s', b = (k =? 1) ∧ runs_on idle s s' ∧
    (if k =? 1 then ring idle s' p (l ++ [c]) else ring idle s' c (p :: l)) ∧
    ∀ q, ticks_left s' q = if decide (q = c) then Some (if k =? 1 then DEFAULT_QUANTUM else k - 1) else ticks_left s q).
Proof.
  intros Hrg Hk Hpos. destruct (ring_cur _ _ _ _ Hrg) as (Hc0 & _ & cur & Hcur & _).
  unfold ticks_left in Hk. rewrite Hcur in Hk. apply (inj Some) in Hk.
  unfold scheduler_tick. apply wp_bind, wp_gets. rewrite (rg_enabled _ _ _ _ Hrg). cbn [negb].
  apply wp_bind. eapply (wp_mono _ _ (λ x s', x = c ∧ s' = s)).
  { unfold process_get_current. wp_go. by rewrite (rg_current _ _ _ _ Hrg). }
  intros ? ? [-> ->]. rewrite (proj2 (Z.eqb_neq c 0)) by done.
  set (f := λ p, set_ticks_total (u64 (p_ticks_total p + 1)) p).
  apply wp_bind. eapply wp_assign; [exact Hcur|]. set (s1 := set_pcbs _ s).
  assert (H1 : pcbs s1 !! c = Some (f cur)) by apply lookup_insert_eq.
  apply wp_bind. eapply wp_deref; [exact H1|]. change (p_ticks_remaining (f cur)) with (p_ticks_remaining cur). rewrite Hk.
  rewrite (proj2 (Z.ltb_lt 0 k)) by done. set (g := λ p, set_ticks_remaining (p_ticks_remaining p - 1) p).
  apply wp_bind. eapply wp_assign; [exact H1|]. set (s2 := set_pcbs _ s1).
  assert (H2 : pcbs s2 !! c = Some (g (f cur))) by apply lookup_insert_eq.
  apply wp_bind. eapply wp_deref; [exact H2|].
  assert (Ek : p_ticks_remaining (g (f cur)) = k - 1) by (rewrite <- Hk; done).
  assert (Hrg2 : ring idle s2 c (p :: l)) by (apply (ring_assign _ s1 _ _ _ (f cur)); try done; by apply (ring_assign _ s _ _ _ cur f)).
  assert (Hru2 : runs_on idle s s2).
  { split; [intros q|intros Hs].
    - unfold s2. rewrite (regs_assign idle s1 c (f cur) g) by done. by apply (regs_assign idle s c cur f).
    - apply (space_assign idle s1 c (f cur) g); [done..|]. by apply (space_assign idle s c cur f). }
  assert (Ht2 : ∀ q, ticks_left s2 q = if decide (q = c) then Some (k - 1) else ticks_left s q).
  { intros q. unfold s2. rewrite (ticks_assign s1 c (f cur) g) by done. case_decide; [by rewrite Ek|].
    unfold s1. rewrite (ticks_assign s c cur f) by done. by rewrite decide_False. }
  rewrite Ek. destruct (Z.eqb_spec k 1) as [->|Hk1].
  - cbn [Z.sub Z.eqb]. apply wp_bind. eapply wp_assign; [exact H2|].
    set (h := set_ticks_remaining DEFAULT_QUANTUM). eapply wp_mono; [apply (wp_ring _ _ c p l)|].
    { apply (ring_assign _ s2 _ _ _ (g (f cur)) h); done. }
    cbn beta. intros b s4 (-> & Hrg4 & Sw & Hsp). split_and!; [done| |done|].
    + split; [intros q; rewrite (sw_regs _ _ _ Sw), (regs_assign idle s2 c (g (f cur)) h) by done; apply Hru2|].
      intros Hs. apply Hsp, (space_assign idle s2 c (g (f cur)) h); [done..|]. by apply Hru2.
    + intros q. rewrite (switched_ticks _ _ _ _ Sw), (ticks_assign s2 c (g (f cur)) h) by done.
      case_decide; [done|]. by rewrite Ht2, decide_False.
  - rewrite (proj2 (Z.eqb_neq (k - 1) 0)) by lia. apply wp_ret. by split_and!.
Qed.

Lemma wp_quantum idle s c p l k :
  ring idle s c (p :: l) → ticks_left s c = Some (Z.of_nat (S k)) →
  wp (tick_n idle (S k)) s (λ _ s', ring idle s' p (l ++ [c]) ∧ runs_on idle s s' ∧
    ∀ q, ticks_left s' q = if decide (q = c) then Some DEFAULT_QUANTUM else ticks_left s q).
Proof.
  revert s. induction k as [|k IH]; intros s Hrg Hk; cbn [tick_n]; apply wp_bind.
  - eapply wp_mono; [eapply (wp_tick idle s c p l 1); done|]. cbn. intros _ s' (_ & ? & ? & ?). by apply wp_ret.
  - eapply wp_mono; [eapply (wp_tick idle s c p l _); [done..|lia]|]. cbn beta.
    intros _ s1 (_ & Hru & Hrg1 & Ht1). rewrite (proj2 (Z.eqb_neq _ 1)) in * by lia.
    eapply wp_mono; [apply (IH s1); [done|]|].
    { rewrite Ht1, decide_True by done. f_equal. lia. }
    cbn beta. intros _ s2 (? & Hru2 & Ht2). split_and!; [done|by eapply runs_on_trans|].
    intros q. rewrite Ht2, Ht1. by destruct (decide (q = c)).
Qed.

Lemma tick_n_app idle n m s Q :
  wp (tick_n idle n) s (λ _ s', wp (tick_n idle m) s' Q) → wp (tick_n idle (n + m)) s Q.
Proof.
  revert s. induction n as [|n IH]; intros s H; cbn in *; [done|].
  apply wp_bind. apply wp_bind_inv in H. eapply wp_mono; [exact H|]. intros b s'. apply IH.
Qed.

(** ** Leaving the CPU *)

(** The running process goes to a state that is not runnable: the first of the
    queue runs, or the idle process. *)
Lemma wp_leave idle s c l st :
  ring idle s c l → c ≠ idle → st ≠ PROCESS_STATE_RUNNING →
  arr_get (process_table s) 0 = Some idle → is_Some (pcbs s !! idle) →
  current_process s = c ∧
  wp (assign c (set_state st);; schedule idle) s (λ b s',
    b = true ∧ ring idle s' (hd idle l) (tail l) ∧ runs_on idle s s' ∧ pstate s' c = Some st ∧
    process_table s' = process_table s ∧ terminal s' = terminal s).
Proof.
  intros Hrg Hci Hst Ht [i Hi]. destruct (ring_cur _ _ _ _ Hrg) as (Hc0 & Hcl & cur & Hcur & Hst0).
  destruct Hrg as [Hq Hen Hc Hr Hl Hid]. split.
  { rewrite Hc in Hci |- *. unfold running in *. by destruct (negb _). }
  apply wp_bind. eapply wp_assign; [exact Hcur|]. set (s1 := set_pcbs _ s).
  assert (Hq1 : queue s1 l) by by apply (queue_assign s l c cur (set_state st)).
  assert (Hst1 : ∀ q, pstate s1 q = if decide (q = c) then Some st else pstate s q)
    by (intros q; by apply (pstate_assign s c cur (set_state st))).
  pose proof (wp_schedule idle s1 l (set_state st cur) idle) as W.
  change (running idle s1) with (running idle s) in W. rewrite <- Hc in W. cbn zeta in W.
  rewrite bool_decide_false in W by done.
  eapply wp_mono; [apply W; try done; [apply lookup_insert_eq|]|].
  { intros _. split_and!; [done|done|]. exists i. unfold s1. cbn. by rewrite lookup_insert_ne. }
  cbn beta. intros b s' (-> & Hq' & Sw & Hr' & Hst' & Hsp).
  assert (Hhd : match l with [] => idle | p :: _ => p end = hd idle l) by by destruct l. rewrite Hhd in *.
  assert (Hcn : c ≠ hd idle l) by (destruct l; [done|intros ->; apply Hcl; constructor]).
  rewrite (proj2 (Z.eqb_neq _ _)) by done. split_and!; [done|..].
  - split; [done|by rewrite (sw_enabled _ _ _ Sw)|done|by rewrite Hst', decide_True| |done].
    intros q Hin. pose proof (q_nodup _ _ Hq) as Hnd. destruct l as [|p l]; [by apply elem_of_nil in Hin|].
    cbn in *. apply NoDup_cons in Hnd as [Hp _].
    rewrite Hst', decide_False by naive_solver. rewrite decide_False by naive_solver.
    rewrite Hst1, decide_False by set_solver. apply Hl. by constructor.
  - split; [intros q; rewrite (sw_regs _ _ _ Sw); by apply (regs_assign idle s c cur (set_state st))|].
    intros Hs. apply Hsp. by apply (space_assign idle s c cur (set_state st)).
  - rewrite Hst', decide_False by naive_solver. rewrite decide_False by naive_solver. by rewrite Hst1, decide_True.
  - by rewrite (sw_table _ _ _ Sw).
  - by rewrite (sw_terminal _ _ _ Sw).
Qed.

(** A blocked process goes to the end of the queue. *)
Lemma wp_unblock idle s c l p :
  ring idle s c l → pstate s p = Some PROCESS_STATE_BLOCKED → p ≠ 0 →
  wp (process_unblock p) s (λ _ s', ring idle s' c (l ++ [p]) ∧ runs_on idle s s').
Proof.
  intros Hrg Hp Hp0. unfold process_unblock. rewrite (proj2 (Z.eqb_neq p 0)) by done.
  destruct (pcbs s !! p) as [pr|] eqn:Hpr; unfold pstate in Hp; rewrite Hpr in Hp; [|done]. cbn in Hp. apply (inj Some) in Hp.
  apply wp_bind. eapply wp_deref; [exact Hpr|]. rewrite bool_decide_true by done.
  apply wp_bind. eapply wp_assign; [exact Hpr|].
  assert (Hpl : p ∉ l). { intros Hin. apply (rg_ready _ _ _ _ Hrg) in Hin. unfold pstate in Hin. rewrite Hpr in Hin. cbn in Hin; congruence. }
  assert (Hpc : p ≠ c). { intros ->. pose proof (rg_running _ _ _ _ Hrg) as E. unfold pstate in E. rewrite Hpr in E. cbn in E; congruence. }
  destruct Hrg as [Hq Hen Hc Hr Hl Hid].
  eapply wp_mono; [eapply (wp_push _ l); [by apply queue_assign|done|done|apply lookup_insert_eq]|].
  cbn beta. intros _ s' [Hq' R].
  assert (Hst : ∀ q, pstate s' q = if decide (q = p) then Some PROCESS_STATE_READY else pstate s q).
  { intros q. rewrite (relinked_state _ _ _ R). by apply (pstate_assign s p pr (set_state PROCESS_STATE_READY)). }
  apply relinked_restated in R. assert (Sw := restated_switched idle _ _ R). split; [split; try done|].
  - by rewrite (sw_enabled _ _ _ Sw).
  - by rewrite (restated_running idle _ _ R).
  - by rewrite Hst, decide_False.
  - intros q Hin. rewrite Hst. case_decide; [done|]. apply Hl. set_solver.
  - split; [intros q; rewrite (sw_regs _ _ _ Sw); by apply (regs_assign idle s p pr (set_state PROCESS_STATE_READY))|].
    intros Hs. apply (restated_space idle _ _ R). by apply (space_assign idle s p pr (set_state PROCESS_STATE_READY)).
Qed.

(** ** Theorems *)

(** A machine with the idle process at 0x100 and three processes, the first
    of them running. *)
Definition demo_pcb (st : process_state_t) (pt nxt prv rip : Z) : process_t :=
  set_next nxt (set_prev prv (set_context (Context 0 0 0 0 0 0 0 rip 0)
    (set_ticks_remaining 10 (set_page_table pt (set_state st zero_process))))).
Definition demo_table : list Z := 0x100 :: 0x200 :: 0x300 :: 0x400 :: replicate 60 0.
Definition demo_sched : sched :=
  Sched {[ 0x100 := demo_pcb PROCESS_STATE_READY 0 0 0 1;
           0x200 := demo_pcb PROCESS_STATE_RUNNING 0x5000 0 0 2;
           0x300 := demo_pcb PROCESS_STATE_READY 0x6000 0x400 0 3;
           0x400 := demo_pcb PROCESS_STATE_READY 0x7000 0 0x300 4 ]}
    demo_table 4 0x300 0x400 0x200 true 0 0x5000 0 (Context 7 7 7 7 7 7 7 7 7) true [].
(** The same machine with the first process only. *)
Definition demo_lone : sched :=
  set_rq_head 0 (set_rq_tail 0 (set_pcbs {[ 0x100 := demo_pcb PROCESS_STATE_READY 0 0 0 1;
    0x200 := demo_pcb PROCESS_STATE_RUNNING 0x5000 0 0 2 ]} demo_sched)).

Lemma demo_ring : ring 0x100 demo_sched 0x200 [0x300; 0x400].
Proof.
  split; [split|..]; try done.
  - cbn [dlseg hd]. split_and!; [eexists; split; [reflexivity|done]..|done].
  - by apply NoDup_cons; split; [set_solver|apply NoDup_singleton].
  - set_solver.
  - intros p Hp. apply elem_of_cons in Hp as [->|Hp]; [done|]. by apply list_elem_of_singleton in Hp as ->.
Qed.
Lemma demo_lone_ring : ring 0x100 demo_lone 0x200 [].
Proof.
  split; [split|..]; try done; [apply NoDup_nil_2|apply not_elem_of_nil|]. intros p Hp. by apply elem_of_nil in Hp.
Qed.

(** C29 (refinement): the doubly linked ready queue implements a list: push
    appends a process, pop takes the first one or returns NULL when there is
    none, remove takes a process out of the middle; only links change. *)
Theorem ready_queue_refines_list s l :
  queue s l →
  (∀ p pr, p ∉ l → p ≠ 0 → pcbs s !! p = Some pr →
     wp (ready_queue_push p) s (λ _ s', queue s' (l ++ [p]) ∧ relinked s s')) ∧
  wp ready_queue_pop s (λ p s', p = hd 0 l ∧ queue s' (tail l) ∧ relinked s s') ∧
  (∀ l1 p l2, l = l1 ++ p :: l2 →
     wp (ready_queue_remove p) s (λ _ s', queue s' (l1 ++ l2) ∧ relinked s s')).
Proof.
  intros Hq. split_and!; [intros p pr; by apply wp_push|by apply wp_pop|]. intros l1 p l2 ->. by apply wp_remove.
Qed.
Lemma ready_queue_refines_list_witness :
  queue demo_sched [0x300; 0x400] ∧ wp ready_queue_pop demo_sched (λ p s', p = 0x300 ∧ queue s' [0x400] ∧ relinked demo_sched s').
Proof. split; [apply demo_ring|]. exact (proj1 (proj2 (ready_queue_refines_list demo_sched _ (rg_queue _ _ _ _ demo_ring)))). Defined.

(** C28 (functional): [schedule] switches from the running process to the first
    of the ready queue and puts the former at its end.  The registers of the
    CPU are saved in the context of the former and loaded from that of the
    latter; no other process loses its registers or any other field; the
    address space of the new process is in use. *)
Theorem schedule_spec idle s c p l :
  ring idle s c (p :: l) → space_ok idle s →
  wp (schedule idle) s (λ b s', b = true ∧ ring idle s' p (l ++ [c]) ∧
    p_context <$> pcbs s' !! c = Some (cpu s) ∧ p_context <$> pcbs s !! p = Some (cpu s') ∧
    switched idle s s' ∧ space_ok idle s').
Proof.
  intros Hrg Hs. destruct (ring_cur _ _ _ _ Hrg) as (_ & Hcl & cur & Hcur & _).
  assert (Hne : p ≠ c) by (intros ->; apply Hcl; constructor).
  eapply wp_mono; [by apply (wp_ring _ _ c p l)|]. cbn beta. intros b s' (-> & Hrg' & Sw & Hsp).
  destruct (ring_cur _ _ _ _ Hrg') as (_ & _ & n & Hn & _).
  split_and!; auto.
  - pose proof (sw_regs _ _ _ Sw c) as E. unfold regs_of in E.
    rewrite <- (rg_current _ _ _ _ Hrg), <- (rg_current _ _ _ _ Hrg'), decide_False, decide_True, Hcur in E by done. done.
  - pose proof (sw_regs _ _ _ Sw p) as E. unfold regs_of in E.
    rewrite <- (rg_current _ _ _ _ Hrg), <- (rg_current _ _ _ _ Hrg'), decide_True, decide_False, Hn in E by done. done.
Qed.
Lemma schedule_spec_witness :
  space_ok 0x100 demo_sched ∧
  wp (schedule 0x100) demo_sched (λ b s', b = true ∧ ring 0x100 s' 0x300 [0x400; 0x200] ∧
    p_context <$> pcbs s' !! 0x200 = Some (cpu demo_sched) ∧ p_context <$> pcbs demo_sched !! 0x300 = Some (cpu s') ∧
    switched 0x100 demo_sched s' ∧ space_ok 0x100 s').
Proof.
  assert (Hs : space_ok 0x100 demo_sched).
  { intros pr Hpr. change (Some (demo_pcb PROCESS_STATE_RUNNING 0x5000 0 0 2) = Some pr) in Hpr. by apply (inj Some) in Hpr as <-. }
  split; [exact Hs|]. exact (schedule_spec 0x100 demo_sched 0x200 0x300 [0x400] demo_ring Hs).
Defined.

(** C4 (liveness): round robin under the timer.  When every process of the ring
    has a fresh quantum, each process gets the CPU after one quantum of ticks
    for each process before it, with the order of the others kept; when it
    gets the CPU it has the registers it had, in its own address space. *)
Theorem round_robin idle s c l l1 p l2 :
  ring idle s c l → (∀ q, q ∈ c :: l → ticks_left s q = Some DEFAULT_QUANTUM) → c :: l = l1 ++ p :: l2 →
  wp (tick_n idle (Z.to_nat DEFAULT_QUANTUM * length l1)) s (λ _ s',
    ring idle s' p (l2 ++ l1) ∧ running idle s' = p ∧ runs_on idle s s').
Proof.
  revert s c l l2. induction l1 as [|a l1 IH]; intros s c l l2 Hrg Ht Heq; injection Heq as -> ->.
  - rewrite Nat.mul_0_r. apply wp_ret. rewrite app_nil_r.
    split_and!; [done|by rewrite <- (rg_current _ _ _ _ Hrg)|by split].
  - cbn [length]. rewrite Nat.mul_succ_r, Nat.add_comm. apply tick_n_app.
    destruct (l1 ++ p :: l2) as [|x l''] eqn:El; [by destruct l1|].
    destruct (ring_cur _ _ _ _ Hrg) as (_ & Hcl & _).
    eapply wp_mono; [apply (wp_quantum idle s a x l'' 9); [done|]|].
    { apply Ht. constructor. }
    cbn beta. intros _ s1 (Hrg1 & Hru1 & Ht1).
    eapply wp_mono; [apply (IH s1 x (l'' ++ [a]) (l2 ++ [a])); [done|..]|].
    + intros q Hq. rewrite Ht1. case_decide; [done|]. apply Ht. set_solver.
    + change (x :: l'' ++ [a]) with ((x :: l'') ++ [a]). rewrite <- El. by rewrite <- app_assoc.
    + cbn beta. rewrite <- app_assoc. cbn [app]. intros _ s2 (? & ? & ?). split_and!; [done|done|by eapply runs_on_trans].
Qed.
Lemma round_robin_witness :
  wp (tick_n 0x100 20) demo_sched (λ _ s', ring 0x100 s' 0x400 [0x200; 0x300] ∧ running 0x100 s' = 0x400 ∧ runs_on 0x100 demo_sched s').
Proof.
  apply (round_robin 0x100 demo_sched 0x200 [0x300; 0x400] [0x200; 0x300] 0x400 [] demo_ring); [|reflexivity].
  intros q Hq. rewrite !elem_of_cons in Hq. destruct Hq as [->|[->|[->|Hq]]]; [reflexivity..|by apply elem_of_nil in Hq].
Defined.

(** (functional): a process that blocks gives the CPU to the first of the
    queue, or to the idle process when the queue is empty; it is in no queue
    until it is unblocked, and then it is the last of the queue, READY. *)
Theorem process_block_unblock idle s c l :
  ring idle s c l → c ≠ idle → arr_get (process_table s) 0 = Some idle → is_Some (pcbs s !! idle) →
  wp (process_block idle) s (λ b s1,
    b = true ∧ ring idle s1 (hd idle l) (tail l) ∧ pstate s1 c = Some PROCESS_STATE_BLOCKED ∧
    wp (process_unblock c) s1 (λ _ s2, ring idle s2 (hd idle l) (tail l ++ [c]) ∧ runs_on idle s s2)).
Proof.
  intros Hrg Hci Ht Hi. destruct (wp_leave idle s c l PROCESS_STATE_BLOCKED) as [Hc W]; [done..|].
  destruct (ring_cur _ _ _ _ Hrg) as (Hc0 & _). unfold process_block. apply wp_bind, wp_gets.
  rewrite Hc, (proj2 (Z.eqb_neq c 0)), (proj2 (Z.eqb_neq c idle)) by done. cbn [negb andb].
  eapply wp_mono; [exact W|]. cbn beta. intros b s1 (-> & Hrg1 & Hru & Hst & _). split_and!; [done..|].
  eapply wp_mono; [by apply (wp_unblock idle s1 (hd idle l) (tail l) c)|]. cbn beta. intros _ s2 [? ?].
  split; [done|by eapply runs_on_trans].
Qed.
Lemma process_block_unblock_witness :
  wp (process_block 0x100) demo_sched (λ b s1,
    b = true ∧ ring 0x100 s1 0x300 [0x400] ∧ pstate s1 0x200 = Some PROCESS_STATE_BLOCKED ∧
    wp (process_unblock 0x200) s1 (λ _ s2, ring 0x100 s2 0x300 [0x400; 0x200] ∧ runs_on 0x100 demo_sched s2)).
Proof. apply (process_block_unblock 0x100 demo_sched 0x200 [0x300; 0x400] demo_ring); [done|reflexivity|by eexists]. Defined.

(** (functional): [process_exit] prints the name of the process, marks it
    TERMINATED and never comes back: the first of the queue or the idle
    process runs, and the panic after the call of [schedule] is unreachable.
    With the scheduler disabled that panic is what happens. *)
Theorem process_exit_spec idle s c l status :
  ring idle s c l → c ≠ idle → arr_get (process_table s) 0 = Some idle → is_Some (pcbs s !! idle) →
  wp (process_exit idle status) s (λ b s',
    b = true ∧ ring idle s' (hd idle l) (tail l) ∧ pstate s' c = Some PROCESS_STATE_TERMINATED ∧
    process_table s' = process_table s ∧
    ∃ pr, pcbs s !! c = Some pr ∧
      terminal s' = terminal s ++ [bytes_of "Process exiting: "; c_string (p_name pr); [10]]) ∧
  process_exit idle status (set_enabled false s) = Panic "process_exit: schedule() returned!".
Proof.
  intros Hrg Hci Ht Hi. destruct (ring_cur _ _ _ _ Hrg) as (Hc0 & _ & cur & Hcur & _).
  set (s1 := set_terminal (terminal s ++ [bytes_of "Process exiting: "; c_string (p_name cur); [10]]) s).
  assert (Hrg1 : ring idle s1 c l) by (destruct Hrg as [[]]; split; [split|..]; done).
  destruct (wp_leave idle s1 c l PROCESS_STATE_TERMINATED) as [Hc W]; [done..|]. change (current_process s = c) in Hc. split.
  - unfold process_exit. apply wp_bind, wp_gets. rewrite Hc, (proj2 (Z.eqb_neq c 0)), (proj2 (Z.eqb_neq c idle)) by done. cbn [negb andb].
    apply wp_bind, wp_modify, wp_bind. eapply wp_deref; [exact Hcur|].
    apply wp_bind, wp_modify, wp_bind, wp_modify. cbn [terminal set_terminal]. rewrite <- !app_assoc. cbn [app].
    apply wp_bind_inv in W. apply wp_bind. eapply wp_mono; [exact W|]. intros [] s2 W2. apply wp_bind.
    eapply wp_mono; [exact W2|]. cbn beta. intros b s3 (-> & ? & ? & ? & ? & ?). apply wp_ret. split_and!; [done..|].
    by exists cur.
  - unfold process_exit. erewrite run_bind by done. cbn [current_process set_enabled].
    rewrite Hc, (proj2 (Z.eqb_neq c 0)), (proj2 (Z.eqb_neq c idle)) by done. cbn [negb andb].
    erewrite run_bind by done. erewrite run_bind by (by apply run_deref). erewrite run_bind by done.
    erewrite run_bind by done. erewrite run_bind by (by apply run_assign). done.
Qed.
Lemma process_exit_spec_witness :
  wp (process_exit 0x100 0) demo_sched (λ b s',
    b = true ∧ ring 0x100 s' 0x300 [0x400] ∧ pstate s' 0x200 = Some PROCESS_STATE_TERMINATED ∧
    process_table s' = process_table demo_sched ∧
    ∃ pr, pcbs demo_sched !! 0x200 = Some pr ∧
      terminal s' = [] ++ [bytes_of "Process exiting: "; c_string (p_name pr); [10]]) ∧
  process_exit 0x100 0 (set_enabled false demo_sched) = Panic "process_exit: schedule() returned!".
Proof. apply (process_exit_spec 0x100 demo_sched 0x200 [0x300; 0x400] 0 demo_ring); [done|reflexivity|by eexists]. Defined.

(** The idle process keeps the CPU: [schedule] finds nobody else. *)
Record only_idle (idle c : Z) (s : sched) : Prop := {
  oi_queue : queue s [];
  oi_enabled : scheduler_enabled s = true;
  oi_running : running idle s = idle;
  oi_table : arr_get (process_table s) 0 = Some idle;
  oi_idle : is_Some (pcbs s !! idle);
  oi_null : idle ≠ 0;
  oi_lost : pstate s c = Some PROCESS_STATE_READY;
}.
Lemma switched_some idle s s' q : switched idle s s' → is_Some (pcbs s !! q) → is_Some (pcbs s' !! q).
Proof. intros Sw [x Hx]. pose proof (sw_still _ _ _ Sw q) as E. rewrite Hx in E. by destruct (pcbs s' !! q). Qed.
Lemma wp_only_idle idle c s :
  only_idle idle c s → c ≠ idle → wp (schedule idle) s (λ _ s', only_idle idle c s').
Proof.
  intros [Hq Hen Hr Ht [i Hi] H0 Hc] Hne. pose proof (wp_schedule idle s [] i idle) as W. rewrite Hr in W. cbn zeta in W.
  eapply wp_mono; [apply W; try done; [by intros _ ?%elem_of_nil|]|].
  { intros _. eauto. }
  cbn beta. intros b s' (_ & Hq' & Sw & Hr' & Hst' & _).
  assert (Hnext : match (if bool_decide (p_state i = PROCESS_STATE_RUNNING) then [] ++ [idle] else []) with
    [] => idle | p :: _ => p end = idle) by by destruct (bool_decide _). rewrite Hnext in *.
  split; try done.
  - by destruct (bool_decide _).
  - by rewrite (sw_enabled _ _ _ Sw).
  - by rewrite (sw_table _ _ _ Sw).
  - by eapply switched_some.
  - rewrite Hst', !decide_False by naive_solver. done.
Qed.
Lemma wp_only_idle_n idle c n s :
  only_idle idle c s → c ≠ idle → wp (schedule_n idle n) s (λ _ s', only_idle idle c s').
Proof.
  revert s. induction n as [|n IH]; intros s Hs Hne; cbn; [done|].
  apply wp_bind. eapply wp_mono; [by apply wp_only_idle|]. cbn beta. intros _ s' Hs'. by apply IH.
Qed.

(** C37 (error): a process that runs alone loses the CPU for good.  The first
    call of [schedule] makes it READY and takes it out of the queue again
    without making it RUNNING; so the second call does not put it back, and
    from then on the idle process runs and the process, READY, is in no
    queue. *)
Theorem lone_process_starves idle s c n :
  ring idle s c [] → c ≠ idle → arr_get (process_table s) 0 = Some idle → is_Some (pcbs s !! idle) →
  wp (schedule_n idle (2 + n)) s (λ _ s', running idle s' = idle ∧ queue s' [] ∧ pstate s' c = Some PROCESS_STATE_READY).
Proof.
  intros Hrg Hci Ht Hi. destruct (ring_cur _ _ _ _ Hrg) as (Hc0 & _ & cur & Hcur & Hst). destruct Hrg as [Hq Hen Hc Hr _ Hid].
  cbn [Nat.add schedule_n]. apply wp_bind.
  pose proof (wp_schedule idle s [] cur idle) as W. rewrite <- Hc in W. cbn zeta in W. rewrite bool_decide_true in W by done.
  eapply wp_mono; [apply W; try done; by intros _ ?%elem_of_nil|]. clear W. cbn [app tail]. intros b s1 (_ & Hq1 & Sw1 & Hr1 & Hst1 & _).
  assert (Hc1 : pstate s1 c = Some PROCESS_STATE_READY).
  { rewrite Hst1, decide_False by naive_solver. by rewrite decide_True. }
  unfold pstate in Hc1. destruct (pcbs s1 !! c) as [cur1|] eqn:Hcur1; [|done]. cbn in Hc1. apply (inj Some) in Hc1.
  pose proof (switched_some _ _ _ _ Sw1 Hi) as [i Hi1].
  pose proof (wp_schedule idle s1 [] cur1 idle) as W. rewrite Hr1, Hc1 in W. cbn zeta in W. rewrite bool_decide_false in W by done.
  apply wp_bind. eapply wp_mono; [apply W; try done|].
  { by rewrite (sw_enabled _ _ _ Sw1). }
  { intros _. rewrite (sw_table _ _ _ Sw1). eauto. }
  clear W. cbn [tail]. intros b' s2 (_ & Hq2 & Sw2 & Hr2 & Hst2 & _).
  eapply wp_mono; [apply (wp_only_idle_n idle c n); [split|]|]; try done.
  - by rewrite (sw_enabled _ _ _ Sw2), (sw_enabled _ _ _ Sw1).
  - by rewrite (sw_table _ _ _ Sw2), (sw_table _ _ _ Sw1).
  - eapply switched_some; [exact Sw2|by eexists].
  - rewrite Hst2, !decide_False by naive_solver. unfold pstate. rewrite Hcur1. cbn. by f_equal.
  - cbn beta. by intros _ s3 [].
Qed.
Lemma lone_process_starves_witness :
  wp (schedule_n 0x100 (2 + 5)) demo_lone (λ _ s',
    running 0x100 s' = 0x100 ∧ queue s' [] ∧ pstate s' 0x200 = Some PROCESS_STATE_READY).
Proof. apply (lone_process_starves 0x100 demo_lone 0x200 5 demo_lone_ring); [done|reflexivity|by eexists]. Defined.

(** *** Signals *)

(** The state a signal leaves its target in. *)
Definition signal_state (sig : Z) (st : process_state_t) : process_state_t :=
  if bool_decide (sig = SIGKILL ∨ sig = SIGTERM ∨ sig = SIGINT) then PROCESS_STATE_TERMINATED
  else if bool_decide (sig = SIGSTOP ∧ (st = PROCESS_STATE_RUNNING ∨ st = PROCESS_STATE_READY)) then PROCESS_STATE_BLOCKED
  else if bool_decide (sig = SIGCONT ∧ st = PROCESS_STATE_BLOCKED) then PROCESS_STATE_READY
  else st.

Lemma set_state_id pr : set_state (p_state pr) pr = pr.
Proof. by destruct pr. Qed.
Lemma wp_signal_report what s p pr st :
  pcbs s !! p = Some pr →
  wp (signal_report what p st) s (λ _ s', ∃ t, s' = set_terminal t (set_pcbs (<[p := set_state st pr]> (pcbs s)) s)).
Proof.
  intros Hp. unfold signal_report. apply wp_bind, wp_modify, wp_bind. eapply wp_deref; [exact Hp|].
  apply wp_bind, wp_modify, wp_bind, wp_modify. eapply wp_assign; [exact Hp|]. by eexists.
Qed.
Lemma wp_signal find pid sig s p pr :
  find pid s = p → p ≠ 0 → pcbs s !! p = Some pr →
  wp (signal_send find pid sig) s (λ _ s',
    ∃ t, s' = set_terminal t (set_pcbs (<[p := set_state (signal_state sig (p_state pr)) pr]> (pcbs s)) s)).
Proof.
  intros Hf Hp0 Hp. unfold signal_send, signal_state. apply wp_bind, wp_gets. rewrite Hf, (proj2 (Z.eqb_neq p 0)) by done.
  apply wp_bind. eapply wp_deref; [exact Hp|].
  assert (Hid : ∃ t, s = set_terminal t (set_pcbs (<[p := set_state (p_state pr) pr]> (pcbs s)) s)).
  { exists (terminal s). rewrite set_state_id, insert_id by done. by destruct s. }
  assert (Hrep : ∀ what st st', st' = st → wp (signal_report what p st) s (λ _ s',
    ∃ t, s' = set_terminal t (set_pcbs (<[p := set_state st' pr]> (pcbs s)) s))) by (intros ??? ->; by apply wp_signal_report).
  unfold SIGKILL, SIGTERM, SIGSTOP, SIGCONT, SIGINT in *.
  destruct (Z.eqb_spec sig 9) as [->|]; [by apply Hrep|]. destruct (Z.eqb_spec sig 15) as [->|]; [by apply Hrep|].
  destruct (Z.eqb_spec sig 19) as [->|].
  { rewrite (bool_decide_false (_ ∨ _ ∨ _)) by lia. destruct (p_state pr); try (by apply Hrep); by apply wp_ret. }
  destruct (Z.eqb_spec sig 18) as [->|].
  { rewrite (bool_decide_false (_ ∨ _ ∨ _)) by lia. destruct (p_state pr); try (by apply Hrep); by apply wp_ret. }
  destruct (Z.eqb_spec sig 2) as [->|]; [by apply Hrep|].
  rewrite !bool_decide_false by naive_solver. apply wp_modify.
  eexists. rewrite set_state_id, insert_id by done. by destruct s.
Qed.

(** (functional): a signal changes the state of its target and nothing else
    of any process: to TERMINATED for SIGKILL, SIGTERM and SIGINT, to BLOCKED
    for SIGSTOP when it was running or ready, to READY for SIGCONT when it was
    blocked; the queue and the running process are as before. *)
Theorem signal_send_spec find pid sig s p pr :
  find pid s = p → p ≠ 0 → pcbs s !! p = Some pr →
  wp (signal_send find pid sig) s (λ _ s',
    pcbs s' = <[p := set_state (signal_state sig (p_state pr)) pr]> (pcbs s) ∧
    (∀ l, queue s l → queue s' l) ∧ current_process s' = current_process s ∧ cpu s' = cpu s).
Proof.
  intros Hf Hp0 Hp. eapply wp_mono; [by apply (wp_signal find pid sig s p pr)|]. cbn beta. intros _ s' [t ->].
  split_and!; [done| |done|done]. intros l Hq.
  eapply queue_ext; [..|apply (queue_assign s l p pr (set_state (signal_state sig (p_state pr)))); try done]; done.
Qed.
Lemma signal_send_spec_witness :
  wp (signal_send (λ _ _, 0x300) 3 SIGSTOP) demo_sched (λ _ s',
    pcbs s' = <[0x300 := set_state PROCESS_STATE_BLOCKED (demo_pcb PROCESS_STATE_READY 0x6000 0x400 0 3)]> (pcbs demo_sched) ∧
    (∀ l, queue demo_sched l → queue s' l) ∧ current_process s' = 0x200 ∧ cpu s' = cpu demo_sched).
Proof.
  exact (signal_send_spec (λ _ _, 0x300) 3 SIGSTOP demo_sched 0x300 (demo_pcb PROCESS_STATE_READY 0x6000 0x400 0 3)
    (eq_refl 0x300) ltac:(done) eq_refl).
Defined.

(** (error): SIGKILL (like SIGTERM, SIGINT and SIGSTOP) leaves a waiting
    process in the ready queue: the next call of [schedule] gives the killed
    process the CPU and makes it RUNNING again. *)
Theorem signal_killed_runs_again find pid sig idle s c p l :
  ring idle s c (p :: l) → find pid s = p → sig ∈ [SIGKILL; SIGTERM; SIGINT; SIGSTOP] →
  wp (signal_send find pid sig;; schedule idle) s (λ _ s',
    running idle s' = p ∧ pstate s' p = Some PROCESS_STATE_RUNNING).
Proof.
  intros Hrg Hf Hsig. destruct (ring_cur _ _ _ _ Hrg) as (Hc0 & Hcl & cur & Hcur & Hst). destruct Hrg as [Hq Hen Hc Hr Hl Hid].
  assert (Hp0 : p ≠ 0) by (intros ->; apply (q_null _ _ Hq); constructor).
  assert (Hpc : c ≠ p) by (intros ->; apply Hcl; constructor).
  destruct (dlseg_elem _ _ _ _ p (q_links _ _ Hq)) as (pr & Hpr); [constructor|].
  apply wp_bind. eapply wp_mono; [by apply (wp_signal find pid sig s p pr)|]. cbn beta. intros _ s1 [t ->].
  set (st := signal_state _ _). set (s1 := set_terminal _ _).
  pose proof (wp_schedule idle s1 (p :: l) cur 0) as W. change (running idle s1) with (running idle s) in W. rewrite <- Hc in W.
  cbn zeta in W. rewrite bool_decide_true in W by done.
  eapply wp_mono; [apply W; try done|].
  - eapply queue_ext; [..|apply (queue_assign s (p :: l) p pr (set_state st)); try done]; done.
  - cbn. by rewrite lookup_insert_ne.
  - cbn [app]. intros b s' (_ & _ & _ & Hr' & Hst' & _). split; [done|]. by rewrite Hst', decide_True.
Qed.
Lemma signal_killed_runs_again_witness :
  wp (signal_send (λ _ _, 0x300) 3 SIGKILL;; schedule 0x100) demo_sched (λ _ s',
    running 0x100 s' = 0x300 ∧ pstate s' 0x300 = Some PROCESS_STATE_RUNNING).
Proof.
  apply (signal_killed_runs_again (λ _ _, 0x300) 3 SIGKILL 0x100 demo_sched 0x200 0x300 [0x400] demo_ring); [reflexivity|].
  by apply elem_of_cons; left.
Defined.
