(* ===== verification/Asm.v ===== *)
(** * The x86-64 instructions of the assembly files

    A machine with the registers, flags and segment state that
    src/arch/x86_64/context_switch.s and src/arch/x86_64/asm_functions.s use,
    an effect for each instruction they contain (operands in the AT&T order of
    the files: source, destination), and the step function that fetches the
    instruction at [pc].  Instructions are placed one to an address: nothing
    in the two files depends on the length of an encoding.  Memory is the flat
    word store of Mem.v; a misaligned access is undefined. *)
From S2P Require Import Prelude Mem.

Inductive reg :=
  | RAX | RBX | RCX | RDX | RSI | RDI | RBP | RSP
  | R8 | R9 | R10 | R11 | R12 | R13 | R14 | R15.
#[export] Instance reg_eq_dec : EqDecision reg.
Proof. solve_decision. Defined.
Inductive seg := CS | DS | ES | FS | GS | SS.
#[export] Instance seg_eq_dec : EqDecision seg.
Proof. solve_decision. Defined.

Record machine := Machine {
  gpr : reg → Z;
  flags : Z;
  pc : Z;
  ram : gmap Z Z;
  segs : seg → Z;
  cr0 : Z;
  mcr3 : Z;
  gdtr : Z;
  idtr : Z;
}.
#[export] Instance machine_mem : HasMem machine.
Proof.
  refine {| get_mem := ram;
            set_mem v m := Machine (gpr m) (flags m) (pc m) v (segs m) (cr0 m) (mcr3 m) (gdtr m) (idtr m) |};
    by intros; try destruct s.
Defined.

Definition upd {K} `{EqDecision K} (k : K) (v : Z) (f : K → Z) : K → Z := λ k', if decide (k' = k) then v else f k'.
Definition set_gpr (r : reg) (v : Z) (m : machine) : machine :=
  Machine (upd r v (gpr m)) (flags m) (pc m) (ram m) (segs m) (cr0 m) (mcr3 m) (gdtr m) (idtr m).
Definition set_flags (v : Z) (m : machine) : machine :=
  Machine (gpr m) v (pc m) (ram m) (segs m) (cr0 m) (mcr3 m) (gdtr m) (idtr m).
Definition set_pc (v : Z) (m : machine) : machine :=
  Machine (gpr m) (flags m) v (ram m) (segs m) (cr0 m) (mcr3 m) (gdtr m) (idtr m).
Definition set_seg (s : seg) (v : Z) (m : machine) : machine :=
  Machine (gpr m) (flags m) (pc m) (ram m) (upd s v (segs m)) (cr0 m) (mcr3 m) (gdtr m) (idtr m).
Definition set_cr0 (v : Z) (m : machine) : machine :=
  Machine (gpr m) (flags m) (pc m) (ram m) (segs m) v (mcr3 m) (gdtr m) (idtr m).
Definition set_mcr3 (v : Z) (m : machine) : machine :=
  Machine (gpr m) (flags m) (pc m) (ram m) (segs m) (cr0 m) v (gdtr m) (idtr m).
Definition set_gdtr (v : Z) (m : machine) : machine :=
  Machine (gpr m) (flags m) (pc m) (ram m) (segs m) (cr0 m) (mcr3 m) v (idtr m).
Definition set_idtr (v : Z) (m : machine) : machine :=
  Machine (gpr m) (flags m) (pc m) (ram m) (segs m) (cr0 m) (mcr3 m) (gdtr m) v.

Inductive operand :=
  | Imm (z : Z)
  | Reg (r : reg)
  | Mem (off : Z) (base : reg).

Inductive instr :=
  | Mov (src dst : operand)
  | MovW (v : Z) (dst : reg)
  | MovSeg (src : reg) (dst : seg)
  | MovFromCr0 (dst : reg)
  | MovToCr0 (src : reg)
  | MovToCr3 (src : reg)
  | Or (src dst : reg)
  | AddImm (v : Z) (dst : reg)
  | Test (a b : reg)
  | Jz (target : Z)
  | Jmp (target : Z)
  | JmpReg (r : reg)
  | Call (target : Z)
  | CallReg (r : reg)
  | Ret
  | Retfq
  | Iretq
  | Push (src : operand)
  | Pop (dst : reg)
  | Pushfq
  | Popfq
  | Cli
  | Sti
  | Hlt
  | Lgdt (r : reg)
  | Lidt (r : reg).

(** ** Flags: CF 0, PF 2, AF 4, ZF 6, SF 7, IF 9, OF 11 *)
Definition ZF : Z := 6.
Definition IF : Z := 9.
Definition put_bit (i : Z) (b : bool) (x : Z) : Z := if b then Z.setbit x i else Z.clearbit x i.
Definition even_parity (v : Z) : bool :=
  Nat.even (length (filter (λ i, Z.testbit v (Z.of_nat i) = true) (seq 0 8))).
(** The flags a result leaves; the logical operations clear CF and OF. *)
Definition result_flags (v : Z) (f : Z) : Z :=
  put_bit 2 (even_parity v) (put_bit 6 (v =? 0) (put_bit 7 (Z.testbit v 63) f)).
Definition logic_flags (v : Z) (f : Z) : Z := put_bit 0 false (put_bit 4 false (put_bit 11 false (result_flags v f))).
Definition add_flags (a b : Z) (f : Z) : Z :=
  put_bit 0 (2 ^ 64 <=? a + b)
    (put_bit 4 (16 <=? a mod 16 + b mod 16)
      (put_bit 11 (negb (s64 (a + b) =? s64 a + s64 b)) (result_flags (u64 (a + b)) f))).

(** ** Effects *)
Definition read (o : operand) : M machine Z :=
  match o with
  | Imm z => mret (u64 z)
  | Reg r => gets (λ m, gpr m r)
  | Mem off b => base ← gets (λ m, gpr m b); load64 (u64 (base + off))
  end.
Definition write (o : operand) (v : Z) : M machine unit :=
  match o with
  | Imm _ => undefined
  | Reg r => modify (set_gpr r v)
  | Mem off b => base ← gets (λ m, gpr m b); store64 (u64 (base + off)) v
  end.
Definition push (v : Z) : M machine unit :=
  sp ← gets (λ m, gpr m RSP);
  store64 (u64 (sp - 8)) v;;
  modify (set_gpr RSP (u64 (sp - 8))).
Definition pop : M machine Z :=
  sp ← gets (λ m, gpr m RSP);
  v ← load64 sp;
  modify (set_gpr RSP (u64 (sp + 8)));;
  mret v.

(** The address of the next instruction is in [pc] when an instruction takes
    effect. *)
Definition exec (i : instr) : M machine unit :=
  match i with
  | Mov src dst => v ← read src; write dst v
  | MovW v dst => old ← gets (λ m, gpr m dst); modify (set_gpr dst (old - old mod 2 ^ 16 + u16 v))
  | MovSeg src dst => v ← gets (λ m, gpr m src); modify (set_seg dst (u16 v))
  | MovFromCr0 dst => v ← gets cr0; modify (set_gpr dst v)
  | MovToCr0 src => v ← gets (λ m, gpr m src); modify (set_cr0 v)
  | MovToCr3 src => v ← gets (λ m, gpr m src); modify (set_mcr3 v)
  | Or src dst =>
      a ← gets (λ m, gpr m src); b ← gets (λ m, gpr m dst);
      modify (set_gpr dst (Z.lor b a));; modify (λ m, set_flags (logic_flags (Z.lor b a) (flags m)) m)
  | AddImm v dst =>
      b ← gets (λ m, gpr m dst);
      modify (set_gpr dst (u64 (b + v)));; modify (λ m, set_flags (add_flags b v (flags m)) m)
  | Test a b =>
      x ← gets (λ m, gpr m a); y ← gets (λ m, gpr m b);
      modify (λ m, set_flags (logic_flags (Z.land y x) (flags m)) m)
  | Jz t => f ← gets flags; if Z.testbit f ZF then modify (set_pc t) else mret ()
  | Jmp t => modify (set_pc t)
  | JmpReg r => t ← gets (λ m, gpr m r); modify (set_pc t)
  | Call t => ret ← gets pc; push ret;; modify (set_pc t)
  | CallReg r => t ← gets (λ m, gpr m r); ret ← gets pc; push ret;; modify (set_pc t)
  | Ret => t ← pop; modify (set_pc t)
  | Retfq => t ← pop; cs ← pop; modify (set_pc t);; modify (set_seg CS (u16 cs))
  | Iretq =>
      t ← pop; cs ← pop; f ← pop; sp ← pop; ss ← pop;
      modify (set_pc t);; modify (set_seg CS (u16 cs));; modify (set_flags f);;
      modify (set_gpr RSP sp);; modify (set_seg SS (u16 ss))
  | Push o => v ← read o; push v
  | Pop r => v ← pop; modify (set_gpr r v)
  | Pushfq => f ← gets flags; push f
  | Popfq => f ← pop; modify (set_flags f)
  | Cli => modify (λ m, set_flags (Z.clearbit (flags m) IF) m)
  | Sti => modify (λ m, set_flags (Z.setbit (flags m) IF) m)
  (* waits for an interrupt, after which the next instruction runs *)
  | Hlt => mret ()
  | Lgdt r => p ← gets (λ m, gpr m r); modify (set_gdtr p)
  | Lidt r => p ← gets (λ m, gpr m r); modify (set_idtr p)
  end.

(** ** Programs *)
Definition step (code : Z → option instr) : M machine unit :=
  here ← gets pc;
  i ← lift_opt (code here);
  modify (set_pc (here + 1));;
  exec i.
Fixpoint run (code : Z → option instr) (n : nat) : M machine unit :=
  match n with O => mret () | S n' => step code;; run code n' end.

(** The instructions [l] are at [base]. *)
Definition loaded (code : Z → option instr) (base : Z) (l : list instr) : Prop :=
  ∀ i x, l !! i = Some x → code (base + Z.of_nat i) = Some x.

(** The words [l] are in memory from [a] on. *)
Fixpoint words (mm : gmap Z Z) (a : Z) (l : list Z) : Prop :=
  match l with [] => True | v :: l' => ld mm a = v ∧ words mm (a + 8) l' end.

(** ** Registers after updates *)
Lemma upd_same {K} `{EqDecision K} (k : K) v f : upd k v f k = v.
Proof. unfold upd. by rewrite decide_True. Qed.
Lemma upd_other {K} `{EqDecision K} (k k' : K) v f : k' ≠ k → upd k v f k' = f k'.
Proof. intros. unfold upd. by rewrite decide_False. Qed.

(** ** Rules *)
Lemma wp_step_at code m i Q :
  code (pc m) = Some i → wp (exec i) (set_pc (pc m + 1) m) Q → wp (step code) m Q.
Proof. intros Hc H. unfold step. wp_go. rewrite Hc. cbn. by wp_go. Qed.
Lemma wp_run_S code n m i Q :
  code (pc m) = Some i → wp (exec i) (set_pc (pc m + 1) m) (λ _ m', wp (run code n) m' Q) → wp (run code (S n)) m Q.
Proof. intros Hc H. cbn. apply wp_bind. by eapply wp_step_at. Qed.
Lemma wp_run_app code n1 n2 m Q :
  wp (run code n1) m (λ _ m', wp (run code n2) m' Q) → wp (run code (n1 + n2)) m Q.
Proof.
  revert m. induction n1 as [|n1 IH]; intros m H; cbn in *; [done|].
  apply wp_bind. apply wp_bind_inv in H. eapply wp_mono; [exact H|]. intros [] m'. apply IH.
Qed.
Lemma loaded_app code base l1 l2 :
  loaded code base (l1 ++ l2) ↔ loaded code base l1 ∧ loaded code (base + Z.of_nat (length l1)) l2.
Proof.
  split.
  - intros H. split; intros i x Hi.
    + apply H. rewrite lookup_app_l; [done|]. by eapply lookup_lt_Some.
    + rewrite <- Z.add_assoc, <- Nat2Z.inj_add. apply H. by rewrite lookup_app_r, Nat.add_comm, Nat.add_sub by lia.
  - intros [H1 H2] i x Hi. apply lookup_app_Some in Hi as [Hi|[Hle Hi]]; [by apply H1|].
    apply H2 in Hi. by replace (base + Z.of_nat i) with (base + Z.of_nat (length l1) + Z.of_nat (i - length l1)) by lia.
Qed.

Lemma wp_push_op v m Q :
  let sp := gpr m RSP in
  8 ≤ sp < 2 ^ 64 → sp mod 8 = 0 →
  Q () (set_gpr RSP (sp - 8) (set_mem (st (ram m) (sp - 8) v) m)) → wp (push v) m Q.
Proof.
  intros sp Hr Ha HQ. unfold push. wp_go. fold sp. rewrite (u64_id (sp - 8)) by lia.
  apply wp_store64; [dlia|]. by wp_go.
Qed.
Lemma wp_pop_op m Q :
  let sp := gpr m RSP in
  0 ≤ sp < 2 ^ 64 - 8 → sp mod 8 = 0 → Q (ld (ram m) sp) (set_gpr RSP (sp + 8) m) → wp pop m Q.
Proof.
  intros sp Hr Ha HQ. unfold pop. wp_go. fold sp. rewrite (u64_id (sp + 8)) by lia.
  apply wp_load64; [done|]. by wp_go.
Qed.

Lemma words_app mm a l1 l2 : words mm a (l1 ++ l2) ↔ words mm a l1 ∧ words mm (a + 8 * Z.of_nat (length l1)) l2.
Proof.
  revert a. induction l1 as [|v l1 IH]; intros a; cbn [words app length]; [rewrite Z.mul_0_r, Z.add_0_r; tauto|].
  rewrite IH. replace (a + 8 + 8 * Z.of_nat (length l1)) with (a + 8 * Z.of_nat (S (length l1))) by lia. tauto.
Qed.
Lemma words_ext mm mm' a l :
  (∀ x, a ≤ x < a + 8 * Z.of_nat (length l) → ld mm' x = ld mm x) → words mm a l → words mm' a l.
Proof.
  revert a. induction l as [|v l IH]; intros a Hx; [done|]. cbn [words length] in *. intros [H1 H2].
  split; [rewrite Hx by lia; done|]. apply IH; [|done]. intros x ?. apply Hx. lia.
Qed.
Lemma wp_run_at code base l i x n m Q :
  loaded code base l → l !! i = Some x → pc m = base + Z.of_nat i →
  wp (exec x) (set_pc (base + Z.of_nat (S i)) m) (λ _ m', wp (run code n) m' Q) → wp (run code (S n)) m Q.
Proof.
  intros Hl Hi Hpc H. eapply wp_run_S; [rewrite Hpc; by apply Hl|].
  by replace (pc m + 1) with (base + Z.of_nat (S i)) by lia.
Qed.

(** The instructions that occur in straight lines. *)
Lemma wp_mov_rr s d m Q : Q () (set_gpr d (gpr m s) m) → wp (exec (Mov (Reg s) (Reg d))) m Q.
Proof. intros. by cbn; wp_go. Qed.
Lemma wp_mov_imm z d m Q : Q () (set_gpr d (u64 z) m) → wp (exec (Mov (Imm z) (Reg d))) m Q.
Proof. intros. by cbn; wp_go. Qed.
Lemma wp_mov_store s off b m Q :
  let a := gpr m b + off in
  0 ≤ a < 2 ^ 64 → a mod 8 = 0 → Q () (set_mem (st (ram m) a (gpr m s)) m) → wp (exec (Mov (Reg s) (Mem off b))) m Q.
Proof. intros a Hr Ha HQ. cbn. wp_go. fold a. rewrite u64_id by done. by apply wp_store64. Qed.
Lemma wp_mov_load d off b m Q :
  let a := gpr m b + off in
  0 ≤ a < 2 ^ 64 → a mod 8 = 0 → Q () (set_gpr d (ld (ram m) a) m) → wp (exec (Mov (Mem off b) (Reg d))) m Q.
Proof. intros a Hr Ha HQ. cbn. wp_go. fold a. rewrite u64_id by done. apply wp_load64; [done|]. by wp_go. Qed.

Lemma put_bit_spec i b x j : 0 ≤ i → 0 ≤ j → Z.testbit (put_bit i b x) j = if j =? i then b else Z.testbit x j.
Proof.
  intros Hi Hj. unfold put_bit. destruct b; [rewrite Z.setbit_eqb by done|rewrite Z.clearbit_eqb by done].
  - rewrite (Z.eqb_sym i j). by destruct (j =? i).
  - rewrite (Z.eqb_sym i j). destruct (j =? i); cbn; [by rewrite andb_false_r|by rewrite andb_true_r].
Qed.
Lemma logic_flags_zf v f : Z.testbit (logic_flags v f) ZF = (v =? 0).
Proof. unfold logic_flags, result_flags, ZF. by rewrite !put_bit_spec by done. Qed.

(** The program that consists of [l] at [base]. *)
Definition place (base : Z) (l : list instr) : Z → option instr :=
  λ a, if base <=? a then l !! Z.to_nat (a - base) else None.
Lemma place_loaded base l : loaded (place base l) base l.
Proof.
  intros i x Hi. unfold place. rewrite (proj2 (Z.leb_le _ _)) by lia.
  by replace (Z.to_nat (base + Z.of_nat i - base)) with i by lia.
Qed.
