(* ===== verification/Switch.v ===== *)
(** * The context switch and the boot code
    (src/arch/x86_64/context_switch.s, src/arch/x86_64/boot.s, and load_gdt,
    load_idt, enable_paging of src/arch/x86_64/asm_functions.s)

    The routines as lists of instructions of Asm.v, and what running them does
    to the registers and to memory. *)
From S2P Require Import Prelude Mem Pcb Asm.

(** ** Code *)
Section code.
(** The addresses the linker gives to the symbols the routines refer to. *)
Variables (load_new_context process_exit kernel_main stack_top reload_cs : Z).

(** [context_switch] up to its label [load_new_context], and from there. *)
Definition save_code : list instr := [
  Test RDI RDI;
  Jz load_new_context;
  Mov (Reg R15) (Mem 0 RDI);
  Mov (Reg R14) (Mem 8 RDI);
  Mov (Reg R13) (Mem 16 RDI);
  Mov (Reg R12) (Mem 24 RDI);
  Mov (Reg RBX) (Mem 32 RDI);
  Mov (Reg RBP) (Mem 40 RDI);
  Mov (Reg RSP) (Mem 48 RDI);
  Mov (Mem 0 RSP) (Reg RAX);
  Mov (Reg RAX) (Mem 56 RDI);
  Pushfq;
  Pop RAX;
  Mov (Reg RAX) (Mem 64 RDI)].
Definition load_code : list instr := [
  Mov (Mem 0 RSI) (Reg R15);
  Mov (Mem 8 RSI) (Reg R14);
  Mov (Mem 16 RSI) (Reg R13);
  Mov (Mem 24 RSI) (Reg R12);
  Mov (Mem 32 RSI) (Reg RBX);
  Mov (Mem 40 RSI) (Reg RBP);
  Mov (Mem 64 RSI) (Reg RAX);
  Push (Reg RAX);
  Popfq;
  Mov (Mem 48 RSI) (Reg RSP);
  Mov (Mem 56 RSI) (Reg RAX);
  JmpReg RAX].

Definition process_entry_trampoline (here : Z) : list instr := [
  CallReg RDI;
  Mov (Imm 0) (Reg RDI);
  Call process_exit;
  Hlt;
  Jmp (here + 3)].

Definition start_code (here : Z) : list instr := [
  Mov (Imm stack_top) (Reg RSP);
  Push (Imm 0);
  Popfq;
  Push (Reg RBX);
  Push (Reg RAX);
  Call kernel_main;
  Cli;
  Hlt;
  Jmp (here + 7)].

Definition load_gdt_code : list instr := [
  Lgdt RDI;
  MovW 0x10 RAX;
  MovSeg RAX DS;
  MovSeg RAX ES;
  MovSeg RAX FS;
  MovSeg RAX GS;
  MovSeg RAX SS;
  Push (Imm 0x08);
  Push (Imm reload_cs);
  Retfq].
Definition reload_cs_code : list instr := [Ret].
Definition load_idt_code : list instr := [Lidt RDI; Ret].
Definition enable_paging_code : list instr := [
  MovToCr3 RDI;
  MovFromCr0 RAX;
  Mov (Imm 0x80000001) (Reg RBX);
  Or RBX RAX;
  MovToCr0 RAX;
  Ret].
End code.

(** ** Specifications *)

(** A [context_t] in memory. *)
Definition ctx_words (c : context_t) : list Z :=
  [r15 c; r14 c; r13 c; r12 c; rbx c; rbp c; rsp c; rip c; rflags c].
(** The registers that a [context_t] describes. *)
(** The flags when they are pushed: the routine has tested its first argument. *)
Definition saved_flags (m : machine) : Z := u64 (logic_flags (gpr m RDI) (flags m)).
Definition ctx_of (m : machine) (ip fl : Z) : context_t :=
  Context (gpr m R15) (gpr m R14) (gpr m R13) (gpr m R12) (gpr m RBX) (gpr m RBP) (gpr m RSP) ip fl.

(** The registers a C function has to preserve. *)
Definition callee_saved (m m' : machine) : Prop :=
  ∀ r, r ∈ [RBX; RBP; R12; R13; R14; R15] → gpr m' r = gpr m r.

Record machine_wf (m : machine) : Prop := {
  mw_gpr r : 0 ≤ gpr m r < 2 ^ 64;
  mw_flags : 0 ≤ flags m < 2 ^ 64;
  mw_mem : mem_wf (ram m);
}.

(** A word pointer of the size [n] bytes, and two areas apart. *)
Definition area (a n : Z) : Prop := 0 ≤ a ∧ a + n < 2 ^ 64 ∧ a mod 8 = 0.
Definition apart (a n b k : Z) : Prop := a + n ≤ b ∨ b + k ≤ a.

(** ** Straight-line execution *)

(** Bring the machine to its normal form. *)
Ltac norm :=
  cbn [gpr flags pc ram segs cr0 mcr3 gdtr idtr set_gpr set_flags set_pc set_seg set_cr0 set_mcr3 set_gdtr set_idtr
       get_mem set_mem machine_mem];
  rewrite ?upd_same, ?upd_other by discriminate.
(** One more instruction of the block [l] at [base], the [i]-th. *)
Ltac asm base l i :=
  eapply (wp_run_at _ base l i); [eassumption|reflexivity|first [reflexivity|by rewrite Z.add_0_r]|]; norm.
Ltac addr := norm; unfold area, apart in *; try dlia.
Ltac store base l i := asm base l i; apply wp_mov_store; [addr..|]; norm.
Ltac load base l i := asm base l i; apply wp_mov_load; [addr..|]; norm.
(** Read through the stores. *)
Lemma ld_st_eq m a b v : a = b → ld (st m a v) b = u64 v.
Proof. intros <-. apply ld_st_same. Qed.
Ltac mload :=
  repeat match goal with
  | |- context [ld (st ?m ?a ?v) ?b] =>
      first [rewrite (ld_st_other m a b v) by lia | rewrite (ld_st_eq m a b v) by lia]
  end.

Lemma wp_save code base lnc m :
  loaded code base (save_code lnc) → pc m = base → machine_wf m →
  gpr m RDI ≠ 0 → area (gpr m RDI) 72 → area (gpr m RSP - 8) 16 → apart (gpr m RDI) 72 (gpr m RSP - 8) 16 →
  wp (run code 14) m (λ _ m', pc m' = base + 14 ∧
    words (ram m') (gpr m RDI) (ctx_words (ctx_of m (ld (ram m) (gpr m RSP)) (saved_flags m))) ∧
    (∀ r, r ≠ RAX → gpr m' r = gpr m r) ∧
    (∀ x, ¬ (gpr m RDI ≤ x < gpr m RDI + 72) → x ≠ gpr m RSP - 8 → ld (ram m') x = ld (ram m) x) ∧ mem_wf (ram m')).
Proof.
  intros Hl Hpc [Hg Hf Hm] Hold Ha Hsp Hap. destruct m as [g f p mm sg c0 c3 gd id].
  cbn [gpr flags pc ram] in *. subst p. unfold apart, area in *.
  asm base (save_code lnc) 0%nat. cbn [exec]. wp_go. norm. rewrite Z.land_diag.
  asm base (save_code lnc) 1%nat. cbn [exec]. wp_go. norm.
  rewrite logic_flags_zf, (proj2 (Z.eqb_neq _ 0)) by done. apply wp_ret.
  store base (save_code lnc) 2%nat. store base (save_code lnc) 3%nat. store base (save_code lnc) 4%nat.
  store base (save_code lnc) 5%nat. store base (save_code lnc) 6%nat. store base (save_code lnc) 7%nat.
  store base (save_code lnc) 8%nat. load base (save_code lnc) 9%nat. store base (save_code lnc) 10%nat.
  asm base (save_code lnc) 11%nat. cbn [exec]. apply wp_bind, wp_gets, wp_push_op; [addr..|]. norm.
  asm base (save_code lnc) 12%nat. cbn [exec]. apply wp_bind, wp_pop_op; [addr..|]. apply wp_modify. norm.
  store base (save_code lnc) 13%nat. apply wp_ret. norm.
  split_and!.
  - done.
  - unfold saved_flags. cbn [words ctx_words ctx_of r15 r14 r13 r12 rbx rbp rsp rip rflags gpr flags].
    split_and!; mload; rewrite ?(u64_id (g _)) by apply Hg; try done.
    + rewrite u64_id; [f_equal; lia|apply Hm].
    + unfold u64. by rewrite Z.mod_mod by done.
  - intros r Hr. rewrite upd_other by done. destruct (decide (r = RSP)) as [->|].
    + rewrite upd_same. lia.
    + by rewrite !upd_other.
  - intros x Hx Hx'. by mload.
  - repeat apply mem_wf_st. done.
Qed.

(** The machine resumes the context [c]. *)
Record resumed (c : context_t) (m : machine) : Prop := {
  rm_r15 : gpr m R15 = r15 c; rm_r14 : gpr m R14 = r14 c; rm_r13 : gpr m R13 = r13 c; rm_r12 : gpr m R12 = r12 c;
  rm_rbx : gpr m RBX = rbx c; rm_rbp : gpr m RBP = rbp c; rm_rsp : gpr m RSP = rsp c;
  rm_rip : pc m = rip c; rm_rflags : flags m = rflags c;
}.

Lemma wp_load code base m c :
  loaded code base load_code → pc m = base → mem_wf (ram m) →
  area (gpr m RSI) 72 → area (gpr m RSP - 8) 16 → apart (gpr m RSI) 72 (gpr m RSP - 8) 16 →
  words (ram m) (gpr m RSI) (ctx_words c) →
  wp (run code 12) m (λ _ m', resumed c m' ∧ gpr m' RDI = gpr m RDI ∧ gpr m' RSI = gpr m RSI ∧
    (∀ x, x ≠ gpr m RSP - 8 → ld (ram m') x = ld (ram m) x) ∧ mem_wf (ram m')).
Proof.
  intros Hl Hpc Hm Ha Hsp Hap Hw. destruct m as [g f p mm sg c0 c3 gd id].
  cbn [gpr flags pc ram] in *. subst p. unfold apart, area in *.
  load base load_code 0%nat. load base load_code 1%nat. load base load_code 2%nat. load base load_code 3%nat.
  load base load_code 4%nat. load base load_code 5%nat. load base load_code 6%nat.
  asm base load_code 7%nat. cbn [exec read]. apply wp_bind, wp_gets, wp_push_op; [addr..|]. norm.
  asm base load_code 8%nat. cbn [exec]. apply wp_bind, wp_pop_op; [addr..|]. apply wp_modify. norm.
  load base load_code 9%nat. load base load_code 10%nat.
  asm base load_code 11%nat. cbn [exec]. apply wp_bind, wp_gets, wp_modify. norm. apply wp_ret. norm.
  cbn [words ctx_words] in Hw. rewrite <- !Z.add_assoc in Hw. cbn [Z.add Pos.add] in Hw.
  destruct Hw as (W0 & W1 & W2 & W3 & W4 & W5 & W6 & W7 & W8 & _).
  split_and!; try done.
  - split; norm; mload; rewrite ?Z.add_0_r; try done. rewrite u64_id; [done|apply Hm].
  - intros x Hx. by mload.
  - by apply mem_wf_st.
Qed.

Definition context_switch_code (base : Z) : list instr := save_code (base + 14) ++ load_code.

(** A call of [context_switch(old, new)]: two contexts apart from each other
    and from the top of the stack. *)
Record switch_call (code : Z → option instr) (base : Z) (m : machine) : Prop := {
  sc_code : loaded code base (context_switch_code base);
  sc_pc : pc m = base;
  sc_wf : machine_wf m;
  sc_old : gpr m RDI ≠ 0;
  sc_old_area : area (gpr m RDI) 72;
  sc_new_area : area (gpr m RSI) 72;
  sc_stack : area (gpr m RSP - 8) 16;
  sc_old_stack : apart (gpr m RDI) 72 (gpr m RSP - 8) 16;
  sc_new_stack : apart (gpr m RSI) 72 (gpr m RSP - 8) 16;
  sc_contexts : apart (gpr m RDI) 72 (gpr m RSI) 72;
}.

Lemma wp_context_switch code base m c :
  switch_call code base m → words (ram m) (gpr m RSI) (ctx_words c) →
  wp (run code 26) m (λ _ m', resumed c m' ∧ gpr m' RDI = gpr m RDI ∧
    words (ram m') (gpr m RDI) (ctx_words (ctx_of m (ld (ram m) (gpr m RSP)) (saved_flags m))) ∧
    (∀ x, ¬ (gpr m RDI ≤ x < gpr m RDI + 72) → x ≠ gpr m RSP - 8 → ld (ram m') x = ld (ram m) x) ∧ mem_wf (ram m')).
Proof.
  intros [[Hl1 Hl2]%loaded_app Hpc Hwf Hold Ha1 Ha2 Hsp A1 A2 A3] Hw.
  change 26%nat with (14 + 12)%nat. apply wp_run_app.
  eapply wp_mono; [by apply (wp_save code base (base + 14))|]. cbn beta.
  intros _ m1 (Hpc1 & Hs & Hr1 & Hm1 & Hwf1).
  assert (ERSI : gpr m1 RSI = gpr m RSI) by by apply Hr1. assert (ERSP : gpr m1 RSP = gpr m RSP) by by apply Hr1.
  assert (ERDI : gpr m1 RDI = gpr m RDI) by by apply Hr1.
  eapply wp_mono; [apply (wp_load code (base + 14) m1 c); rewrite ?ERSI, ?ERSP; try done|].
  - eapply words_ext; [|exact Hw]. intros x Hx. cbn in Hx. apply Hm1; unfold apart in *; lia.
  - cbn beta. rewrite ERSP. intros _ m2 (Hres & ERDI2 & _ & Hm2 & Hwf2). split_and!; [done|congruence|..|done].
    + eapply words_ext; [|exact Hs]. intros x Hx. cbn in Hx. apply Hm2. unfold apart in *. lia.
    + intros x Hx Hx'. by rewrite Hm2, Hm1.
Qed.

(** ** Theorems *)

(** The text of the two files at address 0x1000, followed by the trampoline. *)
Definition demo_code : Z → option instr :=
  place 0x1000 (context_switch_code 0x1000 ++ process_entry_trampoline 0x2000 0x101A).
(** A call from the context at 0x8000 to the one at 0x9000, whose stack pointer
    is 0xB000 and which starts in the trampoline. *)
Definition demo_machine : machine :=
  Machine (λ r, match r with RDI => 0x8000 | RSI => 0x9000 | RSP => 0xA000 | RBX => 5 | _ => 0 end) 0x202 0x1000
    {[ 0xA000 := 0x7777; 0x9030 := 0xB000; 0x9038 := 0x101A; 0x9040 := 0x202 ]} (λ _, 0) 0 0 0 0.
Definition demo_context : context_t := Context 0 0 0 0 0 0 0xB000 0x101A 0x202.
Lemma demo_call : switch_call demo_code 0x1000 demo_machine.
Proof.
  split; try (vm_compute; intuition discriminate).
  - intros i x Hi. apply (place_loaded 0x1000). by apply lookup_app_l_Some.
  - split; [intros []; vm_compute; intuition discriminate|vm_compute; intuition discriminate|by apply mem_wf_check].
Qed.
Lemma demo_words : words (ram demo_machine) (gpr demo_machine RSI) (ctx_words demo_context).
Proof. vm_compute. split_and!; reflexivity. Qed.

Lemma saved_flags_bits m i : 0 ≤ i < 64 → i ∉ [0; 2; 4; 6; 7; 11] → Z.testbit (saved_flags m) i = Z.testbit (flags m) i.
Proof.
  intros Hi Hn. rewrite !not_elem_of_cons in Hn. destruct Hn as (? & ? & ? & ? & ? & ? & _).
  unfold saved_flags, u64. rewrite Z.mod_pow2_bits_low by lia. unfold logic_flags, result_flags.
  rewrite !put_bit_spec by lia. repeat (rewrite (proj2 (Z.eqb_neq _ _)) by done). done.
Qed.

(** C32 (functional): [context_switch(old, new)] stores the callee-saved
    registers, the stack pointer, the return address and the flags of the
    caller in [*old], the six arithmetic flags as its test of [old] leaves them
    and the others, such as the interrupt flag, unchanged; it loads those of [*new] and continues at its instruction
    pointer; besides [*old] it changes only the word below the caller's stack
    pointer. *)
Theorem context_switch_spec code base m c :
  switch_call code base m → words (ram m) (gpr m RSI) (ctx_words c) →
  wp (run code 26) m (λ _ m', resumed c m' ∧
    words (ram m') (gpr m RDI) (ctx_words (ctx_of m (ld (ram m) (gpr m RSP)) (saved_flags m))) ∧
    (∀ i, 0 ≤ i < 64 → i ∉ [0; 2; 4; 6; 7; 11] → Z.testbit (saved_flags m) i = Z.testbit (flags m) i) ∧
    (∀ x, ¬ (gpr m RDI ≤ x < gpr m RDI + 72) → x ≠ gpr m RSP - 8 → ld (ram m') x = ld (ram m) x)).
Proof.
  intros Hc Hw. eapply wp_mono; [by apply (wp_context_switch code base m c)|]. cbn beta.
  intros _ m' (? & _ & ? & ? & _). split_and!; [done|done|apply saved_flags_bits|done].
Qed.
Lemma context_switch_spec_witness :
  words (ram demo_machine) 0x9000 (ctx_words demo_context) ∧
  wp (run demo_code 26) demo_machine (λ _ m', resumed demo_context m' ∧
    words (ram m') 0x8000 (ctx_words (ctx_of demo_machine 0x7777 (saved_flags demo_machine))) ∧
    (∀ i, 0 ≤ i < 64 → i ∉ [0; 2; 4; 6; 7; 11] → Z.testbit (saved_flags demo_machine) i = Z.testbit 0x202 i) ∧
    (∀ x, ¬ (0x8000 ≤ x < 0x8000 + 72) → x ≠ 0xA000 - 8 → ld (ram m') x = ld (ram demo_machine) x)).
Proof. split; [exact demo_words|]. exact (context_switch_spec demo_code 0x1000 demo_machine demo_context demo_call demo_words). Defined.

(** C36 (roundtrip): a process that was switched away and is switched back later
    continues at the return address of its call with its callee-saved
    registers.  But the routine jumps there instead of returning, and the
    stack pointer it had saved is that of its own frame: the process continues
    with a stack pointer 8 bytes below the one a return leaves. *)
Theorem context_switch_resume code base m c :
  switch_call code base m → words (ram m) (gpr m RSI) (ctx_words c) →
  wp (run code 26) m (λ _ m1, ∀ m2,
    switch_call code base m2 → gpr m2 RSI = gpr m RDI →
    (∀ x, gpr m RDI ≤ x < gpr m RDI + 72 → ld (ram m2) x = ld (ram m1) x) →
    wp (run code 26) m2 (λ _ m3,
      callee_saved m m3 ∧ pc m3 = ld (ram m) (gpr m RSP) ∧
      wp (exec Ret) m (λ _ returned, pc returned = pc m3 ∧ gpr m3 RSP = gpr returned RSP - 8))).
Proof.
  intros Hc Hw. eapply wp_mono; [by apply (wp_context_switch code base m c)|]. cbn beta.
  intros _ m1 (_ & _ & Hs & _) m2 Hc2 E2 Hx2.
  eapply wp_mono; [apply (wp_context_switch code base m2 (ctx_of m (ld (ram m) (gpr m RSP)) (saved_flags m))); [done|]|].
  { rewrite E2. eapply words_ext; [|exact Hs]. intros x Hx. apply Hx2. cbn in Hx. lia. }
  cbn beta. intros _ m3 ([] & _). split_and!; [|done|].
  - intros r Hr. rewrite !elem_of_cons, elem_of_nil in Hr. destruct Hr as [->|[->|[->|[->|[->|[->|[]]]]]]]; done.
  - cbn [exec]. apply wp_bind. pose proof (sc_stack _ _ _ Hc) as (? & ? & ?). apply wp_pop_op; [lia|dlia|].
    apply wp_modify. norm. split; [done|]. cbn in rm_rsp0. lia.
Qed.
Lemma context_switch_resume_witness :
  wp (run demo_code 26) demo_machine (λ _ m1, ∀ m2,
    switch_call demo_code 0x1000 m2 → gpr m2 RSI = 0x8000 →
    (∀ x, 0x8000 ≤ x < 0x8000 + 72 → ld (ram m2) x = ld (ram m1) x) →
    wp (run demo_code 26) m2 (λ _ m3,
      callee_saved demo_machine m3 ∧ pc m3 = 0x7777 ∧
      wp (exec Ret) demo_machine (λ _ returned, pc returned = pc m3 ∧ gpr m3 RSP = gpr returned RSP - 8))).
Proof. exact (context_switch_resume demo_code 0x1000 demo_machine demo_context demo_call demo_words). Defined.

(** (error): a new process does not start at its entry point.  The
    trampoline calls the address in %rdi, which [context_switch] leaves at its
    first argument, the context of the previous process; [process_create] put
    the entry point on the stack. *)
Theorem trampoline_calls_old_context code base m c process_exit :
  switch_call code base m → words (ram m) (gpr m RSI) (ctx_words c) →
  loaded code (rip c) (process_entry_trampoline process_exit (rip c)) → area (rsp c - 8) 16 →
  wp (run code 27) m (λ _ m', pc m' = gpr m RDI).
Proof.
  intros Hc Hw Ht Hsp. change 27%nat with (26 + 1)%nat. apply wp_run_app.
  eapply wp_mono; [by apply (wp_context_switch code base m c)|]. cbn beta. intros _ m1 (Hres & ERDI & _).
  eapply (wp_run_at _ (rip c) _ 0%nat); [exact Ht|reflexivity|by rewrite (rm_rip _ _ Hres), Z.add_0_r|].
  cbn [exec]. apply wp_bind, wp_gets, wp_bind, wp_gets, wp_bind. destruct Hsp as (? & ? & ?).
  apply wp_push_op; norm; rewrite (rm_rsp _ _ Hres); [lia|dlia|]. by apply wp_modify, wp_ret.
Qed.
Lemma trampoline_calls_old_context_witness :
  rip demo_context = 0x101A ∧ wp (run demo_code 27) demo_machine (λ _ m', pc m' = 0x8000).
Proof.
  split; [reflexivity|].
  apply (trampoline_calls_old_context demo_code 0x1000 demo_machine demo_context 0x2000 demo_call demo_words).
  - exact (proj2 (proj1 (loaded_app _ _ _ _) (place_loaded 0x1000 _))).
  - vm_compute; intuition discriminate.
Defined.

(** A call from C: the return address is on the stack. *)
Record c_call (m : machine) (ret : Z) : Prop := {
  cc_wf : machine_wf m;
  cc_stack : area (gpr m RSP) 8;
  cc_ret : ld (ram m) (gpr m RSP) = ret;
}.

(** (functional): [enable_paging] loads CR3 with the page table, sets the
    paging and protection bits of CR0 and returns; but it leaves its constant
    in %rbx, a register that a C caller relies on. *)
Theorem enable_paging_spec code base m ret :
  loaded code base enable_paging_code → pc m = base → c_call m ret →
  wp (run code 6) m (λ _ m', pc m' = ret ∧ gpr m' RSP = gpr m RSP + 8 ∧ mcr3 m' = gpr m RDI ∧
    Z.testbit (cr0 m') 31 = true ∧ Z.testbit (cr0 m') 0 = true ∧ ram m' = ram m ∧ gpr m' RBX = 0x80000001).
Proof.
  intros Hl Hpc [_ (? & ? & ?) Hret]. destruct m as [g f p mm sg c0 c3 gd id]. cbn [gpr flags pc ram] in *. subst p.
  asm base enable_paging_code 0%nat. cbn [exec]. wp_go. norm.
  asm base enable_paging_code 1%nat. cbn [exec]. wp_go. norm.
  asm base enable_paging_code 2%nat. apply wp_mov_imm. norm.
  asm base enable_paging_code 3%nat. cbn [exec]. wp_go. norm.
  asm base enable_paging_code 4%nat. cbn [exec]. wp_go. norm.
  asm base enable_paging_code 5%nat. cbn [exec]. apply wp_bind, wp_pop_op; norm; [lia|dlia|]. apply wp_modify, wp_ret. norm.
  split_and!; try done; rewrite Z.lor_spec; change (u64 2147483649) with 2147483649.
  - by change (Z.testbit 2147483649 31) with true; rewrite orb_true_r.
  - by change (Z.testbit 2147483649 0) with true; rewrite orb_true_r.
Qed.
Lemma enable_paging_spec_witness :
  wp (run (place 0x1000 enable_paging_code) 6) demo_machine (λ _ m', pc m' = 0x7777 ∧ gpr m' RSP = 0xA000 + 8 ∧ mcr3 m' = 0x8000 ∧
    Z.testbit (cr0 m') 31 = true ∧ Z.testbit (cr0 m') 0 = true ∧ ram m' = ram demo_machine ∧ gpr m' RBX = 0x80000001).
Proof.
  apply (enable_paging_spec (place 0x1000 enable_paging_code) 0x1000 demo_machine 0x7777); [apply place_loaded|reflexivity|].
  split; [exact (sc_wf _ _ _ demo_call)|vm_compute; intuition discriminate|reflexivity].
Defined.

(** (functional): [load_gdt] makes the table current, reloads every data
    segment with selector 0x10 and the code segment with 0x08, and returns to
    its caller with the callee-saved registers and the stack unharmed. *)
Theorem load_gdt_spec code base reload m ret :
  loaded code base (load_gdt_code reload) → loaded code reload reload_cs_code → 0 ≤ reload < 2 ^ 64 →
  pc m = base → c_call m ret → area (gpr m RSP - 16) 24 →
  wp (run code 11) m (λ _ m', pc m' = ret ∧ gpr m' RSP = gpr m RSP + 8 ∧ gdtr m' = gpr m RDI ∧
    segs m' CS = 0x08 ∧ (∀ s, s ≠ CS → segs m' s = 0x10) ∧ callee_saved m m').
Proof.
  intros Hl Hl2 Hrel Hpc [[Hg _ _] (? & ? & ?) Hret] (? & ? & ?). destruct m as [g f p mm sg c0 c3 gd id].
  cbn [gpr flags pc ram] in *. subst p. set (l := load_gdt_code reload) in *.
  asm base l 0%nat. cbn [exec]. wp_go. norm. asm base l 1%nat. cbn [exec]. wp_go. norm.
  set (ax := g RAX - _ + _). assert (Hax : u16 ax = 0x10).
  { unfold ax, u16. change (2 ^ 16) with 65536. change (16 mod 65536) with 16. dlia. }
  asm base l 2%nat. cbn [exec]. wp_go. norm. asm base l 3%nat. cbn [exec]. wp_go. norm.
  asm base l 4%nat. cbn [exec]. wp_go. norm. asm base l 5%nat. cbn [exec]. wp_go. norm.
  asm base l 6%nat. cbn [exec]. wp_go. norm. rewrite Hax.
  asm base l 7%nat. cbn [exec read]. apply wp_bind, wp_ret, wp_push_op; norm; [lia|dlia|].
  asm base l 8%nat. cbn [exec read]. apply wp_bind, wp_ret, wp_push_op; norm; [lia|dlia|].
  asm base l 9%nat. cbn [exec]. apply wp_bind, wp_pop_op; norm; [lia|dlia|].
  apply wp_bind, wp_pop_op; norm; [lia|dlia|]. apply wp_bind, wp_modify, wp_modify. norm. mload.
  change (u64 8) with 8. change (u16 (u64 8)) with 8. rewrite !(u64_id reload) by done.
  eapply (wp_run_at _ reload reload_cs_code 0%nat); [done|done|by rewrite Z.add_0_r|]. norm.
  cbn [exec]. apply wp_bind, wp_pop_op; norm; [lia|dlia|]. apply wp_modify, wp_ret. norm. mload.
  replace (g RSP - 8 - 8 + 8 + 8) with (g RSP) by lia. split_and!; try done.
  - intros s Hs. destruct s; try done; norm; done.
  - intros r Hr. rewrite !elem_of_cons, elem_of_nil in Hr. norm. destruct Hr as [->|[->|[->|[->|[->|[->|[]]]]]]]; norm; done.
Qed.
Lemma load_gdt_spec_witness :
  let code := place 0x1000 (load_gdt_code 0x100A ++ reload_cs_code) in
  wp (run code 11) demo_machine (λ _ m', pc m' = 0x7777 ∧ gpr m' RSP = 0xA000 + 8 ∧ gdtr m' = 0x8000 ∧
    segs m' CS = 0x08 ∧ (∀ s, s ≠ CS → segs m' s = 0x10) ∧ callee_saved demo_machine m').
Proof.
  intros code. apply (load_gdt_spec code 0x1000 0x100A demo_machine 0x7777).
  - exact (proj1 (proj1 (loaded_app _ _ _ _) (place_loaded 0x1000 _))).
  - exact (proj2 (proj1 (loaded_app _ _ _ _) (place_loaded 0x1000 _))).
  - lia.
  - reflexivity.
  - split; [exact (sc_wf _ _ _ demo_call)|vm_compute; intuition discriminate|reflexivity].
  - vm_compute; intuition discriminate.
Defined.

(** (functional): the boot code reaches [kernel_main] with interrupts off, on
    its own stack, aligned as the C calling convention asks, and with the
    boot loader's two values on the stack. *)
Theorem start_reaches_kernel_main code here kernel_main stack_top m :
  loaded code here (start_code kernel_main stack_top here) → pc m = here → machine_wf m → area (stack_top - 32) 32 →
  stack_top mod 16 = 0 →
  wp (run code 6) m (λ _ m', pc m' = kernel_main ∧ Z.testbit (flags m') IF = false ∧
    (gpr m' RSP + 8) mod 16 = 0 ∧ words (ram m') (gpr m' RSP + 8) [gpr m RAX; gpr m RBX]).
Proof.
  intros Hl Hpc [Hg Hf Hm] (? & ? & ?) ?. destruct m as [g f p mm sg c0 c3 gd id]. cbn [gpr flags pc ram] in *. subst p.
  set (l := start_code kernel_main stack_top here) in *.
  asm here l 0%nat. apply wp_mov_imm. norm. rewrite (u64_id stack_top) by lia.
  asm here l 1%nat. cbn [exec read]. apply wp_bind, wp_ret, wp_push_op; norm; [lia|dlia|].
  asm here l 2%nat. cbn [exec]. apply wp_bind, wp_pop_op; norm; [lia|dlia|]. apply wp_modify. norm. mload.
  asm here l 3%nat. cbn [exec read]. apply wp_bind, wp_gets, wp_push_op; norm; [lia|dlia|].
  asm here l 4%nat. cbn [exec read]. apply wp_bind, wp_gets, wp_push_op; norm; [lia|dlia|].
  asm here l 5%nat. cbn [exec]. apply wp_bind, wp_gets, wp_bind, wp_push_op; norm; [lia|dlia|]. apply wp_modify, wp_ret. norm.
  split_and!; [done|done|dlia|]. cbn [words]. split_and!; [..|done]; mload; apply u64_id, Hg.
Qed.
Lemma start_reaches_kernel_main_witness :
  wp (run (place 0x1000 (start_code 0x5000 0xA000 0x1000)) 6) demo_machine (λ _ m', pc m' = 0x5000 ∧ Z.testbit (flags m') IF = false ∧
    (gpr m' RSP + 8) mod 16 = 0 ∧ words (ram m') (gpr m' RSP + 8) [0; 5]).
Proof.
  apply (start_reaches_kernel_main (place 0x1000 (start_code 0x5000 0xA000 0x1000)) 0x1000 0x5000 0xA000 demo_machine).
  - apply place_loaded.
  - reflexivity.
  - exact (sc_wf _ _ _ demo_call).
  - vm_compute; intuition discriminate.
  - reflexivity.
Defined.
