(* ===== verification/Isr.v ===== *)
(** * Interrupt entry and exit (src/arch/x86_64/asm_functions.s)

    The interrupt stubs and their common part, between the CPU's delivery of
    an interrupt and the C function [isr_handler]: what the handler finds in
    the [registers_t] it is passed, and what the interrupted code finds when
    the handler has returned. *)
From S2P Require Import Prelude Mem Pcb Asm Switch.

(** ** Code *)
Section code.
(** Addresses of [isr_common_stub] and of the C function [isr_handler]. *)
Variables (isr_common_stub isr_handler : Z).

(** A stub for a vector without an error code, and for one where the CPU has
    pushed it. *)
Definition stub_plain (v : Z) : list instr := [Cli; Push (Imm 0); Push (Imm v); Jmp isr_common_stub].
Definition stub_error (v : Z) : list instr := [Cli; Push (Imm v); Jmp isr_common_stub].

Definition isr_stubs : list (Z * list instr) := [
  (0, stub_plain 0); (1, stub_plain 1); (2, stub_plain 2); (3, stub_plain 3); (4, stub_plain 4);
  (5, stub_plain 5); (6, stub_plain 6); (7, stub_plain 7);
  (8, stub_error 8); (10, stub_error 10); (11, stub_error 11); (12, stub_error 12); (13, stub_error 13); (14, stub_error 14);
  (16, stub_plain 16); (17, stub_error 17); (18, stub_plain 18); (19, stub_plain 19); (20, stub_plain 20)].
Definition irq_stubs : list (Z * list instr) := [
  (32, stub_plain 32); (33, stub_plain 33); (128, stub_plain 128)].

(** The registers in the order they are pushed. *)
Definition pushed : list reg := [RAX; RCX; RDX; RBX; RBP; RSI; RDI; R8; R9; R10; R11; R12; R13; R14; R15].
Definition popped : list reg := [R15; R14; R13; R12; R11; R10; R9; R8; RDI; RSI; RBP; RBX; RDX; RCX; RAX].
Definition common_stub : list instr :=
  ((λ r, Push (Reg r)) <$> pushed) ++
  [Mov (Reg RSP) (Reg RDI); Call isr_handler] ++
  (Pop <$> popped) ++
  [AddImm 16 RSP; Sti; Iretq].
End code.

(** ** The CPU *)

(** The exceptions with an error code (Intel SDM, volume 3, table 6-1). *)
Definition pushes_error (v : Z) : bool := bool_decide (v ∈ [8; 10; 11; 12; 13; 14; 17]).

(** Delivery through an interrupt gate of the IDT, onto the stack that ends at
    [top]: the interrupted state is pushed, with the error code if there is
    one, and interrupts are disabled. *)
Definition interrupt (target top : Z) (err : option Z) : M machine unit :=
  m ← gets (λ m, m);
  modify (set_gpr RSP top);;
  push (segs m SS);; push (gpr m RSP);; push (flags m);; push (segs m CS);; push (pc m);;
  (match err with Some e => push e | None => mret () end);;
  modify (λ m, set_flags (Z.clearbit (flags m) IF) m);;
  modify (set_seg CS 0x08);;
  modify (set_pc target).

(** ** Specifications *)

(** The [registers_t] of an interrupted machine. *)
Definition registers_t (m : machine) (int_no err_code : Z) : list Z :=
  (gpr m <$> popped) ++ [int_no; err_code; pc m; segs m CS; flags m; gpr m RSP; segs m SS].

(** A machine that can be interrupted, with a kernel stack that ends at [top]. *)
Record interruptible (m : machine) (top : Z) : Prop := {
  ib_wf : machine_wf m;
  ib_segs s : 0 ≤ segs m s < 2 ^ 16;
  ib_pc : 0 ≤ pc m < 2 ^ 64;
  ib_top : 256 ≤ top < 2 ^ 63;
  ib_align : top mod 8 = 0;
}.

(** ** Blocks of pushes and pops *)

Lemma wp_push_block code base rs n m Q :
  loaded code base ((λ r, Push (Reg r)) <$> rs) → pc m = base → RSP ∉ rs →
  8 * Z.of_nat (length rs) ≤ gpr m RSP < 2 ^ 64 → gpr m RSP mod 8 = 0 → (∀ r, 0 ≤ gpr m r < 2 ^ 64) →
  (∀ m', pc m' = base + Z.of_nat (length rs) → (∀ r, r ≠ RSP → gpr m' r = gpr m r) →
    gpr m' RSP = gpr m RSP - 8 * Z.of_nat (length rs) →
    words (ram m') (gpr m' RSP) (rev (gpr m <$> rs)) →
    (∀ x, ¬ (gpr m' RSP ≤ x < gpr m RSP) → ld (ram m') x = ld (ram m) x) →
    flags m' = flags m → segs m' = segs m → wp (run code n) m' Q) →
  wp (run code (length rs + n)) m Q.
Proof.
  revert base m. induction rs as [|r rs IH]; intros base m Hl Hpc Hsp Hr Ha Hg HQ.
  - cbn in *. apply HQ; try done; lia.
  - change (r :: rs) with ([r] ++ rs) in Hl. rewrite fmap_app in Hl. apply loaded_app in Hl as [Hl1 Hl2]. cbn [length] in *.
    eapply (wp_run_at _ base _ 0%nat); [exact Hl1|done|by rewrite Z.add_0_r|]. cbn [exec read].
    apply wp_bind, wp_gets, wp_push_op; norm; [lia|dlia|]. set (m1 := set_gpr _ _ _).
    apply not_elem_of_cons in Hsp as [Hsp1 Hsp2].
    assert (E1 : ∀ q, q ≠ RSP → gpr m1 q = gpr m q) by (intros; unfold m1; norm; by rewrite upd_other).
    assert (E2 : gpr m1 RSP = gpr m RSP - 8) by (unfold m1; norm; done).
    assert (Efm : gpr m1 <$> rs = gpr m <$> rs).
    { apply list_fmap_ext. intros i q Hq. apply E1. intros ->. by apply Hsp2, (list_elem_of_lookup_2 _ i). }
    apply (IH (base + 1) m1); [done|done|done|lia|dlia|..].
    { intros q. destruct (decide (q = RSP)) as [->|]; [lia|]. rewrite E1 by done. apply Hg. }
    intros m' Hpc' Hg' Hsp' Hw' Hx' Hf' Hs'. apply HQ.
    + rewrite Hpc'. lia.
    + intros q Hq. by rewrite Hg', E1.
    + lia.
    + rewrite fmap_cons. cbn [rev]. apply words_app. rewrite Efm in Hw'. split; [done|]. cbn [words]. split; [|done].
      rewrite length_rev, length_fmap, Hx' by lia. unfold m1. norm. rewrite ld_st_eq by lia. by apply u64_id.
    + intros x Hx. rewrite Hx' by lia. unfold m1. norm. by rewrite ld_st_other by lia.
    + by rewrite Hf'.
    + by rewrite Hs'.
Qed.

Lemma wp_pop_block code base rs vs n m Q :
  loaded code base (Pop <$> rs) → pc m = base → RSP ∉ rs → NoDup rs → length vs = length rs →
  0 ≤ gpr m RSP < 2 ^ 64 - 8 * Z.of_nat (length rs) → gpr m RSP mod 8 = 0 →
  words (ram m) (gpr m RSP) vs →
  (∀ m', pc m' = base + Z.of_nat (length rs) → (∀ r, r ∉ RSP :: rs → gpr m' r = gpr m r) →
    gpr m' RSP = gpr m RSP + 8 * Z.of_nat (length rs) → gpr m' <$> rs = vs →
    ram m' = ram m → flags m' = flags m → segs m' = segs m → wp (run code n) m' Q) →
  wp (run code (length rs + n)) m Q.
Proof.
  revert base m vs. induction rs as [|r rs IH]; intros base m vs Hl Hpc Hsp Hnd Hlen Hr Ha Hw HQ.
  - destruct vs; [|done]. cbn in *. apply HQ; try done; lia.
  - destruct vs as [|v vs]; [done|]. change (r :: rs) with ([r] ++ rs) in Hl. rewrite fmap_app in Hl.
    apply loaded_app in Hl as [Hl1 Hl2]. cbn [length] in *. injection Hlen as Hlen. destruct Hw as [Hv Hw].
    eapply (wp_run_at _ base _ 0%nat); [exact Hl1|done|by rewrite Z.add_0_r|]. cbn [exec].
    apply wp_bind, wp_pop_op; norm; [lia|dlia|]. apply wp_modify. norm. rewrite Hv.
    apply not_elem_of_cons in Hsp as [Hsp1 Hsp2]. apply NoDup_cons in Hnd as [Hr1 Hnd].
    set (m1 := set_gpr r v _).
    assert (E2 : gpr m1 RSP = gpr m RSP + 8) by (unfold m1; norm; rewrite upd_other by done; by rewrite upd_same).
    apply (IH (base + 1) m1 vs); [done|done|done|done|done|lia|dlia|by rewrite E2|].
    intros m' Hpc' Hg' Hsp' Hvs' Hm' Hf' Hs'. apply HQ.
    + rewrite Hpc'. lia.
    + intros q Hq. rewrite !not_elem_of_cons in Hq. rewrite Hg' by (rewrite not_elem_of_cons; naive_solver).
      unfold m1. norm. by rewrite !upd_other by naive_solver.
    + lia.
    + rewrite fmap_cons, Hvs'. f_equal. rewrite Hg' by (rewrite not_elem_of_cons; naive_solver). unfold m1. by norm.
    + by rewrite Hm'.
    + by rewrite Hf'.
    + by rewrite Hs'.
Qed.

(** ** Entry *)

(** The CPU's part. *)
Lemma wp_interrupt target top err m Q :
  interruptible m top → (∀ e, err = Some e → 0 ≤ e < 2 ^ 64) →
  let ws := from_option (λ e, [e]) [] err ++ [pc m; segs m CS; flags m; gpr m RSP; segs m SS] in
  (∀ m', pc m' = target → (∀ r, r ≠ RSP → gpr m' r = gpr m r) →
    gpr m' RSP = top - 8 * Z.of_nat (length ws) → words (ram m') (gpr m' RSP) ws →
    (∀ x, ¬ (gpr m' RSP ≤ x < top) → ld (ram m') x = ld (ram m) x) → Q () m') →
  wp (interrupt target top err) m Q.
Proof.
  intros [[Hg Hf Hm] Hs Hp Ht Ha] He ws HQ. destruct m as [g f p mm sg c0 c3 gd id]. cbn [gpr flags pc ram segs] in *.
  assert (∀ s, 0 ≤ sg s < 2 ^ 64) by (intros s; specialize (Hs s); lia).
  unfold interrupt. apply wp_bind, wp_gets, wp_bind, wp_modify. norm.
  do 5 (apply wp_bind, wp_push_op; norm; [lia|dlia|]). apply wp_bind.
  destruct err as [e|]; [apply wp_push_op; norm; [lia|dlia|]|apply wp_ret];
    (apply wp_bind, wp_modify, wp_bind, wp_modify, wp_modify; norm; cbn in ws; apply HQ; norm; try done;
      [intros r Hr; by rewrite !upd_other|cbn; lia| |intros x Hx; by mload]).
  - cbn [words ws]. split_and!; try done; mload; apply u64_id; auto.
  - cbn [words ws]. split_and!; try done; mload; apply u64_id; auto.
Qed.

Definition handler_frame (top : Z) : Z := top - 176.

Lemma stubs_shape common v l :
  (v, l) ∈ isr_stubs common ++ irq_stubs common →
  0 ≤ v < 2 ^ 64 ∧ l = if pushes_error v then stub_error common v else stub_plain common v.
Proof.
  intros Hin. assert (H : Forall (λ x, 0 ≤ x.1 < 2 ^ 64 ∧ x.2 = if pushes_error x.1 then stub_error common x.1 else stub_plain common x.1)
    (isr_stubs common ++ irq_stubs common)).
  { cbn [isr_stubs irq_stubs app]. repeat (apply Forall_cons; split; [split; [cbn; lia|reflexivity]|]). by apply Forall_nil. }
  by apply (proj1 (Forall_forall _ _) H (v, l)).
Qed.
(** The stub of a vector, after the CPU's part. *)
Lemma wp_stub code target common v l top err m n Q :
  (v, l) ∈ isr_stubs common ++ irq_stubs common → loaded code target l → interruptible m top →
  (if pushes_error v then ∃ e, err = Some e ∧ 0 ≤ e < 2 ^ 64 else err = None) →
  (∀ m', pc m' = common → (∀ r, r ≠ RSP → gpr m' r = gpr m r) → gpr m' RSP = top - 56 →
    words (ram m') (top - 56) [v; default 0 err; pc m; segs m CS; flags m; gpr m RSP; segs m SS] →
    (∀ x, ¬ (top - 56 ≤ x < top) → ld (ram m') x = ld (ram m) x) → wp (run code n) m' Q) →
  wp (interrupt target top err;; run code (length l + n)) m Q.
Proof.
  intros Hin Hl Hib Herr HQ. destruct (stubs_shape _ _ _ Hin) as [Hv Hs].
  pose proof (ib_top _ _ Hib) as Ht. pose proof (ib_align _ _ Hib) as Ha.
  apply wp_bind, wp_interrupt; [done|by intros e ->; destruct (pushes_error v); naive_solver|]. intros m1 Hpc Hg Hsp Hw Hx.
  destruct (pushes_error v).
  - destruct Herr as (e & -> & He). subst l. cbn in Hsp, Hw. cbn [length Nat.add stub_error].
    eapply (wp_run_at _ target _ 0%nat); [exact Hl|done|by rewrite Z.add_0_r|]. cbn [exec]. apply wp_modify. norm.
    eapply (wp_run_at _ target _ 1%nat); [exact Hl|done|done|]. cbn [exec read]. apply wp_bind, wp_ret, wp_push_op; norm; [lia|dlia|].
    eapply (wp_run_at _ target _ 2%nat); [exact Hl|done|done|]. cbn [exec]. apply wp_modify. norm. apply HQ; norm; try done.
    + intros r Hr. rewrite upd_other by done. by apply Hg.
    + lia.
    + cbn [words default from_option id]. split; [mload; rewrite !u64_id by (rewrite ?u64_id; done); done|].
      replace (top - 56 + 8) with (gpr m1 RSP) by lia. cbn. eapply (words_ext (ram m1) _ _ [e; _; _; _; _; _]); [|exact Hw].
      intros x ?. by mload.
    + intros x ?. mload. apply Hx. lia.
  - subst err l. cbn in Hsp, Hw. cbn [length Nat.add stub_plain].
    eapply (wp_run_at _ target _ 0%nat); [exact Hl|done|by rewrite Z.add_0_r|]. cbn [exec]. apply wp_modify. norm.
    eapply (wp_run_at _ target _ 1%nat); [exact Hl|done|done|]. cbn [exec read]. apply wp_bind, wp_ret, wp_push_op; norm; [lia|dlia|].
    eapply (wp_run_at _ target _ 2%nat); [exact Hl|done|done|]. cbn [exec read]. apply wp_bind, wp_ret, wp_push_op; norm; [lia|dlia|].
    eapply (wp_run_at _ target _ 3%nat); [exact Hl|done|done|]. cbn [exec]. apply wp_modify. norm. apply HQ; norm; try done.
    + intros r Hr. rewrite !upd_other by done. by apply Hg.
    + lia.
    + cbn [words default from_option id]. split; [mload; rewrite !u64_id by (rewrite ?u64_id; done); done|].
      split; [mload; done|].
      replace (top - 56 + 8 + 8) with (gpr m1 RSP) by lia. eapply (words_ext (ram m1) _ _ [_; _; _; _; _]); [|exact Hw].
      intros x ?. by mload.
    + intros x ?. mload. apply Hx. lia.
Qed.

(** The common part, up to the call of the handler. *)
Lemma wp_common_entry code common handler top m m0 ws n Q :
  loaded code common (common_stub handler) → pc m = common → 256 ≤ top < 2 ^ 63 → top mod 8 = 0 →
  0 ≤ common < 2 ^ 63 → (∀ r, 0 ≤ gpr m0 r < 2 ^ 64) →
  (∀ r, r ≠ RSP → gpr m r = gpr m0 r) → gpr m RSP = top - 56 → words (ram m) (top - 56) ws → length ws = 7%nat →
  (∀ m', pc m' = handler → gpr m' RDI = top - 176 → gpr m' RSP = top - 184 →
    ld (ram m') (top - 184) = common + 17 → words (ram m') (top - 176) ((gpr m0 <$> popped) ++ ws) →
    (∀ x, ¬ (top - 184 ≤ x < top - 56) → ld (ram m') x = ld (ram m) x) → wp (run code n) m' Q) →
  wp (run code (17 + n)) m Q.
Proof.
  intros Hl Hpc Ht Ha Hc Hg0 Hg Hsp Hw Hlen HQ. apply loaded_app in Hl as [Hl1 Hl]. apply loaded_app in Hl as [Hl2 _].
  change (17 + n)%nat with (length pushed + (2 + n))%nat.
  apply (wp_push_block code common pushed); [done|done| |cbn; lia|dlia|..].
  { unfold pushed. rewrite !not_elem_of_cons. split_and!; try done. apply not_elem_of_nil. }
  { intros r. destruct (decide (r = RSP)) as [->|]; [lia|]. rewrite Hg by done. apply Hg0. }
  change (Z.of_nat (length pushed)) with 15. intros m1 Hpc1 Hg1 Hsp1 Hw1 Hx1 _ _.
  rewrite length_fmap in Hl2. change (Z.of_nat (length pushed)) with 15 in Hl2.
  assert (E1 : gpr m1 RSP = top - 176) by lia.
  eapply (wp_run_at _ (common + 15) _ 0%nat); [exact Hl2|done|by rewrite Z.add_0_r|]. apply wp_mov_rr. norm.
  eapply (wp_run_at _ (common + 15) _ 1%nat); [exact Hl2|done|done|]. cbn [exec]. norm.
  apply wp_bind, wp_gets, wp_bind, wp_push_op; norm; [lia|dlia|]. apply wp_modify. norm. rewrite E1.
  apply HQ; norm; try done.
  - lia.
  - rewrite ld_st_eq by lia. rewrite u64_id by lia. lia.
  - eapply (words_ext (ram m1)); [intros x ?; by mload|]. apply words_app. split.
    + rewrite E1 in Hw1. replace (gpr m0 <$> popped) with (rev (gpr m <$> pushed)); [done|]. cbn. by rewrite !Hg.
    + eapply (words_ext (ram m)); [|]. { rewrite Hlen. intros x Hx. apply Hx1. cbn in Hx. lia. }
      by replace (top - 176 + 8 * Z.of_nat (length (gpr m0 <$> popped))) with (top - 56) by (cbn; lia).
  - intros x ?. mload. apply Hx1. lia.
Qed.

(** The common part, after the handler. *)
Lemma wp_common_exit code common handler top m m0 int_no err :
  loaded code common (common_stub handler) → pc m = common + 17 → 256 ≤ top < 2 ^ 63 → top mod 8 = 0 →
  (∀ s, 0 ≤ segs m0 s < 2 ^ 16) → gpr m RSP = top - 176 → words (ram m) (top - 176) (registers_t m0 int_no err) →
  wp (run code 18) m (λ _ m', (∀ r, gpr m' r = gpr m0 r) ∧ pc m' = pc m0 ∧ flags m' = flags m0 ∧
    segs m' CS = segs m0 CS ∧ segs m' SS = segs m0 SS ∧ ram m' = ram m).
Proof.
  intros Hl Hpc Ht Ha Hs Hsp Hw. apply loaded_app in Hl as [_ Hl]. apply loaded_app in Hl as [_ Hl]. apply loaded_app in Hl as [Hl1 Hl2].
  rewrite !length_fmap in *. change (Z.of_nat (length pushed)) with 15 in *. cbn [length] in *.
  apply words_app in Hw as [Hw1 Hw2]. change (top - 176 + 8 * Z.of_nat (length (gpr m0 <$> popped))) with (top - 176 + 120) in Hw2.
  change 18%nat with (length popped + 3)%nat.
  apply (wp_pop_block code (common + 15 + 2) popped (gpr m0 <$> popped)); [done|lia|..].
  { unfold popped. rewrite !not_elem_of_cons. split_and!; try done. apply not_elem_of_nil. }
  { apply (bool_decide_unpack _). by vm_compute. }
  { done. } { cbn; lia. } { dlia. } { by rewrite Hsp. }
  change (Z.of_nat (length popped)) with 15. intros m1 Hpc1 _ Hsp1 Hvs Hm1 _ _.
  assert (Hg1 : ∀ r, r ≠ RSP → gpr m1 r = gpr m0 r) by (cbn in Hvs; injection Hvs as ???????????????; by intros []).
  cbn [words] in Hw2. destruct Hw2 as (_ & _ & W0 & W1 & W2 & W3 & W4 & _).
  set (b := common + 15 + 2 + 15) in *.
  eapply (wp_run_at _ b _ 0%nat); [exact Hl2|done|by rewrite Z.add_0_r|]. cbn [exec]. apply wp_bind, wp_gets, wp_bind, wp_modify, wp_modify. norm.
  rewrite (u64_id (gpr m1 RSP + 16)) by lia.
  eapply (wp_run_at _ b _ 1%nat); [exact Hl2|done|done|]. cbn [exec]. apply wp_modify. norm.
  eapply (wp_run_at _ b _ 2%nat); [exact Hl2|done|done|]. cbn [exec].
  do 5 (apply wp_bind, wp_pop_op; norm; [lia|dlia|]).
  repeat (apply wp_bind, wp_modify). apply wp_modify, wp_ret. norm. rewrite Hm1.
  replace (gpr m1 RSP + 16) with (top - 176 + 120 + 8 + 8) by lia. rewrite W0, W1, W2, W3, W4.
  split_and!; try done.
  - intros r. destruct (decide (r = RSP)) as [->|]; [by rewrite upd_same|]. rewrite !upd_other by done. by apply Hg1.
  - unfold u16. rewrite Z.mod_small; [done|apply Hs].
  - unfold u16. rewrite Z.mod_small; [done|apply Hs].
Qed.

(** ** Theorems *)

(** C5 (safety): interrupts are transparent.  For every vector the kernel
    installs, delivery and stub lead to [isr_handler] with a pointer to a
    [registers_t] that holds the interrupted registers, the vector in [int_no]
    and the CPU's error code (0 for a vector without one) in [err_code];
    nothing outside the 184 bytes below the stack top has changed.  When the
    handler has returned, the interrupted code continues with exactly its own
    registers, flags and stack, except for what the handler stored in the [rax]
    of the frame (the result of a system call). *)
Theorem interrupt_transparent code target common handler v l top err m :
  (v, l) ∈ isr_stubs common ++ irq_stubs common → loaded code target l → loaded code common (common_stub handler) →
  0 ≤ common < 2 ^ 63 → interruptible m top →
  (if pushes_error v then ∃ e, err = Some e ∧ 0 ≤ e < 2 ^ 64 else err = None) →
  wp (interrupt target top err;; run code (length l + 17)) m (λ _ m1,
    pc m1 = handler ∧ gpr m1 RDI = top - 176 ∧ words (ram m1) (top - 176) (registers_t m v (default 0 err)) ∧
    gpr m1 RSP = top - 184 ∧ ld (ram m1) (top - 184) = common + 17 ∧
    (∀ x, ¬ (top - 184 ≤ x < top) → ld (ram m1) x = ld (ram m) x) ∧
    ∀ m2 rax, pc m2 = common + 17 → gpr m2 RSP = top - 176 →
      words (ram m2) (top - 176) (registers_t (set_gpr RAX rax m) v (default 0 err)) →
      wp (run code 18) m2 (λ _ m3, (∀ r, gpr m3 r = if decide (r = RAX) then rax else gpr m r) ∧
        pc m3 = pc m ∧ flags m3 = flags m ∧ segs m3 CS = segs m CS ∧ segs m3 SS = segs m SS ∧ ram m3 = ram m2)).
Proof.
  intros Hin Hl Hlc Hc Hib Herr. pose proof (ib_top _ _ Hib) as Ht. pose proof (ib_align _ _ Hib) as Ha.
  eapply (wp_stub _ _ common v); [done..|]. intros m1 Hpc1 Hg1 Hsp1 Hw1 Hx1.
  eapply (wp_common_entry code common handler top m1 m _ 0); [done..| |done|done|exact Hw1|done|].
  { apply (mw_gpr _ (ib_wf _ _ Hib)). }
  intros m2 Hpc2 Hdi Hsp2 Hret Hw2 Hx2. apply wp_ret. split_and!; [done..| |].
  { intros x Hx. rewrite Hx2, Hx1 by lia. done. }
  intros m3 rax Hpc3 Hsp3 Hw3.
  eapply wp_mono; [apply (wp_common_exit code common handler top m3 (set_gpr RAX rax m) v (default 0 err)); try done|done].
  apply (ib_segs _ _ Hib).
Qed.

Definition demo_text : list instr := stub_plain 0x1010 128 ++ common_stub 0x3000.
Definition demo_cpu : machine :=
  Machine (λ r, match r with RAX => 20 | RSP => 0x7FF0 | RBX => 5 | _ => 1 end) 0x202 0x400123 ∅ (λ _, 0x1B) 0 0 0 0.
Lemma interrupt_transparent_witness :
  let code := place 0x100C demo_text in
  wp (interrupt 0x100C 0x9000 None;; run code 21) demo_cpu (λ _ m1,
    pc m1 = 0x3000 ∧ gpr m1 RDI = 0x9000 - 176 ∧ words (ram m1) (0x9000 - 176) (registers_t demo_cpu 128 0) ∧
    gpr m1 RSP = 0x9000 - 184 ∧ ld (ram m1) (0x9000 - 184) = 0x1010 + 17 ∧
    (∀ x, ¬ (0x9000 - 184 ≤ x < 0x9000) → ld (ram m1) x = ld (ram demo_cpu) x) ∧
    ∀ m2 rax, pc m2 = 0x1010 + 17 → gpr m2 RSP = 0x9000 - 176 →
      words (ram m2) (0x9000 - 176) (registers_t (set_gpr RAX rax demo_cpu) 128 0) →
      wp (run code 18) m2 (λ _ m3, (∀ r, gpr m3 r = if decide (r = RAX) then rax else gpr demo_cpu r) ∧
        pc m3 = 0x400123 ∧ flags m3 = 0x202 ∧ segs m3 CS = 0x1B ∧ segs m3 SS = 0x1B ∧ ram m3 = ram m2)).
Proof.
  intros code. apply (interrupt_transparent code 0x100C 0x1010 0x3000 128 (stub_plain 0x1010 128) 0x9000 None demo_cpu).
  - apply elem_of_app. right. unfold irq_stubs. rewrite !elem_of_cons. by do 2 right; left.
  - exact (proj1 (proj1 (loaded_app _ _ _ _) (place_loaded 0x100C demo_text))).
  - exact (proj2 (proj1 (loaded_app _ _ _ _) (place_loaded 0x100C demo_text))).
  - lia.
  - split; [split; [intros []; cbn; lia|cbn; lia|apply mem_wf_empty]|intros s; cbn; lia|cbn; lia|lia|reflexivity].
  - reflexivity.
Defined.
