(* ===== verification/Fs.v ===== *)
(** * The RAM filesystem (src/fs/fs.c, include/fs/fs.h)

    [ramfs_t] is the module's static state: 64 nodes, 1024 blocks of 512 bytes
    chained through [next_block], and a bitmap of blocks in use.  A node
    pointer is the index of the node, NULL is -1.  Directory entries live in
    the bytes of a directory's first block, as the code's cast to
    [fs_dirent_t *] has it.  A name that does not fit its array is undefined.

    A file is specified by its chain of blocks and the bytes in it: writing
    changes exactly the written range of exactly that file, reading returns
    it, blocks are never shared. *)
From S2P Require Import Prelude.

Definition FS_FILENAME_MAX : Z := 32.
Definition FS_MAX_FILES : Z := 64.
Definition FS_BLOCK_SIZE : Z := 512.
Definition FS_MAX_BLOCKS : Z := 1024.
Definition FS_TYPE_FILE : Z := 1.
Definition FS_TYPE_DIR : Z := 2.
Definition FS_PERM_READ : Z := 4.
Definition FS_PERM_WRITE : Z := 2.
Definition FS_PERM_EXEC : Z := 1.

Record fs_node_t := FsNode {
  n_name : list Z;
  n_type : Z;
  n_size : Z;
  n_permissions : Z;
  n_first_block : Z;
  n_created_time : Z;
  n_modified_time : Z;
  n_inode_num : Z;
}.
Record fs_dirent_t := FsDirent { d_name : list Z; d_inode : Z }.
Record fs_block_t := FsBlock { b_data : list Z; b_next : Z }.
Record ramfs_t := Ramfs {
  nodes : list fs_node_t;
  blocks : list fs_block_t;
  free_blocks : list Z;
  next_inode : Z;
  root : Z;
}.

Definition set_nodes (v : list fs_node_t) (s : ramfs_t) : ramfs_t := Ramfs v (blocks s) (free_blocks s) (next_inode s) (root s).
Definition set_blocks (v : list fs_block_t) (s : ramfs_t) : ramfs_t := Ramfs (nodes s) v (free_blocks s) (next_inode s) (root s).
Definition set_free_blocks (v : list Z) (s : ramfs_t) : ramfs_t := Ramfs (nodes s) (blocks s) v (next_inode s) (root s).
Definition set_next_inode (v : Z) (s : ramfs_t) : ramfs_t := Ramfs (nodes s) (blocks s) (free_blocks s) v (root s).
Definition set_root (v : Z) (s : ramfs_t) : ramfs_t := Ramfs (nodes s) (blocks s) (free_blocks s) (next_inode s) v.

Definition set_n_size (v : Z) (n : fs_node_t) : fs_node_t :=
  FsNode (n_name n) (n_type n) v (n_permissions n) (n_first_block n) (n_created_time n) (n_modified_time n) (n_inode_num n).
Definition set_n_first_block (v : Z) (n : fs_node_t) : fs_node_t :=
  FsNode (n_name n) (n_type n) (n_size n) (n_permissions n) v (n_created_time n) (n_modified_time n) (n_inode_num n).
Definition set_n_inode (v : Z) (n : fs_node_t) : fs_node_t :=
  FsNode (n_name n) (n_type n) (n_size n) (n_permissions n) (n_first_block n) (n_created_time n) (n_modified_time n) v.

(** The value -1 as a [uint32_t]. *)
Definition NIL : Z := 0xFFFFFFFF.

(** [ramfs.nodes[i]] and [ramfs.blocks[b]], read and written. *)
Definition get_node (i : Z) : M ramfs_t fs_node_t := ns ← gets nodes; lift_opt (arr_get ns i).
Definition put_node (i : Z) (n : fs_node_t) : M ramfs_t unit :=
  ns ← gets nodes; ns' ← lift_opt (arr_set ns i n); modify (set_nodes ns').
Definition get_block (b : Z) : M ramfs_t fs_block_t := bs ← gets blocks; lift_opt (arr_get bs b).
Definition put_block (b : Z) (v : fs_block_t) : M ramfs_t unit :=
  bs ← gets blocks; bs' ← lift_opt (arr_set bs b v); modify (set_blocks bs').
Definition put_next (b next : Z) : M ramfs_t unit := v ← get_block b; put_block b (FsBlock (b_data v) next).

(** [memcpy] into and out of an array. *)
Definition splice (l : list Z) (off : Z) (d : list Z) : option (list Z) :=
  if (0 <=? off) && (off + Z.of_nat (length d) <=? Z.of_nat (length l))
  then Some (take (Z.to_nat off) l ++ d ++ drop (Z.to_nat off + length d) l) else None.
Definition slice (l : list Z) (off n : Z) : option (list Z) :=
  if (0 <=? off) && (0 <=? n) && (off + n <=? Z.of_nat (length l))
  then Some (take (Z.to_nat n) (drop (Z.to_nat off) l)) else None.

(** ** Blocks *)

Definition allocate_block : M ramfs_t Z :=
  r ← for_until (Z.to_nat FS_MAX_BLOCKS) 0 (λ i,
    let word := i / 32 in
    let bit := i mod 32 in
    fb ← gets free_blocks;
    w ← lift_opt (arr_get fb word);
    if Z.land w (u32 (Z.shiftl 1 bit)) =? 0 then
      fb' ← lift_opt (arr_set fb word (u32 (Z.lor w (Z.shiftl 1 bit))));
      modify (set_free_blocks fb');;
      put_next i NIL;;
      mret (Some i)
    else mret None);
  mret (default (-1) r).

Definition free_block (block : Z) : M ramfs_t unit :=
  if FS_MAX_BLOCKS <=? block then mret () else
  let word := block / 32 in
  let bit := block mod 32 in
  fb ← gets free_blocks;
  w ← lift_opt (arr_get fb word);
  fb' ← lift_opt (arr_set fb word (u32 (Z.land w (u32 (Z.lnot (Z.shiftl 1 bit))))));
  modify (set_free_blocks fb').

(** ** Files *)

(** No chain is longer than this, which bounds the loops over one. *)
Definition FS_FUEL : nat := Z.to_nat (FS_MAX_BLOCKS + 1).

(** "Skip to starting block" of [ramfs_read]. *)
Fixpoint skip_read (fuel : nat) (block_num block_offset : Z) : M ramfs_t (Z * Z) :=
  match fuel with
  | O => out_of_fuel
  | S fuel' =>
      if (FS_BLOCK_SIZE <=? block_offset) && negb (block_num =? NIL) then
        b ← get_block block_num;
        skip_read fuel' (b_next b) (block_offset - FS_BLOCK_SIZE)
      else mret (block_num, block_offset)
  end.
(** The copying loop; [out] is what it has put in the caller's buffer. *)
Fixpoint read_loop (fuel : nat) (block_num block_offset size bytes_read : Z) (out : list Z) : M ramfs_t (Z * list Z) :=
  match fuel with
  | O => out_of_fuel
  | S fuel' =>
      if (bytes_read <? size) && negb (block_num =? NIL) then
        let to_read := u32 (FS_BLOCK_SIZE - block_offset) in
        let to_read := if size - bytes_read <? to_read then size - bytes_read else to_read in
        b ← get_block block_num;
        d ← lift_opt (slice (b_data b) block_offset to_read);
        read_loop fuel' (b_next b) 0 size (u32 (bytes_read + to_read)) (out ++ d)
      else mret (bytes_read, out)
  end.
Definition ramfs_read (node offset size : Z) : M ramfs_t (Z * list Z) :=
  n ← get_node node;
  if negb (n_type n =? FS_TYPE_FILE) then mret (-1, []) else
  if n_size n <=? offset then mret (0, []) else
  let size := if n_size n <? u32 (offset + size) then n_size n - offset else size in
  start ← skip_read FS_FUEL (n_first_block n) offset;
  r ← read_loop FS_FUEL start.1 start.2 size 0 [];
  mret (s32 r.1, r.2).

(** "Need new block": the chain is extended when [block_num] is its end. *)
Definition next_or_new (block_num : Z) : M ramfs_t (option Z) :=
  b ← get_block block_num;
  if b_next b =? NIL then
    new_block ← allocate_block;
    if new_block =? -1 then mret None else
    put_next block_num (u32 new_block);;
    b ← get_block block_num;
    mret (Some (b_next b))
  else mret (Some (b_next b)).

Fixpoint skip_write (fuel : nat) (block_num block_offset : Z) : M ramfs_t (option (Z * Z)) :=
  match fuel with
  | O => out_of_fuel
  | S fuel' =>
      if FS_BLOCK_SIZE <=? block_offset then
        r ← next_or_new block_num;
        match r with
        | None => mret None
        | Some next => skip_write fuel' next (block_offset - FS_BLOCK_SIZE)
        end
      else mret (Some (block_num, block_offset))
  end.
Fixpoint write_loop (fuel : nat) (block_num block_offset size bytes_written : Z) (buffer : list Z) : M ramfs_t Z :=
  match fuel with
  | O => out_of_fuel
  | S fuel' =>
      if bytes_written <? size then
        let to_write := u32 (FS_BLOCK_SIZE - block_offset) in
        let to_write := if size - bytes_written <? to_write then size - bytes_written else to_write in
        b ← get_block block_num;
        d ← lift_opt (slice buffer bytes_written to_write);
        data ← lift_opt (splice (b_data b) block_offset d);
        put_block block_num (FsBlock data (b_next b));;
        let bytes_written := u32 (bytes_written + to_write) in
        if bytes_written <? size then
          r ← next_or_new block_num;
          match r with
          | None => mret bytes_written
          | Some next => write_loop fuel' next 0 size bytes_written buffer
          end
        else write_loop fuel' block_num 0 size bytes_written buffer
      else mret bytes_written
  end.
Definition ramfs_write (node offset size : Z) (buffer : list Z) : M ramfs_t Z :=
  n ← get_node node;
  if negb (n_type n =? FS_TYPE_FILE) then mret (-1) else
  (if n_first_block n =? NIL then
     b ← allocate_block;
     n ← get_node node;
     put_node node (set_n_first_block (u32 b) n)
   else mret ());;
  n ← get_node node;
  if n_first_block n =? NIL then mret (-1) else
  start ← skip_write FS_FUEL (n_first_block n) offset;
  match start with
  | None => mret (-1)
  | Some start =>
      written ← write_loop FS_FUEL start.1 start.2 size 0 buffer;
      n ← get_node node;
      (if n_size n <? u32 (offset + written)
       then put_node node (set_n_size (u32 (offset + written)) n) else mret ());;
      mret (s32 written)
  end.

Definition ramfs_open (node : Z) : M ramfs_t unit := mret ().
Definition ramfs_close (node : Z) : M ramfs_t unit := mret ().

(** ** Directories: entries of 36 bytes, the name and a [uint32_t] *)

Definition DIRENT_SIZE : Z := 36.
Definition MAX_ENTRIES : Z := FS_BLOCK_SIZE / DIRENT_SIZE.
Definition le32 (b : list Z) : Z := fold_right (λ x acc, x + 256 * acc) 0 b.
Definition le32_bytes (v : Z) : list Z := [v mod 256; v / 256 mod 256; v / 65536 mod 256; v / 16777216 mod 256].
Definition entry_at (data : list Z) (i : Z) : option fs_dirent_t :=
  e ← slice data (DIRENT_SIZE * i) DIRENT_SIZE;
  Some (FsDirent (take 32 e) (le32 (drop 32 e))).
Definition put_entry (data : list Z) (i : Z) (e : fs_dirent_t) : option (list Z) :=
  splice data (DIRENT_SIZE * i) (d_name e ++ le32_bytes (d_inode e)).

(** [entries[i]] of the directory block [b]. *)
Definition get_entry (b i : Z) : M ramfs_t fs_dirent_t := v ← get_block b; lift_opt (entry_at (b_data v) i).

Definition ramfs_readdir (node index : Z) : M ramfs_t (option fs_dirent_t) :=
  n ← get_node node;
  if negb (n_type n =? FS_TYPE_DIR) then mret None else
  if n_first_block n =? NIL then mret None else
  (fix go (k : nat) (i count : Z) : M ramfs_t (option fs_dirent_t) :=
     match k with
     | O => mret None
     | S k' =>
         e ← get_entry (n_first_block n) i;
         if negb (d_inode e =? 0) then
           if count =? index then mret (Some e) else go k' (i + 1) (u32 (count + 1))
         else go k' (i + 1) count
     end) (Z.to_nat MAX_ENTRIES) 0 0.

(** The node with an inode number, -1 when there is none. *)
Definition find_inode (inode : Z) : M ramfs_t (option Z) :=
  for_until (Z.to_nat FS_MAX_FILES) 0 (λ j,
    n ← get_node j; mret (if n_inode_num n =? inode then Some j else None)).
Definition ramfs_finddir (node : Z) (name : list Z) : M ramfs_t Z :=
  n ← get_node node;
  if negb (n_type n =? FS_TYPE_DIR) then mret (-1) else
  if n_first_block n =? NIL then mret (-1) else
  r ← for_until (Z.to_nat MAX_ENTRIES) 0 (λ i,
    e ← get_entry (n_first_block n) i;
    if negb (d_inode e =? 0) && bool_decide (c_string (d_name e) = name) then find_inode (d_inode e) else mret None);
  mret (default (-1) r).

(** "Find free node". *)
Definition find_free_node : M ramfs_t (option Z) :=
  for_until (Z.to_nat FS_MAX_FILES) 0 (λ i, n ← get_node i; mret (if n_inode_num n =? 0 then Some i else None)).

(** "Initialize node", with a type, permissions and first block. *)
Definition init_node (i : Z) (name : list Z) (type permissions first_block : Z) : M ramfs_t unit :=
  ino ← gets next_inode;
  modify (set_next_inode (u32 (ino + 1)));;
  n ← get_node i;
  nm ← lift_opt (strcpy (n_name n) name);
  put_node i (FsNode nm type 0 permissions first_block (n_created_time n) (n_modified_time n) ino).

(** "Add to parent directory": in the first free entry, if there is one. *)
Definition add_entry (parent : Z) (name : list Z) (inode : Z) : M ramfs_t unit :=
  p ← get_node parent;
  if n_first_block p =? NIL then mret () else
  for_until (Z.to_nat MAX_ENTRIES) 0 (λ i,
    e ← get_entry (n_first_block p) i;
    if d_inode e =? 0 then
      nm ← lift_opt (strcpy (d_name e) name);
      b ← get_block (n_first_block p);
      data ← lift_opt (put_entry (b_data b) i (FsDirent nm inode));
      put_block (n_first_block p) (FsBlock data (b_next b));;
      p ← get_node parent;
      put_node parent (set_n_size (u32 (n_size p + 1)) p);;
      mret (Some ())
    else mret None);;
  mret ().

Definition ramfs_create_file (parent : Z) (name : list Z) : M ramfs_t Z :=
  p ← get_node parent;
  if negb (n_type p =? FS_TYPE_DIR) then mret (-1) else
  free_node ← find_free_node;
  match free_node with
  | None => mret (-1)
  | Some node =>
      init_node node name FS_TYPE_FILE (Z.lor FS_PERM_READ FS_PERM_WRITE) NIL;;
      n ← get_node node;
      add_entry parent name (n_inode_num n);;
      mret node
  end.

Definition ramfs_create_dir (parent : Z) (name : list Z) : M ramfs_t Z :=
  p ← get_node parent;
  if negb (n_type p =? FS_TYPE_DIR) then mret (-1) else
  free_node ← find_free_node;
  match free_node with
  | None => mret (-1)
  | Some node =>
      init_node node name FS_TYPE_DIR (Z.lor (Z.lor FS_PERM_READ FS_PERM_WRITE) FS_PERM_EXEC) 0;;
      b ← allocate_block;
      n ← get_node node;
      put_node node (set_n_first_block (u32 b) n);;
      n ← get_node node;
      if n_first_block n =? NIL then
        put_node node (set_n_inode 0 n);;
        mret (-1)
      else
        v ← get_block (n_first_block n);
        put_block (n_first_block n) (FsBlock (replicate (Z.to_nat FS_BLOCK_SIZE) 0) (b_next v));;
        add_entry parent name (n_inode_num n);;
        mret node
  end.

(** The dispatch through [ramfs_ops], which [fs_init] sets up. *)
Definition fs_root : M ramfs_t Z := gets root.
Definition fs_read := ramfs_read.
Definition fs_write := ramfs_write.
Definition fs_open := ramfs_open.
Definition fs_close := ramfs_close.
Definition fs_readdir := ramfs_readdir.
Definition fs_finddir := ramfs_finddir.

(** One of the initial files: created, found again and written. *)
Definition init_file (name msg : list Z) : M ramfs_t unit :=
  r ← gets root;
  ramfs_create_file r name;;
  f ← ramfs_finddir r name;
  if negb (f =? -1) then ramfs_write f 0 (Z.of_nat (length msg)) msg;; mret () else mret ().
Definition fs_init : M ramfs_t unit :=
  for_loop (Z.to_nat FS_MAX_FILES) 0 (λ i, n ← get_node i; put_node i (set_n_inode 0 n));;
  for_loop (Z.to_nat (FS_MAX_BLOCKS / 32)) 0 (λ i,
    fb ← gets free_blocks; fb' ← lift_opt (arr_set fb i 0); modify (set_free_blocks fb'));;
  modify (set_next_inode 1);;
  init_node 0 (bytes_of "/") FS_TYPE_DIR (Z.lor (Z.lor FS_PERM_READ FS_PERM_WRITE) FS_PERM_EXEC) 0;;
  b ← allocate_block;
  n ← get_node 0;
  put_node 0 (set_n_first_block (u32 b) n);;
  modify (set_root 0);;
  init_file (bytes_of "hello.txt") (bytes_of "Hello from SimpleOS filesystem!
");;
  init_file (bytes_of "readme.txt") (bytes_of "This is a simple RAM-based filesystem.
Files are stored in memory.
").

(** ** Specifications *)

(** Whether block [x] is in use. *)
Definition bit_used (fb : list Z) (x : Z) : bool := Z.testbit (default 0 (arr_get fb (x / 32))) (x mod 32).

(** The blocks [l] are chained from [b]. *)
Fixpoint chain (bs : list fs_block_t) (b : Z) (l : list Z) : Prop :=
  match l with
  | [] => b = NIL
  | x :: l' => b = x ∧ ∃ v, arr_get bs x = Some v ∧ chain bs (b_next v) l'
  end.

(** The data of a block, and byte [i] of the chain [l]. *)
Definition data_of (bs : list fs_block_t) (x : Z) : option (list Z) := b_data <$> arr_get bs x.
Definition byte_at (bs : list fs_block_t) (l : list Z) (i : Z) : option Z :=
  x ← arr_get l (i / FS_BLOCK_SIZE);
  d ← data_of bs x;
  arr_get d (i mod FS_BLOCK_SIZE).

(** Array sizes, and 32-bit bitmap words. *)
Record shape (s : ramfs_t) : Prop := {
  sh_nodes : Z.of_nat (length (nodes s)) = FS_MAX_FILES;
  sh_blocks : Z.of_nat (length (blocks s)) = FS_MAX_BLOCKS;
  sh_data x v : arr_get (blocks s) x = Some v → Z.of_nat (length (b_data v)) = FS_BLOCK_SIZE;
  sh_bitmap : Z.of_nat (length (free_blocks s)) = FS_MAX_BLOCKS / 32;
  sh_words w : w ∈ free_blocks s → 0 ≤ w < 2 ^ 32;
}.

(** The filesystem invariant: [cs j] is the chain of node [j]. *)
Record fs_wf (s : ramfs_t) (cs : Z → list Z) : Prop := {
  fw_shape : shape s;
  fw_chain j n : arr_get (nodes s) j = Some n → n_inode_num n ≠ 0 → chain (blocks s) (n_first_block n) (cs j);
  fw_free j n : arr_get (nodes s) j = Some n → n_inode_num n = 0 → cs j = [];
  fw_nodup j : NoDup (cs j);
  fw_disjoint j k x : x ∈ cs j → x ∈ cs k → j = k;
  fw_range j x : x ∈ cs j → 0 ≤ x < FS_MAX_BLOCKS ∧ bit_used (free_blocks s) x = true;
  fw_size j n : arr_get (nodes s) j = Some n → n_inode_num n ≠ 0 → n_type n = FS_TYPE_FILE →
    0 ≤ n_size n ≤ FS_BLOCK_SIZE * Z.of_nat (length (cs j));
  fw_inode j k n m : arr_get (nodes s) j = Some n → arr_get (nodes s) k = Some m →
    n_inode_num n ≠ 0 → n_inode_num n = n_inode_num m → j = k;
}.

Definition fupd (j : Z) (l : list Z) (cs : Z → list Z) : Z → list Z := λ k, if decide (k = j) then l else cs k.
Lemma fupd_same j l cs : fupd j l cs j = l.
Proof. unfold fupd. by rewrite decide_True. Qed.
Lemma fupd_other j k l cs : k ≠ j → fupd j l cs k = cs k.
Proof. intros. unfold fupd. by rewrite decide_False. Qed.

(** ** Accesses *)

Lemma wp_get_node s i n Q : arr_get (nodes s) i = Some n → Q n s → wp (get_node i) s Q.
Proof. intros E HQ. unfold get_node. wp_go. by rewrite E. Qed.
Lemma wp_put_node s i n Q :
  0 ≤ i < Z.of_nat (length (nodes s)) → Q () (set_nodes (<[Z.to_nat i := n]> (nodes s)) s) → wp (put_node i n) s Q.
Proof. intros Hi HQ. unfold put_node. wp_go. rewrite arr_set_in by done. by wp_go. Qed.
Lemma wp_get_block s i n Q : arr_get (blocks s) i = Some n → Q n s → wp (get_block i) s Q.
Proof. intros E HQ. unfold get_block. wp_go. by rewrite E. Qed.
Lemma wp_put_block s i n Q :
  0 ≤ i < Z.of_nat (length (blocks s)) → Q () (set_blocks (<[Z.to_nat i := n]> (blocks s)) s) → wp (put_block i n) s Q.
Proof. intros Hi HQ. unfold put_block. wp_go. rewrite arr_set_in by done. by wp_go. Qed.
Lemma wp_link_block s i v nx Q :
  arr_get (blocks s) i = Some v →
  Q () (set_blocks (<[Z.to_nat i := FsBlock (b_data v) nx]> (blocks s)) s) → wp (put_next i nx) s Q.
Proof.
  intros E HQ. unfold put_next. apply wp_bind. eapply wp_get_block; [exact E|].
  apply wp_put_block; [|done]. by apply arr_get_Some in E as [? _].
Qed.

Lemma shape_put_block s i v :
  shape s → 0 ≤ i < FS_MAX_BLOCKS → Z.of_nat (length (b_data v)) = FS_BLOCK_SIZE →
  shape (set_blocks (<[Z.to_nat i := v]> (blocks s)) s).
Proof.
  intros [Hn Hb Hd Hf Hw] Hi Hv. split; cbn [nodes blocks free_blocks set_blocks]; try done.
  - by rewrite length_insert.
  - intros x u. rewrite arr_get_insert by lia. destruct (x =? i); [by intros [= <-]|apply Hd].
Qed.
Lemma shape_put_node s i n : shape s → shape (set_nodes (<[Z.to_nat i := n]> (nodes s)) s).
Proof. intros [Hn Hb Hd Hf Hw]. split; cbn [nodes blocks free_blocks set_nodes]; try done. by rewrite length_insert. Qed.

(** ** Allocating a block *)

(** Block [r], free in [s], is taken and ends a chain. *)
Record allocated (s s' : ramfs_t) (r : Z) : Prop := {
  al_nodes : nodes s' = nodes s;
  al_inode : next_inode s' = next_inode s;
  al_root : root s' = root s;
  al_blocks x : arr_get (blocks s') x =
    if x =? r then (λ v, FsBlock (b_data v) NIL) <$> arr_get (blocks s) x else arr_get (blocks s) x;
  al_bits x : 0 ≤ x < FS_MAX_BLOCKS → bit_used (free_blocks s') x = (x =? r) || bit_used (free_blocks s) x;
}.

Lemma bitmap_word s x : shape s → 0 ≤ x < FS_MAX_BLOCKS →
  ∃ w, arr_get (free_blocks s) (x / 32) = Some w ∧ 0 ≤ w < 2 ^ 32.
Proof.
  intros Hs Hx. unfold FS_MAX_BLOCKS in *. destruct (arr_get_is_Some (free_blocks s) (x / 32)) as [w Hw].
  { rewrite (sh_bitmap _ Hs). unfold FS_MAX_BLOCKS. dlia. }
  exists w. split; [done|]. apply (sh_words _ Hs). apply arr_get_Some in Hw as [_ Hw]. by eapply list_elem_of_lookup_2.
Qed.

Lemma wp_allocate s :
  shape s → wp allocate_block s (λ r s',
    (r = -1 ∧ s' = s ∧ ∀ x, 0 ≤ x < FS_MAX_BLOCKS → bit_used (free_blocks s) x = true) ∨
    (0 ≤ r < FS_MAX_BLOCKS ∧ bit_used (free_blocks s) r = false ∧ allocated s s' r ∧ shape s')).
Proof.
  intros Hs. unfold allocate_block. apply wp_bind.
  apply (wp_for_until (λ i s', s' = s ∧ ∀ x, 0 ≤ x < i → bit_used (free_blocks s) x = true)).
  { split; [done|]. intros; lia. }
  - intros i s' Hi [-> Hall]. change (Z.of_nat (Z.to_nat FS_MAX_BLOCKS)) with FS_MAX_BLOCKS in Hi.
    destruct (bitmap_word s i Hs) as (w & Hw & Hwr); [lia|].
    assert (Hbit : bit_used (free_blocks s) i = Z.testbit w (i mod 32)) by (unfold bit_used; by rewrite Hw).
    apply wp_bind, wp_gets, wp_bind. eapply wp_lift_opt; [exact Hw|].
    pose proof (word_test_bit w (i mod 32) Hwr) as Ht. destruct (Z.land w _ =? 0) eqn:E; cbn [negb] in Ht.
    + assert (Hr : 0 ≤ i / 32 < Z.of_nat (length (free_blocks s))) by by apply arr_get_Some in Hw as [? _].
      apply wp_bind. eapply wp_lift_opt; [by apply arr_set_in|]. apply wp_bind, wp_modify, wp_bind.
      destruct (arr_get_is_Some (blocks s) i) as [v Hv]. { rewrite (sh_blocks _ Hs). lia. }
      eapply wp_link_block; [exact Hv|]. apply wp_ret, wp_ret. right. cbn [default from_option id].
      assert (Hshape : shape (set_free_blocks (<[Z.to_nat (i / 32) := u32 (Z.lor w (Z.shiftl 1 (i mod 32)))]> (free_blocks s)) s)).
      { destruct Hs as [? ? ? Hf Hws]. split; cbn [nodes blocks free_blocks set_free_blocks]; try done; [by rewrite length_insert|].
        intros y [k Hk]%list_elem_of_lookup. apply list_lookup_insert_Some in Hk as [(_ & <- & _)|[_ Hk]]; [apply u32_range|].
        by eapply Hws, list_elem_of_lookup_2. }
      split_and!; [lia|lia|rewrite Hbit, <- Ht by dlia; done| |].
      * split; try done; cbn [blocks free_blocks set_blocks set_free_blocks].
        -- intros x. rewrite arr_get_insert by (rewrite (sh_blocks _ Hs); lia). destruct (Z.eqb_spec x i) as [->|]; [by rewrite Hv|done].
        -- intros x Hx. unfold bit_used. rewrite arr_get_insert by done. destruct (Z.eqb_spec (x / 32) (i / 32)) as [Ew|Ew]; cbn [default from_option id].
           ++ rewrite word_set_bit by dlia. rewrite Ew, Hw. cbn. f_equal. destruct (Z.eqb_spec x i) as [->|Hxi]; [by rewrite Z.eqb_refl|].
              apply Z.eqb_neq. dlia.
           ++ rewrite (proj2 (Z.eqb_neq x i)); [done|]. by intros ->.
      * eapply shape_put_block; [exact Hshape|lia|]. exact (sh_data _ Hs i v Hv).
    + apply wp_ret. split; [done|]. intros x Hx. destruct (decide (x = i)) as [->|]; [|apply Hall; lia].
      rewrite Hbit, <- Ht by dlia. done.
  - change (Z.of_nat (Z.to_nat FS_MAX_BLOCKS)) with FS_MAX_BLOCKS. intros s' [-> Hall]. apply wp_ret. left. split_and!; [done|done|].
    intros x Hx. apply Hall. lia.
Qed.

(** ** Chains *)

Definition next_of (bs : list fs_block_t) (x : Z) : option Z := b_next <$> arr_get bs x.

Lemma chain_frame bs bs' b l : (∀ x, x ∈ l → next_of bs' x = next_of bs x) → chain bs b l → chain bs' b l.
Proof.
  revert b. induction l as [|x l IH]; intros b Hx H; [done|]. destruct H as [-> (v & Hv & H)]. split; [done|].
  pose proof (Hx x ltac:(constructor)) as E. unfold next_of in E. rewrite Hv in E.
  destruct (arr_get bs' x) as [v'|]; [|done]. exists v'. split; [done|]. injection E as ->. apply IH; [|done].
  intros y Hy. apply Hx. by constructor.
Qed.
Lemma chain_block bs b l1 x l2 : chain bs b (l1 ++ x :: l2) → ∃ v, arr_get bs x = Some v ∧ chain bs (b_next v) l2.
Proof.
  revert b. induction l1 as [|y l1 IH]; intros b H; destruct H as [-> (v & Hv & H)]; [by exists v|]. by eapply IH.
Qed.
Lemma chain_snoc bs bs' b l x r :
  chain bs b (l ++ [x]) → (∀ y, y ∈ l → next_of bs' y = next_of bs y) →
  next_of bs' x = Some r → next_of bs' r = Some NIL → chain bs' b (l ++ [x; r]).
Proof.
  intros H Hl Hx Hr. revert b H Hl. induction l as [|y l IH]; intros b H Hl; destruct H as [-> (v & Hv & H)].
  - unfold next_of in *. destruct (arr_get bs' x) as [vx|] eqn:Ex; [|done]. destruct (arr_get bs' r) as [vr|] eqn:Er; [|done].
    injection Hx as Hx. injection Hr as Hr. cbn. split; [done|]. exists vx. split; [done|]. split; [done|]. by exists vr.
  - pose proof (Hl y ltac:(constructor)) as E. unfold next_of in E. rewrite Hv in E.
    destruct (arr_get bs' y) as [v'|] eqn:Ey; [|done]. injection E as E. cbn. split; [done|]. exists v'. split; [done|].
    rewrite E. apply IH; [done|]. intros z Hz. apply Hl. by constructor.
Qed.
Lemma chain_nil_inv bs l : Z.of_nat (length bs) = FS_MAX_BLOCKS → chain bs NIL l → l = [].
Proof.
  intros Hlen. destruct l as [|x l]; [done|]. intros [<- (v & Hv & _)]. apply arr_get_Some in Hv as [Hv _].
  unfold FS_MAX_BLOCKS, NIL in *. lia.
Qed.
Lemma chain_first bs b x l : chain bs b (x :: l) → b = x.
Proof. by intros [? _]. Qed.

(** A chain is no longer than the disk. *)
Lemma chain_length s cs j : fs_wf s cs → Z.of_nat (length (cs j)) ≤ FS_MAX_BLOCKS.
Proof.
  intros Hw. assert (cs j ⊆+ seqZ 0 FS_MAX_BLOCKS) as H%submseteq_length.
  { apply NoDup_submseteq; [apply (fw_nodup _ _ Hw)|]. intros x Hx. apply elem_of_seqZ.
    destruct (fw_range _ _ Hw j x Hx). lia. }
  rewrite length_seqZ in H. unfold FS_MAX_BLOCKS in *. lia.
Qed.
Lemma wf_block s cs j l1 x l2 :
  fs_wf s cs → cs j = l1 ++ x :: l2 →
  (∃ n, arr_get (nodes s) j = Some n ∧ n_inode_num n ≠ 0) →
  0 ≤ x < FS_MAX_BLOCKS ∧ ∃ v, arr_get (blocks s) x = Some v ∧ Z.of_nat (length (b_data v)) = FS_BLOCK_SIZE ∧
    chain (blocks s) (b_next v) l2.
Proof.
  intros Hw E (n & Hn & Hi). split; [apply (fw_range _ _ Hw j); rewrite E; set_solver|].
  pose proof (fw_chain _ _ Hw j n Hn Hi) as Hc. rewrite E in Hc. apply chain_block in Hc as (v & Hv & Hc).
  exists v. split_and!; [done| |done]. by apply (sh_data _ (fw_shape _ _ Hw) x).
Qed.

(** A free block is in no chain. *)
Lemma wf_fresh s cs r k : fs_wf s cs → bit_used (free_blocks s) r = false → r ∉ cs k.
Proof. intros Hw Hr Hin. apply (fw_range _ _ Hw) in Hin as [_ ?]. congruence. Qed.

(** The chain of node [j] gets the new block [r] at its end. *)
Lemma wf_grow s s' cs j r n n' :
  fs_wf s cs → 0 ≤ r < FS_MAX_BLOCKS → bit_used (free_blocks s) r = false → shape s' →
  arr_get (nodes s) j = Some n → arr_get (nodes s') j = Some n' → n_inode_num n ≠ 0 →
  n_inode_num n' = n_inode_num n → n_type n' = n_type n → n_size n' = n_size n →
  (∀ k, k ≠ j → arr_get (nodes s') k = arr_get (nodes s) k) →
  (∀ x, 0 ≤ x < FS_MAX_BLOCKS → bit_used (free_blocks s') x = (x =? r) || bit_used (free_blocks s) x) →
  (∀ x, x ∉ cs j → x ≠ r → next_of (blocks s') x = next_of (blocks s) x) →
  chain (blocks s') (n_first_block n') (cs j ++ [r]) →
  fs_wf s' (fupd j (cs j ++ [r]) cs).
Proof.
  intros Hw Hr Hfree Hs' Hn Hn' Hi Ei Et Es Hnodes Hbits Hnext Hch.
  assert (Hfresh : ∀ k, r ∉ cs k) by (intros k; by eapply wf_fresh).
  assert (Hin : ∀ k m, arr_get (nodes s') k = Some m → ∃ m0, arr_get (nodes s) k = Some m0 ∧
    n_inode_num m = n_inode_num m0 ∧ n_type m = n_type m0 ∧ n_size m = n_size m0).
  { intros k m Hm. destruct (decide (k = j)) as [->|]; [|rewrite Hnodes in Hm by done; eauto].
    rewrite Hn' in Hm. injection Hm as <-. eauto. }
  split; [done|..].
  - intros k m Hm Hmi. destruct (decide (k = j)) as [->|Hk].
    + rewrite fupd_same. rewrite Hn' in Hm. by injection Hm as <-.
    + rewrite fupd_other by done. rewrite Hnodes in Hm by done. eapply chain_frame; [|by apply (fw_chain _ _ Hw k)].
      intros x Hx. apply Hnext; [|by intros ->; eapply Hfresh]. intros Hxj. apply Hk. by apply (fw_disjoint _ _ Hw k j x).
  - intros k m Hm Hmi. destruct (Hin k m Hm) as (m0 & Hm0 & E & _). destruct (decide (k = j)) as [->|]; [congruence|].
    rewrite fupd_other by done. apply (fw_free _ _ Hw k m0); [done|congruence].
  - intros k. destruct (decide (k = j)) as [->|]; [rewrite fupd_same|rewrite fupd_other by done; apply (fw_nodup _ _ Hw)].
    apply NoDup_app. split_and!; [apply (fw_nodup _ _ Hw)| |apply NoDup_singleton].
    intros x Hx ->%list_elem_of_singleton. by eapply Hfresh.
  - assert (Hmem : ∀ k x, x ∈ fupd j (cs j ++ [r]) cs k → x ∈ cs k ∨ (x = r ∧ k = j)).
    { intros k x. unfold fupd. case_decide as Ek; [subst|by left]. intros [?| ->%list_elem_of_singleton]%elem_of_app; auto. }
    intros k1 k2 x [H1|[E1 Ek1]]%Hmem [H2|[E2 Ek2]]%Hmem; [by eapply (fw_disjoint _ _ Hw)|subst x..|congruence].
    + by destruct (Hfresh _ H1).
    + by destruct (Hfresh _ H2).
  - intros k x. unfold fupd. case_decide as Ek.
    + intros [Hx| ->%list_elem_of_singleton]%elem_of_app.
      * destruct (fw_range _ _ Hw j x Hx) as [? E]. split; [done|]. rewrite Hbits, E by done. by rewrite orb_true_r.
      * split; [done|]. by rewrite Hbits, Z.eqb_refl.
    + intros Hx. destruct (fw_range _ _ Hw k x Hx) as [? E]. split; [done|]. rewrite Hbits, E by done. by rewrite orb_true_r.
  - intros k m Hm Hmi Hmt. destruct (Hin k m Hm) as (m0 & Hm0 & E1 & E2 & E3).
    pose proof (fw_size _ _ Hw k m0 Hm0 ltac:(congruence) ltac:(congruence)) as Hsz. rewrite <- E3 in Hsz.
    unfold fupd. case_decide; [subst k; rewrite length_app; cbn; unfold FS_BLOCK_SIZE in *; lia|done].
  - intros k1 k2 m1 m2 Hm1 Hm2 H1 H2. destruct (Hin _ _ Hm1) as (p1 & Hp1 & E1 & _). destruct (Hin _ _ Hm2) as (p2 & Hp2 & E2 & _).
    apply (fw_inode _ _ Hw k1 k2 p1 p2); congruence.
Qed.

(** ** Walking and extending a chain *)

Definition in_use (s : ramfs_t) (j : Z) : Prop := ∃ n, arr_get (nodes s) j = Some n ∧ n_inode_num n ≠ 0.
Definition disk_full (s : ramfs_t) : Prop := ∀ x, 0 ≤ x < FS_MAX_BLOCKS → bit_used (free_blocks s) x = true.

(** The chain of [j] may have become longer; no node has changed. *)
Record grew (j : Z) (s : ramfs_t) (cs : Z → list Z) (s' : ramfs_t) (cs' : Z → list Z) : Prop := {
  gr_wf : fs_wf s' cs';
  gr_pre : cs j `prefix_of` cs' j;
  gr_other k : k ≠ j → cs' k = cs k;
  gr_nodes : nodes s' = nodes s;
  gr_inode : next_inode s' = next_inode s;
  gr_root : root s' = root s;
}.
Lemma grew_refl j s cs : fs_wf s cs → grew j s cs s cs.
Proof. by split. Qed.
Lemma grew_trans j s1 c1 s2 c2 s3 c3 : grew j s1 c1 s2 c2 → grew j s2 c2 s3 c3 → grew j s1 c1 s3 c3.
Proof.
  intros [] []. split; [done|by etrans|..]; try congruence. intros k Hk. rewrite gr_other1, gr_other0; done.
Qed.
Lemma grew_use j s cs s' cs' k : grew j s cs s' cs' → in_use s k → in_use s' k.
Proof. intros G [n Hn]. exists n. by rewrite (gr_nodes _ _ _ _ _ G). Qed.

Definition same_data (s s' : ramfs_t) : Prop := ∀ b, data_of (blocks s') b = data_of (blocks s) b.

Lemma wp_next_or_new j s cs l1 x l2 :
  fs_wf s cs → in_use s j → cs j = l1 ++ x :: l2 →
  wp (next_or_new x) s (λ r s', match r with
    | None => s' = s ∧ l2 = [] ∧ disk_full s
    | Some y => ∃ cs', grew j s cs s' cs' ∧ cs' j = (l1 ++ [x]) ++ y :: tail l2 ∧ same_data s s'
    end).
Proof.
  intros Hw Hu E. destruct (wf_block s cs j l1 x l2 Hw E Hu) as (Hx & v & Hv & _ & Hc).
  unfold next_or_new. apply wp_bind. eapply wp_get_block; [exact Hv|].
  pose proof (fw_shape _ _ Hw) as Hs. destruct l2 as [|y l2].
  - rewrite Hc. cbn [Z.eqb]. rewrite Z.eqb_refl. apply wp_bind. eapply wp_mono; [by apply wp_allocate|]. cbn beta.
    intros r s1 [(-> & -> & Hfull)|(Hr & Hfree & Hal & Hs1)].
    { cbn [Z.eqb]. by apply wp_ret. }
    rewrite (proj2 (Z.eqb_neq r (-1))) by lia.
    assert (Hrx : r ≠ x). { intros ->. eapply (wf_fresh s cs x j Hw Hfree). rewrite E. set_solver. }
    assert (Hv1 : arr_get (blocks s1) x = Some v) by (rewrite (al_blocks _ _ _ Hal), (proj2 (Z.eqb_neq x r)) by done; done).
    apply wp_bind. eapply wp_link_block; [exact Hv1|]. set (s2 := set_blocks _ s1). apply wp_bind.
    assert (Hb2 : ∀ z, arr_get (blocks s2) z = if z =? x then Some (FsBlock (b_data v) r)
      else if z =? r then (λ v, FsBlock (b_data v) NIL) <$> arr_get (blocks s) z else arr_get (blocks s) z).
    { intros z. unfold s2. cbn [blocks set_blocks]. rewrite arr_get_insert by (rewrite (sh_blocks _ Hs1); lia).
      rewrite u32_id by (unfold FS_MAX_BLOCKS in *; lia). by rewrite (al_blocks _ _ _ Hal). }
    eapply wp_get_block; [rewrite Hb2, Z.eqb_refl; done|]. apply wp_ret. cbn [b_next tail].
    destruct (arr_get_is_Some (blocks s) r) as [vr Hvr]; [rewrite (sh_blocks _ Hs); lia|].
    destruct Hu as (n & Hn & Hi). exists (fupd j (cs j ++ [r]) cs). split_and!.
    + split; try (by destruct Hal).
      * eapply (wf_grow s s2 cs j r n n); try done; cbn [nodes free_blocks s2 set_blocks].
        -- apply shape_put_block; [done|lia|]. exact (sh_data _ Hs x v Hv).
        -- by rewrite (al_nodes _ _ _ Hal).
        -- intros k _. by rewrite (al_nodes _ _ _ Hal).
        -- by apply (al_bits _ _ _ Hal).
        -- intros z Hz Hzr. unfold next_of. rewrite Hb2. destruct (Z.eqb_spec z x) as [->|]; [rewrite E in Hz; set_solver|].
           by rewrite (proj2 (Z.eqb_neq z r)).
        -- pose proof (fw_chain _ _ Hw j n Hn Hi) as Hch. rewrite E in Hch |- *. rewrite <- app_assoc. cbn [app].
           eapply chain_snoc; [exact Hch|..].
           ++ intros z Hz. unfold next_of. rewrite Hb2. pose proof (fw_nodup _ _ Hw j) as Hnd. rewrite E in Hnd.
              apply NoDup_app in Hnd as (_ & Hd & _). rewrite (proj2 (Z.eqb_neq z x)) by (intros ->; apply (Hd x Hz); constructor).
              rewrite (proj2 (Z.eqb_neq z r)); [done|]. intros ->. eapply (wf_fresh s cs r j Hw Hfree). rewrite E. set_solver.
           ++ unfold next_of. by rewrite Hb2, Z.eqb_refl.
           ++ unfold next_of. by rewrite Hb2, (proj2 (Z.eqb_neq r x)), Z.eqb_refl, Hvr.
      * rewrite fupd_same. by exists [r].
      * intros k Hk. by rewrite fupd_other.
    + rewrite fupd_same, E. done.
    + intros z. unfold data_of. rewrite Hb2. destruct (Z.eqb_spec z x) as [->|]; [by rewrite Hv|].
      destruct (Z.eqb_spec z r) as [->|]; [|done]. by rewrite Hvr.
  - assert (Hy : b_next v = y) by by eapply chain_first.
    assert (y ≠ NIL). { intros ->. destruct (fw_range _ _ Hw j NIL) as [? _]; [rewrite E; set_solver|]. unfold NIL, FS_MAX_BLOCKS in *. lia. }
    rewrite Hy, (proj2 (Z.eqb_neq y NIL)) by done. apply wp_ret. exists cs. split_and!; [by apply grew_refl| |done].
    rewrite E, <- app_assoc. done.
Qed.

Lemma wp_skip_write fuel j s cs l1 x l2 o :
  fs_wf s cs → in_use s j → cs j = l1 ++ x :: l2 → 0 ≤ o → FS_MAX_BLOCKS ≤ Z.of_nat (fuel + length l1) →
  wp (skip_write fuel x o) s (λ r s', ∃ cs', grew j s cs s' cs' ∧ same_data s s' ∧
    match r with
    | None => disk_full s'
    | Some (x', o') => ∃ l1' l2', cs' j = l1' ++ x' :: l2' ∧ o' = o mod FS_BLOCK_SIZE ∧
        Z.of_nat (length l1') = Z.of_nat (length l1) + o / FS_BLOCK_SIZE
    end).
Proof.
  revert s cs l1 x l2 o. induction fuel as [|fuel IH]; intros s cs l1 x l2 o Hw Hu E Ho Hf.
  { pose proof (chain_length s cs j Hw) as Hlen. rewrite E, length_app in Hlen. cbn in *. lia. }
  cbn [skip_write]. unfold FS_BLOCK_SIZE in *. destruct (Z.leb_spec 512 o) as [Hge|Hlt].
  - apply wp_bind. eapply wp_mono; [by apply (wp_next_or_new j s cs l1 x l2)|]. intros [y|] s1.
    + intros (cs1 & G & E1 & D). eapply wp_mono; [apply (IH s1 cs1 (l1 ++ [x]) y (tail l2) (o - 512)); try done|].
      * by apply G.
      * by eapply grew_use.
      * lia.
      * rewrite length_app. cbn in *. lia.
      * cbn beta. intros r s2 (cs2 & G2 & D2 & Hr). exists cs2. split_and!; [by eapply grew_trans|intros b; by rewrite D2, D|].
        destruct r as [[x' o']|]; [|done]. destruct Hr as (l1' & l2' & E2 & Eo & El). exists l1', l2'. split_and!; [done|dlia|].
        rewrite El, length_app. cbn. dlia.
    + intros (-> & _ & Hfull). apply wp_ret. exists cs. split_and!; [by apply grew_refl|done|done].
  - apply wp_ret. exists cs. split_and!; [by apply grew_refl|done|]. exists l1, l2. split_and!; [done|dlia|dlia].
Qed.

(** ** Writing *)

(** Of the chain [l], the [n] bytes from position [p] are those of [buf] from
    [w] on; all other bytes, in this chain and elsewhere, are as before. *)
Record written (s s' : ramfs_t) (l : list Z) (p n : Z) (buf : list Z) (w : Z) : Prop := {
  wr_bytes i : byte_at (blocks s') l i =
    if (p <=? i) && (i <? p + n) then arr_get buf (w + (i - p)) else byte_at (blocks s) l i;
  wr_frame b : b ∉ l → data_of (blocks s') b = data_of (blocks s) b;
}.

Lemma byte_at_data s s' l i : same_data s s' → byte_at (blocks s') l i = byte_at (blocks s) l i.
Proof. intros D. unfold byte_at. destruct (arr_get l _) as [x|]; [|done]. cbn. by rewrite D. Qed.
Lemma byte_at_prefix bs l l' i : l `prefix_of` l' → i < FS_BLOCK_SIZE * Z.of_nat (length l) → byte_at bs l' i = byte_at bs l i.
Proof. intros [k ->] Hi. unfold byte_at. rewrite arr_get_app_l; [done|]. unfold FS_BLOCK_SIZE in *. dlia. Qed.

Lemma written_none s s' l p buf w : same_data s s' → written s s' l p 0 buf w.
Proof.
  intros D. split; [|intros b _; apply D]. intros i. rewrite (proj2 (andb_false_iff _ _)); [by apply byte_at_data|].
  destruct (Z.leb_spec p i); [right; apply Z.ltb_ge; lia|by left].
Qed.
Lemma written_data s1 s2 s3 l p n buf w : written s1 s2 l p n buf w → same_data s2 s3 → written s1 s3 l p n buf w.
Proof.
  intros [Hb Hf] D. split; [intros i; by rewrite (byte_at_data _ _ _ _ D), Hb|intros b Hb'; rewrite D; by apply Hf].
Qed.
Lemma written_prefix s s' l l' p n buf w :
  written s s' l p n buf w → l `prefix_of` l' → NoDup l' → p + n ≤ FS_BLOCK_SIZE * Z.of_nat (length l) → written s s' l' p n buf w.
Proof.
  intros [Hb Hf] Hpre Hnd Hle. split.
  - intros i. destruct (decide (i < FS_BLOCK_SIZE * Z.of_nat (length l))); [rewrite !(byte_at_prefix _ l l') by done; apply Hb|].
    rewrite (proj2 (andb_false_iff _ _)) by (right; apply Z.ltb_ge; lia).
    unfold byte_at. destruct (arr_get l' (i / FS_BLOCK_SIZE)) as [x|] eqn:Ex; [|done]. cbn. rewrite Hf; [done|].
    destruct Hpre as [k ->]. apply arr_get_Some in Ex as [_ Ex]. apply NoDup_app in Hnd as (_ & Hd & _).
    rewrite lookup_app_r in Ex by (unfold FS_BLOCK_SIZE in *; dlia). intros Hin. apply (Hd x Hin). by eapply list_elem_of_lookup_2.
  - intros b Hb'. apply Hf. intros Hin. apply Hb'. destruct Hpre as [k ->]. set_solver.
Qed.
Lemma written_trans s1 s2 s3 l p n1 n2 buf w :
  0 ≤ n1 → 0 ≤ n2 → written s1 s2 l p n1 buf w → written s2 s3 l (p + n1) n2 buf (w + n1) → written s1 s3 l p (n1 + n2) buf w.
Proof.
  intros H1 H2 [B1 F1] [B2 F2]. split; [|intros b Hb; by rewrite F2, F1].
  intros i. rewrite B2, B1. case_cmp; try lia; try done. f_equal. lia.
Qed.

(** One block is overwritten in part. *)
Lemma splice_Some l off d l' :
  splice l off d = Some l' → length l' = length l ∧
  ∀ i, arr_get l' i = if (off <=? i) && (i <? off + Z.of_nat (length d)) then arr_get d (i - off) else arr_get l i.
Proof.
  unfold splice. destruct (Z.leb_spec 0 off); [|done]. destruct (Z.leb_spec (off + Z.of_nat (length d)) (Z.of_nat (length l))); [|done].
  intros [= <-]. split; [rewrite !length_app, length_take, length_drop; lia|].
  intros i. unfold arr_get. destruct (Z.leb_spec 0 i); [|destruct (Z.leb_spec off i); [lia|done]].
  destruct (Z.leb_spec off i); cbn [andb].
  - rewrite lookup_app_r by (rewrite length_take; lia). rewrite length_take.
    destruct (Z.ltb_spec i (off + Z.of_nat (length d))).
    + rewrite lookup_app_l by lia. rewrite (proj2 (Z.leb_le 0 (i - off))) by lia. f_equal. lia.
    + rewrite lookup_app_r by lia. rewrite lookup_drop. f_equal. lia.
  - rewrite lookup_app_l by (rewrite length_take; lia). apply lookup_take_lt. lia.
Qed.
Lemma slice_Some l off n d :
  slice l off n = Some d → 0 ≤ n ∧ Z.of_nat (length d) = n ∧ ∀ i, 0 ≤ i < n → arr_get d i = arr_get l (off + i).
Proof.
  unfold slice. destruct (Z.leb_spec 0 off); [|done]. destruct (Z.leb_spec 0 n); [|done].
  destruct (Z.leb_spec (off + n) (Z.of_nat (length l))); [|done]. intros [= <-].
  split_and!; [done|rewrite length_take, length_drop; lia|]. intros i Hi. unfold arr_get.
  rewrite (proj2 (Z.leb_le 0 i)), (proj2 (Z.leb_le 0 (off + i))) by lia. rewrite lookup_take_lt, lookup_drop by lia. f_equal. lia.
Qed.
Lemma slice_in l off n : 0 ≤ off → 0 ≤ n → off + n ≤ Z.of_nat (length l) → ∃ d, slice l off n = Some d.
Proof. intros. unfold slice. rewrite !(proj2 (Z.leb_le _ _)) by lia. eauto. Qed.
Lemma splice_in l off d : 0 ≤ off → off + Z.of_nat (length d) ≤ Z.of_nat (length l) → ∃ l', splice l off d = Some l'.
Proof. intros. unfold splice. rewrite !(proj2 (Z.leb_le _ _)) by lia. eauto. Qed.

Lemma wf_data s s' cs :
  fs_wf s cs → shape s' → nodes s' = nodes s → free_blocks s' = free_blocks s →
  (∀ x, next_of (blocks s') x = next_of (blocks s) x) → fs_wf s' cs.
Proof.
  intros [] Hs' En Ef Hnext. split; rewrite ?En, ?Ef; try done.
  intros j n Hn Hi. eapply chain_frame; [|by apply fw_chain0]. intros x _. apply Hnext.
Qed.

Lemma written_block s cs j l1 x l2 o v d data buf w :
  fs_wf s cs → in_use s j → cs j = l1 ++ x :: l2 → arr_get (blocks s) x = Some v → 0 ≤ o →
  o + Z.of_nat (length d) ≤ FS_BLOCK_SIZE →
  splice (b_data v) o d = Some data → (∀ i, 0 ≤ i < Z.of_nat (length d) → arr_get d i = arr_get buf (w + i)) →
  let s1 := set_blocks (<[Z.to_nat x := FsBlock data (b_next v)]> (blocks s)) s in
  fs_wf s1 cs ∧ written s s1 (cs j) (FS_BLOCK_SIZE * Z.of_nat (length l1) + o) (Z.of_nat (length d)) buf w.
Proof.
  intros Hw Hu E Hv Ho Hod Hsp Hd s1. pose proof (fw_shape _ _ Hw) as Hs.
  destruct (wf_block s cs j l1 x l2 Hw E Hu) as (Hx & _). apply splice_Some in Hsp as [Hlen Hdata].
  assert (Hb1 : ∀ z, arr_get (blocks s1) z = if z =? x then Some (FsBlock data (b_next v)) else arr_get (blocks s) z).
  { intros z. unfold s1. cbn [blocks set_blocks]. by rewrite arr_get_insert by (rewrite (sh_blocks _ Hs); lia). }
  split.
  - eapply wf_data; [exact Hw| |done|done|].
    + apply shape_put_block; [done|done|]. cbn. rewrite Hlen. by apply (sh_data _ Hs x).
    + intros z. unfold next_of. rewrite Hb1. destruct (Z.eqb_spec z x) as [->|]; [by rewrite Hv|done].
  - split.
    + intros i. unfold byte_at. destruct (arr_get (cs j) (i / FS_BLOCK_SIZE)) as [z|] eqn:Ez; cbn.
      * unfold data_of. rewrite Hb1. pose proof (fw_nodup _ _ Hw j) as Hnd.
        assert (Hxpos : arr_get (cs j) (Z.of_nat (length l1)) = Some x) by (rewrite E; apply arr_get_middle).
        destruct (Z.eqb_spec z x) as [->|Hzx]; cbn.
        -- rewrite Hv. cbn. assert (Epos : i / FS_BLOCK_SIZE = Z.of_nat (length l1)).
           { apply arr_get_Some in Ez as [? Ez]. apply arr_get_Some in Hxpos as [? Hxpos].
             pose proof (NoDup_lookup _ _ _ _ Hnd Ez Hxpos). lia. }
           rewrite Hdata. unfold FS_BLOCK_SIZE in *.
           replace ((o <=? i mod 512) && (i mod 512 <? o + Z.of_nat (length d)))%bool
             with ((512 * Z.of_nat (length l1) + o <=? i) && (i <? 512 * Z.of_nat (length l1) + o + Z.of_nat (length d)))%bool
             by (case_cmp; try done; dlia).
           case_if; [|done]. rewrite Hd by dlia. f_equal. dlia.
        -- rewrite (proj2 (andb_false_iff _ _)); [done|].
           assert (i / FS_BLOCK_SIZE ≠ Z.of_nat (length l1)) by (intros Ei; rewrite Ei, Hxpos in Ez; congruence).
           unfold FS_BLOCK_SIZE in *. rewrite Z.leb_gt, Z.ltb_ge. dlia.
      * rewrite (proj2 (andb_false_iff _ _)); [done|]. rewrite Z.leb_gt, Z.ltb_ge.
        destruct (decide (i / FS_BLOCK_SIZE = Z.of_nat (length l1))) as [Ei|Hne].
        { rewrite Ei, E, arr_get_middle in Ez. done. }
        unfold FS_BLOCK_SIZE in *. dlia.
    + intros b Hb. unfold data_of. rewrite Hb1. rewrite (proj2 (Z.eqb_neq b x)); [done|]. intros ->. apply Hb. rewrite E. set_solver.
Qed.

Lemma wp_write_loop fuel j s cs l1 x l2 o size w buf :
  fs_wf s cs → in_use s j → cs j = l1 ++ x :: l2 → 0 ≤ o < FS_BLOCK_SIZE → 0 ≤ w ≤ size → size < 2 ^ 32 →
  size ≤ Z.of_nat (length buf) → FS_MAX_BLOCKS + 1 ≤ Z.of_nat (fuel + length l1) →
  wp (write_loop fuel x o size w buf) s (λ n s', ∃ cs', grew j s cs s' cs' ∧ w ≤ n ≤ size ∧ (n < size → disk_full s') ∧
    FS_BLOCK_SIZE * Z.of_nat (length l1) + o + (n - w) ≤ FS_BLOCK_SIZE * Z.of_nat (length (cs' j)) ∧
    written s s' (cs' j) (FS_BLOCK_SIZE * Z.of_nat (length l1) + o) (n - w) buf w).
Proof.
  revert s cs l1 x l2 o w. induction fuel as [|fuel IH]; intros s cs l1 x l2 o w Hw Hu E Ho Hwr Hsz Hbuf Hf.
  { pose proof (chain_length s cs j Hw) as Hlen. rewrite E, length_app in Hlen. cbn in *. lia. }
  assert (HlenE : Z.of_nat (length (cs j)) = Z.of_nat (length l1) + 1 + Z.of_nat (length l2)) by (rewrite E, length_app; cbn; lia).
  unfold FS_BLOCK_SIZE in *. cbn [write_loop]. unfold FS_BLOCK_SIZE in *. destruct (Z.ltb_spec w size) as [Hlt|Hge].
  2: { apply wp_ret. exists cs. replace w with size by lia. rewrite Z.sub_diag.
       split_and!; [by apply grew_refl|lia|lia|lia|lia|by apply written_none]. }
  rewrite (u32_id (512 - o)) by lia. set (tw := if size - w <? 512 - o then size - w else 512 - o).
  assert (Htw : 0 < tw ∧ tw ≤ 512 - o ∧ w + tw ≤ size ∧ (w + tw < size → tw = 512 - o)) by (unfold tw; case_cmp; lia).
  clearbody tw. destruct (wf_block s cs j l1 x l2 Hw E Hu) as (Hx & v & Hv & Hvl & _). unfold FS_BLOCK_SIZE in Hvl.
  apply wp_bind. eapply wp_get_block; [exact Hv|].
  destruct (slice_in buf w tw) as [d Hd]; [lia..|]. destruct (slice_Some _ _ _ _ Hd) as (_ & Hdl & Hdb).
  apply wp_bind. eapply wp_lift_opt; [exact Hd|].
  destruct (splice_in (b_data v) o d) as [data Hdata]; [lia..|].
  apply wp_bind. eapply wp_lift_opt; [exact Hdata|]. apply wp_bind, wp_put_block.
  { rewrite (sh_blocks _ (fw_shape _ _ Hw)). lia. }
  destruct (written_block s cs j l1 x l2 o v d data buf w) as [Hw1 Wr1]; try done.
  { lia. } { unfold FS_BLOCK_SIZE; lia. } { intros i Hi. apply Hdb. lia. }
  set (s1 := set_blocks _ s) in *. rewrite Hdl in Wr1. unfold FS_BLOCK_SIZE in Wr1. rewrite (u32_id (w + tw)) by lia.
  assert (G1 : grew j s cs s1 cs) by by split.
  destruct (Z.ltb_spec (w + tw) size) as [Hmore|Hdone].
  - assert (tw = 512 - o) by lia. apply wp_bind. eapply wp_mono; [by apply (wp_next_or_new j s1 cs l1 x l2)|].
    intros [y|] s2.
    + intros (cs2 & G2 & E2 & D2). eapply wp_mono; [apply (IH s2 cs2 (l1 ++ [x]) y (tail l2) 0 (w + tw)); try done|].
      * by apply G2.
      * by eapply grew_use, grew_use.
      * lia.
      * rewrite length_app. cbn in *. lia.
      * cbn beta. rewrite length_app. cbn [length]. intros n s3 (cs3 & G3 & Hn & Hfull & Hle & Wr3). exists cs3.
        split_and!; [by eapply grew_trans, grew_trans|lia|lia|done|lia|].
        replace (n - w) with (tw + (n - (w + tw))) by lia. apply (written_trans _ s2); [lia|lia|..].
        -- eapply written_data; [|exact D2]. eapply written_prefix; [exact Wr1|..].
           ++ etrans; [apply G2|apply G3].
           ++ apply (fw_nodup _ _ (gr_wf _ _ _ _ _ G3)).
           ++ unfold FS_BLOCK_SIZE. lia.
        -- by replace (512 * Z.of_nat (length l1) + o + tw) with (512 * Z.of_nat (length l1 + 1) + 0) by lia.
    + intros (-> & _ & Hfull). apply wp_ret. exists cs. replace (w + tw - w) with tw by lia. split_and!; try done; lia.
  - destruct fuel as [|fuel]. { pose proof (chain_length s cs j Hw). rewrite HlenE in *. cbn in *. lia. }
    cbn [write_loop]. rewrite (proj2 (Z.ltb_ge _ _)) by lia. apply wp_ret. exists cs. replace (w + tw - w) with tw by lia.
    split_and!; try done; lia.
Qed.

Lemma wf_node_size s cs j n sz :
  fs_wf s cs → arr_get (nodes s) j = Some n → 0 ≤ sz ≤ FS_BLOCK_SIZE * Z.of_nat (length (cs j)) →
  fs_wf (set_nodes (<[Z.to_nat j := set_n_size sz n]> (nodes s)) s) cs.
Proof.
  intros [Hs Hch Hfr Hnd Hdis Hrg Hsz Hino] Hn Hb. pose proof (arr_get_Some _ _ _ Hn) as [Hj _].
  assert (Hin : ∀ k m, arr_get (<[Z.to_nat j := set_n_size sz n]> (nodes s)) k = Some m → ∃ m0, arr_get (nodes s) k = Some m0 ∧
    n_inode_num m = n_inode_num m0 ∧ n_type m = n_type m0 ∧ n_first_block m = n_first_block m0 ∧ (n_size m = n_size m0 ∨ (k = j ∧ n_size m = sz))).
  { intros k m. rewrite arr_get_insert by done. destruct (Z.eqb_spec k j) as [->|]; [|eauto 10]. intros [= <-]. exists n. split_and!; auto. }
  split; cbn [nodes blocks free_blocks set_nodes]; try done; [by apply shape_put_node|..].
  - intros k m Hm Hi. destruct (Hin _ _ Hm) as (m0 & Hm0 & E1 & _ & E3 & _). rewrite E3. apply Hch; congruence.
  - intros k m Hm Hi. destruct (Hin _ _ Hm) as (m0 & Hm0 & E1 & _). apply (Hfr k m0); congruence.
  - intros k m Hm Hi Ht. destruct (Hin _ _ Hm) as (m0 & Hm0 & E1 & E2 & _ & [E4|[-> E4]]); rewrite E4; [|done].
    apply (Hsz k m0); congruence.
  - intros k1 k2 m1 m2 H1 H2 Hi He. destruct (Hin _ _ H1) as (p1 & Hp1 & E1 & _). destruct (Hin _ _ H2) as (p2 & Hp2 & E2 & _).
    apply (Hino k1 k2 p1 p2); congruence.
Qed.

(** The first block of an empty file. *)
Lemma wp_first_block j s cs n :
  fs_wf s cs → arr_get (nodes s) j = Some n → n_inode_num n ≠ 0 →
  wp (if n_first_block n =? NIL then
        b ← allocate_block; n ← get_node j; put_node j (set_n_first_block (u32 b) n)
      else mret ()) s (λ _ s', ∃ cs' n', fs_wf s' cs' ∧ cs j `prefix_of` cs' j ∧ same_data s s' ∧
    (∀ k, k ≠ j → cs' k = cs k ∧ arr_get (nodes s') k = arr_get (nodes s) k) ∧
    next_inode s' = next_inode s ∧ root s' = root s ∧
    arr_get (nodes s') j = Some n' ∧ n' = set_n_first_block (n_first_block n') n ∧
    (if n_first_block n' =? NIL then disk_full s' else ∃ l2, cs' j = n_first_block n' :: l2)).
Proof.
  intros Hw Hn Hi. pose proof (arr_get_Some _ _ _ Hn) as [Hj Hjn]. pose proof (fw_shape _ _ Hw) as Hs.
  pose proof (fw_chain _ _ Hw j n Hn Hi) as Hch. assert (Heta : n = set_n_first_block (n_first_block n) n) by by destruct n.
  destruct (Z.eqb_spec (n_first_block n) NIL) as [E|Hne].
  2: { apply wp_ret. exists cs, n. rewrite (proj2 (Z.eqb_neq _ _)) by done. split_and!; try done.
       destruct (cs j) as [|x l2]; [done|]. exists l2. f_equal. by destruct Hch as [-> _]. }
  rewrite E in Hch. apply chain_nil_inv in Hch; [|apply (sh_blocks _ Hs)].
  apply wp_bind. eapply wp_mono; [by apply wp_allocate|]. cbn beta.
  intros b s1 [(-> & -> & Hfull)|(Hr & Hfree & Hal & Hs1)].
  - apply wp_bind. eapply wp_get_node; [exact Hn|]. apply wp_put_node; [done|].
    change (u32 (-1)) with NIL. rewrite <- E, <- Heta, list_insert_id by done.
    exists cs, n. rewrite E, Z.eqb_refl. change (set_nodes (nodes s) s) with (Ramfs (nodes s) (blocks s) (free_blocks s) (next_inode s) (root s)).
    destruct s. split_and!; try done. by rewrite <- E.
  - assert (Hn1 : arr_get (nodes s1) j = Some n) by by rewrite (al_nodes _ _ _ Hal).
    apply wp_bind. eapply wp_get_node; [exact Hn1|]. apply wp_put_node; [by rewrite (al_nodes _ _ _ Hal)|].
    rewrite u32_id by (unfold FS_MAX_BLOCKS in *; lia). set (s2 := set_nodes _ s1).
    assert (Hn2 : ∀ k, arr_get (nodes s2) k = if k =? j then Some (set_n_first_block b n) else arr_get (nodes s) k).
    { intros k. unfold s2. cbn [nodes set_nodes]. rewrite (al_nodes _ _ _ Hal). by apply arr_get_insert. }
    destruct (arr_get_is_Some (blocks s) b) as [vb Hvb]; [rewrite (sh_blocks _ Hs); lia|].
    assert (Hb2 : arr_get (blocks s2) b = Some (FsBlock (b_data vb) NIL)) by (unfold s2; cbn [blocks set_nodes]; by rewrite (al_blocks _ _ _ Hal), Z.eqb_refl, Hvb).
    exists (fupd j [b] cs), (set_n_first_block b n).
    assert (Hb : b ≠ NIL) by (unfold FS_MAX_BLOCKS, NIL in *; lia). cbn [n_first_block set_n_first_block].
    rewrite (proj2 (Z.eqb_neq b NIL)), fupd_same, Hch by done. split_and!.
    + replace [b] with (cs j ++ [b]) by by rewrite Hch.
      eapply (wf_grow s s2 cs j b n (set_n_first_block b n)); try done.
      * by apply shape_put_node.
      * by rewrite Hn2, Z.eqb_refl.
      * intros k Hk. by rewrite Hn2, (proj2 (Z.eqb_neq k j)).
      * apply (al_bits _ _ _ Hal).
      * intros x _ Hx. unfold next_of, s2. cbn [blocks set_nodes]. by rewrite (al_blocks _ _ _ Hal), (proj2 (Z.eqb_neq x b)).
      * rewrite Hch. cbn [app chain n_first_block set_n_first_block]. split; [done|]. by exists (FsBlock (b_data vb) NIL).
    + apply prefix_nil.
    + intros x. unfold data_of, s2. cbn [blocks set_nodes]. rewrite (al_blocks _ _ _ Hal). destruct (Z.eqb_spec x b) as [->|]; [by rewrite Hvb|done].
    + intros k Hk. by rewrite fupd_other, Hn2, (proj2 (Z.eqb_neq k j)).
    + apply Hal.
    + apply Hal.
    + by rewrite Hn2, Z.eqb_refl.
    + done.
    + by exists [].
Qed.

(** What every write leaves alone. *)
Record only_file (j : Z) (s : ramfs_t) (cs : Z → list Z) (s' : ramfs_t) (cs' : Z → list Z) : Prop := {
  of_wf : fs_wf s' cs';
  of_pre : cs j `prefix_of` cs' j;
  of_other k : k ≠ j → cs' k = cs k ∧ arr_get (nodes s') k = arr_get (nodes s) k;
  of_inode : next_inode s' = next_inode s;
  of_root : root s' = root s;
}.

Lemma wp_ramfs_write j s cs n offset size buf :
  fs_wf s cs → arr_get (nodes s) j = Some n → n_inode_num n ≠ 0 → n_type n = FS_TYPE_FILE →
  0 ≤ offset → 0 ≤ size < 2 ^ 31 → offset + size < 2 ^ 32 → size ≤ Z.of_nat (length buf) →
  wp (ramfs_write j offset size buf) s (λ r s', ∃ cs' n', only_file j s cs s' cs' ∧ arr_get (nodes s') j = Some n' ∧
    ((r = -1 ∧ disk_full s' ∧ same_data s s' ∧ n' = set_n_first_block (n_first_block n') n) ∨
     (0 ≤ r ≤ size ∧ (r < size → disk_full s') ∧ offset + r ≤ FS_BLOCK_SIZE * Z.of_nat (length (cs' j)) ∧
      written s s' (cs' j) offset r buf 0 ∧
      n' = set_n_first_block (n_first_block n') (set_n_size (Z.max (n_size n) (offset + r)) n)))).
Proof.
  intros Hw Hn Hi Ht Ho Hsz Hos Hbuf. unfold ramfs_write. apply wp_bind. eapply wp_get_node; [exact Hn|].
  rewrite Ht. cbn [FS_TYPE_FILE Z.eqb Pos.eqb negb]. apply wp_bind. eapply wp_mono; [by apply (wp_first_block j s cs n)|]. cbn beta.
  intros _ s1 (cs1 & n1 & Hw1 & Hpre1 & D1 & Hoth1 & Ei1 & Er1 & Hn1 & En1 & Hfb).
  apply wp_bind. eapply wp_get_node; [exact Hn1|].
  destruct (n_first_block n1 =? NIL). { apply wp_ret. exists cs1, n1. split; [by split|]. split; [done|]. by left. }
  destruct Hfb as [l2 Hl2]. assert (Hi1 : n_inode_num n1 = n_inode_num n) by by rewrite En1.
  assert (Hu1 : in_use s1 j) by (exists n1; by rewrite Hi1).
  apply wp_bind. eapply wp_mono; [apply (wp_skip_write FS_FUEL j s1 cs1 [] (n_first_block n1) l2 offset); try done|].
  intros start s2 (cs2 & G2 & D2 & Hst). assert (Hof2 : only_file j s cs s2 cs2).
  { destruct G2. split; [done|by etrans|..]; try congruence. intros k Hk. destruct (Hoth1 k Hk).
    split; [rewrite gr_other0 by done|rewrite gr_nodes0]; done. }
  assert (Hn2 : arr_get (nodes s2) j = Some n1) by by rewrite (gr_nodes _ _ _ _ _ G2).
  assert (D : same_data s s2) by (intros b; by rewrite D2, D1).
  destruct start as [[x o]|]; [|apply wp_ret; exists cs2, n1; split; [done|]; split; [done|]; by left].
  destruct Hst as (l1 & l2' & E2 & Eo & El). cbn [length] in El. apply wp_bind.
  eapply wp_mono; [apply (wp_write_loop FS_FUEL j s2 cs2 l1 x l2' o size 0 buf); try done|].
  { by apply G2. } { exists n1. by rewrite Hi1. }
  { rewrite Eo. by apply Z.mod_pos_bound. } { lia. } { lia. }
  { unfold FS_FUEL. unfold FS_MAX_BLOCKS. lia. }
  cbn beta. intros w s3 (cs3 & G3 & Hwr & Hfull & Hle & Wr3).
  assert (Epos : FS_BLOCK_SIZE * Z.of_nat (length l1) + o = offset) by (rewrite El, Eo; unfold FS_BLOCK_SIZE; dlia).
  rewrite Epos, Z.sub_0_r in *.
  assert (Hn3 : arr_get (nodes s3) j = Some n1) by by rewrite (gr_nodes _ _ _ _ _ G3).
  assert (Hof3 : only_file j s cs s3 cs3).
  { destruct G3, Hof2. split; [done|by etrans|..]; try congruence. intros k Hk. rewrite gr_other0, gr_nodes0 by done. auto. }
  assert (Wr : written s s3 (cs3 j) offset w buf 0).
  { destruct Wr3 as [B F]. split; [intros i; rewrite B, (byte_at_data s s2) by done; done|intros b Hb; by rewrite F]. }
  pose proof (fw_size _ _ Hw j n Hn Hi Ht) as Hnsz.
  assert (Hcap : FS_BLOCK_SIZE * Z.of_nat (length (cs3 j)) ≤ 2 ^ 19).
  { pose proof (chain_length s3 cs3 j (gr_wf _ _ _ _ _ G3)). unfold FS_MAX_BLOCKS, FS_BLOCK_SIZE in *. lia. }
  assert (Hns1 : n_size n1 = n_size n) by by rewrite En1.
  assert (Hpl : FS_BLOCK_SIZE * Z.of_nat (length (cs j)) ≤ FS_BLOCK_SIZE * Z.of_nat (length (cs3 j))).
  { pose proof (of_pre _ _ _ _ _ Hof3) as Hp%prefix_length. unfold FS_BLOCK_SIZE. lia. }
  apply wp_bind. eapply wp_get_node; [exact Hn3|]. rewrite (u32_id (offset + w)), Hns1 by lia.
  rewrite s32_id by lia. destruct (Z.ltb_spec (n_size n) (offset + w)) as [Hgt|Hng].
  - apply wp_bind, wp_put_node; [by apply arr_get_Some in Hn3 as [? _]|]. apply wp_ret.
    exists cs3, (set_n_size (offset + w) n1). pose proof (arr_get_Some _ _ _ Hn3) as [Hj3 _]. split_and!.
    + destruct Hof3. split; try done; [by apply wf_node_size; try done; lia|]. intros k Hk. cbn [nodes set_nodes].
      rewrite arr_get_insert by done. rewrite (proj2 (Z.eqb_neq k j)) by done. auto.
    + cbn [nodes set_nodes]. by rewrite arr_get_insert, Z.eqb_refl by done.
    + right. split_and!; try done; try lia; [eapply written_data; [exact Wr|done]|].
      rewrite Z.max_r by lia. by rewrite En1.
  - apply wp_bind, wp_ret, wp_ret. exists cs3, n1. split_and!; try done. right. split_and!; try done; try lia.
    rewrite Z.max_l by lia. rewrite En1. by destruct n.
Qed.

(** ** Reading *)

Lemma chain_in_range bs b l x : Z.of_nat (length bs) = FS_MAX_BLOCKS → chain bs b l → x ∈ l → x ≠ NIL.
Proof.
  intros Hlen. revert b. induction l as [|y l IH]; intros b H Hx; [by apply elem_of_nil in Hx|].
  destruct H as [-> (v & Hv & H)]. apply elem_of_cons in Hx as [->|Hx]; [|by eapply IH].
  apply arr_get_Some in Hv as [Hv _]. unfold FS_MAX_BLOCKS, NIL in *. lia.
Qed.

Lemma wp_skip_read fuel s b l o :
  shape s → chain (blocks s) b l → 0 ≤ o < FS_BLOCK_SIZE * Z.of_nat (length l) → (length l ≤ fuel)%nat →
  wp (skip_read fuel b o) s (λ r s', s' = s ∧ r.2 = o mod FS_BLOCK_SIZE ∧
    ∃ k l', l = k ++ l' ∧ chain (blocks s) r.1 l' ∧ Z.of_nat (length k) = o / FS_BLOCK_SIZE).
Proof.
  intros Hs. revert b l o. induction fuel as [|fuel IH]; intros b l o Hc Ho Hf; unfold FS_BLOCK_SIZE in *.
  { destruct l; cbn in *; lia. }
  destruct l as [|x l]; [cbn in *; lia|]. assert (Hx : b ≠ NIL).
  { pose proof (chain_first _ _ _ _ Hc) as ->. eapply chain_in_range; [apply (sh_blocks _ Hs)|exact Hc|constructor]. }
  cbn [skip_read]. unfold FS_BLOCK_SIZE in *. rewrite (proj2 (Z.eqb_neq b NIL)) by done. cbn [negb]. rewrite andb_true_r.
  destruct (Z.leb_spec 512 o).
  - destruct Hc as [-> (v & Hv & Hc)]. apply wp_bind. eapply wp_get_block; [exact Hv|].
    eapply wp_mono; [apply (IH _ l (o - 512)); [done|cbn in *; lia|cbn in *; lia]|]. cbn beta.
    intros r s' (-> & E & k & l' & -> & Hc' & Hk). split_and!; [done|dlia|]. exists (x :: k), l'. split_and!; [done|done|cbn; dlia].
  - apply wp_ret. split_and!; [done|cbn; dlia|]. exists [], (x :: l). split_and!; [done|done|cbn; dlia].
Qed.

Lemma byte_at_cons bs x l i : 512 ≤ i → byte_at bs (x :: l) i = byte_at bs l (i - 512).
Proof.
  intros Hi. unfold byte_at. unfold FS_BLOCK_SIZE. replace (i mod 512) with ((i - 512) mod 512) by dlia.
  replace (arr_get (x :: l) (i / 512)) with (arr_get l ((i - 512) / 512)); [done|].
  unfold arr_get. rewrite !(proj2 (Z.leb_le 0 _)) by dlia.
  replace (Z.to_nat (i / 512)) with (S (Z.to_nat ((i - 512) / 512))) by dlia. done.
Qed.
Lemma byte_at_app bs k l i : 0 ≤ i → byte_at bs (k ++ l) (512 * Z.of_nat (length k) + i) = byte_at bs l i.
Proof.
  intros Hi. induction k as [|x k IH]; cbn [app length]; [f_equal; lia|].
  rewrite byte_at_cons by lia. rewrite <- IH. f_equal. lia.
Qed.

Lemma wp_read_loop fuel s b l o size r out :
  shape s → chain (blocks s) b l → 0 ≤ o < FS_BLOCK_SIZE → 0 ≤ r ≤ size → size < 2 ^ 32 →
  size - r ≤ FS_BLOCK_SIZE * Z.of_nat (length l) - o → (length l < fuel)%nat →
  wp (read_loop fuel b o size r out) s (λ res s', s' = s ∧ res.1 = size ∧
    ∃ d, res.2 = out ++ d ∧ Z.of_nat (length d) = size - r ∧
      ∀ i, 0 ≤ i < size - r → arr_get d i = byte_at (blocks s) l (o + i)).
Proof.
  intros Hs. revert b l o r out. induction fuel as [|fuel IH]; intros b l o r out Hc Ho Hr Hsz Hen Hf; [lia|].
  unfold FS_BLOCK_SIZE in *. cbn [read_loop]. unfold FS_BLOCK_SIZE in *. destruct (Z.ltb_spec r size) as [Hlt|Hge].
  2: { apply wp_ret. replace r with size in * by lia. split_and!; [done|done|]. exists []. rewrite app_nil_r. split_and!; [done|cbn; lia|intros; lia]. }
  destruct l as [|x l]; [cbn in *; lia|]. assert (Hx : b ≠ NIL).
  { pose proof (chain_first _ _ _ _ Hc) as ->. eapply chain_in_range; [apply (sh_blocks _ Hs)|exact Hc|constructor]. }
  rewrite (proj2 (Z.eqb_neq b NIL)) by done. cbn [negb andb].
  rewrite (u32_id (512 - o)) by lia. set (tr := if size - r <? 512 - o then size - r else 512 - o).
  assert (Htr : 0 < tr ∧ tr ≤ 512 - o ∧ r + tr ≤ size ∧ (r + tr < size → tr = 512 - o)) by (unfold tr; case_cmp; lia).
  clearbody tr. destruct Hc as [-> (v & Hv & Hc)]. pose proof (sh_data _ Hs x v Hv) as Hvl. unfold FS_BLOCK_SIZE in Hvl.
  apply wp_bind. eapply wp_get_block; [exact Hv|].
  destruct (slice_in (b_data v) o tr) as [d Hd]; [lia..|]. destruct (slice_Some _ _ _ _ Hd) as (_ & Hdl & Hdb).
  apply wp_bind. eapply wp_lift_opt; [exact Hd|]. rewrite (u32_id (r + tr)) by lia.
  eapply wp_mono; [apply (IH (b_next v) l 0 (r + tr) (out ++ d)); cbn [length] in *; try done; lia|]. cbn beta.
  intros res s' (-> & E1 & d' & E2 & Hd'l & Hd'). split_and!; [done|done|]. exists (d ++ d').
  rewrite E2, app_assoc, length_app. split_and!; [done|lia|]. intros i Hi.
  destruct (decide (i < tr)).
  - rewrite arr_get_app_l by lia. rewrite Hdb by lia. unfold byte_at. unfold FS_BLOCK_SIZE.
    replace ((o + i) / 512) with 0 by dlia. replace ((o + i) mod 512) with (o + i) by dlia.
    change (arr_get (x :: l) 0) with (Some x). cbn. unfold data_of. by rewrite Hv.
  - unfold arr_get. rewrite (proj2 (Z.leb_le 0 i)) by lia. rewrite lookup_app_r by lia.
    replace (d' !! (Z.to_nat i - length d)%nat) with (arr_get d' (i - tr)).
    + rewrite Hd' by lia. rewrite byte_at_cons by lia. f_equal. lia.
    + unfold arr_get. rewrite (proj2 (Z.leb_le 0 _)) by lia. f_equal. lia.
Qed.

(** Reading within 32-bit offsets returns the part of the range before the
    end of the file. *)
Lemma wp_ramfs_read j s cs n offset size :
  fs_wf s cs → arr_get (nodes s) j = Some n → n_inode_num n ≠ 0 → n_type n = FS_TYPE_FILE →
  0 ≤ offset → 0 ≤ size → offset + size < 2 ^ 32 →
  wp (ramfs_read j offset size) s (λ r s', s' = s ∧
    r.1 = Z.max 0 (Z.min size (n_size n - offset)) ∧ Z.of_nat (length r.2) = r.1 ∧
    ∀ i, 0 ≤ i < r.1 → arr_get r.2 i = byte_at (blocks s) (cs j) (offset + i)).
Proof.
  intros Hw Hn Hi Ht Ho Hsz Hos. unfold ramfs_read. apply wp_bind. eapply wp_get_node; [exact Hn|].
  rewrite Ht. cbn [FS_TYPE_FILE Z.eqb Pos.eqb negb]. destruct (Z.leb_spec (n_size n) offset).
  { apply wp_ret. cbn. rewrite Z.max_l by lia. split_and!; [done..|lia]. }
  pose proof (fw_size _ _ Hw j n Hn Hi Ht) as Hns. pose proof (fw_shape _ _ Hw) as Hs.
  pose proof (chain_length s cs j Hw) as Hlen. pose proof (fw_chain _ _ Hw j n Hn Hi) as Hc.
  rewrite (u32_id (offset + size)) by lia.
  set (m := if n_size n <? offset + size then n_size n - offset else size).
  assert (Hm : m = Z.max 0 (Z.min size (n_size n - offset))) by (unfold m; case_cmp; lia). clearbody m.
  unfold FS_MAX_BLOCKS, FS_BLOCK_SIZE in *. apply wp_bind.
  eapply wp_mono; [apply (wp_skip_read FS_FUEL s _ _ offset Hs Hc); unfold FS_BLOCK_SIZE, FS_FUEL, FS_MAX_BLOCKS; lia|].
  cbn beta. intros [b o] s' (-> & E & k & l' & El & Hc' & Hk). cbn [fst snd] in *. unfold FS_BLOCK_SIZE in *. apply wp_bind.
  rewrite El, length_app in *.
  eapply wp_mono; [apply (wp_read_loop FS_FUEL s b l' o m 0 []); try done; unfold FS_BLOCK_SIZE, FS_FUEL, FS_MAX_BLOCKS; dlia|].
  cbn beta. intros res s' (-> & E1 & d & E2 & Hdl & Hd). apply wp_ret. cbn [fst snd]. rewrite E1, E2, app_nil_l, s32_id by lia.
  rewrite Z.sub_0_r in *. split_and!; [done|done|done|]. intros i Hi'. rewrite Hd by lia.
  rewrite <- (byte_at_app (blocks s) k l') by dlia. f_equal. dlia.
Qed.

(** ** Directory entries *)

Lemma slice_splice_same l off d l' : splice l off d = Some l' → slice l' off (Z.of_nat (length d)) = Some d.
Proof.
  intros H. pose proof (splice_Some _ _ _ _ H) as [Hlen Hget]. unfold splice in H.
  destruct (Z.leb_spec 0 off); [|done]. destruct (Z.leb_spec (off + Z.of_nat (length d)) (Z.of_nat (length l))); [|done].
  destruct (slice_in l' off (Z.of_nat (length d))) as [d' Hd']; [lia..|]. rewrite Hd'. f_equal.
  destruct (slice_Some _ _ _ _ Hd') as (_ & Hl & Hg). apply arr_get_ext; [lia|]. intros i Hi. rewrite Hg, Hget by lia.
  rewrite (proj2 (Z.leb_le _ _)), (proj2 (Z.ltb_lt _ _)) by lia. cbn. f_equal. lia.
Qed.
Lemma slice_splice_other l off d l' o n :
  splice l off d = Some l' → o + n ≤ off ∨ off + Z.of_nat (length d) ≤ o → slice l' o n = slice l o n.
Proof.
  intros H Hdis. pose proof (splice_Some _ _ _ _ H) as [Hlen Hget].
  destruct (slice l o n) as [x|] eqn:E.
  - destruct (slice_Some _ _ _ _ E) as (Hn & Hl & Hg). unfold slice in E. destruct (Z.leb_spec 0 o); [|done].
    destruct (Z.leb_spec 0 n); [|done]. destruct (Z.leb_spec (o + n) (Z.of_nat (length l))); [|done].
    destruct (slice_in l' o n) as [y Hy]; [lia..|]. rewrite Hy. f_equal. destruct (slice_Some _ _ _ _ Hy) as (_ & Hl' & Hg').
    apply arr_get_ext; [lia|]. intros i Hi. rewrite Hg', Hg, Hget by lia.
    rewrite (proj2 (andb_false_iff _ _)); [done|]. rewrite Z.leb_gt, Z.ltb_ge. lia.
  - unfold slice in *. rewrite Hlen. by destruct (_ && _ && _).
Qed.

Lemma le32_le32_bytes v : 0 ≤ v < 2 ^ 32 → le32 (le32_bytes v) = v.
Proof. intros Hv. unfold le32, le32_bytes. cbn [fold_right]. change (2 ^ 32) with 4294967296 in Hv. dlia. Qed.

Lemma put_entry_spec data i e data' :
  put_entry data i e = Some data' → length (d_name e) = 32%nat → 0 ≤ d_inode e < 2 ^ 32 →
  length data' = length data ∧ ∀ k, 0 ≤ k → entry_at data' k = if k =? i then Some e else entry_at data k.
Proof.
  intros H Hn Hi. pose proof (splice_Some _ _ _ _ H) as [Hlen _]. split; [done|]. intros k Hk.
  assert (Hl : Z.of_nat (length (d_name e ++ le32_bytes (d_inode e))) = 36) by (rewrite length_app, Hn; done).
  unfold put_entry in H. unfold entry_at. destruct (Z.eqb_spec k i) as [->|Hne].
  - replace DIRENT_SIZE with (Z.of_nat (length (d_name e ++ le32_bytes (d_inode e)))) at 2 by done. rewrite (slice_splice_same _ _ _ _ H). cbn. rewrite take_app_length', drop_app_length' by done.
    rewrite le32_le32_bytes by done. by destruct e.
  - rewrite (slice_splice_other _ _ _ _ _ _ H); [done|]. rewrite Hl. unfold DIRENT_SIZE. lia.
Qed.
Lemma entry_at_in data i : Z.of_nat (length data) = FS_BLOCK_SIZE → 0 ≤ i < MAX_ENTRIES → ∃ e, entry_at data i = Some e ∧ length (d_name e) = 32%nat.
Proof.
  intros Hl Hi. change MAX_ENTRIES with 14 in Hi. unfold FS_BLOCK_SIZE in *. unfold entry_at, DIRENT_SIZE.
  destruct (slice_in data (36 * i) 36) as [e He]; [lia..|]. rewrite He. cbn. eexists. split; [done|]. cbn.
  destruct (slice_Some _ _ _ _ He) as (_ & Hel & _). rewrite length_take. lia.
Qed.

(** The entries of a directory. *)
Definition dirents (s : ramfs_t) (b : Z) (i : Z) : option fs_dirent_t := d ← data_of (blocks s) b; entry_at d i.

Lemma wp_dirent s b i e Q : dirents s b i = Some e → Q e s → wp (get_entry b i) s Q.
Proof.
  unfold dirents, data_of. intros E HQ. destruct (arr_get (blocks s) b) as [v|] eqn:Ev; [|done]. cbn in E.
  unfold get_entry. apply wp_bind. eapply wp_get_block; [exact Ev|]. by eapply wp_lift_opt.
Qed.
Lemma dirents_in s b i : shape s → 0 ≤ b < FS_MAX_BLOCKS → 0 ≤ i < MAX_ENTRIES →
  ∃ e, dirents s b i = Some e ∧ length (d_name e) = 32%nat.
Proof.
  intros Hs Hb Hi. destruct (arr_get_is_Some (blocks s) b) as [v Hv]; [rewrite (sh_blocks _ Hs); lia|].
  unfold dirents, data_of. rewrite Hv. cbn. apply entry_at_in; [by apply (sh_data _ Hs b)|done].
Qed.

(** [find_inode]: the lowest node with the number. *)
Lemma wp_find_inode s ino :
  shape s → wp (find_inode ino) s (λ r s', s' = s ∧ match r with
    | Some j => ∃ n, arr_get (nodes s) j = Some n ∧ n_inode_num n = ino
    | None => ∀ j n, arr_get (nodes s) j = Some n → n_inode_num n ≠ ino end).
Proof.
  intros Hs. unfold find_inode.
  apply (wp_for_until (λ i s', s' = s ∧ ∀ j n, j < i → arr_get (nodes s) j = Some n → n_inode_num n ≠ ino)).
  - split; [done|]. intros j n Hj Hn. apply arr_get_Some in Hn. lia.
  - intros i s' Hi [-> H]. change (Z.of_nat (Z.to_nat FS_MAX_FILES)) with FS_MAX_FILES in Hi.
    destruct (arr_get_is_Some (nodes s) i) as [n Hn]; [rewrite (sh_nodes _ Hs); lia|].
    apply wp_bind. eapply wp_get_node; [exact Hn|]. apply wp_ret. destruct (Z.eqb_spec (n_inode_num n) ino) as [E|Hne].
    + split; [done|]. by exists n.
    + split; [done|]. intros j m Hj Hm. destruct (decide (j = i)) as [->|]; [congruence|]. eapply H; [|exact Hm]. lia.
  - change (Z.of_nat (Z.to_nat FS_MAX_FILES)) with FS_MAX_FILES. intros s' [-> H]. split; [done|]. intros j n Hn.
    eapply H; [|exact Hn]. apply arr_get_Some in Hn. pose proof (sh_nodes _ Hs). lia.
Qed.

(** A directory: a node with its entries in one block. *)
Definition is_dir (s : ramfs_t) (p b : Z) : Prop :=
  ∃ n, arr_get (nodes s) p = Some n ∧ n_type n = FS_TYPE_DIR ∧ n_first_block n = b ∧ 0 ≤ b < FS_MAX_BLOCKS ∧ n_inode_num n ≠ 0.
(** The entry [i] of [b] names [name]. *)
Definition names (s : ramfs_t) (b i : Z) (name : list Z) (ino : Z) : Prop :=
  ∃ e, dirents s b i = Some e ∧ d_inode e = ino ∧ ino ≠ 0 ∧ c_string (d_name e) = name.

Lemma wp_finddir s p b name :
  shape s → is_dir s p b →
  wp (ramfs_finddir p name) s (λ r s', s' = s ∧
    ((r ≠ -1 ∧ ∃ i n, 0 ≤ i < MAX_ENTRIES ∧ arr_get (nodes s) r = Some n ∧ names s b i name (n_inode_num n)) ∨
     (r = -1 ∧ ∀ i j n, 0 ≤ i < MAX_ENTRIES → arr_get (nodes s) j = Some n → ¬ names s b i name (n_inode_num n)))).
Proof.
  intros Hs (n & Hn & Ht & Hb & Hbr & _). unfold ramfs_finddir. apply wp_bind. eapply wp_get_node; [exact Hn|].
  rewrite Ht, Hb. cbn [FS_TYPE_DIR Z.eqb Pos.eqb negb].
  rewrite (proj2 (Z.eqb_neq b NIL)) by (unfold FS_MAX_BLOCKS, NIL in *; lia). apply wp_bind.
  apply (wp_for_until (λ i s', s' = s ∧ ∀ k j m, 0 ≤ k < i → arr_get (nodes s) j = Some m → ¬ names s b k name (n_inode_num m))).
  - split; [done|]. intros; lia.
  - intros i s' Hi [-> H]. change (Z.of_nat (Z.to_nat MAX_ENTRIES)) with MAX_ENTRIES in Hi.
    destruct (dirents_in s b i Hs Hbr) as (e & He & _); [lia|]. apply wp_bind. eapply wp_dirent; [exact He|].
    assert (Hstep : ∀ Q : Prop, (∀ j m, arr_get (nodes s) j = Some m → ¬ names s b i name (n_inode_num m)) →
      ((s = s ∧ ∀ k j m, 0 ≤ k < i + 1 → arr_get (nodes s) j = Some m → ¬ names s b k name (n_inode_num m)) → Q) → Q).
    { intros Q Hno HQ. apply HQ. split; [done|]. intros k j m Hk Hm. destruct (decide (k = i)) as [->|]; [by eapply Hno|]. eapply H; [lia|done]. }
    destruct (Z.eqb_spec (d_inode e) 0) as [E0|Hne0]; cbn [negb andb].
    { apply wp_ret, Hstep; [|done]. intros j m Hm (e' & He' & Ei & Hnz & _). rewrite He in He'. injection He' as <-. congruence. }
    destruct (bool_decide_reflect (c_string (d_name e) = name)) as [En|Hen].
    + eapply wp_mono; [by apply wp_find_inode|]. intros [r|] s' [-> Hr]; [|].
      * destruct Hr as (m & Hm & Em). apply wp_ret. cbn. split; [done|]. left. split; [apply arr_get_Some in Hm; lia|].
        exists i, m. split_and!; [lia|lia|done|]. exists e. by rewrite Em.
      * apply Hstep; [|done]. intros j m Hm (e' & He' & Ei & _). rewrite He in He'. injection He' as <-. by eapply Hr.
    + apply wp_ret, Hstep; [|done]. intros j m Hm (e' & He' & _ & _ & En'). rewrite He in He'. by injection He' as <-.
  - change (Z.of_nat (Z.to_nat MAX_ENTRIES)) with MAX_ENTRIES. intros s' [-> H]. apply wp_ret. cbn. split; [done|]. right. split; [done|].
    intros i j m Hi Hm. by eapply H.
Qed.

(** The names have their 32 bytes, and the next inode number is new. *)
Record names_wf (s : ramfs_t) : Prop := {
  nw_name j n : arr_get (nodes s) j = Some n → length (n_name n) = 32%nat;
  nw_next : 0 < next_inode s < 2 ^ 32;
  nw_below j n : arr_get (nodes s) j = Some n → n_inode_num n < next_inode s;
}.
(** A name that fits. *)
Definition name_ok (name : list Z) : Prop := no_nul name ∧ (length name < 32)%nat.

Lemma strcpy_name dst name : length dst = 32%nat → name_ok name →
  ∃ nm, strcpy dst name = Some nm ∧ length nm = 32%nat ∧ c_string nm = name.
Proof.
  intros Hd [Hn Hl]. destruct (strcpy_fits dst name) as [nm H]; [lia|].
  exists nm. split; [done|]. destruct (strcpy_spec _ _ _ H Hn) as [H1 H2]. split; [lia|done].
Qed.

Lemma wp_find_free_node s :
  shape s → wp find_free_node s (λ r s', s' = s ∧ match r with
    | Some j => ∃ n, arr_get (nodes s) j = Some n ∧ n_inode_num n = 0
    | None => ∀ j n, arr_get (nodes s) j = Some n → n_inode_num n ≠ 0 end).
Proof. intros Hs. exact (wp_find_inode s 0 Hs). Qed.

(** The state [init_node] leaves. *)
Definition with_node (s : ramfs_t) (j : Z) (n : fs_node_t) : ramfs_t :=
  set_nodes (<[Z.to_nat j := n]> (nodes s)) (set_next_inode (u32 (next_inode s + 1)) s).
Lemma wp_init_node s j n name type perm fb Q :
  arr_get (nodes s) j = Some n → length (n_name n) = 32%nat → name_ok name →
  (∀ nm, length nm = 32%nat → c_string nm = name →
    Q () (with_node s j (FsNode nm type 0 perm fb (n_created_time n) (n_modified_time n) (next_inode s)))) →
  wp (init_node j name type perm fb) s Q.
Proof.
  intros Hn Hl Hname HQ. destruct (strcpy_name _ _ Hl Hname) as (nm & Hcpy & Hl' & Hc). unfold init_node. wp_go.
  eapply wp_get_node; [exact Hn|]. apply wp_bind. eapply wp_lift_opt; [exact Hcpy|].
  apply wp_put_node; [by apply arr_get_Some in Hn as [? _]|]. by apply HQ.
Qed.
Lemma wf_with_node s cs j n0 n :
  fs_wf s cs → names_wf s → arr_get (nodes s) j = Some n0 → n_inode_num n0 = 0 →
  n_type n = FS_TYPE_FILE → n_size n = 0 → n_first_block n = NIL → n_inode_num n = next_inode s →
  fs_wf (with_node s j n) cs.
Proof.
  intros [Hs Hc Hf Hnd Hdj Hr Hsz Hi] [_ Hnx Hbl] Hj H0 Ht Hz Hb Hno. pose proof (Hf _ _ Hj H0) as Hcs.
  pose proof (arr_get_Some _ _ _ Hj) as [Hjr _].
  assert (Hget : ∀ k, arr_get (nodes (with_node s j n)) k = if k =? j then Some n else arr_get (nodes s) k)
    by (intros k; cbn; by apply arr_get_insert).
  split; try done.
  - split; [cbn; by rewrite length_insert, (sh_nodes _ Hs)|apply Hs..].
  - intros k m. rewrite Hget. destruct (Z.eqb_spec k j) as [->|]; [|by apply Hc]. intros [= <-] _. rewrite Hcs, Hb. done.
  - intros k m. rewrite Hget. destruct (Z.eqb_spec k j) as [->|]; [done|by apply Hf].
  - intros k m. rewrite Hget. destruct (Z.eqb_spec k j) as [->|]; [|by apply Hsz]. intros [= <-] _ _. rewrite Hcs, Hz. cbn. lia.
  - intros k l m m'. rewrite !Hget. destruct (Z.eqb_spec k j) as [->|], (Z.eqb_spec l j) as [->|]; [done|..|by apply Hi].
    + intros [= <-] Hm' _ E. specialize (Hbl _ _ Hm'). lia.
    + intros Hm [= <-] _ E. specialize (Hbl _ _ Hm). lia.
Qed.

(** What [add_entry] changes when it finds a free entry [i]. *)
Record entered (s s' : ramfs_t) (p b i : Z) (e : fs_dirent_t) : Prop := {
  en_slot : 0 ≤ i < MAX_ENTRIES;
  en_free : ∃ e0, dirents s b i = Some e0 ∧ d_inode e0 = 0;
  en_dirents k : 0 ≤ k → dirents s' b k = if k =? i then Some e else dirents s b k;
  en_nodes : ∃ n, arr_get (nodes s) p = Some n ∧ nodes s' = <[Z.to_nat p := set_n_size (u32 (n_size n + 1)) n]> (nodes s);
  en_blocks : ∃ v d, arr_get (blocks s) b = Some v ∧ length d = length (b_data v) ∧
    blocks s' = <[Z.to_nat b := FsBlock d (b_next v)]> (blocks s);
  en_bitmap : free_blocks s' = free_blocks s;
  en_next : next_inode s' = next_inode s;
}.
(** No entry of the block is free. *)
Definition dir_full (s : ramfs_t) (b : Z) : Prop := ∀ i e, 0 ≤ i < MAX_ENTRIES → dirents s b i = Some e → d_inode e ≠ 0.

Lemma wp_add_entry s p b name ino :
  shape s → is_dir s p b → name_ok name → 0 ≤ ino < 2 ^ 32 →
  wp (add_entry p name ino) s (λ _ s',
    (dir_full s b ∧ s' = s) ∨
    (∃ i e, entered s s' p b i e ∧ d_inode e = ino ∧ c_string (d_name e) = name)).
Proof.
  intros Hs (n & Hn & Ht & Hb & Hbr & _) Hname Hino. unfold add_entry. apply wp_bind. eapply wp_get_node; [exact Hn|].
  rewrite Hb, (proj2 (Z.eqb_neq b NIL)) by (unfold FS_MAX_BLOCKS, NIL in *; lia). apply wp_bind.
  apply (wp_for_until (λ i s', s' = s ∧ ∀ k e, 0 ≤ k < i → dirents s b k = Some e → d_inode e ≠ 0)).
  - split; [done|]. intros; lia.
  - intros i s' Hi [-> H]. change (Z.of_nat (Z.to_nat MAX_ENTRIES)) with MAX_ENTRIES in Hi.
    destruct (dirents_in s b i Hs Hbr) as (e & He & Hel); [lia|]. apply wp_bind. eapply wp_dirent; [exact He|].
    destruct (Z.eqb_spec (d_inode e) 0) as [E0|Hne0].
    2:{ apply wp_ret. split; [done|]. intros k e' Hk He'. destruct (decide (k = i)) as [->|]; [congruence|].
        eapply H; [|done]. lia. }
    destruct (strcpy_name _ _ Hel Hname) as (nm & Hcpy & Hl' & Hc). apply wp_bind. eapply wp_lift_opt; [exact Hcpy|].
    destruct (arr_get_is_Some (blocks s) b) as [v Hv]; [rewrite (sh_blocks _ Hs); lia|].
    apply wp_bind. eapply wp_get_block; [exact Hv|]. pose proof (sh_data _ Hs _ _ Hv) as Hvl.
    destruct (splice_in (b_data v) (DIRENT_SIZE * i) (nm ++ le32_bytes ino)) as [d Hd].
    { unfold DIRENT_SIZE. lia. }
    { rewrite length_app, Hl'. change MAX_ENTRIES with 14 in Hi. unfold FS_BLOCK_SIZE, DIRENT_SIZE in *. cbn. lia. }
    apply wp_bind. eapply wp_lift_opt; [exact Hd|]. apply wp_bind, wp_put_block; [rewrite (sh_blocks _ Hs); lia|].
    apply wp_bind. eapply wp_get_node; [exact Hn|]. apply wp_bind, wp_put_node; [by apply arr_get_Some in Hn as [? _]|].
    repeat apply wp_ret. right. destruct (put_entry_spec (b_data v) i (FsDirent nm ino) d Hd Hl' Hino) as [Hdl Hde].
    exists i, (FsDirent nm ino). split; [|done]. split; try done; try lia; [by exists e|..| by exists n|by exists v, d].
    intros k Hk. unfold dirents, data_of. cbn. rewrite arr_get_insert by (rewrite (sh_blocks _ Hs); lia).
    rewrite Z.eqb_refl, Hv. cbn. by apply Hde.
  - change (Z.of_nat (Z.to_nat MAX_ENTRIES)) with MAX_ENTRIES. intros s' [-> H]. apply wp_ret. left. split; [|done].
    intros k e Hk. by apply H.
Qed.

Lemma wf_entered s s' cs p b i e : fs_wf s cs → is_dir s p b → entered s s' p b i e → fs_wf s' cs.
Proof.
  intros Hw (np & Hp & Ht & Hb & Hbr & Hi0) [_ _ _ (n & Hn & En) (v & d & Hv & Hd & Eb) Ef Enx].
  assert (n = np) as -> by congruence. pose proof (arr_get_Some _ _ _ Hn) as [Hpr _].
  destruct Hw as [Hs Hc Hf Hnd Hdj Hr Hsz Hi].
  assert (Hget : ∀ k, arr_get (nodes s') k = if k =? p then Some (set_n_size (u32 (n_size np + 1)) np) else arr_get (nodes s) k)
    by (intros k; rewrite En; by apply arr_get_insert).
  assert (Hold : ∀ k m, arr_get (nodes s') k = Some m →
    ∃ m0, arr_get (nodes s) k = Some m0 ∧ n_inode_num m = n_inode_num m0 ∧ n_first_block m = n_first_block m0 ∧
      n_type m = n_type m0 ∧ (n_type m0 = FS_TYPE_FILE → n_size m = n_size m0)).
  { intros k m. rewrite Hget. destruct (Z.eqb_spec k p) as [->|]; [|intros ?; by exists m]. intros [= <-]. exists np. cbn.
    split_and!; [done..|by rewrite Ht]. }
  split; rewrite ?Ef; try done.
  - destruct Hs as [Hs1 Hs2 Hs3 Hs4 Hs5]. split; rewrite ?En, ?Eb, ?Ef, ?length_insert; try done.
    intros x u. rewrite arr_get_insert by lia. destruct (x =? b); [|by apply Hs3]. intros [= <-]. cbn. rewrite Hd. by eapply Hs3.
  - intros k m Hm Hmi. destruct (Hold _ _ Hm) as (m0 & Hm0 & Ei & Efb & _). rewrite Efb. eapply chain_frame; [|apply Hc; [done|congruence]].
    intros x _. unfold next_of. rewrite Eb, arr_get_insert by (rewrite (sh_blocks _ Hs); lia).
    destruct (Z.eqb_spec x b) as [->|]; [by rewrite Hv|done].
  - intros k m Hm Hmi. destruct (Hold _ _ Hm) as (m0 & Hm0 & Ei & _). eapply Hf; [exact Hm0|congruence].
  - intros k m Hm Hmi Hmt. destruct (Hold _ _ Hm) as (m0 & Hm0 & Ei & _ & Et & Esz). rewrite Esz by congruence. eapply Hsz; eauto; congruence.
  - intros k l m m' Hm Hm' Hmi E. destruct (Hold _ _ Hm) as (m0 & Hm0 & Ei & _), (Hold _ _ Hm') as (m1 & Hm1 & Ei' & _).
    eapply Hi; eauto; congruence.
Qed.

(** [ramfs_create_file] in a directory: the new file, entered when there is
    room and not otherwise. *)
Lemma wp_create_file s cs p b name :
  fs_wf s cs → names_wf s → is_dir s p b → name_ok name →
  wp (ramfs_create_file p name) s (λ r s',
    (r = -1 ∧ s' = s ∧ ∀ j n, arr_get (nodes s) j = Some n → n_inode_num n ≠ 0) ∨
    (∃ n0 n, arr_get (nodes s) r = Some n0 ∧ n_inode_num n0 = 0 ∧
       n_inode_num n = next_inode s ∧ n_type n = FS_TYPE_FILE ∧ n_size n = 0 ∧ c_string (n_name n) = name ∧
       let s1 := with_node s r n in
       fs_wf s1 cs ∧ is_dir s1 p b ∧ r ≠ p ∧
       ((dir_full s b ∧ s' = s1) ∨
        (∃ i e, entered s1 s' p b i e ∧ d_inode e = next_inode s ∧ c_string (d_name e) = name)))).
Proof.
  intros Hw Hnw (np & Hp & Ht & Hb & Hbr & Hi0) Hname. pose proof (fw_shape _ _ Hw) as Hs. pose proof (nw_next _ Hnw) as Hnx.
  unfold ramfs_create_file. apply wp_bind. eapply wp_get_node; [exact Hp|]. rewrite Ht. cbn [FS_TYPE_DIR Z.eqb Pos.eqb negb].
  apply wp_bind. eapply wp_mono; [by apply wp_find_free_node|]. intros [j|] s' [-> Hj].
  2:{ apply wp_ret. left. done. }
  destruct Hj as (n0 & Hn0 & Hz). pose proof (arr_get_Some _ _ _ Hn0) as [Hjr _].
  apply wp_bind. eapply wp_init_node; [exact Hn0|by eapply nw_name|done|]. intros nm Hl Hc.
  set (n := FsNode nm _ _ _ _ _ _ _).
  assert (Hget : ∀ k, arr_get (nodes (with_node s j n)) k = if k =? j then Some n else arr_get (nodes s) k)
    by (intros k; cbn; by apply arr_get_insert).
  assert (Hjp : j ≠ p) by congruence.
  assert (Hdir : is_dir (with_node s j n) p b).
  { exists np. split_and!; try done; try lia. rewrite Hget. by rewrite (proj2 (Z.eqb_neq p j)) by done. }
  assert (Hw1 : fs_wf (with_node s j n) cs) by (by eapply wf_with_node).
  apply wp_bind. eapply wp_get_node; [rewrite Hget, Z.eqb_refl; done|]. apply wp_bind.
  eapply wp_mono; [apply (wp_add_entry _ p b name (n_inode_num n)); [by destruct Hw1|done|done|cbn; lia]|].
  intros u s' H. apply wp_ret. right. exists n0, n. by split_and!.
Qed.

(** ** A checker for the invariant *)

Fixpoint chain_b (bs : list fs_block_t) (b : Z) (l : list Z) : bool :=
  match l with
  | [] => b =? NIL
  | x :: l' => (b =? x) && match arr_get bs x with Some v => chain_b bs (b_next v) l' | None => false end
  end.
Lemma chain_b_sound bs b l : chain_b bs b l = true → chain bs b l.
Proof.
  revert b. induction l as [|x l IH]; intros b; cbn; [apply Z.eqb_eq|].
  intros [->%Z.eqb_eq H]%andb_true_iff. split; [done|]. destruct (arr_get bs x); [eauto|done].
Qed.

Definition chains (cl : list (list Z)) : Z → list Z := λ j, default [] (arr_get cl j).
Definition inode_of (s : ramfs_t) (j : Z) : Z := default 0 (n_inode_num <$> arr_get (nodes s) j).
Definition node_ok (s : ramfs_t) (l : list Z) (n : fs_node_t) : Prop :=
  if decide (n_inode_num n = 0) then l = []
  else chain_b (blocks s) (n_first_block n) l = true ∧
       (n_type n = FS_TYPE_FILE → 0 ≤ n_size n ≤ FS_BLOCK_SIZE * Z.of_nat (length l)).
Definition fs_checked (s : ramfs_t) (cl : list (list Z)) : Prop :=
  (Z.of_nat (length (nodes s)) = FS_MAX_FILES ∧ Z.of_nat (length (blocks s)) = FS_MAX_BLOCKS ∧
   Z.of_nat (length (free_blocks s)) = FS_MAX_BLOCKS / 32 ∧
   Forall (λ v, Z.of_nat (length (b_data v)) = FS_BLOCK_SIZE) (blocks s) ∧ Forall (λ w, 0 ≤ w < 2 ^ 32) (free_blocks s)) ∧
  (Z.of_nat (length cl) = FS_MAX_FILES ∧
   Forall (λ j, Forall (node_ok s (chains cl j)) (option_list (arr_get (nodes s) j))) (seqZ 0 FS_MAX_FILES)) ∧
  Forall (λ l, NoDup l ∧ Forall (λ x, 0 ≤ x < FS_MAX_BLOCKS ∧ bit_used (free_blocks s) x = true) l) cl ∧
  Forall (λ j, Forall (λ k, j = k ∨ (Forall (λ x, x ∉ chains cl k) (chains cl j) ∧ (inode_of s j = 0 ∨ inode_of s j ≠ inode_of s k)))
    (seqZ 0 FS_MAX_FILES)) (seqZ 0 FS_MAX_FILES).
#[export] Instance node_ok_dec s l n : Decision (node_ok s l n).
Proof. unfold node_ok. case_decide; [apply _|]. apply and_dec; [apply _|]. apply impl_dec; apply _. Defined.
#[export] Instance fs_checked_dec s cl : Decision (fs_checked s cl).
Proof. unfold fs_checked. repeat (apply and_dec; [apply _|]). apply _. Defined.

Lemma chains_elem cl j x : x ∈ chains cl j → 0 ≤ j < Z.of_nat (length cl) ∧ chains cl j ∈ cl.
Proof.
  unfold chains. destruct (arr_get cl j) as [l|] eqn:E; [|by intros ?%elem_of_nil]. intros _.
  apply arr_get_Some in E as [Hj E]. split; [done|]. by eapply list_elem_of_lookup_2.
Qed.
Lemma fs_checked_sound s cl : fs_checked s cl → fs_wf s (chains cl).
Proof.
  intros ((H1 & H2 & H3 & H4 & H5) & (Hlen & Hn) & Hl & Hp). rewrite Forall_forall in Hn. rewrite Forall_forall in Hp. rewrite Forall_forall in Hl.
  assert (Hnode : ∀ j n, arr_get (nodes s) j = Some n → node_ok s (chains cl j) n).
  { intros j n Hj. pose proof (arr_get_Some _ _ _ Hj) as [Hr _]. specialize (Hn j ltac:(apply elem_of_seqZ; lia)).
    rewrite Hj in Hn. by inversion_clear Hn. }
  assert (Hpair : ∀ j k, 0 ≤ j < FS_MAX_FILES → 0 ≤ k < FS_MAX_FILES →
    j = k ∨ (Forall (λ x, x ∉ chains cl k) (chains cl j) ∧ (inode_of s j = 0 ∨ inode_of s j ≠ inode_of s k))).
  { intros j k Hj Hk. specialize (Hp j ltac:(apply elem_of_seqZ; lia)). rewrite Forall_forall in Hp. apply Hp, elem_of_seqZ; lia. }
  split.
  - split; try done; [|by apply Forall_forall]. intros x v [_ Hv]%arr_get_Some. rewrite Forall_forall in H4. by eapply H4, list_elem_of_lookup_2.
  - intros j n Hj Hi. specialize (Hnode _ _ Hj). unfold node_ok in Hnode. rewrite decide_False in Hnode by done. apply chain_b_sound. by apply Hnode.
  - intros j n Hj Hi. specialize (Hnode _ _ Hj). unfold node_ok in Hnode. by rewrite decide_True in Hnode.
  - intros j. unfold chains. destruct (arr_get cl j) as [l|] eqn:E; [|apply NoDup_nil_2]. apply arr_get_Some in E as [_ E].
    by apply Hl, (list_elem_of_lookup_2 _ (Z.to_nat j)).
  - intros j k x Hj Hk. destruct (chains_elem _ _ _ Hj) as [Hjr _], (chains_elem _ _ _ Hk) as [Hkr _].
    destruct (Hpair j k) as [?|[H _]]; [lia..|done|]. rewrite Forall_forall in H. by destruct (H x).
  - intros j x Hj. destruct (chains_elem _ _ _ Hj) as [_ Hin]. apply Hl in Hin as [_ Hin]. rewrite Forall_forall in Hin. by apply Hin.
  - intros j n Hj Hi Ht. specialize (Hnode _ _ Hj). unfold node_ok in Hnode. rewrite decide_False in Hnode by done. by apply Hnode.
  - intros j k n m Hj Hk Hi E. pose proof (arr_get_Some _ _ _ Hj) as [Hjr _]. pose proof (arr_get_Some _ _ _ Hk) as [Hkr _].
    destruct (Hpair j k) as [?|[_ H]]; [lia..|done|]. unfold inode_of in H. rewrite Hj, Hk in H. cbn in H. destruct H; congruence.
Qed.

(** ** The theorems *)

(** The static [ramfs] before [fs_init], and after it. *)
Definition bss_ramfs : ramfs_t :=
  Ramfs (replicate 64 (FsNode (replicate 32 0) 0 0 0 0 0 0 0)) (replicate 1024 (FsBlock (replicate 512 0) 0)) (replicate 32 0) 0 0.
Definition booted : ramfs_t := match fs_init bss_ramfs with Ret (_, s) => s | _ => bss_ramfs end.
Definition booted_chains : list (list Z) := [[0]; [1]; [2]] ++ replicate 61 [].
Definition names_checked (s : ramfs_t) : Prop :=
  0 < next_inode s < 2 ^ 32 ∧ Forall (λ n, length (n_name n) = 32%nat ∧ n_inode_num n < next_inode s) (nodes s).
#[export] Instance names_checked_dec s : Decision (names_checked s).
Proof. unfold names_checked. apply _. Defined.
Lemma names_checked_sound s : names_checked s → names_wf s.
Proof.
  intros [Hx H]. rewrite Forall_forall in H.
  split; [|done|]; intros j n [_ Hj]%arr_get_Some; by apply H, (list_elem_of_lookup_2 _ (Z.to_nat j)).
Qed.
Lemma booted_wf : fs_wf booted (chains booted_chains).
Proof. apply fs_checked_sound. apply (bool_decide_unpack _). vm_compute. exact I. Qed.
Lemma booted_names : names_wf booted.
Proof. apply names_checked_sound. apply (bool_decide_unpack _). vm_compute. exact I. Qed.
Lemma booted_root : is_dir booted 0 0.
Proof. eexists. split; [vm_compute; reflexivity|]. cbn. unfold FS_TYPE_DIR, FS_MAX_BLOCKS. lia. Qed.

Lemma fs_init_run : fs_init bss_ramfs = Ret ((), booted).
Proof. vm_compute. reflexivity. Qed.

(** (functional): [fs_init] from the zeroed statics gives a well-formed
    filesystem whose root directory lists [hello.txt] and [readme.txt], each
    found by name and reading back the text written to it. *)
Theorem fs_init_spec :
  wp fs_init bss_ramfs (λ _ s, fs_wf s (chains booted_chains) ∧ names_wf s ∧ is_dir s (root s) 0 ∧
    wp (r ← fs_root; f ← fs_finddir r (bytes_of "hello.txt"); fs_read f 0 100) s (λ q _, q = (32, bytes_of "Hello from SimpleOS filesystem!
")) ∧
    wp (r ← fs_root; a ← fs_readdir r 0; b ← fs_readdir r 1; c ← fs_readdir r 2; mret (a, b, c)) s (λ '(a, b, c) _,
      (c_string ∘ d_name) <$> a = Some (bytes_of "hello.txt") ∧ (c_string ∘ d_name) <$> b = Some (bytes_of "readme.txt") ∧ c = None)).
Proof.
  unfold wp at 1. rewrite fs_init_run.
  split; [exact booted_wf|]. split; [exact booted_names|]. split; [exact booted_root|].
  unfold wp. split; vm_compute; [reflexivity|]. split_and!; reflexivity.
Qed.

(** The bytes of [buf] a read must give back. *)
Lemma arr_get_take (l : list Z) (r i : Z) : 0 ≤ i < r → arr_get (take (Z.to_nat r) l) i = arr_get l i.
Proof. intros Hi. unfold arr_get. rewrite (proj2 (Z.leb_le 0 i)) by lia. apply lookup_take_lt. lia. Qed.

(** C6 (roundtrip): Writing to a file keeps the filesystem well-formed and either
    fails with the disk full, leaving every byte of the disk, or stores the
    first [r] bytes of the buffer; [r] is short only with the disk full, and a
    read of that range then returns exactly those bytes. *)
Theorem fs_write_read s cs j n offset size buf :
  fs_wf s cs → arr_get (nodes s) j = Some n → n_inode_num n ≠ 0 → n_type n = FS_TYPE_FILE →
  0 ≤ offset → 0 ≤ size < 2 ^ 31 → offset + size < 2 ^ 32 → size ≤ Z.of_nat (length buf) →
  wp (fs_write j offset size buf) s (λ r s', (∃ cs', fs_wf s' cs') ∧
    ((r = -1 ∧ disk_full s' ∧ same_data s s') ∨
     (0 ≤ r ≤ size ∧ (r < size → disk_full s') ∧
      wp (fs_read j offset r) s' (λ q s'', s'' = s' ∧ q = (r, take (Z.to_nat r) buf))))).
Proof.
  intros Hw Hn Hi Ht Ho Hsz Hos Hbuf. eapply wp_mono; [by apply (wp_ramfs_write j s cs n)|]. cbn beta.
  intros r s' (cs' & n' & G & Hn' & H). split; [by exists cs'; apply G|].
  destruct H as [(-> & Hf & D & _)|(Hr & Hf & Hlen & W & E)]; [by left|right]. split; [done|]. split; [done|].
  unfold fs_read. eapply wp_mono; [apply (wp_ramfs_read j s' cs' n'); try done; try lia; [apply G|by rewrite E..]|].
  intros [q d] s'' (-> & Hq & Hdl & Hd). split; [done|]. cbn [fst snd] in *.
  assert (q = r) as -> by (rewrite E in Hq; cbn in Hq; lia). f_equal.
  apply arr_get_ext; [rewrite length_take; lia|]. intros i Hir. rewrite Hd by lia. rewrite (wr_bytes _ _ _ _ _ _ _ W).
  rewrite (proj2 (Z.leb_le _ _)), (proj2 (Z.ltb_lt _ _)) by lia. cbn. rewrite arr_get_take by lia. f_equal. lia.
Qed.
Lemma fs_write_read_witness :
  wp (fs_write 1 500 100 (replicate 100 7)) booted (λ r s', (∃ cs', fs_wf s' cs') ∧
    ((r = -1 ∧ disk_full s' ∧ same_data booted s') ∨
     (0 ≤ r ≤ 100 ∧ (r < 100 → disk_full s') ∧
      wp (fs_read 1 500 r) s' (λ q s'', s'' = s' ∧ q = (r, take (Z.to_nat r) (replicate 100 7)))))).
Proof.
  eapply (fs_write_read booted (chains booted_chains) 1);
    [exact booted_wf|vm_compute; reflexivity|cbn; lia|reflexivity|lia|lia|lia|cbn; lia].
Defined.

(** C31 (safety): A write to one file changes no other: whatever part of another
    file is read, before and after the write it reads the same. *)
Theorem fs_write_isolated s cs j n k m offset size buf o sz :
  fs_wf s cs → arr_get (nodes s) j = Some n → n_inode_num n ≠ 0 → n_type n = FS_TYPE_FILE →
  arr_get (nodes s) k = Some m → n_inode_num m ≠ 0 → n_type m = FS_TYPE_FILE → k ≠ j →
  0 ≤ offset → 0 ≤ size < 2 ^ 31 → offset + size < 2 ^ 32 → size ≤ Z.of_nat (length buf) →
  0 ≤ o → 0 ≤ sz → o + sz < 2 ^ 32 →
  wp (fs_read k o sz) s (λ before _,
    wp (fs_write j offset size buf) s (λ _ s', wp (fs_read k o sz) s' (λ after _, after = before))).
Proof.
  intros Hw Hn Hi Ht Hm Hmi Hmt Hkj Ho Hsz Hos Hbuf Hk1 Hk2 Hk3. unfold fs_read, fs_write.
  eapply wp_mono; [by apply (wp_ramfs_read k s cs m)|]. intros [q d] s0 (-> & Hq & Hdl & Hd). cbn [fst snd] in *.
  eapply wp_mono; [by apply (wp_ramfs_write j s cs n)|]. cbn beta. intros r s' (cs' & n' & G & Hn' & H).
  destruct (of_other _ _ _ _ _ G k Hkj) as [Ecs Enode].
  assert (Hsame : ∀ i, byte_at (blocks s') (cs' k) i = byte_at (blocks s) (cs k) i).
  { intros i. rewrite Ecs. destruct H as [(_ & _ & D & _)|(_ & _ & _ & W & _)]; [by apply byte_at_data|].
    unfold byte_at. destruct (arr_get (cs k) _) as [x|] eqn:Ex; [|done]. cbn. rewrite (wr_frame _ _ _ _ _ _ _ W); [done|].
    intros Hx. apply Hkj. apply arr_get_Some in Ex as [_ Ex]. apply (fw_disjoint _ _ (of_wf _ _ _ _ _ G) k j x); [|done].
    rewrite Ecs. by eapply list_elem_of_lookup_2. }
  eapply wp_mono; [apply (wp_ramfs_read k s' cs' m); try done; [apply G|congruence]|].
  intros [q' d'] s0 (-> & Hq' & Hdl' & Hd'). cbn [fst snd] in *. assert (q' = q) as -> by congruence. f_equal.
  apply arr_get_ext; [lia|]. intros i Hir. rewrite Hd, Hd' by lia. apply Hsame.
Qed.
Lemma fs_write_isolated_witness :
  wp (fs_read 2 0 100) booted (λ before _,
    wp (fs_write 1 500 100 (replicate 100 7)) booted (λ _ s', wp (fs_read 2 0 100) s' (λ after _, after = before))).
Proof.
  eapply (fs_write_isolated booted (chains booted_chains) 1 _ 2);
    [exact booted_wf|vm_compute; reflexivity|cbn; lia|reflexivity|vm_compute; reflexivity|cbn; lia|reflexivity|cbn; lia..].
Defined.

(** After a file has been created and entered, its directory lists the new
    name for the new inode and every other name as before. *)
Lemma names_entered s s1 s' p b i e name ino :
  dirents s1 b = dirents s b → entered s1 s' p b i e → d_inode e = ino → c_string (d_name e) = name → ino ≠ 0 →
  names s' b i name ino ∧ ∀ k nm x, 0 ≤ k → names s' b k nm x → names s b k nm x ∨ (k = i ∧ nm = name ∧ x = ino).
Proof.
  intros Es En Hino Hnm Hnz. split.
  - exists e. rewrite (en_dirents _ _ _ _ _ _ En), Z.eqb_refl by (by destruct (en_slot _ _ _ _ _ _ En)). by split_and!.
  - intros k nm x Hk (e' & He' & Hx & Hxz & Hn'). rewrite (en_dirents _ _ _ _ _ _ En) in He' by done.
    destruct (Z.eqb_spec k i) as [->|]; [right|left]; [injection He' as <-; by subst|]. exists e'. by rewrite <- Es.
Qed.
Lemma entered_inodes s s' p b i e j : entered s s' p b i e → inode_of s' j = inode_of s j.
Proof.
  intros [_ _ _ (n & Hn & En) _ _ _]. unfold inode_of. pose proof (arr_get_Some _ _ _ Hn) as [Hp _].
  rewrite En, arr_get_insert by done. destruct (Z.eqb_spec j p) as [->|]; [by rewrite Hn|done].
Qed.
Lemma entered_dir s s' p b i e : is_dir s p b → entered s s' p b i e → is_dir s' p b.
Proof.
  intros (np & Hp & ? & ? & ? & ?) [_ _ _ (n & Hn & En) _ _ _]. assert (n = np) as -> by congruence.
  pose proof (arr_get_Some _ _ _ Hn) as [Hpr _]. eexists. rewrite En, arr_get_insert, Z.eqb_refl by done.
  split; [reflexivity|]. cbn. tauto.
Qed.
Lemma inode_of_get s j n : arr_get (nodes s) j = Some n → inode_of s j = n_inode_num n.
Proof. intros H. unfold inode_of. by rewrite H. Qed.

(** No entry of the directory has the name. *)
Definition unnamed (s : ramfs_t) (b : Z) (name : list Z) : Prop :=
  ∀ i e, 0 ≤ i < MAX_ENTRIES → dirents s b i = Some e → d_inode e ≠ 0 → c_string (d_name e) ≠ name.
Lemma unnamed_names s b name i ino : unnamed s b name → 0 ≤ i < MAX_ENTRIES → ¬ names s b i name ino.
Proof. intros H Hi (e & He & <- & Hz & Hn). by eapply H. Qed.

(** C35 (functional): Creating a file with a new name, in a directory with a free
    entry, keeps the filesystem well-formed; unless all nodes are taken, the
    new file is then found under its name, and reads as empty. *)
Theorem create_file_find s cs p b name :
  fs_wf s cs → names_wf s → is_dir s p b → name_ok name → ¬ dir_full s b →
  unnamed s b name →
  wp (ramfs_create_file p name) s (λ r s', fs_wf s' cs ∧
    ((r = -1 ∧ s' = s ∧ ∀ j, 0 ≤ j < FS_MAX_FILES → inode_of s j ≠ 0) ∨
     (inode_of s r = 0 ∧ inode_of s' r = next_inode s ∧
      wp (fs_finddir p name) s' (λ k _, k = r) ∧ wp (fs_read r 0 512) s' (λ q _, q = (0, []))))).
Proof.
  intros Hw Hnw Hdir Hname Hroom Hnew. pose proof (nw_next _ Hnw) as Hnx. pose proof (fw_shape _ _ Hw) as Hs.
  eapply wp_mono; [by apply (wp_create_file s cs p b)|]. cbn beta. intros r s' [(-> & -> & Hall)|H].
  { split; [done|]. left. split_and!; [done..|]. intros j Hj. destruct (arr_get_is_Some (nodes s) j) as [n Hn]; [rewrite (sh_nodes _ Hs); lia|].
    rewrite (inode_of_get _ _ _ Hn). by eapply Hall. }
  destruct H as (n0 & n & Hn0 & Hz & Hino & Ht & Hsz & Hnm & Hw1 & Hdir1 & Hrp & [[Hf _]|(i & e & En & He & Hen)]); [done|].
  pose proof (arr_get_Some _ _ _ Hn0) as [Hr _].
  assert (Hget1 : arr_get (nodes (with_node s r n)) r = Some n) by (cbn; rewrite arr_get_insert, Z.eqb_refl by done; done).
  assert (Hget : arr_get (nodes s') r = Some n).
  { destruct (en_nodes _ _ _ _ _ _ En) as (m & Hm & ->). apply arr_get_Some in Hm as [Hmr _].
    rewrite arr_get_insert by done. by rewrite (proj2 (Z.eqb_neq r p)) by done. }
  pose proof (wf_entered _ _ _ _ _ _ _ Hw1 Hdir1 En) as Hw'. pose proof (entered_dir _ _ _ _ _ _ Hdir1 En) as Hdir'.
  destruct (names_entered s (with_node s r n) s' p b i e name (next_inode s) eq_refl En He Hen) as [Hlisted Hothers]; [lia|].
  split; [done|]. right. split; [by rewrite (inode_of_get _ _ _ Hn0)|]. split; [by rewrite (inode_of_get _ _ _ Hget)|]. split.
  - eapply wp_mono; [apply (wp_finddir s' p b name); [apply Hw'|done]|]. cbn beta.
    intros k s'' [-> [(Hk & i' & m & Hi' & Hm & Hnames)|(-> & Hno)]].
    + destruct (Hothers i' name (n_inode_num m) ltac:(lia) Hnames) as [Hold|(_ & _ & Emi)]; [by apply unnamed_names in Hold|].
      apply (fw_inode _ _ Hw' k r m n Hm Hget); lia.
    + destruct (Hno i r n); [apply En|done|by rewrite Hino].
  - eapply wp_mono; [apply (wp_ramfs_read r s' cs n); try done; lia|]. intros [q d] s'' (-> & Hq & Hdl & _).
    cbn [fst snd] in *. rewrite Hsz in Hq. cbn in Hq. subst q. by destruct d.
Qed.

(** A directory's entries checked one by one. *)
Lemma unnamed_checked s b name :
  forallb (λ i, match dirents s b i with Some e => (d_inode e =? 0) || negb (bool_decide (c_string (d_name e) = name)) | None => false end)
    (seqZ 0 MAX_ENTRIES) = true → unnamed s b name.
Proof.
  intros H i e Hi He Hz. rewrite forallb_forall in H. specialize (H i). rewrite He in H.
  destruct (orb_true_elim _ _ (H ltac:(apply list_elem_of_In, elem_of_seqZ; lia))) as [E|E].
  - by apply Z.eqb_eq in E.
  - by destruct (bool_decide_reflect (c_string (d_name e) = name)).
Qed.
Lemma create_file_find_witness :
  wp (ramfs_create_file 0 (bytes_of "a.txt")) booted (λ r s', fs_wf s' (chains booted_chains) ∧
    ((r = -1 ∧ s' = booted ∧ ∀ j, 0 ≤ j < FS_MAX_FILES → inode_of booted j ≠ 0) ∨
     (inode_of booted r = 0 ∧ inode_of s' r = next_inode booted ∧
      wp (fs_finddir 0 (bytes_of "a.txt")) s' (λ k _, k = r) ∧ wp (fs_read r 0 512) s' (λ q _, q = (0, []))))).
Proof.
  apply (create_file_find booted (chains booted_chains) 0 0 (bytes_of "a.txt") booted_wf booted_names booted_root).
  - split; [|cbn; lia]. apply (bool_decide_unpack _). vm_compute. exact I.
  - intros H. apply (H 2 (FsDirent (replicate 32 0) 0)); [change MAX_ENTRIES with 14; lia|vm_compute; reflexivity|reflexivity].
  - apply unnamed_checked. vm_compute. reflexivity.
Defined.

(** (error): A directory holds 14 entries.  In a full one,
    [ramfs_create_file] still returns a node and consumes it, although the file
    has no entry: looking its name up fails. *)
Theorem full_directory_loses_file s cs p b name :
  fs_wf s cs → names_wf s → is_dir s p b → name_ok name → dir_full s b → unnamed s b name →
  wp (ramfs_create_file p name) s (λ r s',
    (r = -1 ∧ s' = s ∧ ∀ j, 0 ≤ j < FS_MAX_FILES → inode_of s j ≠ 0) ∨
    (inode_of s r = 0 ∧ inode_of s' r = next_inode s ∧ wp (fs_finddir p name) s' (λ k _, k = -1))).
Proof.
  intros Hw Hnw Hdir Hname Hfull Hnew. pose proof (fw_shape _ _ Hw) as Hs.
  eapply wp_mono; [by apply (wp_create_file s cs p b)|]. cbn beta. intros r s' [(-> & -> & Hall)|H].
  { left. split_and!; [done..|]. intros j Hj. destruct (arr_get_is_Some (nodes s) j) as [n Hn]; [rewrite (sh_nodes _ Hs); lia|].
    rewrite (inode_of_get _ _ _ Hn). by eapply Hall. }
  destruct H as (n0 & n & Hn0 & Hz & Hino & Ht & Hsz & Hnm & Hw1 & Hdir1 & Hrp & [[_ ->]|(i & e & En & He & Hen)]).
  2:{ destruct (en_free _ _ _ _ _ _ En) as (e0 & He0 & Hz0). edestruct (Hfull i e0 (en_slot _ _ _ _ _ _ En) He0). done. }
  pose proof (arr_get_Some _ _ _ Hn0) as [Hr _].
  right. split; [by rewrite (inode_of_get _ _ _ Hn0)|]. split.
  { erewrite inode_of_get; [done|]. cbn. rewrite arr_get_insert, Z.eqb_refl by done. done. }
  eapply wp_mono; [apply (wp_finddir _ p b name); [apply Hw1|done]|]. cbn beta.
  intros k s'' [-> [(Hk & i' & m & Hi' & Hm & Hnames)|(-> & _)]]; [|done].
  by edestruct (unnamed_names s b name i' (n_inode_num m) Hnew Hi').
Qed.
(** A booted filesystem with twelve more files: the root directory is full. *)
Definition crowded : ramfs_t :=
  match for_loop 12 0 (λ i, ramfs_create_file 0 [97 + i];; mret ()) booted with Ret (_, s) => s | _ => booted end.
Lemma full_directory_loses_file_witness :
  wp (ramfs_create_file 0 (bytes_of "late.txt")) crowded (λ r s',
    (r = -1 ∧ s' = crowded ∧ ∀ j, 0 ≤ j < FS_MAX_FILES → inode_of crowded j ≠ 0) ∨
    (inode_of crowded r = 0 ∧ inode_of s' r = next_inode crowded ∧ wp (fs_finddir 0 (bytes_of "late.txt")) s' (λ k _, k = -1))).
Proof.
  apply (full_directory_loses_file crowded (chains booted_chains) 0 0 (bytes_of "late.txt")).
  - apply fs_checked_sound. apply (bool_decide_unpack _). vm_compute. exact I.
  - apply names_checked_sound. apply (bool_decide_unpack _). vm_compute. exact I.
  - eexists. split; [vm_compute; reflexivity|]. cbn. unfold FS_TYPE_DIR, FS_MAX_BLOCKS. lia.
  - split; [|cbn; lia]. apply (bool_decide_unpack _). vm_compute. exact I.
  - intros i e Hi He Hz.
    assert (H : forallb (λ i, match dirents crowded 0 i with Some e => negb (d_inode e =? 0) | None => false end) (seqZ 0 14) = true)
      by (vm_compute; reflexivity).
    rewrite forallb_forall in H. specialize (H i ltac:(apply list_elem_of_In, elem_of_seqZ; change MAX_ENTRIES with 14 in Hi; lia)).
    rewrite He, Hz in H. done.
  - apply unnamed_checked. vm_compute. reflexivity.
Defined.

(** (error): [offset + size] wraps at 32 bits, so such a read is not clamped
    to the file's size: of a 32-byte file it returns 496 bytes. *)
Theorem read_wraps_past_end :
  wp (f ← fs_finddir 0 (bytes_of "hello.txt"); n ← get_node f; q ← fs_read f 16 (2 ^ 32 - 16); mret (n_size n, q.1)) booted
    (λ r _, r = (32, 496)).
Proof. unfold wp. vm_compute. reflexivity. Qed.

(** ** Names and writes *)

(** The directory block [b] has one entry called [name], and it is the file [j]. *)
Definition found (s : ramfs_t) (b : Z) (name : list Z) (j : Z) : Prop :=
  ∃ n i, arr_get (nodes s) j = Some n ∧ n_inode_num n ≠ 0 ∧ n_type n = FS_TYPE_FILE ∧ 0 ≤ i < MAX_ENTRIES ∧
    names s b i name (n_inode_num n) ∧ ∀ k ino, 0 ≤ k < MAX_ENTRIES → names s b k name ino → ino = n_inode_num n.

Lemma wp_finddir_found s cs p b name j :
  fs_wf s cs → is_dir s p b → found s b name j → wp (fs_finddir p name) s (λ r s', s' = s ∧ r = j).
Proof.
  intros Hw Hd (n & i & Hn & Hz & _ & Hi & Hnm & Huniq).
  eapply wp_mono; [apply (wp_finddir s p b name); [apply Hw|done]|]. cbn beta. intros r s' [-> [(_ & k & m & Hk & Hm & Hkm)|(_ & Hno)]].
  - split; [done|]. pose proof (Huniq _ _ Hk Hkm) as E. eapply (fw_inode _ _ Hw r j m n); [done..| |done]. congruence.
  - by destruct (Hno i j n).
Qed.

(** A write to a file leaves the directories alone. *)
Lemma write_keeps_names s cs s' cs' j p b name k :
  fs_wf s cs → only_file j s cs s' cs' →
  (∀ n, arr_get (nodes s) j = Some n → ∃ n', arr_get (nodes s') j = Some n' ∧ n_inode_num n' = n_inode_num n ∧ n_type n' = n_type n) →
  (∀ x, x ∉ cs' j → data_of (blocks s') x = data_of (blocks s) x) → p ≠ j →
  is_dir s p b → found s b name k → is_dir s' p b ∧ found s' b name k.
Proof.
  intros Hw Hof Hj Hdata Hpj (np & Hp & Ht & Hfb & Hbr & Hz) (n & i & Hn & Hni & Hnt & Hi & Hnm & Huniq).
  destruct (of_other _ _ _ _ _ Hof p Hpj) as [Ecs Enode].
  assert (Hb : b ∈ cs p).
  { pose proof (fw_chain _ _ Hw p np Hp Hz) as Hc. rewrite Hfb in Hc. destruct (cs p) as [|x l] eqn:E.
    - cbn in Hc. unfold NIL, FS_MAX_BLOCKS in *. lia.
    - apply chain_first in Hc as ->. by left. }
  assert (Hbj : b ∉ cs' j).
  { intros Hin. destruct Hpj. apply (fw_disjoint _ _ (of_wf _ _ _ _ _ Hof) p j b); [by rewrite Ecs|done]. }
  assert (Hd : ∀ i, dirents s' b i = dirents s b i) by (intros x; unfold dirents; by rewrite Hdata).
  split; [exists np; by rewrite Enode|].
  assert (∃ n', arr_get (nodes s') k = Some n' ∧ n_inode_num n' = n_inode_num n ∧ n_type n' = n_type n) as (n' & Hn' & E1 & E2).
  { destruct (decide (k = j)) as [->|Hkj]; [by apply Hj|]. exists n. by rewrite (proj2 (of_other _ _ _ _ _ Hof k Hkj)). }
  exists n', i. rewrite E1, E2. unfold names in *. rewrite Hd. split_and!; try done; [lia..|].
  intros x ino Hx. rewrite Hd. by apply Huniq.
Qed.
