(* ===== verification/Console.v ===== *)
(** * The text console (src/drivers/terminal.c, src/drivers/vt.c)

    The 80x25 screen is a list of 2000 cells, character and attribute; an
    access outside it is undefined.  With virtual terminals enabled, text goes
    to the buffer of the current terminal, which is copied to the screen.
    Writes to the cursor ports are recorded.

    The plain terminal is specified by the text it has received: the screen
    shows the last 25 lines of it.  The virtual terminals are specified by an
    invariant, the screen being an image of the current one. *)
From S2P Require Import Prelude.

Definition VGA_WIDTH : Z := 80.
Definition VGA_HEIGHT : Z := 25.
Definition NUM_VIRTUAL_TERMINALS : Z := 4.
Definition VGA_COLOR_LIGHT_GREY : Z := 7.
Definition VGA_COLOR_BLACK : Z := 0.

Record virtual_terminal_t := VT {
  buffer : list Z;
  cursor_x : Z;
  cursor_y : Z;
  color : Z;
  active : Z;
  shell_pid : Z;
}.
Record console := Console {
  vga : list Z;
  terminal_row : Z;
  terminal_column : Z;
  terminal_color : Z;
  vt_enabled : bool;
  terminals : list virtual_terminal_t;
  current_terminal : Z;
  outs : list (Z * Z);
}.

Definition set_vga v s := Console v (terminal_row s) (terminal_column s) (terminal_color s) (vt_enabled s) (terminals s) (current_terminal s) (outs s).
Definition set_row v s := Console (vga s) v (terminal_column s) (terminal_color s) (vt_enabled s) (terminals s) (current_terminal s) (outs s).
Definition set_column v s := Console (vga s) (terminal_row s) v (terminal_color s) (vt_enabled s) (terminals s) (current_terminal s) (outs s).
Definition set_tcolor v s := Console (vga s) (terminal_row s) (terminal_column s) v (vt_enabled s) (terminals s) (current_terminal s) (outs s).
Definition set_vt_enabled v s := Console (vga s) (terminal_row s) (terminal_column s) (terminal_color s) v (terminals s) (current_terminal s) (outs s).
Definition set_terminals v s := Console (vga s) (terminal_row s) (terminal_column s) (terminal_color s) (vt_enabled s) v (current_terminal s) (outs s).
Definition set_current v s := Console (vga s) (terminal_row s) (terminal_column s) (terminal_color s) (vt_enabled s) (terminals s) v (outs s).
Definition set_outs v s := Console (vga s) (terminal_row s) (terminal_column s) (terminal_color s) (vt_enabled s) (terminals s) (current_terminal s) v.

Definition set_buffer v t := VT v (cursor_x t) (cursor_y t) (color t) (active t) (shell_pid t).
Definition set_x v t := VT (buffer t) v (cursor_y t) (color t) (active t) (shell_pid t).
Definition set_y v t := VT (buffer t) (cursor_x t) v (color t) (active t) (shell_pid t).
Definition set_color v t := VT (buffer t) (cursor_x t) (cursor_y t) v (active t) (shell_pid t).
Definition set_active v t := VT (buffer t) (cursor_x t) (cursor_y t) (color t) v (shell_pid t).
Definition set_shell_pid v t := VT (buffer t) (cursor_x t) (cursor_y t) (color t) (active t) v.

(** A character with its attribute; [char] is signed. *)
Definition s8 (c : Z) : Z := if u8 c <? 128 then u8 c else u8 c - 256.
Definition cell (c col : Z) : Z := u16 (Z.lor (u16 (s8 c)) (Z.shiftl col 8)).

Definition vga_get (i : Z) : M console Z := v ← gets vga; lift_opt (arr_get v i).
Definition vga_put (i c : Z) : M console unit := v ← gets vga; v' ← lift_opt (arr_set v i c); modify (set_vga v').
Definition outb (port data : Z) : M console unit := modify (λ s, set_outs (outs s ++ [(port, u8 data)]) s).

(** ** The plain terminal *)

Definition terminal_scroll : M console unit :=
  for_loop (Z.to_nat (VGA_HEIGHT - 1)) 0 (λ y,
    for_loop (Z.to_nat VGA_WIDTH) 0 (λ x,
      let from := (y + 1) * VGA_WIDTH + x in
      let to := y * VGA_WIDTH + x in
      c ← vga_get from; vga_put to c));;
  let last_line_start := (VGA_HEIGHT - 1) * VGA_WIDTH in
  for_loop (Z.to_nat VGA_WIDTH) 0 (λ x,
    col ← gets terminal_color; vga_put (last_line_start + x) (cell 32 col));;
  modify (set_row (VGA_HEIGHT - 1)).

(** [if (++terminal_row == VGA_HEIGHT) terminal_scroll();] *)
Definition next_row : M console unit :=
  modify (λ s, set_row (u64 (terminal_row s + 1)) s);;
  r ← gets terminal_row;
  if r =? VGA_HEIGHT then terminal_scroll else mret ().

Definition terminal_set_cursor (x y : Z) : M console unit :=
  let pos := u16 (y * VGA_WIDTH + x) in
  outb 0x3D4 0x0F;;
  outb 0x3D5 (Z.land pos 0xFF);;
  outb 0x3D4 0x0E;;
  outb 0x3D5 (Z.land (Z.shiftr pos 8) 0xFF).

(** ** Virtual terminals *)

(** [terminals[i]], read and updated. *)
Definition get_vt (i : Z) : M console virtual_terminal_t := ts ← gets terminals; lift_opt (arr_get ts i).
Definition upd_vt (i : Z) (f : virtual_terminal_t → option virtual_terminal_t) : M console unit :=
  ts ← gets terminals; t ← lift_opt (arr_get ts i); t' ← lift_opt (f t);
  ts' ← lift_opt (arr_set ts i t'); modify (set_terminals ts').
(** [vt->buffer[i] = v]. *)
Definition put_cell (i v : Z) (t : virtual_terminal_t) : option virtual_terminal_t :=
  b ← arr_set (buffer t) i v; Some (set_buffer b t).

Definition indicators : list (list Z) := [bytes_of "[F1]"; bytes_of "[F2]"; bytes_of "[F3]"; bytes_of "[F4]"].
Definition vt_refresh : M console unit :=
  cur ← gets current_terminal;
  vt ← get_vt cur;
  modify (set_vga (buffer vt));;
  indicator ← lift_opt (arr_get indicators cur);
  let x := 76 in
  for_loop (length indicator) 0 (λ i,
    c ← lift_opt (arr_get indicator i); vga_put (x + i) (Z.lor c (Z.shiftl 0x1F 8))).

Definition vt_init : M console unit :=
  for_loop (Z.to_nat NUM_VIRTUAL_TERMINALS) 0 (λ i,
    for_loop (80 * 25) 0 (λ j, upd_vt i (put_cell j (Z.lor 32 (Z.shiftl 0x0F 8))));;
    upd_vt i (λ t, Some (set_x 0 t));;
    upd_vt i (λ t, Some (set_y 0 t));;
    upd_vt i (λ t, Some (set_color 0x0F t));;
    upd_vt i (λ t, Some (set_active 0 t));;
    upd_vt i (λ t, Some (set_shell_pid (-1) t)));;
  upd_vt 0 (λ t, Some (set_active 1 t));;
  vt_refresh.

Definition vt_switch (terminal : Z) : M console unit :=
  cur ← gets current_terminal;
  if (terminal <? 0) || (NUM_VIRTUAL_TERMINALS <=? terminal) then mret () else
  if terminal =? cur then mret () else
  modify (set_current terminal);;
  upd_vt terminal (λ t, Some (set_active 1 t));;
  vt_refresh;;
  t ← get_vt terminal;
  terminal_set_cursor (cursor_x t) (cursor_y t).

Definition vt_get_current : M console Z := gets current_terminal.

(** "Scroll up". *)
Definition vt_scroll (cur : Z) : M console unit :=
  for_loop (24 * 80) 0 (λ i,
    t ← get_vt cur; c ← lift_opt (arr_get (buffer t) (i + 80)); upd_vt cur (put_cell i c));;
  for_loop 80 (24 * 80) (λ i, t ← get_vt cur; upd_vt cur (put_cell i (u16 (Z.lor 32 (Z.shiftl (color t) 8)))));;
  upd_vt cur (λ t, Some (set_y 24 t)).

Definition vt_putchar (c : Z) : M console unit :=
  cur ← gets current_terminal;
  (if c =? 10 then
     upd_vt cur (λ t, Some (set_x 0 t));;
     upd_vt cur (λ t, Some (set_y (u16 (cursor_y t + 1)) t))
   else if c =? 13 then upd_vt cur (λ t, Some (set_x 0 t))
   else if c =? 8 then
     t ← get_vt cur;
     if 0 <? cursor_x t then
       upd_vt cur (λ t, Some (set_x (u16 (cursor_x t - 1)) t));;
       upd_vt cur (λ t, put_cell (cursor_y t * 80 + cursor_x t) (u16 (Z.lor 32 (Z.shiftl (color t) 8))) t)
     else mret ()
   else if c =? 9 then upd_vt cur (λ t, Some (set_x (u16 (Z.land (cursor_x t + 8) (Z.lnot 7))) t))
   else if (32 <=? s8 c) && (s8 c <? 127) then
     t ← get_vt cur;
     (if 80 <=? cursor_x t then
        upd_vt cur (λ t, Some (set_x 0 t));;
        upd_vt cur (λ t, Some (set_y (u16 (cursor_y t + 1)) t))
      else mret ());;
     t ← get_vt cur;
     (if 25 <=? cursor_y t then vt_scroll cur else mret ());;
     upd_vt cur (λ t, put_cell (cursor_y t * 80 + cursor_x t) (u16 (Z.lor (s8 c) (Z.shiftl (color t) 8))) t);;
     upd_vt cur (λ t, Some (set_x (u16 (cursor_x t + 1)) t))
   else mret ());;
  vt_refresh;;
  t ← get_vt cur;
  terminal_set_cursor (cursor_x t) (cursor_y t).

(** The string functions take the bytes before the terminating zero. *)
Fixpoint vt_writestring (str : list Z) : M console unit :=
  match str with [] => mret () | c :: str' => vt_putchar c;; vt_writestring str' end.

Definition vt_clear : M console unit :=
  cur ← gets current_terminal;
  for_loop (80 * 25) 0 (λ i, t ← get_vt cur; upd_vt cur (put_cell i (u16 (Z.lor 32 (Z.shiftl (color t) 8)))));;
  upd_vt cur (λ t, Some (set_x 0 t));;
  upd_vt cur (λ t, Some (set_y 0 t));;
  vt_refresh;;
  terminal_set_cursor 0 0.

Definition vt_get (terminal : Z) : M console (option virtual_terminal_t) :=
  if (terminal <? 0) || (NUM_VIRTUAL_TERMINALS <=? terminal) then mret None else
  t ← get_vt terminal; mret (Some t).

(** ** The functions of terminal.c that use either *)

Definition terminal_putchar (c : Z) : M console unit :=
  on ← gets vt_enabled;
  if (on : bool) then vt_putchar c else
  if c =? 10 then
    modify (set_column 0);; next_row
  else if c =? 13 then modify (set_column 0)
  else if c =? 8 then
    col ← gets terminal_column;
    if 0 <? col then
      modify (λ s, set_column (u64 (terminal_column s - 1)) s);;
      s ← gets id;
      vga_put (u64 (terminal_row s * VGA_WIDTH + terminal_column s)) (cell 32 (terminal_color s))
    else mret ()
  else
    s ← gets id;
    vga_put (u64 (terminal_row s * VGA_WIDTH + terminal_column s)) (cell c (terminal_color s));;
    modify (λ s, set_column (u64 (terminal_column s + 1)) s);;
    col ← gets terminal_column;
    if col =? VGA_WIDTH then modify (set_column 0);; next_row else mret ().

Fixpoint terminal_write (data : list Z) : M console unit :=
  match data with [] => mret () | c :: data' => terminal_putchar c;; terminal_write data' end.
Definition terminal_writestring (data : list Z) : M console unit := terminal_write (c_string data).

Definition init_vga : M console unit :=
  modify (set_row 0);;
  modify (set_column 0);;
  modify (set_tcolor (Z.lor VGA_COLOR_LIGHT_GREY (Z.shiftl VGA_COLOR_BLACK 4)));;
  for_loop (Z.to_nat VGA_HEIGHT) 0 (λ y,
    for_loop (Z.to_nat VGA_WIDTH) 0 (λ x,
      let index := y * VGA_WIDTH + x in
      col ← gets terminal_color; vga_put index (cell 32 col))).

Definition terminal_enable_vt : M console unit := modify (set_vt_enabled true).

(** ** Specification of the plain terminal *)

(** The text on the terminal: its lines, the one being written first. *)
Definition a_putchar (lines : list (list Z)) (c : Z) : list (list Z) :=
  match lines with
  | [] => []
  | l :: rest =>
      if c =? 10 then [] :: l :: rest
      else if c =? 8 then removelast l :: rest
      else if (length l =? 79)%nat then [] :: (l ++ [c]) :: rest
      else (l ++ [c]) :: rest
  end.
Definition typed (data : list Z) : list (list Z) := foldl a_putchar [[]] data.

(** A line as a row of 80 cells, and the rows of the screen. *)
Definition row_of (col : Z) (l : list Z) : list Z := ((λ c, cell c col) <$> l) ++ replicate (80 - length l) (cell 32 col).
Definition rows_of (col : Z) (lines : list (list Z)) : list (list Z) :=
  (row_of col <$> reverse (take 25 lines)) ++ replicate (25 - length lines) (row_of col []).

(** The screen shows the last 25 lines, with the cursor after the last
    character. *)
Record shows (lines : list (list Z)) (s : console) : Prop := {
  sh_plain : vt_enabled s = false;
  sh_lines : lines ≠ [] ∧ Forall (λ l, (length l ≤ 80)%nat) lines;
  sh_last : (length (default [] (head lines)) < 80)%nat;
  sh_vga : vga s = concat (rows_of (terminal_color s) lines);
  sh_row : terminal_row s = Z.of_nat (Nat.min 25 (length lines)) - 1;
  sh_column : terminal_column s = Z.of_nat (length (default [] (head lines)));
}.

(** ** Cells *)

Lemma wp_vga_put s i c Q :
  0 ≤ i < Z.of_nat (length (vga s)) → Q () (set_vga (<[Z.to_nat i := c]> (vga s)) s) → wp (vga_put i c) s Q.
Proof. intros Hi HQ. unfold vga_put. wp_go. rewrite arr_set_in by done. by wp_go. Qed.
Lemma wp_vga_get s i c Q : arr_get (vga s) i = Some c → Q c s → wp (vga_get i) s Q.
Proof. intros E HQ. unfold vga_get. wp_go. by rewrite E. Qed.

(** Everything but the screen. *)
Definition same_but_vga (s s' : console) : Prop := s' = set_vga (vga s') s.
Lemma same_but_vga_put s s' v : same_but_vga s s' → same_but_vga s (set_vga v s').
Proof. unfold same_but_vga. intros ->. done. Qed.
Lemma same_color s s' : same_but_vga s s' → terminal_color s' = terminal_color s.
Proof. by intros ->. Qed.

(** A scrolled buffer. *)
Definition scrolled (c : Z) (v : list Z) : list Z := drop 80 v ++ replicate 80 c.
Lemma scrolled_ext c v v' :
  length v = 2000%nat → length v' = 2000%nat →
  (∀ i, 0 ≤ i < 1920 → arr_get v' i = arr_get v (i + 80)) → (∀ i, 1920 ≤ i < 2000 → arr_get v' i = Some c) →
  v' = scrolled c v.
Proof.
  intros Hv Hv' H1 H2. unfold scrolled. apply arr_get_ext.
  { rewrite length_app, length_drop, length_replicate. lia. }
  intros i Hi. assert (Hd : length (drop 80 v) = 1920%nat) by (rewrite length_drop; lia).
  destruct (decide (i < 1920)).
  - rewrite H1, arr_get_app_l, arr_get_drop by lia. f_equal. lia.
  - rewrite H2, arr_get_app_r, Hd, arr_get_replicate by lia. done.
Qed.

Lemma wp_terminal_scroll s Q :
  length (vga s) = 2000%nat → Q () (set_row 24 (set_vga (scrolled (cell 32 (terminal_color s)) (vga s)) s)) →
  wp terminal_scroll s Q.
Proof.
  intros Hlen HQ. set (v := vga s) in *. unfold terminal_scroll.
  set (I := λ k s', same_but_vga s s' ∧ length (vga s') = 2000%nat ∧
    ∀ i, 0 ≤ i < 2000 → arr_get (vga s') i = if i <? k then arr_get v (i + 80) else arr_get v i).
  apply wp_bind. apply (wp_for (λ y s', I (80 * y) s')).
  - split; [by destruct s|]. split; [done|]. intros i Hi. by rewrite (proj2 (Z.ltb_ge _ _)) by lia.
  - intros y s1 Hy HI. change (Z.of_nat (Z.to_nat (VGA_HEIGHT - 1))) with 24 in Hy.
    apply (wp_for (λ x s', I (80 * y + x) s')).
    + by rewrite Z.add_0_r.
    + intros x s2 Hx (Hs & Hl & Hg). change (Z.of_nat (Z.to_nat VGA_WIDTH)) with 80 in Hx. unfold VGA_WIDTH. cbv zeta.
      destruct (arr_get_is_Some v ((y + 1) * 80 + x)) as [c Hc]; [lia|].
      apply wp_bind. eapply wp_vga_get; [rewrite Hg, (proj2 (Z.ltb_ge _ _)) by lia; exact Hc|].
      apply wp_vga_put; [lia|]. split; [by apply same_but_vga_put|]. cbn. split; [by rewrite length_insert|].
      intros i Hi. rewrite arr_get_insert by lia. destruct (Z.eqb_spec i (y * 80 + x)) as [->|Hne].
      * rewrite (proj2 (Z.ltb_lt _ _)) by lia. rewrite <- Hc. f_equal. lia.
      * rewrite Hg by lia. destruct (Z.ltb_spec i (80 * y + x)); case_cmp; (done || lia).
    + change (Z.of_nat (Z.to_nat VGA_WIDTH)) with 80. intros s2. by replace (80 * (y + 1)) with (80 * y + (0 + 80)) by lia.
  - change (0 + Z.of_nat (Z.to_nat (VGA_HEIGHT - 1))) with 24. intros s1 (Hs1 & Hl1 & Hg1). apply wp_bind.
    set (c := cell 32 (terminal_color s)).
    apply (wp_for (λ x s', same_but_vga s s' ∧ length (vga s') = 2000%nat ∧
      (∀ i, 0 ≤ i < 1920 → arr_get (vga s') i = arr_get v (i + 80)) ∧ ∀ i, 1920 ≤ i < 1920 + x → arr_get (vga s') i = Some c)).
    + split_and!; [done..| |intros; lia]. intros i Hi. rewrite Hg1 by lia. by rewrite (proj2 (Z.ltb_lt _ _)) by lia.
    + intros x s2 Hx (Hs & Hl & Hg & Hc). change (Z.of_nat (Z.to_nat VGA_WIDTH)) with 80 in Hx. wp_go.
      rewrite (same_color _ _ Hs). change ((VGA_HEIGHT - 1) * VGA_WIDTH) with 1920.
      apply wp_vga_put; [lia|]. split_and!; [by apply same_but_vga_put|cbn; by rewrite length_insert|..]; cbn.
      * intros i Hi. rewrite arr_get_insert, (proj2 (Z.eqb_neq _ _)) by lia. by apply Hg.
      * intros i Hi. rewrite arr_get_insert by lia. destruct (Z.eqb_spec i (1920 + x)); [done|]. apply Hc. lia.
    + change (0 + Z.of_nat (Z.to_nat VGA_WIDTH)) with 80. intros s2 (Hs & Hl & Hg & Hc). apply wp_modify.
      rewrite Hs, (scrolled_ext c v (vga s2)); [done|done|done|exact Hg|]. intros i Hi. apply Hc. lia.
Qed.

(** ** Rows *)

Lemma concat_insert (rows : list (list Z)) r row c v :
  Forall (λ l, length l = 80%nat) rows → rows !! r = Some row → (c < 80)%nat →
  <[(80 * r + c)%nat := v]> (concat rows) = concat (<[r := <[c := v]> row]> rows).
Proof.
  revert r. induction rows as [|r0 rows IH]; intros r HF Hr Hc; [done|]. apply Forall_cons in HF as [Hl HF].
  destruct r as [|r]; cbn [concat].
  - injection Hr as ->. rewrite Nat.mul_0_r. cbn [Nat.add list_insert insert]. rewrite insert_app_l by lia. done.
  - cbn in Hr. replace (80 * S r + c)%nat with (length r0 + (80 * r + c))%nat by lia.
    rewrite insert_app_r. by rewrite (IH r HF Hr Hc).
Qed.
Lemma concat_length (rows : list (list Z)) : Forall (λ l, length l = 80%nat) rows → length (concat rows) = (80 * length rows)%nat.
Proof. induction 1 as [|l rows Hl _ IH]; [done|]. cbn. rewrite length_app. lia. Qed.

Lemma length_row_of col l : (length l ≤ 80)%nat → length (row_of col l) = 80%nat.
Proof. intros H. unfold row_of. rewrite length_app, length_fmap, length_replicate. lia. Qed.
Lemma row_type col l c : (length l < 80)%nat → <[length l := cell c col]> (row_of col l) = row_of col (l ++ [c]).
Proof.
  intros H. unfold row_of. rewrite length_app, fmap_app. cbn [length fmap list_fmap].
  replace (80 - length l)%nat with (S (80 - (length l + 1))) by lia. cbn [replicate].
  rewrite <- (length_fmap (λ c, cell c col) l) at 1. rewrite <- (Nat.add_0_r (length _)), insert_app_r, <- app_assoc. done.
Qed.
Lemma row_erase col l c : (length l < 80)%nat → <[length l := cell 32 col]> (row_of col (l ++ [c])) = row_of col l.
Proof.
  intros H. unfold row_of. rewrite length_app, fmap_app. cbn [length fmap list_fmap].
  replace (80 - length l)%nat with (S (80 - (length l + 1))) by lia. cbn [replicate].
  rewrite <- app_assoc. rewrite <- (length_fmap (λ c, cell c col) l) at 1.
  rewrite <- (Nat.add_0_r (length _)), insert_app_r. done.
Qed.

Lemma rows_of_cons col l rest :
  rows_of col (l :: rest) = (row_of col <$> reverse (take 24 rest)) ++ row_of col l :: replicate (24 - length rest) (row_of col []).
Proof. unfold rows_of. cbn [take length]. rewrite reverse_cons, fmap_app, <- app_assoc. done. Qed.
Lemma rows_of_ok col lines :
  Forall (λ l, (length l ≤ 80)%nat) lines → Forall (λ l, length l = 80%nat) (rows_of col lines) ∧ length (rows_of col lines) = 25%nat.
Proof.
  intros HF. unfold rows_of. split.
  - apply Forall_app. split.
    + apply Forall_fmap. apply Forall_reverse, Forall_take. eapply Forall_impl; [exact HF|]. intros l. apply length_row_of.
    + apply Forall_replicate. apply length_row_of. cbn. lia.
  - rewrite length_app, length_fmap, length_reverse, length_take, length_replicate. lia.
Qed.
(** The row being written. *)
Lemma rows_of_last col l rest l' :
  let r := Nat.min 24 (length rest) in
  rows_of col (l :: rest) !! r = Some (row_of col l) ∧ <[r := row_of col l']> (rows_of col (l :: rest)) = rows_of col (l' :: rest).
Proof.
  intros r. rewrite !rows_of_cons. set (top := row_of col <$> _).
  assert (Hr : r = length top) by (unfold top; by rewrite length_fmap, length_reverse, length_take).
  rewrite Hr. split; [by apply list_lookup_middle|]. by rewrite insert_app_r_alt, Nat.sub_diag by lia.
Qed.
Lemma rows_new_line col l rest : (length rest < 24)%nat → rows_of col ([] :: l :: rest) = rows_of col (l :: rest).
Proof.
  intros H. rewrite !rows_of_cons. rewrite !take_ge by (cbn; lia). rewrite reverse_cons, fmap_app, <- app_assoc. cbn [length fmap list_fmap app].
  replace (24 - length rest)%nat with (S (24 - S (length rest))) by lia. done.
Qed.
Lemma rows_scroll col l rest :
  (24 ≤ length rest)%nat → Forall (λ l, (length l ≤ 80)%nat) rest →
  concat (rows_of col ([] :: l :: rest)) = scrolled (cell 32 col) (concat (rows_of col (l :: rest))).
Proof.
  intros H HF. rewrite !rows_of_cons. cbn [take length].
  destruct (lookup_lt_is_Some_2 rest 23) as [x Hx]; [lia|]. rewrite (take_S_r rest 23 x Hx).
  replace (24 - length rest)%nat with 0%nat by lia. replace (24 - S (length rest))%nat with 0%nat by lia.
  rewrite reverse_app, reverse_cons, !fmap_app. unfold scrolled. cbn [replicate reverse rev_append app fmap list_fmap concat].
  rewrite (drop_app_length' (row_of col x)).
  - rewrite <- app_assoc. cbn [app]. rewrite !concat_app. cbn [concat]. rewrite !app_nil_r, <- app_assoc. done.
  - symmetry. apply length_row_of. rewrite Forall_forall in HF. apply HF. by eapply list_elem_of_lookup_2.
Qed.

Lemma wp_next_row s l rest :
  vt_enabled s = false → Forall (λ l, (length l ≤ 80)%nat) (l :: rest) →
  vga s = concat (rows_of (terminal_color s) (l :: rest)) →
  terminal_row s = Z.of_nat (Nat.min 25 (length (l :: rest))) - 1 → terminal_column s = 0 →
  wp next_row s (λ _ s', shows ([] :: l :: rest) s').
Proof.
  intros Hvt HF Hvga Hrow Hcol. unfold next_row. wp_go. cbn [set_row terminal_row]. cbn [length] in Hrow.
  rewrite u64_id by lia. unfold VGA_HEIGHT.
  destruct (Z.eqb_spec (terminal_row s + 1) 25) as [E|Hne].
  - apply wp_terminal_scroll.
    + cbn. rewrite Hvga. destruct (rows_of_ok (terminal_color s) _ HF) as [H1 H2]. rewrite concat_length, H2; done.
    + apply Forall_cons in HF as [Hl HF].
      split; [exact Hvt|split; [done|constructor; [cbn; lia|by constructor]]|cbn; lia| |cbn [terminal_row set_row length]; lia|exact Hcol].
      cbn [vga set_row set_vga terminal_color]. rewrite rows_scroll by (done || lia). by rewrite Hvga.
  - apply wp_ret.
    split; [exact Hvt|split; [done|constructor; [cbn; lia|done]]|cbn; lia| |cbn [terminal_row set_row length]; lia|exact Hcol].
    cbn [vga set_row terminal_color]. by rewrite rows_new_line by lia.
Qed.

Lemma shows_cons lines s : shows lines s → ∃ l rest, lines = l :: rest.
Proof. intros H. destruct lines as [|l rest]; [|eauto]. by destruct (sh_lines _ _ H). Qed.

(** Writing one cell of the last line. *)
Lemma wp_put_last s l rest l' i c :
  Forall (λ l, (length l ≤ 80)%nat) (l :: rest) → vga s = concat (rows_of (terminal_color s) (l :: rest)) →
  terminal_row s = Z.of_nat (Nat.min 25 (length (l :: rest))) - 1 → (i < 80)%nat →
  <[i := c]> (row_of (terminal_color s) l) = row_of (terminal_color s) l' →
  wp (vga_put (u64 (terminal_row s * VGA_WIDTH + Z.of_nat i)) c) s
    (λ _ s', s' = set_vga (concat (rows_of (terminal_color s) (l' :: rest))) s).
Proof.
  intros HF Hvga Hrow Hi Hrowl. cbn [length] in Hrow. set (r := Nat.min 24 (length rest)).
  assert (Hidx : terminal_row s * VGA_WIDTH + Z.of_nat i = Z.of_nat (80 * r + i)) by (unfold VGA_WIDTH; lia).
  destruct (rows_of_ok (terminal_color s) _ HF) as [H1 H2].
  destruct (rows_of_last (terminal_color s) l rest l') as [Hlook Hins]. fold r in Hlook, Hins.
  rewrite Hidx, u64_id by lia. apply wp_vga_put.
  - rewrite Hvga, concat_length, H2 by done. lia.
  - f_equal. rewrite Hvga, Nat2Z.id, (concat_insert _ r _ i _ H1 Hlook Hi), Hrowl. by rewrite Hins.
Qed.

Lemma wp_terminal_putchar lines s c :
  shows lines s → c ≠ 13 → wp (terminal_putchar c) s (λ _ s', shows (a_putchar lines c) s').
Proof.
  intros H Hc. destruct (shows_cons _ _ H) as (l & rest & ->). pose proof H as [Hvt [_ HF] Hlast Hvga Hrow Hcol].
  cbn [head default] in Hlast, Hcol. cbn in Hlast, Hcol. unfold terminal_putchar. wp_go. rewrite Hvt. unfold a_putchar.
  pose proof (proj2 (proj1 (Forall_cons _ _ _) HF)) as HFr.
  destruct (Z.eqb_spec c 10).
  { wp_go. by apply wp_next_row. }
  rewrite (proj2 (Z.eqb_neq c 13)) by done. destruct (Z.eqb_spec c 8).
  - wp_go. rewrite Hcol. destruct l as [|x l _] using rev_ind; [by apply wp_ret|].
    rewrite length_app in Hlast, Hcol |- *. cbn [length] in Hlast, Hcol |- *. rewrite (proj2 (Z.ltb_lt _ _)) by lia. wp_go.
    cbn [set_column terminal_row terminal_column terminal_color id]. rewrite Hcol, (u64_id (Z.of_nat (length l + 1) - 1)) by lia. rewrite removelast_last.
    replace (Z.of_nat (length l + 1) - 1) with (Z.of_nat (length l)) by lia.
    eapply wp_mono; [apply (wp_put_last (set_column (Z.of_nat (length l)) s) (l ++ [x]) rest l (length l)); try done; [lia|apply row_erase; lia]|].
    cbn beta. intros _ s' ->. split; try done; cbn; [split; [done|constructor; [lia|done]]|lia].
  - wp_go. cbn [id]. rewrite Hcol.
    eapply wp_mono; [apply (wp_put_last s l rest (l ++ [c]) (length l)); try done; apply row_type; lia|].
    cbn beta. intros _ s' ->. wp_go. cbn [set_vga set_column terminal_column]. rewrite Hcol, u64_id by lia. unfold VGA_WIDTH.
    destruct (Nat.eqb_spec (length l) 79) as [E|Hne].
    + rewrite (proj2 (Z.eqb_eq _ _)) by lia. wp_go.
      apply wp_next_row; try done. constructor; [rewrite length_app; cbn; lia|done].
    + rewrite (proj2 (Z.eqb_neq _ _)) by lia. apply wp_ret.
      split; try done; cbn; rewrite ?length_app; cbn; [split; [done|constructor; [rewrite length_app; cbn; lia|done]]|lia|lia].
Qed.

Lemma wp_terminal_write lines s data :
  shows lines s → 13 ∉ data → wp (terminal_write data) s (λ _ s', shows (foldl a_putchar lines data) s').
Proof.
  revert lines s. induction data as [|c data IH]; intros lines s H Hd; [by apply wp_ret|].
  apply not_elem_of_cons in Hd as [Hc Hd]. cbn. apply wp_bind. eapply wp_mono; [by apply wp_terminal_putchar|]. intros u s' Hs'. by apply IH.
Qed.

Lemma wp_init_vga s :
  length (vga s) = 2000%nat → vt_enabled s = false → wp init_vga s (λ _ s', shows [[]] s').
Proof.
  intros Hlen Hvt. unfold init_vga. wp_go. set (s0 := set_tcolor _ _).
  set (I := λ k s', same_but_vga s0 s' ∧ length (vga s') = 2000%nat ∧ ∀ i, 0 ≤ i < k → arr_get (vga s') i = Some (cell 32 7)).
  apply (wp_for (λ y s', I (80 * y) s')).
  - split_and!; [done..|intros; lia].
  - intros y s1 Hy HI. change (Z.of_nat (Z.to_nat VGA_HEIGHT)) with 25 in Hy. apply (wp_for (λ x s', I (80 * y + x) s')).
    + by rewrite Z.add_0_r.
    + intros x s2 Hx (Hs & Hl & Hg). change (Z.of_nat (Z.to_nat VGA_WIDTH)) with 80 in Hx. wp_go. cbv zeta. unfold VGA_WIDTH.
      rewrite (same_color _ _ Hs). apply wp_vga_put; [lia|]. split; [by apply same_but_vga_put|]. cbn [vga set_vga].
      split; [by rewrite length_insert|]. intros i Hi. rewrite arr_get_insert by lia.
      destruct (Z.eqb_spec i (y * 80 + x)); [done|]. apply Hg. lia.
    + change (Z.of_nat (Z.to_nat VGA_WIDTH)) with 80. intros s2. by replace (80 * (y + 1)) with (80 * y + (0 + 80)) by lia.
  - change (0 + Z.of_nat (Z.to_nat VGA_HEIGHT)) with 25. intros s' (Hs & Hl & Hg).
    assert (Hv : vga s' = replicate 2000 (cell 32 7)).
    { apply arr_get_ext; [by rewrite length_replicate|]. intros i Hi. rewrite Hg, arr_get_replicate by lia. done. }
    unfold same_but_vga in Hs. rewrite Hv in Hs. rewrite Hs.
    split; [done|split; [done|constructor; [cbn; lia|done]]|cbn; lia|reflexivity|done|done].
Qed.

(** C39 (refinement): The plain terminal (before [terminal_enable_vt]) shows the
    text.  After [init_vga], whatever is written (carriage returns apart), the screen shows its last 25 lines: lines
    end at a newline or after 80 characters, a backspace removes the last
    character of a line, and no access is outside the screen. *)
Theorem terminal_shows_last_lines s data :
  length (vga s) = 2000%nat → vt_enabled s = false → 13 ∉ data →
  wp (init_vga;; terminal_write data) s (λ _ s', shows (typed data) s').
Proof.
  intros Hlen Hvt Hd. apply wp_bind. eapply wp_mono; [by apply wp_init_vga|]. intros u s' Hs'. by apply wp_terminal_write.
Qed.
Definition bss_console : console :=
  Console (replicate 2000 0) 0 0 0 false (replicate 4 (VT (replicate 2000 0) 0 0 0 0 0)) 0 [].
Lemma terminal_shows_last_lines_witness :
  wp (init_vga;; terminal_write (bytes_of "hello
world")) bss_console (λ _ s', shows [bytes_of "world"; bytes_of "hello"] s').
Proof.
  apply (terminal_shows_last_lines bss_console (bytes_of "hello
world")); [reflexivity..|]. apply (bool_decide_unpack _). vm_compute. exact I.
Defined.

(** ** Specification of the virtual terminals *)

Definition blank (t : virtual_terminal_t) : Z := u16 (Z.lor 32 (Z.shiftl (color t) 8)).
Definition newline (t : virtual_terminal_t) : virtual_terminal_t := set_y (u16 (cursor_y t + 1)) (set_x 0 t).
Definition stored (v : Z) (t : virtual_terminal_t) : virtual_terminal_t :=
  set_buffer (<[Z.to_nat (cursor_y t * 80 + cursor_x t) := v]> (buffer t)) t.
(** What a character does to its terminal. *)
Definition vt_typed (c : Z) (t : virtual_terminal_t) : virtual_terminal_t :=
  if c =? 10 then newline t
  else if c =? 13 then set_x 0 t
  else if c =? 8 then
    if 0 <? cursor_x t then let t := set_x (cursor_x t - 1) t in stored (blank t) t else t
  else if c =? 9 then set_x (u16 (Z.land (cursor_x t + 8) (Z.lnot 7))) t
  else if (32 <=? s8 c) && (s8 c <? 127) then
    let t := if 80 <=? cursor_x t then newline t else t in
    let t := if 25 <=? cursor_y t then set_y 24 (set_buffer (scrolled (blank t) (buffer t)) t) else t in
    let t := stored (u16 (Z.lor (s8 c) (Z.shiftl (color t) 8))) t in
    set_x (cursor_x t + 1) t
  else t.

(** The screen of a terminal: its buffer under the indicator. *)
Definition indicated (i : Z) (b : list Z) : list Z :=
  take 76 b ++ ((λ c, Z.lor c (Z.shiftl 0x1F 8)) <$> default [] (arr_get indicators i)) ++ drop 80 b.

Definition vt_wf (t : virtual_terminal_t) : Prop :=
  length (buffer t) = 2000%nat ∧ 0 ≤ cursor_x t < 2 ^ 16 ∧ 0 ≤ cursor_y t < 2 ^ 16.
Record vts_wf (s : console) : Prop := {
  vs_count : Z.of_nat (length (terminals s)) = NUM_VIRTUAL_TERMINALS;
  vs_vt i t : arr_get (terminals s) i = Some t → vt_wf t;
  vs_current : 0 ≤ current_terminal s < NUM_VIRTUAL_TERMINALS;
}.
(** The screen is the image of the current terminal. *)
Definition image (s : console) : Prop :=
  ∃ t, arr_get (terminals s) (current_terminal s) = Some t ∧ vga s = indicated (current_terminal s) (buffer t).

Lemma wp_get_vt s i t Q : arr_get (terminals s) i = Some t → Q t s → wp (get_vt i) s Q.
Proof. intros E HQ. unfold get_vt. wp_go. by rewrite E. Qed.
Lemma wp_upd_vt s i t f t' Q :
  arr_get (terminals s) i = Some t → f t = Some t' →
  Q () (set_terminals (<[Z.to_nat i := t']> (terminals s)) s) → wp (upd_vt i f) s Q.
Proof.
  intros E Ef HQ. unfold upd_vt. wp_go. rewrite E. wp_go. rewrite Ef. wp_go.
  apply arr_get_Some in E as [Hi _]. rewrite arr_set_in by done. by wp_go.
Qed.

(** [s'] is [s] with terminal [i] replaced by [t]. *)
Definition with_vt (s : console) (i : Z) (t : virtual_terminal_t) : console :=
  set_terminals (<[Z.to_nat i := t]> (terminals s)) s.
Section current.
Context (s : console) (i : Z) (Hi : 0 ≤ i < Z.of_nat (length (terminals s))).
Lemma with_vt_get t : arr_get (terminals (with_vt s i t)) i = Some t.
Proof using Hi. cbn. by rewrite arr_get_insert, Z.eqb_refl. Qed.
Lemma with_vt_other t k : k ≠ i → arr_get (terminals (with_vt s i t)) k = arr_get (terminals s) k.
Proof using Hi. intros Hk. cbn. by rewrite arr_get_insert, (proj2 (Z.eqb_neq k i)). Qed.
Lemma wp_upd_with t f t' Q :
  f t = Some t' → Q () (with_vt s i t') → wp (upd_vt i f) (with_vt s i t) Q.
Proof using Hi.
  intros Ef HQ. eapply wp_upd_vt; [apply with_vt_get|exact Ef|]. unfold with_vt in *. cbn. by rewrite list_insert_insert_eq.
Qed.
Lemma wp_get_with t Q : Q t (with_vt s i t) → wp (get_vt i) (with_vt s i t) Q.
Proof using Hi. intros HQ. eapply wp_get_vt; [apply with_vt_get|done]. Qed.
Lemma with_vt_id t : arr_get (terminals s) i = Some t → with_vt s i t = s.
Proof. intros [_ E]%arr_get_Some. unfold with_vt. rewrite list_insert_id by done. by destruct s. Qed.
Lemma put_cell_in t k v : 0 ≤ k < Z.of_nat (length (buffer t)) → put_cell k v t = Some (set_buffer (<[Z.to_nat k := v]> (buffer t)) t).
Proof. intros Hk. unfold put_cell. by rewrite arr_set_in. Qed.

Lemma wp_vt_scroll t Q :
  length (buffer t) = 2000%nat →
  Q () (with_vt s i (set_y 24 (set_buffer (scrolled (blank t) (buffer t)) t))) → wp (vt_scroll i) (with_vt s i t) Q.
Proof using Hi.
  intros Hlen HQ. unfold vt_scroll. apply wp_bind.
  apply (wp_for (λ k s', ∃ b, s' = with_vt s i (set_buffer b t) ∧ length b = 2000%nat ∧
    ∀ j, 0 ≤ j < 2000 → arr_get b j = if j <? k then arr_get (buffer t) (j + 80) else arr_get (buffer t) j)).
  { exists (buffer t). split_and!; [by destruct t|done|]. intros j Hj. by rewrite (proj2 (Z.ltb_ge _ _)) by lia. }
  - intros k s1 Hk (b & -> & Hb & Hg). change (Z.of_nat (24 * 80)) with 1920 in Hk. apply wp_bind, wp_get_with. cbn [buffer set_buffer].
    destruct (arr_get_is_Some (buffer t) (k + 80)) as [c Hc]; [lia|]. apply wp_bind.
    eapply wp_lift_opt; [rewrite Hg, (proj2 (Z.ltb_ge _ _)) by lia; exact Hc|].
    eapply wp_upd_with; [apply put_cell_in; cbn; lia|]. exists (<[Z.to_nat k := c]> b). split; [done|]. split; [by rewrite length_insert|].
    intros j Hj. rewrite arr_get_insert by lia. destruct (Z.eqb_spec j k) as [->|Hne].
    + by rewrite (proj2 (Z.ltb_lt _ _)) by lia.
    + rewrite Hg by lia. destruct (Z.ltb_spec j k); case_cmp; (done || lia).
  - change (0 + Z.of_nat (24 * 80)) with 1920. intros s1 (b & -> & Hb & Hg). apply wp_bind.
    apply (wp_for (λ k s', ∃ b, s' = with_vt s i (set_buffer b t) ∧ length b = 2000%nat ∧
      (∀ j, 0 ≤ j < 1920 → arr_get b j = arr_get (buffer t) (j + 80)) ∧ ∀ j, 1920 ≤ j < k → arr_get b j = Some (blank t))).
    + exists b. split_and!; [done..| |intros; lia]. intros j Hj. rewrite Hg by lia. by rewrite (proj2 (Z.ltb_lt _ _)) by lia.
    + intros k s1 Hk (b' & -> & Hb' & Hg' & Hc'). apply wp_bind, wp_get_with.
      eapply wp_upd_with; [apply put_cell_in; cbn; lia|]. exists (<[Z.to_nat k := blank t]> b'). split; [done|]. split; [by rewrite length_insert|].
      split; intros j Hj; rewrite arr_get_insert by lia; [rewrite (proj2 (Z.eqb_neq _ _)) by lia; by apply Hg'|].
      destruct (Z.eqb_spec j k); [done|]. apply Hc'. lia.
    + intros s1 (b' & -> & Hb' & Hg' & Hc'). eapply wp_upd_with; [done|].
      rewrite (scrolled_ext (blank t) (buffer t) b' Hlen Hb' Hg'); [exact HQ|]. intros j Hj. apply Hc'. lia.
Qed.
End current.

Lemma indicate (b : list Z) w x y z :
  length b = 2000%nat → <[79%nat := z]> (<[78%nat := y]> (<[77%nat := x]> (<[76%nat := w]> b))) = take 76 b ++ [w; x; y; z] ++ drop 80 b.
Proof.
  intros Hb. apply arr_get_ext; [rewrite !length_insert, !length_app, length_take, length_drop; cbn [length]; lia|].
  intros i Hi. rewrite !length_insert in Hi.
  rewrite (arr_get_insert _ 79), (arr_get_insert _ 78), (arr_get_insert _ 77), (arr_get_insert _ 76) by (rewrite ?length_insert; lia).
  assert (Ht : length (take 76 b) = 76%nat) by (rewrite length_take; lia).
  destruct (decide (i < 76)).
  { rewrite arr_get_app_l by lia. case_cmp; try lia. unfold arr_get. rewrite (proj2 (Z.leb_le 0 i)) by lia. by rewrite lookup_take_lt by lia. }
  rewrite arr_get_app_r by lia. rewrite Ht. destruct (decide (i < 80)).
  - rewrite arr_get_app_l by (cbn; lia). assert (i = 76 ∨ i = 77 ∨ i = 78 ∨ i = 79) as [->|[->|[->| ->]]] by lia; done.
  - rewrite arr_get_app_r by (cbn; lia). rewrite arr_get_drop by (cbn; lia). case_cmp; try lia. f_equal. cbn. lia.
Qed.
Lemma wp_vt_refresh s t Q :
  vts_wf s → arr_get (terminals s) (current_terminal s) = Some t →
  Q () (set_vga (indicated (current_terminal s) (buffer t)) s) → wp vt_refresh s Q.
Proof.
  intros [Hn Ht Hc] Hcur HQ. destruct (Ht _ _ Hcur) as [Hlen _]. unfold vt_refresh. apply wp_bind, wp_gets, wp_bind.
  eapply wp_get_vt; [exact Hcur|]. apply wp_bind, wp_modify, wp_bind. unfold NUM_VIRTUAL_TERMINALS in *.
  destruct (arr_get_is_Some indicators (current_terminal s)) as [ind Hind]; [cbn; lia|].
  eapply wp_lift_opt; [exact Hind|]. unfold indicated in HQ. rewrite Hind in HQ. cbn in HQ.
  assert (∃ w x y z, ind = [w; x; y; z]) as (w & x & y & z & ->).
  { assert (current_terminal s = 0 ∨ current_terminal s = 1 ∨ current_terminal s = 2 ∨ current_terminal s = 3) as E by lia.
    destruct E as [E|[E|[E|E]]]; rewrite E in Hind; injection Hind as <-; eauto. }
  cbv zeta. cbn [length for_loop].
  do 4 (apply wp_bind, wp_bind; eapply wp_lift_opt; [reflexivity|]; apply wp_vga_put; [cbn [vga set_vga]; rewrite ?length_insert; lia|]).
  apply wp_ret. cbn [vga set_vga]. by rewrite (indicate (buffer t)) by done.
Qed.

Lemma wp_set_cursor s x y Q : (∀ o, Q () (set_outs o s)) → wp (terminal_set_cursor x y) s Q.
Proof. intros HQ. unfold terminal_set_cursor, outb. wp_go. exact (HQ _). Qed.

Lemma with_vt_wf s i t t' : vts_wf s → arr_get (terminals s) i = Some t → vt_wf t' → vts_wf (with_vt s i t').
Proof.
  intros [Hn Ht Hc] [Hi _]%arr_get_Some Ht'. split; cbn; [by rewrite length_insert| |done].
  intros k u. rewrite arr_get_insert by done. destruct (k =? i); [by intros [= <-]|apply Ht].
Qed.
Lemma scrolled_length c v : length v = 2000%nat → length (scrolled c v) = 2000%nat.
Proof. intros H. unfold scrolled. rewrite length_app, length_drop, length_replicate. lia. Qed.
Lemma vt_typed_wf c t : vt_wf t → vt_wf (vt_typed c t).
Proof.
  intros (Hl & Hx & Hy). unfold vt_typed, newline, stored. pose proof (u16_range (cursor_y t + 1)).
  repeat case_if; try done; split_and!; cbn [buffer cursor_x cursor_y set_x set_y set_buffer set_color]; rewrite ?length_insert, ?scrolled_length by done; try apply u16_range; try done; lia.
Qed.

Lemma wp_vt_putchar s t c :
  vts_wf s → arr_get (terminals s) (current_terminal s) = Some t →
  (c = 8 → 0 < cursor_x t → cursor_y t * 80 + cursor_x t ≤ 2000) →
  wp (vt_putchar c) s (λ _ s', ∃ o, s' = set_outs o
    (set_vga (indicated (current_terminal s) (buffer (vt_typed c t))) (with_vt s (current_terminal s) (vt_typed c t)))).
Proof.
  intros Hw Ht Hbs. pose proof (arr_get_Some _ _ _ Ht) as [Hi _]. destruct (vs_vt _ Hw _ _ Ht) as (Hlen & Hx & Hy).
  set (i := current_terminal s) in *. unfold vt_putchar. apply wp_bind, wp_gets, wp_bind. fold i.
  rewrite <- (with_vt_id s i Hi t Ht) at 1. eapply (wp_mono _ _ (λ _ s', s' = with_vt s i (vt_typed c t))).
  2:{ intros _ s' ->. pose proof (with_vt_wf s i t _ Hw Ht (vt_typed_wf c t (vs_vt _ Hw _ _ Ht))) as Hw'.
      apply wp_bind. eapply wp_vt_refresh; [done|by apply with_vt_get|]. apply wp_bind.
      eapply wp_get_vt; [by apply (with_vt_get s i Hi)|]. apply wp_set_cursor. intros o. by exists o. }
  unfold vt_typed. destruct (c =? 10).
  { apply wp_bind. eapply wp_upd_with; [done..|]. by eapply wp_upd_with. }
  destruct (c =? 13); [by eapply wp_upd_with|]. destruct (Z.eqb_spec c 8) as [->|].
  { apply wp_bind, wp_get_with; [done|]. destruct (Z.ltb_spec 0 (cursor_x t)); [|by apply wp_ret].
    apply wp_bind. eapply wp_upd_with; [done..|]. rewrite u16_id by lia.
    eapply wp_upd_with; [done|apply put_cell_in; cbn; lia|done]. }
  destruct (c =? 9); [by eapply wp_upd_with|]. destruct (_ && _); [|by apply wp_ret].
  apply wp_bind, wp_get_with; [done|]. apply wp_bind.
  set (t1 := if 80 <=? cursor_x t then newline t else t).
  assert (Ht1 : length (buffer t1) = 2000%nat ∧ 0 ≤ cursor_x t1 < 80 ∧ 0 ≤ cursor_y t1 < 2 ^ 16).
  { unfold t1. case_cmp; cbn; [|lia]. pose proof (u16_range (cursor_y t + 1)). lia. }
  eapply (wp_mono _ _ (λ _ s', s' = with_vt s i t1)).
  { unfold t1. destruct (80 <=? cursor_x t); [|by apply wp_ret]. apply wp_bind. eapply wp_upd_with; [done..|]. by eapply wp_upd_with. }
  cbn beta. intros _ s' ->. apply wp_bind, wp_get_with; [done|]. apply wp_bind.
  set (t2 := if 25 <=? cursor_y t1 then set_y 24 (set_buffer (scrolled (blank t1) (buffer t1)) t1) else t1).
  assert (Ht2 : length (buffer t2) = 2000%nat ∧ 0 ≤ cursor_x t2 < 80 ∧ 0 ≤ cursor_y t2 < 25).
  { unfold t2. case_cmp; cbn; [rewrite scrolled_length by lia|]; lia. }
  eapply (wp_mono _ _ (λ _ s', s' = with_vt s i t2)).
  { unfold t2. destruct (25 <=? cursor_y t1); [|by apply wp_ret]. apply wp_vt_scroll; [done|lia|done]. }
  cbn beta. intros _ s' ->. apply wp_bind. eapply wp_upd_with; [done|apply put_cell_in; lia|].
  eapply wp_upd_with; [done..|]. rewrite u16_id by (cbn; lia). done.
Qed.

(** (safety): With virtual terminals, a character changes the current terminal
    as [vt_typed] says (scrolling included), no other terminal, and the screen
    shows the current terminal again; nothing outside a buffer is written,
    provided a backspace is not typed below the last line. *)
Theorem vt_putchar_isolated s t c :
  vts_wf s → arr_get (terminals s) (current_terminal s) = Some t →
  (c = 8 → 0 < cursor_x t → cursor_y t * 80 + cursor_x t ≤ 2000) →
  wp (vt_putchar c) s (λ _ s', vts_wf s' ∧ image s' ∧ current_terminal s' = current_terminal s ∧
    arr_get (terminals s') (current_terminal s) = Some (vt_typed c t) ∧
    ∀ k, k ≠ current_terminal s → arr_get (terminals s') k = arr_get (terminals s) k).
Proof.
  intros Hw Ht Hbs. pose proof (arr_get_Some _ _ _ Ht) as [Hi _].
  pose proof (with_vt_wf s _ t _ Hw Ht (vt_typed_wf c t (vs_vt _ Hw _ _ Ht))) as [H1 H2 H3].
  eapply wp_mono; [by apply wp_vt_putchar|]. cbn beta. intros _ s' [o ->]. split; [by split|].
  split; [eexists; split; [by apply (with_vt_get s _ Hi)|done]|]. split; [done|].
  split; [by apply (with_vt_get s _ Hi)|]. intros k Hk. by apply (with_vt_other s _ Hi).
Qed.
(** The console after [vt_init]. *)
Definition vt_console : console :=
  let b := replicate 2000 0xF20 in
  Console (indicated 0 b) 0 0 0 false (VT b 0 0 0x0F 1 (-1) :: replicate 3 (VT b 0 0 0x0F 0 (-1))) 0 [].
Lemma vt_init_run : vt_init bss_console = Ret ((), vt_console).
Proof. vm_compute. reflexivity. Qed.
Definition vts_check (s : console) : Prop :=
  Z.of_nat (length (terminals s)) = NUM_VIRTUAL_TERMINALS ∧ Forall vt_wf (terminals s) ∧ 0 ≤ current_terminal s < NUM_VIRTUAL_TERMINALS.
#[export] Instance vts_check_dec s : Decision (vts_check s).
Proof. unfold vts_check, vt_wf. apply _. Defined.
Lemma vts_check_sound s : vts_check s → vts_wf s.
Proof.
  intros (H1 & H2 & H3). rewrite Forall_forall in H2. split; [done| |done].
  intros i t [_ Hi]%arr_get_Some. by eapply H2, list_elem_of_lookup_2.
Qed.
Lemma vt_putchar_isolated_witness :
  wp (vt_putchar 65) vt_console (λ _ s', vts_wf s' ∧ image s' ∧ current_terminal s' = 0 ∧
    arr_get (terminals s') 0 = Some (vt_typed 65 (VT (replicate 2000 0xF20) 0 0 0x0F 1 (-1))) ∧
    ∀ k, k ≠ 0 → arr_get (terminals s') k = arr_get (terminals vt_console) k).
Proof.
  apply (vt_putchar_isolated vt_console (VT (replicate 2000 0xF20) 0 0 0x0F 1 (-1)) 65).
  - apply vts_check_sound. apply (bool_decide_unpack _). vm_compute. exact I.
  - vm_compute. reflexivity.
  - intros [=].
Defined.

(** [vt_init] clears every terminal, whatever they held. *)
Definition blank_buffer : list Z := replicate 2000 0xF20.
Definition blank_vt : virtual_terminal_t := VT blank_buffer 0 0 0x0F 0 (-1).
Lemma insert_next {A} (x : A) (l : list A) (n : nat) :
  (n < length l)%nat → <[n := x]> (replicate n x ++ drop n l) = replicate (S n) x ++ drop (S n) l.
Proof.
  intros Hn. rewrite insert_app_r_alt by (rewrite length_replicate; lia). rewrite length_replicate, Nat.sub_diag.
  destruct (drop n l) as [|y r] eqn:E; [apply (f_equal length) in E; rewrite length_drop in E; cbn in E; lia|].
  change (S n) with (1 + n)%nat. rewrite (Nat.add_comm 1 n), replicate_add, <- app_assoc. f_equal. cbn. f_equal.
  by rewrite <- drop_drop, E.
Qed.
Lemma wp_clear_buffer s i t Q :
  (Z.to_nat i < length (terminals s))%nat → 0 ≤ i → length (buffer t) = 2000%nat →
  Q () (with_vt s i (set_buffer blank_buffer t)) →
  wp (for_loop (80 * 25) 0 (λ j, upd_vt i (put_cell j (Z.lor 32 (Z.shiftl 0x0F 8))))) (with_vt s i t) Q.
Proof.
  intros Hi H0 Hb HQ. apply (wp_for (λ j s', s' = with_vt s i (set_buffer (replicate (Z.to_nat j) 0xF20 ++ drop (Z.to_nat j) (buffer t)) t))).
  - by destruct t.
  - intros j s' Hj ->. change (Z.of_nat (80 * 25)) with 2000 in Hj. eapply wp_upd_with; [lia|apply put_cell_in|].
    + cbn [buffer set_buffer]. rewrite length_app, length_replicate, length_drop, Hb. lia.
    + cbn [buffer set_buffer]. rewrite insert_next by lia. replace (Z.to_nat (j + 1)) with (S (Z.to_nat j)) by lia. done.
  - intros s' ->. change (Z.to_nat (0 + Z.of_nat (80 * 25))) with 2000%nat. rewrite drop_ge, app_nil_r by lia. exact HQ.
Qed.
Lemma wp_vt_init s (Q : unit → console → Prop) :
  Z.of_nat (length (terminals s)) = NUM_VIRTUAL_TERMINALS → (∀ i t, arr_get (terminals s) i = Some t → length (buffer t) = 2000%nat) →
  0 ≤ current_terminal s < NUM_VIRTUAL_TERMINALS →
  Q () (set_vga (indicated (current_terminal s) blank_buffer) (set_terminals (set_active 1 blank_vt :: replicate 3 blank_vt) s)) →
  wp vt_init s Q.
Proof.
  unfold NUM_VIRTUAL_TERMINALS. intros Hn Hb Hc HQ. unfold vt_init. apply wp_bind.
  apply (wp_for (λ i s', s' = set_terminals (replicate (Z.to_nat i) blank_vt ++ drop (Z.to_nat i) (terminals s)) s)).
  - by destruct s.
  - intros i s' Hi ->. change (Z.of_nat (Z.to_nat NUM_VIRTUAL_TERMINALS)) with 4 in Hi.
    destruct (arr_get_is_Some (terminals s) i) as [t Ht]; [lia|]. set (s1 := set_terminals _ s).
    assert (H1 : arr_get (terminals s1) i = Some t).
    { apply arr_get_Some in Ht as [_ Ht]. unfold arr_get. rewrite (proj2 (Z.leb_le 0 i)) by lia. cbn [s1 terminals set_terminals].
      rewrite lookup_app_r by (rewrite length_replicate; lia).
      rewrite length_replicate, lookup_drop. by replace (Z.to_nat i + _)%nat with (Z.to_nat i) by lia. }
    pose proof H1 as [Hl _]%arr_get_Some. rewrite <- (with_vt_id s1 i Hl t H1). apply wp_bind.
    apply wp_clear_buffer; [lia|lia|by apply (Hb i)|]. do 4 (apply wp_bind; eapply wp_upd_with; [lia|done|]). eapply wp_upd_with; [lia|done|].
    unfold with_vt. cbn [s1 terminals set_terminals]. change (set_shell_pid _ _) with blank_vt. rewrite insert_next by lia.
    replace (Z.to_nat (i + 1)) with (S (Z.to_nat i)) by lia. by destruct s.
  - intros s' ->. change (Z.to_nat (0 + Z.of_nat (Z.to_nat NUM_VIRTUAL_TERMINALS))) with 4%nat. rewrite drop_ge, app_nil_r by lia.
    apply wp_bind. eapply wp_upd_vt; [reflexivity|reflexivity|]. set (s1 := set_terminals _ _).
    assert (Hw : vts_wf s1).
    { split; [done| |done]. intros k u [_ Hk]%arr_get_Some.
      assert (H : vt_wf blank_vt) by (split; [apply length_replicate|cbn; lia]).
      destruct (Z.to_nat k) as [|[|[|[|]]]]; by simplify_eq/=. }
    destruct (arr_get_is_Some (terminals s1) (current_terminal s1)) as [u Hu]; [change (0 ≤ current_terminal s < 4); lia|]. eapply wp_vt_refresh; [exact Hw|exact Hu|].
    replace (buffer u) with blank_buffer; [exact HQ|]. apply arr_get_Some in Hu as [_ Hu]. cbn in Hu.
    destruct (Z.to_nat (current_terminal s)) as [|[|[|[|]]]]; by simplify_eq/=.
Qed.

(** (error): 25 newlines leave the cursor below the buffer; a tab and a
    backspace then write outside it. *)
Theorem vt_backspace_outside : (vt_init;; vt_writestring (replicate 25 10 ++ [9; 8])) bss_console = Ub.
Proof. erewrite run_bind by apply vt_init_run. vm_compute. reflexivity. Qed.

(** (functional): [vt_switch] to another terminal shows that terminal and
    marks it active; no buffer and no cursor changes. *)
Theorem vt_switch_spec s n t :
  vts_wf s → 0 ≤ n < NUM_VIRTUAL_TERMINALS → n ≠ current_terminal s → arr_get (terminals s) n = Some t →
  wp (vt_switch n) s (λ _ s', vts_wf s' ∧ image s' ∧ current_terminal s' = n ∧
    arr_get (terminals s') n = Some (set_active 1 t) ∧
    ∀ k, k ≠ n → arr_get (terminals s') k = arr_get (terminals s) k).
Proof.
  intros Hw Hn Hne Ht. pose proof (arr_get_Some _ _ _ Ht) as [Hi _]. unfold vt_switch. apply wp_bind, wp_gets.
  rewrite (proj2 (Z.ltb_ge n 0)), (proj2 (Z.leb_gt _ n)), (proj2 (Z.eqb_neq n _)) by lia. cbn [orb].
  apply wp_bind, wp_modify, wp_bind. eapply wp_upd_vt; [exact Ht|done|].
  pose proof (with_vt_wf s n t (set_active 1 t) Hw Ht (vs_vt _ Hw _ _ Ht)) as [H1 H2 H3]. apply wp_bind.
  pose proof (with_vt_get s n Hi (set_active 1 t)) as Hget.
  eapply wp_vt_refresh; [by split|exact Hget|]. apply wp_bind. eapply wp_get_vt; [exact Hget|]. apply wp_set_cursor. intros o.
  split; [by split|]. split; [by exists (set_active 1 t)|]. split; [done|]. split; [exact Hget|].
  intros k Hk. by apply (with_vt_other s n Hi).
Qed.
Lemma vt_switch_spec_witness :
  wp (vt_switch 2) vt_console (λ _ s', vts_wf s' ∧ image s' ∧ current_terminal s' = 2 ∧
    arr_get (terminals s') 2 = Some (VT (replicate 2000 0xF20) 0 0 0x0F 1 (-1)) ∧
    ∀ k, k ≠ 2 → arr_get (terminals s') k = arr_get (terminals vt_console) k).
Proof.
  apply (vt_switch_spec vt_console 2 (VT (replicate 2000 0xF20) 0 0 0x0F 0 (-1))); [|done|done|reflexivity].
  apply vts_check_sound. apply (bool_decide_unpack _). vm_compute. exact I.
Defined.

(** ** Any text is safe in the plain terminal *)

Record plain_wf (s : console) : Prop := {
  pw_plain : vt_enabled s = false;
  pw_vga : length (vga s) = 2000%nat;
  pw_row : 0 ≤ terminal_row s < VGA_HEIGHT;
  pw_column : 0 ≤ terminal_column s < VGA_WIDTH;
}.
Lemma shows_wf lines s : shows lines s → plain_wf s.
Proof.
  intros H. destruct (shows_cons _ _ H) as (l & rest & ->). destruct H as [Hvt [_ HF] Hlast Hvga Hrow Hcol].
  destruct (rows_of_ok (terminal_color s) _ HF) as [H1 H2].
  split; [done|by rewrite Hvga, concat_length, H2|unfold VGA_HEIGHT; cbn [length] in *; lia|unfold VGA_WIDTH; cbn in *; lia].
Qed.
Lemma wp_next_row_wf s : plain_wf s → wp next_row s (λ _ s', plain_wf s').
Proof.
  intros [Hvt Hlen Hrow Hcol]. unfold next_row, VGA_HEIGHT in *. wp_go. cbn [set_row terminal_row]. rewrite u64_id by lia.
  destruct (Z.eqb_spec (terminal_row s + 1) 25).
  - apply wp_terminal_scroll; [done|]. split; [done|by apply scrolled_length|done|done].
  - apply wp_ret. split; [done|done|cbn; unfold VGA_HEIGHT; lia|done].
Qed.
Lemma wp_put_wf s v Q :
  plain_wf s → (∀ v', length v' = 2000%nat → Q () (set_vga v' s)) →
  wp (vga_put (u64 (terminal_row s * VGA_WIDTH + terminal_column s)) v) s Q.
Proof.
  intros [_ Hlen Hrow Hcol] HQ. unfold VGA_HEIGHT, VGA_WIDTH in *. rewrite u64_id by lia.
  apply wp_vga_put; [lia|]. apply HQ. by rewrite length_insert.
Qed.
Lemma wp_putchar_wf s c : plain_wf s → wp (terminal_putchar c) s (λ _ s', plain_wf s').
Proof.
  intros Hs. pose proof Hs as [Hvt Hlen Hrow Hcol]. unfold terminal_putchar. wp_go. rewrite Hvt.
  destruct (c =? 10); [wp_go; apply wp_next_row_wf; by split|]. destruct (c =? 13); [apply wp_modify; by split|].
  destruct (c =? 8).
  - wp_go. destruct (Z.ltb_spec 0 (terminal_column s)); [|by apply wp_ret]. wp_go. cbn [id]. unfold VGA_WIDTH in Hcol.
    rewrite (u64_id (terminal_column s - 1)) by lia. apply wp_put_wf; [split; try done; cbn; unfold VGA_WIDTH; lia|]. intros v' Hv'.
    split; try done. cbn. unfold VGA_WIDTH. lia.
  - wp_go. cbn [id]. apply wp_put_wf; [done|]. intros v' Hv'. wp_go. cbn [set_vga set_column terminal_column].
    unfold VGA_WIDTH in *. rewrite u64_id by lia. destruct (Z.eqb_spec (terminal_column s + 1) 80).
    + wp_go. apply wp_next_row_wf. by split.
    + apply wp_ret. split; try done. cbn. unfold VGA_WIDTH. lia.
Qed.
Lemma wp_write_wf s data : plain_wf s → wp (terminal_write data) s (λ _ s', plain_wf s').
Proof.
  revert s. induction data as [|c data IH]; intros s Hs; [by apply wp_ret|]. cbn. apply wp_bind.
  eapply wp_mono; [by apply wp_putchar_wf|]. cbn beta. intros u s' Hs'. by apply IH.
Qed.

(** ** Either terminal

    What a client of [terminal_putchar] may rely on: the console is in a state
    [T x], and a character [ch] that is [ok] takes it to [T (adv x ch)]. *)
Class Screen {X : Type} (T : X → console → Prop) (adv : X → Z → X) (ok : Z → Prop) : Prop :=
  wp_screen_putchar x c ch : T x c → ok ch → wp (terminal_putchar ch) c (λ _ c', T (adv x ch) c').

Lemma wp_screen_write `{Screen X T adv ok} data x c :
  T x c → Forall ok data → wp (terminal_write data) c (λ _ c', T (foldl adv x data) c').
Proof.
  intros Hx Hd. revert x c Hx. induction Hd as [|ch data Hch _ IH]; intros x c Hx; [by apply wp_ret|]. cbn. apply wp_bind.
  eapply wp_mono; [by apply wp_screen_putchar|]. cbn beta. intros _ c'. apply IH.
Qed.

(** The plain terminal shows lines of text. *)
#[export] Instance plain_screen : Screen shows a_putchar (λ ch, ch ≠ 13).
Proof. intros lines c ch. apply wp_terminal_putchar. Qed.

(** With virtual terminals, the screen shows terminal [i], which is [t]. *)
Record shows_vt (i : Z) (t : virtual_terminal_t) (c : console) : Prop := {
  sv_enabled : vt_enabled c = true;
  sv_wf : vts_wf c;
  sv_current : current_terminal c = i;
  sv_terminal : arr_get (terminals c) i = Some t;
  sv_screen : vga c = indicated i (buffer t);
}.
#[export] Instance vt_screen i : Screen (shows_vt i) (λ t ch, vt_typed ch t) (λ ch, ch ≠ 8).
Proof.
  intros t c ch [Hon Hw <- Ht Hv] Hch. pose proof (arr_get_Some _ _ _ Ht) as [Hi _]. unfold terminal_putchar. apply wp_bind, wp_gets. rewrite Hon.
  pose proof (with_vt_wf c _ t _ Hw Ht (vt_typed_wf ch t (vs_vt _ Hw _ _ Ht))) as [H1 H2 H3].
  eapply wp_mono; [by apply wp_vt_putchar|]. cbn beta. intros _ s' [o ->].
  split; [done|by split|done|by apply (with_vt_get c _ Hi)|done].
Qed.

(** The plain terminal, whatever it shows. *)
#[export] Instance wf_screen : Screen (λ _ : unit, plain_wf) (λ _ _, ()) (λ _, True).
Proof. intros [] c ch Hc _. by apply wp_putchar_wf. Qed.
(** A console on which text can be written, whatever it shows. *)
Definition screen_ok (c : console) : Prop := plain_wf c ∨ ∃ i t, shows_vt i t c.
#[export] Instance any_screen : Screen (λ _ : unit, screen_ok) (λ _ _, ()) (λ ch, ch ≠ 8).
Proof.
  intros [] c ch [Hp|(i & t & Hs)] Hch.
  - eapply wp_mono; [by apply wp_putchar_wf|]. cbn beta. intros _ c' Hc'. by left.
  - eapply wp_mono; [by apply (vt_screen i t c ch)|]. cbn beta. intros _ c' Hc'. right. eauto.
Qed.
Lemma wp_write_ok c data : screen_ok c → 8 ∉ data → wp (terminal_write data) c (λ _ c', screen_ok c').
Proof.
  intros Hc Hd. apply (wp_screen_write (T := λ _ : unit, screen_ok) (adv := λ _ _, ()) (ok := λ ch, ch ≠ 8) data () c Hc).
  apply Forall_forall. by intros x Hx ->.
Qed.
