(* ===== verification/Keyboard.v ===== *)
(** * The keyboard driver (src/drivers/keyboard.c)

    [keyboard_callback] runs on IRQ1 with the scancode it reads from the
    controller.  It keeps the modifier state, switches virtual terminals, sends
    SIGINT on Ctrl+C, and otherwise stores characters in a ring of 256 bytes
    and echoes them.  The state is the driver's own, the console and the
    scheduler's; what the scheduler's code prints goes to the console.

    The ring is proved to be a queue of at most 255 characters, in which a key
    press appends the characters of the key. *)
From S2P Require Import Prelude Pcb Sched Console.

Definition KEY_UP : Z := 0x48.
Definition KEY_DOWN : Z := 0x50.
Definition KEY_LEFT : Z := 0x4B.
Definition KEY_RIGHT : Z := 0x4D.
Definition KEY_TAB : Z := 0x0F.
Definition KEY_CTRL : Z := 0x1D.
Definition KEY_CTRL_RELEASE : Z := 0x9D.
Definition KEY_ALT : Z := 0x38.
Definition KEY_ALT_RELEASE : Z := 0xB8.
Definition KEY_F1 : Z := 0x3B.
Definition KEY_F4 : Z := 0x3E.

Record kbd := Kbd {
  kbd_buffer : list Z;
  kbd_read_pos : Z;
  kbd_write_pos : Z;
  ctrl_pressed : bool;
  alt_pressed : bool;
}.
Record input := Input { kb : kbd; con : console; sch : sched }.

Definition set_kbd_buffer v k := Kbd v (kbd_read_pos k) (kbd_write_pos k) (ctrl_pressed k) (alt_pressed k).
Definition set_read_pos v k := Kbd (kbd_buffer k) v (kbd_write_pos k) (ctrl_pressed k) (alt_pressed k).
Definition set_write_pos v k := Kbd (kbd_buffer k) (kbd_read_pos k) v (ctrl_pressed k) (alt_pressed k).
Definition set_ctrl v k := Kbd (kbd_buffer k) (kbd_read_pos k) (kbd_write_pos k) v (alt_pressed k).
Definition set_alt v k := Kbd (kbd_buffer k) (kbd_read_pos k) (kbd_write_pos k) (ctrl_pressed k) v.

(** The layout: the bytes of the rows of keys, zero where there is no
    character, and zeros up to 128. *)
Definition kbd_us : list Z :=
  [0; 27] ++ bytes_of "1234567890-=" ++ [8] ++
  [9] ++ bytes_of "qwertyuiop[]" ++ [10] ++
  [0] ++ bytes_of "asdfghjkl;'`" ++
  [0] ++ bytes_of "\zxcvbnm,./" ++ [0] ++
  bytes_of "*" ++ [0] ++ bytes_of " " ++ replicate 16 0 ++
  bytes_of "-" ++ [0; 0; 0] ++ bytes_of "+" ++ replicate 49 0.

(** ** The ring *)

(** [kbd_buffer[kbd_write_pos] = c; kbd_write_pos = next_write], unless full;
    the result says whether there was room. *)
Definition kbd_store (c : Z) : M kbd bool :=
  k ← gets id;
  let next_write := (kbd_write_pos k + 1) mod 256 in
  if negb (next_write =? kbd_read_pos k) then
    b ← lift_opt (arr_set (kbd_buffer k) (kbd_write_pos k) c);
    modify (set_kbd_buffer b);;
    modify (set_write_pos next_write);;
    mret true
  else mret false.

Definition keyboard_has_char : M kbd bool := gets (λ k, negb (kbd_read_pos k =? kbd_write_pos k)).
Definition keyboard_getchar : M kbd Z :=
  k ← gets id;
  if kbd_read_pos k =? kbd_write_pos k then mret 0 else
  c ← lift_opt (arr_get (kbd_buffer k) (kbd_read_pos k));
  modify (set_read_pos ((kbd_read_pos k + 1) mod 256));;
  mret c.

(** ** The interrupt handler *)
Section callback.
Variable process_find_by_pid : Z → sched → Z.
Variable idle_process : Z.

Definition on_kbd {A} (c : M kbd A) : M input A := zoom kb (λ k s, Input k (con s) (sch s)) c.
Definition on_console {A} (c : M console A) : M input A := zoom con (λ v s, Input (kb s) v (sch s)) c.
(** The strings that scheduler code writes go to the console. *)
Fixpoint write_all (l : list (list Z)) : M console unit :=
  match l with [] => mret () | x :: l' => terminal_writestring x;; write_all l' end.
Definition on_sched {A} (c : M sched A) : M input A :=
  old ← gets (λ s, terminal (sch s));
  r ← zoom (λ s, set_terminal [] (sch s)) (λ v s, Input (kb s) (con s) v) c;
  new ← gets (λ s, terminal (sch s));
  on_console (write_all new);;
  modify (λ s, Input (kb s) (con s) (set_terminal (old ++ new) (sch s)));;
  mret r.

(** The escape sequence of an arrow key. *)
Definition arrow_char (scancode : Z) : Z :=
  if scancode =? KEY_DOWN then 66
  else if scancode =? KEY_RIGHT then 67
  else if scancode =? KEY_LEFT then 68
  else 65.
Definition kbd_arrow (scancode : Z) : M kbd unit :=
  ok ← kbd_store 27;
  if (ok : bool) then
    ok ← kbd_store 91;
    if (ok : bool) then kbd_store (arrow_char scancode);; mret () else mret ()
  else mret ().

Definition keyboard_callback (scancode : Z) : M input unit :=
  if scancode =? KEY_CTRL then on_kbd (modify (set_ctrl true))
  else if scancode =? KEY_CTRL_RELEASE then on_kbd (modify (set_ctrl false))
  else if scancode =? KEY_ALT then on_kbd (modify (set_alt true))
  else if scancode =? KEY_ALT_RELEASE then on_kbd (modify (set_alt false))
  else
  alt ← gets (λ s, alt_pressed (kb s));
  if (alt : bool) && (KEY_F1 <=? scancode) && (scancode <=? KEY_F4) then on_console (vt_switch (scancode - KEY_F1))
  else if Z.land scancode 0x80 =? 0 then
    if (scancode =? KEY_UP) || (scancode =? KEY_DOWN) || (scancode =? KEY_LEFT) || (scancode =? KEY_RIGHT)
    then on_kbd (kbd_arrow scancode)
    else if scancode =? KEY_TAB then on_kbd (kbd_store 9);; mret ()
    else
      c ← lift_opt (arr_get kbd_us scancode);
      if negb (c =? 0) then
        ctrl ← gets (λ s, ctrl_pressed (kb s));
        if (ctrl : bool) && ((c =? 99) || (c =? 67)) then
          on_console (terminal_writestring (bytes_of "^C
"));;
          current ← on_sched (process_get_current idle_process);
          pid ← (if negb (current =? 0) then p ← on_sched (deref current); mret (p_pid p) else mret 1);
          if negb (current =? 0) && negb (pid =? 1)
          then on_sched (signal_send process_find_by_pid (s32 pid) 2)
          else mret ()
        else
          on_kbd (kbd_store c);;
          (if negb (c =? 27) then on_console (terminal_putchar c) else mret ())
      else mret ()
  else mret ().
End callback.

(** ** Specification *)

Record kbd_wf (k : kbd) : Prop := {
  kw_buffer : length (kbd_buffer k) = 256%nat;
  kw_read : 0 ≤ kbd_read_pos k < 256;
  kw_write : 0 ≤ kbd_write_pos k < 256;
}.
(** The characters waiting in the ring, oldest first. *)
Definition waiting (k : kbd) : list Z :=
  (λ i, default 0 (arr_get (kbd_buffer k) ((kbd_read_pos k + i) mod 256))) <$> seqZ 0 ((kbd_write_pos k - kbd_read_pos k) mod 256).

(** The characters of a key, and those it echoes. *)
Definition key_char (scancode : Z) : Z := default 0 (arr_get kbd_us scancode).
Definition plain_key (scancode : Z) : bool :=
  bool_decide (0 ≤ scancode < 128) &&
  bool_decide (scancode ∉ [KEY_CTRL; KEY_ALT; KEY_UP; KEY_DOWN; KEY_LEFT; KEY_RIGHT; KEY_TAB]) && negb (key_char scancode =? 0).
Definition keys (scancode : Z) : list Z :=
  if bool_decide (scancode ∈ [KEY_UP; KEY_DOWN; KEY_LEFT; KEY_RIGHT]) then [27; 91; arrow_char scancode]
  else if scancode =? KEY_TAB then [9]
  else if plain_key scancode then [key_char scancode] else [].
Definition echo (scancode : Z) : list Z :=
  if plain_key scancode && negb (key_char scancode =? 27) then [key_char scancode] else [].

Lemma waiting_length k : kbd_wf k → Z.of_nat (length (waiting k)) = (kbd_write_pos k - kbd_read_pos k) mod 256.
Proof. intros H. unfold waiting. rewrite length_fmap, length_seqZ. dlia. Qed.

Lemma wp_kbd_store k c :
  kbd_wf k → wp (kbd_store c) k (λ ok k', kbd_wf k' ∧ ctrl_pressed k' = ctrl_pressed k ∧ alt_pressed k' = alt_pressed k ∧
    ok = (length (waiting k) <? 255)%nat ∧ waiting k' = take 255 (waiting k ++ [c])).
Proof.
  intros Hk. pose proof (waiting_length k Hk) as Hlen. destruct Hk as [Hb Hr Hw]. unfold kbd_store. apply wp_bind, wp_gets. cbn [id]. cbv zeta.
  set (n := (kbd_write_pos k - kbd_read_pos k) mod 256) in *.
  destruct (Z.eqb_spec ((kbd_write_pos k + 1) mod 256) (kbd_read_pos k)) as [E|Hne]; cbn [negb].
  - assert (n = 255) by (unfold n; dlia). apply wp_ret. rewrite (proj2 (Nat.ltb_ge _ _)) by lia.
    split_and!; [done..|]. rewrite take_app_le, take_ge by lia. done.
  - assert (Hn : n < 255) by (unfold n; dlia). apply wp_bind. eapply wp_lift_opt; [apply arr_set_in; lia|].
    wp_go. rewrite (proj2 (Nat.ltb_lt _ _)) by lia. cbn [ctrl_pressed alt_pressed set_write_pos set_kbd_buffer].
    split_and!; try done.
    { split; cbn; [by rewrite length_insert|done|dlia]. }
    rewrite take_ge by (rewrite length_app; cbn; lia). unfold waiting. cbn [kbd_buffer kbd_read_pos kbd_write_pos set_write_pos set_kbd_buffer].
    replace (((kbd_write_pos k + 1) mod 256 - kbd_read_pos k) mod 256) with (n + 1) by (unfold n; dlia).
    rewrite seqZ_app, fmap_app by (unfold n; dlia). fold n. f_equal.
    + apply list_fmap_ext. intros j x Hx. apply lookup_seqZ in Hx as [-> Hj].
      rewrite arr_get_insert by lia. rewrite (proj2 (Z.eqb_neq _ _)); [done|]. unfold n in Hj. dlia.
    + rewrite seqZ_cons, seqZ_nil by lia. cbn [fmap list_fmap]. rewrite arr_get_insert by lia.
      rewrite (proj2 (Z.eqb_eq _ _)); [done|]. unfold n. dlia.
Qed.

Lemma wp_keyboard_getchar k :
  kbd_wf k → wp keyboard_getchar k (λ c k', kbd_wf k' ∧ ctrl_pressed k' = ctrl_pressed k ∧ alt_pressed k' = alt_pressed k ∧
    c = hd 0 (waiting k) ∧ waiting k' = tail (waiting k)).
Proof.
  intros [Hb Hr Hw]. unfold keyboard_getchar. apply wp_bind, wp_gets. cbn [id].
  destruct (Z.eqb_spec (kbd_read_pos k) (kbd_write_pos k)) as [E|Hne].
  { apply wp_ret. unfold waiting. rewrite E, Z.sub_diag. done. }
  destruct (arr_get_is_Some (kbd_buffer k) (kbd_read_pos k)) as [c Hc]; [lia|].
  apply wp_bind. eapply wp_lift_opt; [exact Hc|]. wp_go. split; [split; cbn; [done|dlia|done]|]. split_and!; try done.
  all: unfold waiting; cbn [kbd_buffer kbd_read_pos kbd_write_pos set_read_pos].
  all: assert (Hn : 0 < (kbd_write_pos k - kbd_read_pos k) mod 256) by dlia.
  - rewrite seqZ_cons by done. cbn. rewrite Z.add_0_r, Z.mod_small, Hc by lia. done.
  - rewrite (seqZ_cons 0 ((kbd_write_pos k - kbd_read_pos k) mod 256)) by done. cbn [tail fmap list_fmap].
    change (Z.succ 0) with (1 + 0). rewrite <- fmap_add_seqZ, <- list_fmap_compose.
    replace (Z.pred _) with ((kbd_write_pos k - (kbd_read_pos k + 1) mod 256) mod 256) by dlia.
    apply list_fmap_ext. intros j x _. cbn [compose]. do 2 f_equal. dlia.
Qed.

Lemma take_store (q a b : list Z) : (length q ≤ 255)%nat → take 255 (take 255 (q ++ a) ++ b) = take 255 (q ++ a ++ b).
Proof.
  intros Hq. rewrite app_assoc. destruct (decide (length (q ++ a) ≤ 255)%nat).
  - by rewrite (take_ge (q ++ a)).
  - rewrite (take_app_le (take 255 (q ++ a))) by (rewrite length_take; lia). rewrite take_take, (take_app_le (q ++ a)) by lia. f_equal.
Qed.
Lemma waiting_bound k : kbd_wf k → (length (waiting k) ≤ 255)%nat.
Proof. intros H. pose proof (waiting_length k H). pose proof (Z.mod_pos_bound (kbd_write_pos k - kbd_read_pos k) 256 eq_refl). lia. Qed.
Lemma wp_kbd_arrow k sc :
  kbd_wf k → wp (kbd_arrow sc) k (λ _ k', kbd_wf k' ∧ ctrl_pressed k' = ctrl_pressed k ∧ alt_pressed k' = alt_pressed k ∧
    waiting k' = take 255 (waiting k ++ [27; 91; arrow_char sc])).
Proof.
  intros Hk. pose proof (waiting_bound k Hk) as Hq. unfold kbd_arrow. apply wp_bind.
  eapply wp_mono; [by apply wp_kbd_store|]. cbn beta. intros ok k1 (Hk1 & C1 & A1 & -> & W1).
  assert (Hfull : ∀ q b : list Z, (255 ≤ length q)%nat → take 255 (q ++ b) = take 255 q) by (intros q b Hl; by rewrite take_app_le by lia).
  destruct (Nat.ltb_spec (length (waiting k)) 255).
  2:{ apply wp_ret. split_and!; [done..|]. rewrite W1. by rewrite !Hfull. }
  apply wp_bind. eapply wp_mono; [by apply wp_kbd_store|]. cbn beta. intros ok k2 (Hk2 & C2 & A2 & -> & W2).
  rewrite W1, take_store in W2 by done. destruct (Nat.ltb_spec (length (waiting k1)) 255) as [Hlt|Hge].
  2:{ apply wp_ret. split_and!; [done|congruence|congruence|]. rewrite W2, W1, length_take, length_app in *. cbn [length] in *.
      change [27; 91; arrow_char sc] with ([27] ++ [91; arrow_char sc]).
      rewrite !(app_assoc (waiting k) [27]). by rewrite !(Hfull (waiting k ++ [27])) by (rewrite length_app; cbn; lia). }
  apply wp_bind. eapply wp_mono; [by apply wp_kbd_store|]. cbn beta. intros ok k3 (Hk3 & C3 & A3 & _ & W3).
  apply wp_ret. split_and!; [done|congruence|congruence|]. rewrite W3, W2, take_store by done. done.
Qed.

(** The release bit, and two characters no key has. *)
Lemma release_bit sc : 0 ≤ sc < 256 → (Z.land sc 0x80 =? 0) = (sc <? 128).
Proof.
  intros H. assert (E : forallb (λ sc, eqb (Z.land sc 0x80 =? 0) (sc <? 128)) (seqZ 0 256) = true) by (vm_compute; reflexivity).
  rewrite forallb_forall in E. apply eqb_prop, E, list_elem_of_In, elem_of_seqZ. lia.
Qed.
Lemma kbd_us_chars sc c : arr_get kbd_us sc = Some c → c ≠ 67 ∧ c ≠ 13.
Proof.
  intros [_ H]%arr_get_Some. apply list_elem_of_lookup_2 in H.
  assert (E : Forall (λ c, c ≠ 67 ∧ c ≠ 13) kbd_us) by (apply (bool_decide_unpack _); vm_compute; exact I).
  rewrite Forall_forall in E. by apply E.
Qed.
Lemma keys_released sc : 128 ≤ sc → keys sc = [] ∧ echo sc = [].
Proof.
  intros H. unfold keys, echo, plain_key, KEY_UP, KEY_DOWN, KEY_LEFT, KEY_RIGHT, KEY_TAB.
  rewrite (bool_decide_false (0 ≤ sc < 128)) by lia. rewrite bool_decide_false by (rewrite !elem_of_cons, elem_of_nil; lia).
  by rewrite (proj2 (Z.eqb_neq sc 15)) by lia.
Qed.

Lemma keys_modifier sc : sc ∈ [KEY_CTRL; KEY_CTRL_RELEASE; KEY_ALT; KEY_ALT_RELEASE] → keys sc = [] ∧ echo sc = [].
Proof. rewrite !elem_of_cons, elem_of_nil. intros [->|[->|[->|[->|[]]]]]; split; vm_compute; reflexivity. Qed.

(** No key types a carriage return. *)
Lemma echo_plain sc : Forall (λ ch, ch ≠ 13) (echo sc).
Proof.
  unfold echo. destruct (_ && _); [|done]. apply Forall_singleton. unfold key_char. destruct (arr_get kbd_us sc) as [c|] eqn:E; [|done].
  by apply (kbd_us_chars sc).
Qed.
Lemma wp_key `{HT : Screen X T adv ok} find idle s sc x :
  kbd_wf (kb s) → T x (con s) → 0 ≤ sc < 256 → Forall ok (echo sc) →
  ¬ (ctrl_pressed (kb s) = true ∧ key_char sc = 99 ∧ sc < 128) →
  ¬ (alt_pressed (kb s) = true ∧ KEY_F1 ≤ sc ≤ KEY_F4) →
  wp (keyboard_callback find idle sc) s (λ _ s', kbd_wf (kb s') ∧
    waiting (kb s') = take 255 (waiting (kb s) ++ keys sc) ∧
    T (foldl adv x (echo sc)) (con s') ∧ sch s' = sch s ∧
    ctrl_pressed (kb s') = (if sc =? KEY_CTRL then true else if sc =? KEY_CTRL_RELEASE then false else ctrl_pressed (kb s)) ∧
    alt_pressed (kb s') = (if sc =? KEY_ALT then true else if sc =? KEY_ALT_RELEASE then false else alt_pressed (kb s))).
Proof.
  intros Hk Hsh Hsc Hok Hctrl Halt. pose proof (waiting_bound _ Hk) as Hq.
  assert (Hnone : take 255 (waiting (kb s) ++ []) = waiting (kb s)) by (rewrite app_nil_r, take_ge by lia; done).
  unfold keyboard_callback.
  assert (Hmod : ∀ f, sc ∈ [KEY_CTRL; KEY_CTRL_RELEASE; KEY_ALT; KEY_ALT_RELEASE] → kbd_wf (f (kb s)) → waiting (f (kb s)) = waiting (kb s) →
    wp (on_kbd (modify f)) s (λ _ s', s' = Input (f (kb s)) (con s) (sch s) ∧ kbd_wf (kb s') ∧
      waiting (kb s') = take 255 (waiting (kb s) ++ keys sc) ∧ T (foldl adv x (echo sc)) (con s'))).
  { intros f Hin Hf Hwf. apply wp_zoom, wp_modify. destruct (keys_modifier sc Hin) as [-> ->]. rewrite Hnone. by split_and!. }
  destruct (Z.eqb_spec sc KEY_CTRL) as [->|N1]; [|destruct (Z.eqb_spec sc KEY_CTRL_RELEASE) as [->|N2];
    [|destruct (Z.eqb_spec sc KEY_ALT) as [->|N3]; [|destruct (Z.eqb_spec sc KEY_ALT_RELEASE) as [->|N4]]]].
  1-4: eapply wp_mono; [apply Hmod; [set_solver|by split; apply Hk|done]|]; cbn beta; intros _ s' (-> & H1 & H2 & H3); by split_and!.
  apply wp_bind, wp_gets. rewrite <- andb_assoc, release_bit by done.
  destruct (alt_pressed (kb s) && _) eqn:Ea.
  { destruct Halt. apply andb_prop in Ea as [? [?%Z.leb_le ?%Z.leb_le]%andb_prop]. done. }
  destruct (Z.ltb_spec sc 128) as [Hlt|Hge].
  2:{ apply wp_ret. destruct (keys_released sc Hge) as [-> ->]. rewrite Hnone. split_and!; done. }
  assert (Harr : (sc =? KEY_UP) || (sc =? KEY_DOWN) || (sc =? KEY_LEFT) || (sc =? KEY_RIGHT)
    = bool_decide (sc ∈ [KEY_UP; KEY_DOWN; KEY_LEFT; KEY_RIGHT])).
  { destruct (bool_decide_reflect (sc ∈ [KEY_UP; KEY_DOWN; KEY_LEFT; KEY_RIGHT])) as [H|H]; rewrite !elem_of_cons, elem_of_nil in H; case_cmp; tauto. }
  rewrite Harr. unfold keys. unfold echo, plain_key in Hok |- *. rewrite (bool_decide_true (0 ≤ sc < 128)) in Hok |- * by lia. cbn [andb] in Hok |- *.
  destruct (bool_decide_reflect (sc ∈ [KEY_UP; KEY_DOWN; KEY_LEFT; KEY_RIGHT])) as [Hin|Hnin].
  { rewrite bool_decide_false by (rewrite !not_elem_of_cons; set_solver). cbn [andb].
    apply wp_zoom. eapply wp_mono; [by apply wp_kbd_arrow|]. cbn beta. intros _ k' (? & ? & ? & ?). by split_and!. }
  destruct (Z.eqb_spec sc KEY_TAB) as [->|Htab].
  { apply wp_bind, wp_zoom. eapply wp_mono; [by apply wp_kbd_store|]. cbn beta. intros fits k' (? & ? & ? & _ & ?). by split_and!. }
  rewrite bool_decide_true in Hok |- * by (rewrite !not_elem_of_cons in *; split_and!; naive_solver). cbn [andb] in Hok |- *.
  destruct (arr_get_is_Some kbd_us sc) as [c Hc]; [split; [lia|exact Hlt]|]. destruct (kbd_us_chars sc c Hc) as [Hc67 Hc13].
  assert (Ekc : key_char sc = c) by (unfold key_char; by rewrite Hc). rewrite Ekc in Hctrl, Hok |- *.
  apply wp_bind. eapply wp_lift_opt; [exact Hc|]. destruct (Z.eqb_spec c 0) as [Hc0|Hc0]; cbn [negb andb] in Hok |- *.
  { apply wp_ret. rewrite Hnone. by split_and!. }
  apply wp_bind, wp_gets. rewrite (proj2 (Z.eqb_neq c 67)), orb_false_r by done.
  destruct (ctrl_pressed (kb s) && (c =? 99)) eqn:E3.
  { destruct Hctrl. apply andb_prop in E3 as [? ?%Z.eqb_eq]. done. }
  apply wp_bind, wp_zoom. eapply wp_mono; [by apply wp_kbd_store|]. cbn beta. intros fits k' (? & ? & ? & _ & ?).
  destruct (Z.eqb_spec c 27); cbn [negb foldl] in Hok |- *.
  - apply wp_ret. by split_and!.
  - apply wp_zoom. eapply wp_mono; [apply (HT x); [exact Hsh|exact (List.Forall_inv Hok)]|]. cbn beta. intros u v Hv. by split_and!.
Qed.


(** A screen that takes every character. *)
Section unrestricted.
Context `{HT : Screen X T adv ok} (Hall : ∀ ch, ok ch).
Lemma wp_write_all l x k : T x k → wp (write_all l) k (λ _ k', ∃ x', T x' k').
Proof using HT Hall.
  revert x k. induction l as [|b l IH]; intros x k Hk; [apply wp_ret; by exists x|]. cbn. apply wp_bind.
  eapply wp_mono; [apply (wp_screen_write _ x); [done|by apply Forall_true]|]. cbn beta. intros u k'. apply IH.
Qed.
(** What scheduler code does, its output going to the console. *)
Lemma wp_on_sched {A} (c : M sched A) x s Q :
  T x (con s) →
  wp c (set_terminal [] (sch s)) (λ r v, ∀ con' x', T x' con' → Q r (Input (kb s) con' (set_terminal (terminal (sch s) ++ terminal v) v))) →
  wp (on_sched c) s Q.
Proof using HT Hall.
  intros Hc H. unfold on_sched. apply wp_bind, wp_gets, wp_bind, wp_zoom. eapply wp_mono; [exact H|]. cbn beta. intros r v HQ.
  apply wp_bind, wp_gets, wp_bind. cbn [sch]. apply wp_zoom. cbn [con].
  eapply wp_mono; [by apply (wp_write_all _ x)|]. cbn beta. intros u k' [x' Hk']. apply wp_bind, wp_modify, wp_ret. by apply (HQ _ x').
Qed.
End unrestricted.
Abbreviation on_sched_wf c := (wp_on_sched (T := λ _ : unit, plain_wf) (adv := λ _ _, ()) (λ _, I) c ()).

(** (functional): Ctrl+C sends SIGINT to the running process, unless its pid is
    1: the process is TERMINATED and still the running one, no other process
    and no waiting character changes. *)
Theorem ctrl_c_interrupts find idle s c pr :
  kbd_wf (kb s) → plain_wf (con s) → ctrl_pressed (kb s) = true →
  current_process (sch s) = c → c ≠ 0 → pcbs (sch s) !! c = Some pr → 0 ≤ p_pid pr < 2 ^ 31 → p_pid pr ≠ 1 →
  (∀ t, find (p_pid pr) (set_terminal t (sch s)) = c) →
  wp (keyboard_callback find idle 0x2E) s (λ _ s', kb s' = kb s ∧ plain_wf (con s') ∧
    pcbs (sch s') = <[c := set_state PROCESS_STATE_TERMINATED pr]> (pcbs (sch s)) ∧ current_process (sch s') = c).
Proof.
  intros Hk Hc Hctrl Hcur Hc0 Hp Hpid Hp1 Hfind. unfold keyboard_callback.
  change (0x2E =? KEY_CTRL) with false. change (0x2E =? KEY_CTRL_RELEASE) with false.
  change (0x2E =? KEY_ALT) with false. change (0x2E =? KEY_ALT_RELEASE) with false.
  apply wp_bind, wp_gets. replace (_ && (0x2E <=? KEY_F4)) with false by (by destruct (alt_pressed (kb s))).
  change (Z.land 0x2E 0x80 =? 0) with true. change (_ || (0x2E =? KEY_RIGHT)) with false. change (0x2E =? KEY_TAB) with false.
  apply wp_bind. eapply wp_lift_opt; [vm_compute; reflexivity|]. change (negb (99 =? 0)) with true.
  apply wp_bind, wp_gets. rewrite Hctrl. change (true && _) with true.
  apply wp_bind, wp_zoom. eapply wp_mono; [by apply wp_write_wf|]. cbn beta. intros _ v Hv.
  apply wp_bind, (on_sched_wf (process_get_current idle)); [done|]. apply wp_bind, wp_gets, wp_ret. intros v1 _ Hv1. cbn [kb sch con terminal current_process set_terminal].
  rewrite Hcur, (proj2 (Z.eqb_neq c 0)) by done. cbn [negb]. rewrite (proj2 (Z.eqb_neq c 0)) by done. cbn [negb].
  apply wp_bind, wp_bind, (on_sched_wf (deref c)); [done|]. eapply wp_deref; [exact Hp|]. intros v2 _ Hv2. apply wp_ret.
  rewrite (proj2 (Z.eqb_neq (p_pid pr) 1)), s32_id by lia. cbn [negb andb].
  apply (on_sched_wf (signal_send find (p_pid pr) 2)); [done|]. cbn [kb sch con].
  eapply wp_mono; [apply (wp_signal find (p_pid pr) 2 _ c pr); [apply Hfind|done|exact Hp]|]. cbn beta.
  intros _ w [t ->] v3 _ Hv3. split_and!; [done..|]. exact Hcur.
Qed.
Definition bss_kbd : kbd := Kbd (replicate 256 0) 0 0 false false.
Definition demo_input : input := Input (set_ctrl true bss_kbd) bss_console demo_sched.
Lemma ctrl_c_interrupts_witness :
  wp (keyboard_callback (λ _ _, 0x200) 0x100 0x2E) demo_input (λ _ s', kb s' = kb demo_input ∧ plain_wf (con s') ∧
    pcbs (sch s') = <[0x200 := set_state PROCESS_STATE_TERMINATED (demo_pcb PROCESS_STATE_RUNNING 0x5000 0 0 2)]> (pcbs demo_sched) ∧
    current_process (sch s') = 0x200).
Proof.
  apply (ctrl_c_interrupts (λ _ _, 0x200) 0x100 demo_input 0x200 (demo_pcb PROCESS_STATE_RUNNING 0x5000 0 0 2)).
  all: try done; try (by split).
Defined.
