(* ===== verification/Boot.v ===== *)
(** * Descriptor tables, interrupt dispatch, timer and panic reports
    (src/kernel/kernel.c, src/kernel/panic.c, src/boot/exceptions.c,
    src/drivers/timer.c, src/arch/x86_64/tss.c)

    [board] is the state these files share: the GDT, the IDT and the TSS with
    the CPU registers that point to them, the table of interrupt handlers, the
    timer's variables, memory for the boot page tables, the bytes written to
    I/O ports and the strings written to the terminal.  Handlers are named; the
    ones of other files are a parameter of the dispatcher. *)
From S2P Require Import Prelude Mem PageAlloc Pmm Kmalloc Pcb Vmm Isr.

(** ** Descriptors *)

Record gdt_entry := GdtEntry {
  limit_low : Z;
  base_low : Z;
  base_middle : Z;
  access : Z;
  granularity : Z;
  base_high : Z;
}.
Record idt_entry := IdtEntry {
  offset_low : Z;
  selector : Z;
  ist : Z;
  type_attr : Z;
  offset_middle : Z;
  offset_high : Z;
  idt_zero : Z;
}.
Record tss_t := Tss {
  rsp0 : Z; rsp1 : Z; rsp2 : Z;
  tss_ist : list Z;
  iomap_base : Z;
}.
Definition SIZEOF_TSS : Z := 104.
Definition GDT_ENTRIES : Z := 7.
Definition IDT_ENTRIES : Z := 256.

(** The interrupt handlers the kernel registers. *)
Inductive handler : Type :=
  | timer_callback_h
  | keyboard_callback_h
  | syscall_handler_h
  | invalid_opcode_handler_h
  | double_fault_handler_h
  | stack_fault_handler_h
  | general_protection_fault_handler_h
  | page_fault_handler_h.

(** [registers_t]: the frame Isr.v shows on the stack. *)
Record registers := Registers {
  r_r15 : Z; r_r14 : Z; r_r13 : Z; r_r12 : Z; r_r11 : Z; r_r10 : Z; r_r9 : Z; r_r8 : Z;
  r_rdi : Z; r_rsi : Z; r_rbp : Z; r_rbx : Z; r_rdx : Z; r_rcx : Z; r_rax : Z;
  int_no : Z; err_code : Z;
  r_rip : Z; r_cs : Z; r_rflags : Z; r_rsp : Z; r_ss : Z;
}.

Record board := Board {
  gdt : list gdt_entry;
  gp : Z * Z;
  idt : list idt_entry;
  ip : Z * Z;
  gdtr : Z * Z;
  idtr : Z * Z;
  task_register : Z;
  tss : tss_t;
  interrupt_handlers : list (option handler);
  timer_ticks : Z;
  timer_frequency : Z;
  b_mem : mem;
  b_cr3 : Z;
  b_paging : bool;
  ports : list (Z * Z);
  printed : list (list Z);
}.

Definition set_gdt v s := Board v (gp s) (idt s) (ip s) (gdtr s) (idtr s) (task_register s) (tss s) (interrupt_handlers s) (timer_ticks s) (timer_frequency s) (b_mem s) (b_cr3 s) (b_paging s) (ports s) (printed s).
Definition set_gp v s := Board (gdt s) v (idt s) (ip s) (gdtr s) (idtr s) (task_register s) (tss s) (interrupt_handlers s) (timer_ticks s) (timer_frequency s) (b_mem s) (b_cr3 s) (b_paging s) (ports s) (printed s).
Definition set_idt v s := Board (gdt s) (gp s) v (ip s) (gdtr s) (idtr s) (task_register s) (tss s) (interrupt_handlers s) (timer_ticks s) (timer_frequency s) (b_mem s) (b_cr3 s) (b_paging s) (ports s) (printed s).
Definition set_ip v s := Board (gdt s) (gp s) (idt s) v (gdtr s) (idtr s) (task_register s) (tss s) (interrupt_handlers s) (timer_ticks s) (timer_frequency s) (b_mem s) (b_cr3 s) (b_paging s) (ports s) (printed s).
Definition set_gdtr v s := Board (gdt s) (gp s) (idt s) (ip s) v (idtr s) (task_register s) (tss s) (interrupt_handlers s) (timer_ticks s) (timer_frequency s) (b_mem s) (b_cr3 s) (b_paging s) (ports s) (printed s).
Definition set_idtr v s := Board (gdt s) (gp s) (idt s) (ip s) (gdtr s) v (task_register s) (tss s) (interrupt_handlers s) (timer_ticks s) (timer_frequency s) (b_mem s) (b_cr3 s) (b_paging s) (ports s) (printed s).
Definition set_task v s := Board (gdt s) (gp s) (idt s) (ip s) (gdtr s) (idtr s) v (tss s) (interrupt_handlers s) (timer_ticks s) (timer_frequency s) (b_mem s) (b_cr3 s) (b_paging s) (ports s) (printed s).
Definition set_tss v s := Board (gdt s) (gp s) (idt s) (ip s) (gdtr s) (idtr s) (task_register s) v (interrupt_handlers s) (timer_ticks s) (timer_frequency s) (b_mem s) (b_cr3 s) (b_paging s) (ports s) (printed s).
Definition set_handlers v s := Board (gdt s) (gp s) (idt s) (ip s) (gdtr s) (idtr s) (task_register s) (tss s) v (timer_ticks s) (timer_frequency s) (b_mem s) (b_cr3 s) (b_paging s) (ports s) (printed s).
Definition set_ticks v s := Board (gdt s) (gp s) (idt s) (ip s) (gdtr s) (idtr s) (task_register s) (tss s) (interrupt_handlers s) v (timer_frequency s) (b_mem s) (b_cr3 s) (b_paging s) (ports s) (printed s).
Definition set_frequency v s := Board (gdt s) (gp s) (idt s) (ip s) (gdtr s) (idtr s) (task_register s) (tss s) (interrupt_handlers s) (timer_ticks s) v (b_mem s) (b_cr3 s) (b_paging s) (ports s) (printed s).
Definition set_bmem v s := Board (gdt s) (gp s) (idt s) (ip s) (gdtr s) (idtr s) (task_register s) (tss s) (interrupt_handlers s) (timer_ticks s) (timer_frequency s) v (b_cr3 s) (b_paging s) (ports s) (printed s).
Definition set_paging r v s := Board (gdt s) (gp s) (idt s) (ip s) (gdtr s) (idtr s) (task_register s) (tss s) (interrupt_handlers s) (timer_ticks s) (timer_frequency s) (b_mem s) r v (ports s) (printed s).
Definition set_ports v s := Board (gdt s) (gp s) (idt s) (ip s) (gdtr s) (idtr s) (task_register s) (tss s) (interrupt_handlers s) (timer_ticks s) (timer_frequency s) (b_mem s) (b_cr3 s) (b_paging s) v (printed s).
Definition set_printed v s := Board (gdt s) (gp s) (idt s) (ip s) (gdtr s) (idtr s) (task_register s) (tss s) (interrupt_handlers s) (timer_ticks s) (timer_frequency s) (b_mem s) (b_cr3 s) (b_paging s) (ports s) v.

#[export] Program Instance board_mem : HasMem board := {| get_mem := b_mem; set_mem := set_bmem |}.
Solve Obligations with by intros; destruct s.

Definition outb (port data : Z) : M board unit := modify (λ s, set_ports (ports s ++ [(port, u8 data)]) s).
Definition print (b : list Z) : M board unit := modify (λ s, set_printed (printed s ++ [b]) s).
Definition prints (s : string) : M board unit := print (bytes_of s).

Definition register_interrupt_handler (n : Z) (h : handler) : M board unit :=
  hs ← gets interrupt_handlers; hs' ← lift_opt (arr_set hs (u8 n) (Some h)); modify (set_handlers hs').

Definition gdt_put (num : Z) (f : gdt_entry → gdt_entry) : M board unit :=
  g ← gets gdt; e ← lift_opt (arr_get g num); g' ← lift_opt (arr_set g num (f e)); modify (set_gdt g').

Definition gdt_set_gate (num base limit acc gran : Z) : M board unit :=
  gdt_put num (λ e, GdtEntry
    (u16 (Z.land limit 0xFFFF))
    (u16 (Z.land base 0xFFFF))
    (u8 (Z.land (Z.shiftr base 16) 0xFF))
    (u8 acc)
    (u8 (Z.lor (Z.land (Z.shiftr limit 16) 0x0F) (Z.land gran 0xF0)))
    (u8 (Z.land (Z.shiftr base 24) 0xFF))).

Definition gdt_set_tss (num base limit : Z) : M board unit :=
  gdt_put num (λ e, GdtEntry
    (u16 (Z.land limit 0xFFFF))
    (u16 (Z.land base 0xFFFF))
    (u8 (Z.land (Z.shiftr base 16) 0xFF))
    0x89
    (u8 (Z.lor (Z.land (Z.shiftr limit 16) 0x0F) 0))
    (u8 (Z.land (Z.shiftr base 24) 0xFF)));;
  gdt_put (num + 1) (λ e, GdtEntry
    (u16 (Z.land (Z.shiftr base 32) 0xFFFF))
    (u16 (Z.land (Z.shiftr base 48) 0xFFFF))
    0 0 0 0).

Definition idt_set_gate (num base sel flags : Z) : M board unit :=
  t ← gets idt;
  t' ← lift_opt (arr_set t (u8 num) (IdtEntry
    (u16 (Z.land base 0xFFFF)) (u16 sel) 0 (u8 flags)
    (u16 (Z.land (Z.shiftr base 16) 0xFFFF)) (u32 (Z.land (Z.shiftr base 32) 0xFFFFFFFF)) 0));
  modify (set_idt t').

Section tables.
(** The addresses of the tables, of the stubs and of the default stack, which
    the linker decides. *)
Variables gdt_addr idt_addr tss_addr default_kernel_stack : Z.
Variable stub : Z → Z.

Definition load_gdt : M board unit := modify (λ s, set_gdtr (gp s) s).
Definition load_idt : M board unit := modify (λ s, set_idtr (ip s) s).

Definition init_gdt : M board unit :=
  modify (set_gp (8 * GDT_ENTRIES - 1, gdt_addr));;
  gdt_set_gate 0 0 0 0 0;;
  gdt_set_gate 1 0 0xFFFFFFFF 0x9A 0xAF;;
  gdt_set_gate 2 0 0xFFFFFFFF 0x92 0xCF;;
  gdt_set_gate 3 0 0xFFFFFFFF 0xFA 0xAF;;
  gdt_set_gate 4 0 0xFFFFFFFF 0xF2 0xCF;;
  load_gdt;;
  gdt_set_tss 5 tss_addr (SIZEOF_TSS - 1);;
  load_gdt;;
  modify (set_task 0x28).

(** The vectors with a stub, in the order they are installed, and their
    flags. *)
Definition exception_vectors : list Z := [0; 1; 2; 3; 4; 5; 6; 7; 8; 10; 11; 12; 13; 14; 16; 17; 18; 19; 20].
Fixpoint set_gates (vs : list Z) : M board unit :=
  match vs with [] => mret () | v :: vs' => idt_set_gate v (stub v) 0x08 0x8E;; set_gates vs' end.
Definition init_idt : M board unit :=
  modify (set_ip (16 * IDT_ENTRIES - 1, idt_addr));;
  for_loop (Z.to_nat IDT_ENTRIES) 0 (λ i, idt_set_gate i 0 0 0);;
  set_gates exception_vectors;;
  idt_set_gate 32 (stub 32) 0x08 0x8E;;
  idt_set_gate 33 (stub 33) 0x08 0x8E;;
  idt_set_gate 128 (stub 128) 0x08 0xEE;;
  load_idt.

Definition tss_init : M board unit :=
  modify (set_tss (Tss 0 0 0 (replicate 7 0) 0));;
  modify (λ s, set_tss (Tss (default_kernel_stack + 8192) (rsp1 (tss s)) (rsp2 (tss s)) (tss_ist (tss s)) (iomap_base (tss s))) s);;
  modify (λ s, set_tss (Tss (rsp0 (tss s)) (rsp1 (tss s)) (rsp2 (tss s)) (tss_ist (tss s)) SIZEOF_TSS) s);;
  prints "TSS initialized at ";;
  prints "
".
End tables.
Definition tss_get_kernel_stack : M board Z := gets (λ s, rsp0 (tss s)).

Definition init_pic : M board unit :=
  outb 0x20 0x11;; outb 0xA0 0x11;;
  outb 0x21 0x20;; outb 0xA1 0x28;;
  outb 0x21 0x04;; outb 0xA1 0x02;;
  outb 0x21 0x01;; outb 0xA1 0x01;;
  outb 0x21 0xFC;; outb 0xA1 0xFF.

(** ** Boot page tables *)

Definition ENTRIES_PER_TABLE : Z := 512.
Definition pml4 : Z := 0x1000000.
Definition pdpt : Z := 0x1001000.
Definition pd : Z := 0x1002000.
Definition pt : Z := 0x1003000.
Definition init_paging : M board unit :=
  for_loop (Z.to_nat ENTRIES_PER_TABLE) 0 (λ i, store64 (pt + 8 * i) (Z.lor (i * PAGE_SIZE) 3));;
  store64 pd (Z.lor pt 3);;
  store64 pdpt (Z.lor pd 3);;
  store64 pml4 (Z.lor pdpt 3);;
  modify (set_paging pml4 true).

(** ** Panic reports

    [panic] and its variants print and halt: the report is a definition of its
    own, followed by the outcome [Panic]. *)

Definition hex_digit (d : Z) : Z := if d <? 10 then 48 + d else 65 + d - 10.
(** [for (int i = 60; i >= 0; i -= 4)]. *)
Fixpoint print_digits (n : nat) (value : Z) : M board unit :=
  match n with
  | O => mret ()
  | S n' =>
      let i := 4 * Z.of_nat n' in
      let digit := u8 (Z.land (Z.shiftr value i) 0xF) in
      print [hex_digit digit];; print_digits n' value
  end.
Definition print_hex (label : string) (value : Z) : M board unit :=
  prints label;;
  prints ": 0x";;
  print_digits 16 value;;
  prints "  ".
Definition print_hex_value (value : Z) : M board unit := prints "0x";; print_digits 16 value.

Definition rule : string := "================================================================================
".
Definition panic_header (msg : string) : M board unit :=
  prints "

";;
  prints rule;;
  prints "                              KERNEL PANIC
";;
  prints "================================================================================

";;
  prints "Error: ";;
  prints msg;;
  prints "

".
Definition panic_report (msg : string) : M board unit :=
  panic_header msg;;
  prints "System halted. Please restart your computer.
".
Definition panic_stop {A} (msg : string) : M board A := panic_report msg;; panic msg.

Definition regs_report (msg : string) (r : registers) : M board unit :=
  panic_header msg;;
  prints "Interrupt: ";;
  print_hex "INT" (int_no r);; print_hex "ERR" (err_code r);;
  prints "

";;
  prints "Registers:
";;
  print_hex "RAX" (r_rax r);; print_hex "RBX" (r_rbx r);; print_hex "RCX" (r_rcx r);; print_hex "RDX" (r_rdx r);;
  prints "
";;
  print_hex "RSI" (r_rsi r);; print_hex "RDI" (r_rdi r);; print_hex "RBP" (r_rbp r);; print_hex "RSP" (r_rsp r);;
  prints "
";;
  print_hex "R8 " (r_r8 r);; print_hex "R9 " (r_r9 r);; print_hex "R10" (r_r10 r);; print_hex "R11" (r_r11 r);;
  prints "
";;
  print_hex "R12" (r_r12 r);; print_hex "R13" (r_r13 r);; print_hex "R14" (r_r14 r);; print_hex "R15" (r_r15 r);;
  prints "

";;
  prints "Execution:
";;
  print_hex "RIP" (r_rip r);; print_hex "CS " (r_cs r);; print_hex "RFLAGS" (r_rflags r);;
  prints "

";;
  prints "System halted. Please restart your computer.
".
Definition panic_with_regs {A} (msg : string) (r : registers) : M board A := regs_report msg r;; panic msg.

Definition exception_messages : list string := [
  "Division By Zero"; "Debug"; "Non Maskable Interrupt"; "Breakpoint"; "Into Detected Overflow"; "Out of Bounds";
  "Invalid Opcode"; "No Coprocessor"; "Double Fault"; "Coprocessor Segment Overrun"; "Bad TSS"; "Segment Not Present";
  "Stack Fault"; "General Protection Fault"; "Page Fault"; "Unknown Interrupt"; "Coprocessor Fault"; "Alignment Check";
  "Machine Check"; "SIMD Floating-Point Exception"; "Virtualization Exception"; "Reserved"; "Reserved"; "Reserved";
  "Reserved"; "Reserved"; "Reserved"; "Reserved"; "Reserved"; "Reserved"; "Reserved"; "Reserved"]%string.
Definition exception_handler (r : registers) : M board unit :=
  if int_no r <? 32 then
    msg ← lift_opt (arr_get exception_messages (int_no r));
    panic_with_regs msg r
  else panic_with_regs "Unknown exception" r.

(** ** The exception handlers of exceptions.c *)

Definition PF_PRESENT : Z := 1.
Definition PF_WRITE : Z := 2.
Definition PF_USER : Z := 4.
Definition PF_RESERVED : Z := 8.
Definition PF_FETCH : Z := 16.
Definition flag (error bit : Z) : bool := negb (Z.land error bit =? 0).
Definition banner (title : string) : M board unit :=
  prints "

================================================================================
";;
  prints title;;
  prints "================================================================================

".

(** [cr2] is what the CPU register holds. *)
Definition page_fault_report (cr2 : Z) (r : registers) : M board unit :=
  let error := u32 (err_code r) in
  banner "                                PAGE FAULT
";;
  prints "Faulting address: ";;
  print_hex_value cr2;;
  prints "

";;
  prints "Error code: ";;
  print_hex_value error;;
  prints " - ";;
  prints (if flag error PF_PRESENT then "protection violation" else "page not present");;
  prints ", during ";;
  prints (if flag error PF_WRITE then "write" else "read");;
  prints " in ";;
  prints (if flag error PF_USER then "user" else "kernel");;
  prints " mode";;
  (if flag error PF_RESERVED then prints ", reserved bit set" else mret ());;
  (if flag error PF_FETCH then prints ", instruction fetch" else mret ());;
  prints "

";;
  prints "Instruction pointer: ";;
  print_hex_value (r_rip r);;
  prints "
".
Definition page_fault_handler (cr2 : Z) (r : registers) : M board unit :=
  page_fault_report cr2 r;; panic_with_regs "Unhandled page fault" r.

Definition general_protection_fault_handler (r : registers) : M board unit :=
  let error := u32 (err_code r) in
  banner "                          GENERAL PROTECTION FAULT
";;
  (if negb (error =? 0) then
     prints "Error code: ";;
     print_hex_value error;;
     prints "
";;
     let index := u16 (Z.land (Z.shiftr error 3) 0x1FFF) in
     let tbl := u8 (Z.land (Z.shiftr error 1) 0x3) in
     let external := flag error 1 in
     prints "Segment selector: ";;
     print_hex_value index;;
     prints ", Table: ";;
     prints (if tbl =? 0 then "GDT" else if tbl =? 1 then "IDT" else "LDT");;
     (if (external : bool) then prints ", External event" else mret ());;
     prints "
"
   else mret ());;
  prints "Instruction pointer: ";;
  print_hex_value (r_rip r);;
  prints "
";;
  panic_with_regs "General protection fault" r.

Definition double_fault_handler (r : registers) : M board unit :=
  banner "                              DOUBLE FAULT
";;
  prints "CRITICAL: Exception occurred while handling another exception!
";;
  prints "This often indicates stack overflow or corrupted interrupt handlers.

";;
  panic_with_regs "Double fault - system integrity compromised" r.

Definition invalid_opcode_handler (r : registers) : M board unit :=
  banner "                            INVALID OPCODE
";;
  prints "CPU encountered an invalid or undefined instruction.
";;
  prints "This may indicate corrupted code or incompatible CPU instructions.

";;
  prints "Instruction pointer: ";;
  print_hex_value (r_rip r);;
  prints "
";;
  panic_with_regs "Invalid opcode" r.

Definition stack_fault_handler (r : registers) : M board unit :=
  banner "                             STACK FAULT
";;
  let error := u32 (err_code r) in
  (if negb (error =? 0) then
     prints "Segment selector: ";;
     print_hex_value error;;
     prints "
"
   else mret ());;
  prints "Stack pointer: ";;
  print_hex_value (r_rsp r);;
  prints "
";;
  panic_with_regs "Stack segment fault" r.

Definition init_exceptions : M board unit :=
  register_interrupt_handler 6 invalid_opcode_handler_h;;
  register_interrupt_handler 8 double_fault_handler_h;;
  register_interrupt_handler 12 stack_fault_handler_h;;
  register_interrupt_handler 13 general_protection_fault_handler_h;;
  register_interrupt_handler 14 page_fault_handler_h;;
  prints "Exception handlers initialized
".

(** ** The dispatcher *)
Section dispatch.
(** What a handler of the table does when it is called. *)
Variable call : handler → registers → M board unit.
Definition isr_handler (r : registers) : M board unit :=
  if int_no r <? 32 then exception_handler r else
  hs ← gets interrupt_handlers;
  h ← lift_opt (arr_get hs (int_no r));
  match h with
  | Some h => call h r
  | None =>
      prints "Unhandled interrupt: ";;
      prints "
"
  end.
End dispatch.

(** ** The timer *)

Definition PIT_CHANNEL0_DATA : Z := 0x40.
Definition PIT_COMMAND : Z := 0x43.
Definition PIT_FREQUENCY : Z := 1193180.
Definition IRQ0 : Z := 32.

Definition timer_get_ticks : M board Z := gets timer_ticks.
Definition timer_get_ms : M board Z :=
  s ← gets id;
  if timer_frequency s =? 0 then undefined else mret (u64 (timer_ticks s * 1000) / timer_frequency s).

(** The loop of [sleep_ms]; [wakes] is the number of timer interrupts handled
    during each [hlt] that an interrupt ends.  There is none when interrupts are
    disabled: the first [hlt] is then the last. *)
Fixpoint sleep_loop (start ms : Z) (wakes : list Z) : M board unit :=
  now ← timer_get_ms;
  if u64 (now - start) <? ms then
    match wakes with
    | [] => halt
    | w :: wakes' => modify (λ s, set_ticks (u64 (timer_ticks s + w)) s);; sleep_loop start ms wakes'
    end
  else mret ().
Definition sleep_ms (ms : Z) (wakes : list Z) : M board unit :=
  start ← timer_get_ms; sleep_loop start ms wakes.

Section timer.
Variable scheduler_tick : M board unit.
Definition timer_callback (r : registers) : M board unit :=
  modify (λ s, set_ticks (u64 (timer_ticks s + 1)) s);;
  scheduler_tick;;
  outb 0x20 0x20.
End timer.

Definition init_timer (frequency : Z) : M board unit :=
  modify (set_frequency frequency);;
  if frequency =? 0 then undefined else
  let divisor := PIT_FREQUENCY / frequency in
  outb PIT_COMMAND 0x36;;
  outb PIT_CHANNEL0_DATA (Z.land divisor 0xFF);;
  outb PIT_CHANNEL0_DATA (Z.land (Z.shiftr divisor 8) 0xFF);;
  register_interrupt_handler IRQ0 timer_callback_h;;
  prints "Timer initialized at ";;
  prints " Hz
".

(** ** Reading descriptors as the CPU does *)

Definition gdt_base (e : gdt_entry) : Z := base_low e + 2 ^ 16 * base_middle e + 2 ^ 24 * base_high e.
Definition gdt_limit (e : gdt_entry) : Z := limit_low e + 2 ^ 16 * Z.land (granularity e) 0xF.
Definition tss_base (lo hi : gdt_entry) : Z := gdt_base lo + 2 ^ 32 * limit_low hi + 2 ^ 48 * base_low hi.
Definition gate_offset (e : idt_entry) : Z := offset_low e + 2 ^ 16 * offset_middle e + 2 ^ 32 * offset_high e.
Definition gate_present (e : idt_entry) : bool := Z.testbit (type_attr e) 7.
Definition gate_dpl (e : idt_entry) : Z := Z.land (Z.shiftr (type_attr e) 5) 3.

(** [x & (2^k - 1)] of [x >> n]. *)
Lemma bits_mod x n k : 0 ≤ n → 0 ≤ k → Z.land (Z.shiftr x n) (2 ^ k - 1) = (x / 2 ^ n) mod 2 ^ k.
Proof. intros. rewrite land_mask, Z.shiftr_div_pow2 by done. done. Qed.
Lemma bytes_split v : 0 ≤ v < 2 ^ 64 →
  v = v mod 2 ^ 16 + 2 ^ 16 * ((v / 2 ^ 16) mod 2 ^ 16) + 2 ^ 32 * ((v / 2 ^ 32) mod 2 ^ 32).
Proof. change (2 ^ 64) with 18446744073709551616. change (2 ^ 32) with 4294967296. change (2 ^ 16) with 65536. intros. dlia. Qed.

(** A gate, as a value. *)
Definition gate (base sel flags : Z) : idt_entry :=
  IdtEntry (u16 (Z.land base 0xFFFF)) (u16 sel) 0 (u8 flags)
    (u16 (Z.land (Z.shiftr base 16) 0xFFFF)) (u32 (Z.land (Z.shiftr base 32) 0xFFFFFFFF)) 0.
Lemma gate_offset_ok base sel flags : 0 ≤ base < 2 ^ 64 → gate_offset (gate base sel flags) = base.
Proof.
  intros Hb. unfold gate_offset, gate. cbn [offset_low offset_middle offset_high].
  change 0xFFFF with (2 ^ 16 - 1). change 0xFFFFFFFF with (2 ^ 32 - 1). rewrite !bits_mod, land_mask by done.
  unfold u16, u32. rewrite !Z.mod_mod by done. symmetry. by apply bytes_split.
Qed.

Lemma wp_idt_set_gate s num base sel flags Q :
  length (idt s) = 256%nat → 0 ≤ num < 256 →
  Q () (set_idt (<[Z.to_nat num := gate base sel flags]> (idt s)) s) → wp (idt_set_gate num base sel flags) s Q.
Proof.
  intros Hl Hn HQ. unfold idt_set_gate. wp_go. unfold u8 at 1. rewrite Z.mod_small, arr_set_in by (change (2 ^ 8) with 256; lia). by wp_go.
Qed.

(** The table [init_idt] builds. *)
Definition vectors : list Z := exception_vectors ++ [32; 33; 128].
Definition gate_of (stub : Z → Z) (v : Z) : idt_entry :=
  if bool_decide (v ∈ vectors) then gate (stub v) 0x08 (if v =? 128 then 0xEE else 0x8E) else gate 0 0 0.

Lemma wp_set_gates stub vs : ∀ s done,
  length (idt s) = 256%nat → Forall (λ v, 0 ≤ v < 256) vs →
  (∀ v, 0 ≤ v < 256 → arr_get (idt s) v = Some (if bool_decide (v ∈ done) then gate (stub v) 0x08 0x8E else gate 0 0 0)) →
  wp (set_gates stub vs) s (λ _ s', s' = set_idt (idt s') s ∧ length (idt s') = 256%nat ∧
    ∀ v, 0 ≤ v < 256 → arr_get (idt s') v = Some (if bool_decide (v ∈ done ++ vs) then gate (stub v) 0x08 0x8E else gate 0 0 0)).
Proof.
  induction vs as [|w vs IH]; intros s dn Hl HF Hg; cbn [set_gates].
  { apply wp_ret. rewrite app_nil_r. split_and!; [by destruct s|done..]. }
  apply Forall_cons in HF as [Hw HF]. apply wp_bind, wp_idt_set_gate; [done..|].
  eapply wp_mono; [apply (IH _ (dn ++ [w])); [cbn; by rewrite length_insert|done|]|].
  - intros v Hv. cbn [idt set_idt]. rewrite arr_get_insert by lia. destruct (Z.eqb_spec v w) as [->|Hne].
    + rewrite bool_decide_true by set_solver. done.
    + rewrite Hg by done. by rewrite (bool_decide_ext (v ∈ dn ++ [w]) (v ∈ dn)) by set_solver.
  - cbn beta. intros _ s' (E & Hl' & Hg'). rewrite <- app_assoc in Hg'. split_and!; [|done|exact Hg']. by rewrite E.
Qed.

Lemma wp_init_idt idt_addr stub s :
  length (idt s) = 256%nat →
  wp (init_idt idt_addr stub) s (λ _ s', ip s' = (4095, idt_addr) ∧ idtr s' = ip s' ∧ length (idt s') = 256%nat ∧
    ∀ v, 0 ≤ v < 256 → arr_get (idt s') v = Some (gate_of stub v)).
Proof.
  intros Hl. unfold init_idt. apply wp_bind, wp_modify, wp_bind. set (s0 := set_ip _ s).
  apply (wp_for (λ i s', s' = set_idt (idt s') s0 ∧ length (idt s') = 256%nat ∧ ∀ v, 0 ≤ v < i → arr_get (idt s') v = Some (gate 0 0 0))).
  { split_and!; [done..|intros; lia]. }
  { intros i s1 Hi (E & Hl1 & Hg). change (Z.of_nat (Z.to_nat IDT_ENTRIES)) with 256 in Hi. apply wp_idt_set_gate; [done|lia|].
    split; [by rewrite E|]. cbn [idt set_idt]. split; [by rewrite length_insert|]. intros v Hv. rewrite arr_get_insert by lia.
    destruct (Z.eqb_spec v i); [done|]. apply Hg. lia. }
  change (0 + Z.of_nat (Z.to_nat IDT_ENTRIES)) with 256. intros s1 (E1 & Hl1 & Hg1). apply wp_bind.
  eapply wp_mono; [apply (wp_set_gates stub exception_vectors s1 []); [done|apply (bool_decide_unpack _); vm_compute; exact I|]|].
  { intros v Hv. rewrite bool_decide_false by apply not_elem_of_nil. by apply Hg1. }
  cbn beta. intros _ s2 (E2 & Hl2 & Hg2). cbn [app] in Hg2.
  apply wp_bind, wp_idt_set_gate; [done|lia|]. apply wp_bind, wp_idt_set_gate; [cbn; by rewrite length_insert|lia|].
  apply wp_bind, wp_idt_set_gate; [cbn; by rewrite !length_insert|lia|]. apply wp_modify. rewrite E2, E1. cbn. split_and!; [done..|by rewrite !length_insert|].
  intros v Hv. rewrite !arr_get_insert by (rewrite ?length_insert; lia). unfold gate_of, vectors.
  destruct (Z.eqb_spec v 128) as [->|]; [done|]. destruct (Z.eqb_spec v 33) as [->|]; [done|]. destruct (Z.eqb_spec v 32) as [->|]; [done|].
  rewrite Hg2 by done. by rewrite (bool_decide_ext (v ∈ exception_vectors ++ [32; 33; 128]) (v ∈ exception_vectors))
    by (rewrite elem_of_app, !elem_of_cons, elem_of_nil; tauto).
Qed.

(** C13 (functional): [init_idt] gives every vector that has a stub, and no other, a
    present gate that leads to that stub in the kernel's code segment; only the
    system call gate may be used from user mode; the table is the one loaded. *)
Theorem init_idt_spec idt_addr stub s :
  length (idt s) = 256%nat → (∀ v, 0 ≤ stub v < 2 ^ 64) →
  wp (init_idt idt_addr stub) s (λ _ s', idtr s' = (4095, idt_addr) ∧
    ∀ v, 0 ≤ v < 256 → ∃ e, arr_get (idt s') v = Some e ∧
      (gate_present e = true ↔ v ∈ (isr_stubs 0).*1 ∨ v ∈ (irq_stubs 0).*1) ∧
      (gate_present e = true → gate_offset e = stub v ∧ selector e = 0x08 ∧ ist e = 0 ∧ gate_dpl e = (if v =? 128 then 3 else 0))).
Proof.
  intros Hl Hstub. eapply wp_mono; [by apply wp_init_idt|]. cbn beta. intros _ s' (E1 & E2 & _ & Hg). split; [congruence|].
  intros v Hv. exists (gate_of stub v). split; [by apply Hg|]. unfold gate_of.
  rewrite <- elem_of_app. change ((isr_stubs 0).*1 ++ (irq_stubs 0).*1) with vectors.
  destruct (bool_decide_reflect (v ∈ vectors)) as [Hin|Hnin].
  - destruct (v =? 128); (split; [done|]); intros _; rewrite gate_offset_ok by done; done.
  - split; [|done]. by split.
Qed.
Definition zero_registers : registers := Registers 0 0 0 0 0 0 0 0 0 0 0 0 0 0 0 0 0 0 0 0 0 0.
Definition bss_board : board :=
  Board (replicate 7 (GdtEntry 0 0 0 0 0 0)) (0, 0) (replicate 256 (IdtEntry 0 0 0 0 0 0 0)) (0, 0) (0, 0) (0, 0) 0
    (Tss 0 0 0 (replicate 7 0) 0) (replicate 256 None) 0 0 ∅ 0 false [] [].
Lemma init_idt_spec_witness :
  wp (init_idt 0x5000 (λ v, 0x100000 + 16 * Z.land v 255)) bss_board (λ _ s', idtr s' = (4095, 0x5000) ∧
    ∀ v, 0 ≤ v < 256 → ∃ e, arr_get (idt s') v = Some e ∧
      (gate_present e = true ↔ v ∈ (isr_stubs 0).*1 ∨ v ∈ (irq_stubs 0).*1) ∧
      (gate_present e = true → gate_offset e = 0x100000 + 16 * Z.land v 255 ∧ selector e = 0x08 ∧ ist e = 0 ∧
        gate_dpl e = (if v =? 128 then 3 else 0))).
Proof.
  apply (init_idt_spec 0x5000 (λ v, 0x100000 + 16 * Z.land v 255) bss_board); [reflexivity|].
  intros v. change 255 with (2 ^ 8 - 1). rewrite land_mask by lia. pose proof (Z.mod_pos_bound v (2 ^ 8) eq_refl). lia.
Defined.

Lemma wp_gdt_put s num e f Q :
  arr_get (gdt s) num = Some e → Q () (set_gdt (<[Z.to_nat num := f e]> (gdt s)) s) → wp (gdt_put num f) s Q.
Proof.
  intros E HQ. unfold gdt_put. wp_go. rewrite E. wp_go. apply arr_get_Some in E as [Hi _]. rewrite arr_set_in by done. by wp_go.
Qed.
Lemma base_split base : 0 ≤ base < 2 ^ 64 →
  base = base mod 2 ^ 16 + 2 ^ 16 * ((base / 2 ^ 16) mod 2 ^ 8) + 2 ^ 24 * ((base / 2 ^ 24) mod 2 ^ 8)
    + 2 ^ 32 * ((base / 2 ^ 32) mod 2 ^ 16) + 2 ^ 48 * ((base / 2 ^ 48) mod 2 ^ 16).
Proof.
  change (2 ^ 64) with 18446744073709551616. change (2 ^ 48) with 281474976710656. change (2 ^ 32) with 4294967296.
  change (2 ^ 24) with 16777216. change (2 ^ 16) with 65536. change (2 ^ 8) with 256. intros. dlia.
Qed.
(** (roundtrip): The descriptor pair [gdt_set_tss] writes has, as the CPU reads
    it, the 64-bit base and the limit given, and the type of an available TSS;
    no other descriptor changes. *)
Theorem gdt_set_tss_spec s num base limit :
  length (gdt s) = 7%nat → 0 ≤ num < 6 → 0 ≤ base < 2 ^ 64 → 0 ≤ limit < 2 ^ 20 →
  wp (gdt_set_tss num base limit) s (λ _ s', ∃ lo hi,
    arr_get (gdt s') num = Some lo ∧ arr_get (gdt s') (num + 1) = Some hi ∧
    tss_base lo hi = base ∧ gdt_limit lo = limit ∧ access lo = 0x89 ∧
    ∀ k, k ≠ num → k ≠ num + 1 → arr_get (gdt s') k = arr_get (gdt s) k).
Proof.
  intros Hl Hn Hb Hlim. unfold gdt_set_tss.
  destruct (arr_get_is_Some (gdt s) num) as [e He]; [lia|]. destruct (arr_get_is_Some (gdt s) (num + 1)) as [e' He']; [lia|].
  apply wp_bind. eapply wp_gdt_put; [exact He|].
  eapply wp_gdt_put; [cbn [gdt set_gdt]; rewrite arr_get_insert, (proj2 (Z.eqb_neq _ _)) by lia; exact He'|].
  cbn [gdt set_gdt]. eexists _, _. rewrite !arr_get_insert by (rewrite ?length_insert; lia).
  rewrite (proj2 (Z.eqb_neq num (num + 1))), !Z.eqb_refl by lia. split_and!; [reflexivity..| | |reflexivity|].
  - unfold tss_base, gdt_base. cbn [base_low base_middle base_high limit_low].
    change 0xFFFF with (2 ^ 16 - 1). change 0xFF with (2 ^ 8 - 1). rewrite !bits_mod, land_mask by done.
    unfold u16, u8. rewrite !Z.mod_mod by done. symmetry. by apply base_split.
  - unfold gdt_limit. cbn [limit_low granularity]. change 0xFFFF with (2 ^ 16 - 1). change 0xF with (2 ^ 4 - 1).
    rewrite Z.lor_0_r, bits_mod, land_mask by done. unfold u16, u8. rewrite (Z.mod_mod limit) by done.
    rewrite (Z.mod_small _ (2 ^ 8)), land_mask, Z.mod_mod by (done || (change (2 ^ 20) with 1048576 in *; change (2 ^ 16) with 65536; change (2 ^ 4) with 16; change (2 ^ 8) with 256; dlia)).
    change (2 ^ 20) with 1048576 in *. change (2 ^ 16) with 65536. change (2 ^ 4) with 16. dlia.
  - intros k H1 H2. rewrite !arr_get_insert by (rewrite ?length_insert; lia). by rewrite !(proj2 (Z.eqb_neq k _)).
Qed.
Lemma gdt_set_tss_spec_witness :
  wp (gdt_set_tss 5 0xFFFF800000123456 103) bss_board (λ _ s', ∃ lo hi,
    arr_get (gdt s') 5 = Some lo ∧ arr_get (gdt s') 6 = Some hi ∧
    tss_base lo hi = 0xFFFF800000123456 ∧ gdt_limit lo = 103 ∧ access lo = 0x89 ∧
    ∀ k, k ≠ 5 → k ≠ 6 → arr_get (gdt s') k = arr_get (gdt bss_board) k).
Proof. apply (gdt_set_tss_spec bss_board 5); [reflexivity|lia..]. Defined.

(** ** Boot page tables *)

Lemma index_div v k : 0 ≤ k → Z.land (Z.shiftr v k) 0x1FF = (v / 2 ^ k) mod 512.
Proof. intros. change 0x1FF with (2 ^ 9 - 1). by rewrite bits_mod. Qed.
(** An entry [a | 3]: present, leading to the page [a]. *)
Lemma entry_3 a : a mod PAGE_SIZE = 0 → 0 ≤ a < 2 ^ 63 →
  u64 (Z.lor a 3) = Z.lor a 3 ∧ present (Z.lor a 3) = true ∧ frame (Z.lor a 3) = a.
Proof.
  intros Ha Hr. assert (E : Z.lor a 3 = a + 3) by (apply lor_low; [done|unfold PAGE_SIZE; lia]).
  rewrite E, present_odd, frame_spec, u64_id by lia. unfold PAGE_SIZE in *. split_and!; [done|apply negb_true_iff, Z.eqb_neq; dlia|dlia].
Qed.
(** The tables [init_paging] leaves: the four tables, nothing else. *)
Lemma wp_init_paging s :
  wp init_paging s (λ _ s', b_cr3 s' = pml4 ∧ b_paging s' = true ∧
    entry (b_mem s') pml4 0 = Z.lor pdpt 3 ∧ entry (b_mem s') pdpt 0 = Z.lor pd 3 ∧ entry (b_mem s') pd 0 = Z.lor pt 3 ∧
    (∀ i, 0 ≤ i < 512 → entry (b_mem s') pt i = Z.lor (i * PAGE_SIZE) 3) ∧
    (∀ x, ¬ (pt ≤ x < pt + 4096) → x ≠ pml4 → x ≠ pdpt → x ≠ pd → ld (b_mem s') x = ld (b_mem s) x)).
Proof.
  unfold init_paging. apply wp_bind.
  apply (wp_for (λ k s', (∀ i, 0 ≤ i < k → entry (b_mem s') pt i = Z.lor (i * PAGE_SIZE) 3) ∧
    ∀ x, ¬ (pt ≤ x < pt + 4096) → ld (b_mem s') x = ld (b_mem s) x)).
  { split; [intros; lia|done]. }
  { intros k s1 Hk [H1 H2]. change (Z.of_nat (Z.to_nat ENTRIES_PER_TABLE)) with 512 in Hk. apply wp_store64; [unfold pt; dlia|].
    cbn [get_mem set_mem board_mem b_mem set_bmem]. split.
    - intros i Hi. unfold entry in *. destruct (decide (i = k)) as [->|].
      + rewrite ld_st_same. apply entry_3; unfold PAGE_SIZE; [dlia|lia].
      + rewrite ld_st_other by lia. apply H1. lia.
    - intros x Hx. rewrite ld_st_other by (unfold pt in *; lia). by apply H2. }
  change (0 + Z.of_nat (Z.to_nat ENTRIES_PER_TABLE)) with 512. intros s1 [H1 H2].
  do 3 (apply wp_bind, wp_store64; [reflexivity|]). apply wp_modify. cbn [get_mem set_mem board_mem b_mem set_bmem set_paging b_cr3 b_paging].
  unfold entry in *. rewrite ?Z.mul_0_r, ?Z.add_0_r. unfold pml4, pdpt, pd, pt in *.
  split_and!; [done..| | | | |]; repeat first [rewrite ld_st_same | rewrite ld_st_other by lia]; try reflexivity.
  - intros i Hi. do 3 rewrite ld_st_other by lia. by apply H1.
  - intros x Hx ???. do 3 rewrite ld_st_other by lia. by apply H2.
Qed.

(** (functional): With memory cleared, the boot page tables map the first two
    megabytes to themselves, writable, and nothing else below the kernel half:
    neither the tables themselves nor the kernel heap is mapped when paging is
    switched on. *)
Theorem init_paging_maps_2mib s v :
  (∀ i, 0 ≤ i < 512 → entry (b_mem s) pml4 i = 0 ∧ entry (b_mem s) pdpt i = 0 ∧ entry (b_mem s) pd i = 0) → 0 ≤ v < 2 ^ 47 →
  wp init_paging s (λ _ s', b_paging s' = true ∧
    leaf (b_mem s') (b_cr3 s') v = (if v <? 2 ^ 21 then Some (Z.lor (PAGE_SIZE * (v / PAGE_SIZE)) 3) else None)).
Proof.
  intros Hz Hv. eapply wp_mono; [apply wp_init_paging|]. cbn beta. intros _ s' (Hcr3 & Hp & E4 & E3 & E2 & E1 & Hrest).
  split; [done|]. rewrite Hcr3.
  assert (Hother : ∀ t i, (t = pml4 ∨ t = pdpt ∨ t = pd) → 0 < i < 512 → present (entry (b_mem s') t i) = false).
  { intros t i Ht Hi. unfold entry. rewrite Hrest by (unfold pml4, pdpt, pd, pt in *; lia).
    destruct (Hz i ltac:(lia)) as (Z1 & Z2 & Z3). unfold entry in *. destruct Ht as [->|[->| ->]]; [by rewrite Z1|by rewrite Z2|by rewrite Z3]. }
  destruct (entry_3 pdpt eq_refl ltac:(done)) as (_ & P4 & F4). destruct (entry_3 pd eq_refl ltac:(done)) as (_ & P3 & F3).
  destruct (entry_3 pt eq_refl ltac:(done)) as (_ & P2 & F2).
  unfold leaf, dirs, PML4_INDEX, PDPT_INDEX, PD_INDEX, PT_INDEX. rewrite !index_div by lia.
  change (2 ^ 47) with 140737488355328 in Hv. change (2 ^ 39) with 549755813888. change (2 ^ 30) with 1073741824.
  change (2 ^ 21) with 2097152. change (2 ^ 12) with 4096. cbn [tbl]. unfold step.
  destruct (decide ((v / 549755813888) mod 512 = 0)) as [I4|]; [rewrite I4, E4, P4, F4|rewrite Hother by (auto || dlia); destruct (Z.ltb_spec v 2097152); [dlia|done]].
  destruct (decide ((v / 1073741824) mod 512 = 0)) as [I3|]; [rewrite I3, E3, P3, F3|rewrite Hother by (auto || dlia); destruct (Z.ltb_spec v 2097152); [dlia|done]].
  destruct (decide ((v / 2097152) mod 512 = 0)) as [I2|]; [rewrite I2, E2, P2, F2|rewrite Hother by (auto || dlia); destruct (Z.ltb_spec v 2097152); [dlia|done]].
  rewrite E1 by dlia. destruct (Z.ltb_spec v 2097152); [|dlia].
  replace (v / 4096 mod 512) with (v / 4096) by dlia. unfold PAGE_SIZE. rewrite (Z.mul_comm 4096).
  destruct (entry_3 (v / 4096 * 4096)) as (_ & -> & _); [unfold PAGE_SIZE; dlia|dlia|done].
Qed.
Lemma init_paging_maps_2mib_witness :
  wp init_paging bss_board (λ _ s', b_paging s' = true ∧ leaf (b_mem s') (b_cr3 s') HEAP_START = None).
Proof. apply (init_paging_maps_2mib bss_board HEAP_START); [done|unfold HEAP_START; lia]. Defined.

(** ** Reports, dispatch and time *)

(** The number a string of hexadecimal digits denotes. *)
Definition hex_value (l : list Z) : Z := foldl (λ acc d, 16 * acc + (if d <? 58 then d - 48 else d - 55)) 0 l.
Lemma hex_value_snoc l d : 0 ≤ d < 16 → hex_value (l ++ [hex_digit d]) = 16 * hex_value l + d.
Proof. intros Hd. unfold hex_value, hex_digit. rewrite foldl_app. cbn [foldl]. case_cmp; lia. Qed.
Lemma wp_print_digits n v s : 0 ≤ v →
  wp (print_digits n v) s (λ _ s', ∃ l, s' = set_printed (printed s ++ l) s ∧ length (concat l) = n ∧
    ∀ a, hex_value (a ++ concat l) = 16 ^ Z.of_nat n * hex_value a + v mod 16 ^ Z.of_nat n).
Proof.
  intros Hv. revert s. induction n as [|n IH]; intros s.
  { apply wp_ret. exists []. rewrite app_nil_r. split_and!; [by destruct s|done|]. intros a. cbn. rewrite app_nil_r, Z.mod_1_r. lia. }
  cbn [print_digits]. apply wp_bind, wp_modify. eapply wp_mono; [apply IH|]. cbn beta. intros _ s' (l & -> & Hl & Hval).
  set (d := u8 (Z.land (Z.shiftr v (4 * Z.of_nat n)) 15)) in *.
  assert (Ed : d = (v / 16 ^ Z.of_nat n) mod 16).
  { unfold d. change 15 with (2 ^ 4 - 1). rewrite bits_mod by lia. rewrite Z.pow_mul_r by lia. change (2 ^ 4) with 16. apply u8_id.
    pose proof (Z.mod_pos_bound (v / 16 ^ Z.of_nat n) 16 eq_refl). lia. }
  exists ([hex_digit d] :: l). split_and!.
  - cbn [printed set_printed]. rewrite <- app_assoc. done.
  - cbn. by rewrite Hl.
  - intros a. cbn [concat]. rewrite app_assoc, Hval, hex_value_snoc by (rewrite Ed; by apply Z.mod_pos_bound). rewrite Ed.
    rewrite Nat2Z.inj_succ, Z.pow_succ_r by lia. pose proof (Z.pow_pos_nonneg 16 (Z.of_nat n) eq_refl ltac:(lia)) as Hp.
    rewrite (Z.mul_comm 16 (16 ^ Z.of_nat n)), (Z.rem_mul_r v) by lia. ring.
Qed.

(** (roundtrip): The report of a value prints the 16 hexadecimal digits that
    denote it, after [0x]. *)
Theorem print_hex_value_roundtrip v s :
  0 ≤ v < 2 ^ 64 →
  wp (print_hex_value v) s (λ _ s', ∃ digits, concat (printed s') = concat (printed s) ++ bytes_of "0x" ++ digits ∧
    length digits = 16%nat ∧ hex_value digits = v).
Proof.
  intros Hv. unfold print_hex_value. apply wp_bind, wp_modify. eapply wp_mono; [apply wp_print_digits; lia|]. cbn beta.
  intros _ s' (l & -> & Hl & Hval). exists (concat l). cbn [printed set_printed]. rewrite !concat_app. cbn [concat].
  rewrite app_nil_r, <- app_assoc. split_and!; [done..|]. specialize (Hval []). cbn [app] in Hval. rewrite Hval.
  change (hex_value []) with 0. change (16 ^ Z.of_nat 16) with (2 ^ 64). rewrite Z.mod_small by done. lia.
Qed.
Lemma print_hex_value_roundtrip_witness :
  wp (print_hex_value 0xDEADBEEF000) bss_board (λ _ s', ∃ digits, concat (printed s') = bytes_of "0x" ++ digits ∧
    length digits = 16%nat ∧ hex_value digits = 0xDEADBEEF000).
Proof. apply (print_hex_value_roundtrip 0xDEADBEEF000 bss_board). lia. Defined.

(** (error): A CPU exception always ends in the panic with the name of the
    exception: the dispatcher never looks at the table for the vectors below 32,
    so the handlers that [init_exceptions] registers are never called. *)
Theorem exceptions_bypass_handlers call r s :
  0 ≤ int_no r < 32 →
  ∃ msg, arr_get exception_messages (int_no r) = Some msg ∧
    (init_exceptions;; isr_handler call r) s = (init_exceptions;; panic msg) s.
Proof.
  intros Hr. destruct (arr_get_is_Some exception_messages (int_no r)) as [msg Hmsg]; [cbn; lia|]. exists msg. split; [done|].
  assert (H : ∀ s1, isr_handler call r s1 = Panic msg).
  { intros s1. unfold isr_handler, exception_handler. rewrite (proj2 (Z.ltb_lt _ _)) by lia. rewrite Hmsg. reflexivity. }
  unfold mbind, M_bind. destruct (init_exceptions s) as [[[] s1]| | | |]; [|done..]. rewrite H. done.
Qed.
Lemma exceptions_bypass_handlers_witness :
  ∃ msg, arr_get exception_messages 0 = Some msg ∧
    (init_exceptions;; isr_handler (λ _ _, mret ()) zero_registers) bss_board = (init_exceptions;; panic msg) bss_board.
Proof. apply (exceptions_bypass_handlers (λ _ _, mret ()) zero_registers bss_board). cbn. lia. Defined.

(** (functional): An interrupt from 32 on calls the handler last registered for
    its number. *)
Theorem isr_dispatch call h r s :
  length (interrupt_handlers s) = 256%nat → 32 ≤ int_no r < 256 →
  (register_interrupt_handler (int_no r) h;; isr_handler call r) s =
  (register_interrupt_handler (int_no r) h;; call h r) s.
Proof.
  intros Hl Hr. unfold register_interrupt_handler. unfold u8. rewrite Z.mod_small by (change (2 ^ 8) with 256; lia).
  unfold mbind, M_bind, gets. rewrite arr_set_in by lia. cbn [lift_opt mret M_ret modify].
  unfold isr_handler. rewrite (proj2 (Z.ltb_ge _ _)) by lia. unfold mbind, M_bind, gets. cbn [interrupt_handlers set_handlers].
  rewrite arr_get_insert, Z.eqb_refl by lia. reflexivity.
Qed.
Lemma isr_dispatch_witness :
  (register_interrupt_handler 32 timer_callback_h;; isr_handler (λ h _, match h with timer_callback_h => outb 0x20 0x20 | _ => mret () end)
     (Registers 0 0 0 0 0 0 0 0 0 0 0 0 0 0 0 32 0 0 0 0 0 0)) bss_board =
  (register_interrupt_handler 32 timer_callback_h;; outb 0x20 0x20) bss_board.
Proof.
  apply (isr_dispatch (λ h _, match h with timer_callback_h => outb 0x20 0x20 | _ => mret () end) timer_callback_h
    (Registers 0 0 0 0 0 0 0 0 0 0 0 0 0 0 0 32 0 0 0 0 0 0) bss_board); [reflexivity|cbn; lia].
Defined.

(** Milliseconds since boot. *)
Definition ms_of (ticks frequency : Z) : Z := ticks * 1000 / frequency.
Lemma wp_timer_get_ms s Q :
  0 < timer_frequency s → 0 ≤ timer_ticks s * 1000 < 2 ^ 64 → Q (ms_of (timer_ticks s) (timer_frequency s)) s → wp timer_get_ms s Q.
Proof.
  intros Hf Ht HQ. unfold timer_get_ms. apply wp_bind, wp_gets. cbn [id]. rewrite (proj2 (Z.eqb_neq _ 0)), u64_id by lia. by apply wp_ret.
Qed.
Definition sum (l : list Z) : Z := foldr Z.add 0 l.
Lemma sum_nonneg l : Forall (λ w, 0 ≤ w) l → 0 ≤ sum l.
Proof. induction 1 as [|w l Hw _ IH]; unfold sum in *; cbn [foldr]; lia. Qed.

Lemma wp_sleep_loop wakes : ∀ s start ms,
  0 < timer_frequency s → 0 ≤ timer_ticks s → Forall (λ w, 0 ≤ w) wakes → (timer_ticks s + sum wakes) * 1000 < 2 ^ 64 →
  0 ≤ start ≤ ms_of (timer_ticks s) (timer_frequency s) →
  ms ≤ ms_of (timer_ticks s + sum wakes) (timer_frequency s) - start →
  wp (sleep_loop start ms wakes) s (λ _ s', s' = set_ticks (timer_ticks s') s ∧
    timer_ticks s ≤ timer_ticks s' ∧ ms ≤ ms_of (timer_ticks s') (timer_frequency s) - start).
Proof.
  induction wakes as [|w wakes IH]; intros s start ms Hf Ht HF Hmax Hst Hms; cbn [sleep_loop].
  all: assert (Hov : timer_ticks s * 1000 < 2 ^ 64) by (pose proof (sum_nonneg _ HF); lia).
  all: apply wp_bind, wp_timer_get_ms; [done|lia|].
  all: assert (Hnow : 0 ≤ ms_of (timer_ticks s) (timer_frequency s) < 2 ^ 64)
    by (unfold ms_of; split; [apply Z.div_pos; lia|apply Z.div_lt_upper_bound; nia]).
  all: rewrite u64_id by lia.
  - cbn in Hms. rewrite Z.add_0_r in Hms. rewrite (proj2 (Z.ltb_ge _ _)) by lia. apply wp_ret. split_and!; [by destruct s|lia|lia].
  - apply Forall_cons in HF as [Hw HF]. pose proof (sum_nonneg _ HF). unfold sum in *. cbn [foldr] in *.
    destruct (Z.ltb_spec (ms_of (timer_ticks s) (timer_frequency s) - start) ms).
    2:{ apply wp_ret. split_and!; [by destruct s|lia|lia]. }
    apply wp_bind, wp_modify. rewrite u64_id by lia.
    eapply wp_mono; [apply (IH (set_ticks (timer_ticks s + w) s)); cbn [timer_ticks timer_frequency set_ticks]; try done; try lia|].
    + split; [lia|]. etrans; [apply Hst|]. unfold ms_of. apply Z.div_le_mono; lia.
    + by rewrite <- Z.add_assoc.
    + cbn beta. intros _ s' (E & H1 & H2). cbn [timer_ticks timer_frequency set_ticks] in *. split_and!; [by rewrite E|lia|done].
Qed.

(** (termination): [sleep_ms] returns once timer interrupts have advanced the
    clock far enough, and not before [ms] milliseconds of it have passed;
    only the tick counter differs. *)
Theorem sleep_ms_returns s ms wakes :
  0 < timer_frequency s → 0 ≤ timer_ticks s → Forall (λ w, 0 ≤ w) wakes → (timer_ticks s + sum wakes) * 1000 < 2 ^ 64 →
  ms ≤ ms_of (timer_ticks s + sum wakes) (timer_frequency s) - ms_of (timer_ticks s) (timer_frequency s) →
  wp (sleep_ms ms wakes) s (λ _ s', s' = set_ticks (timer_ticks s') s ∧
    ms ≤ ms_of (timer_ticks s') (timer_frequency s) - ms_of (timer_ticks s) (timer_frequency s)).
Proof.
  intros Hf Ht HF Hmax Hms. pose proof (sum_nonneg _ HF). unfold sleep_ms. apply wp_bind, wp_timer_get_ms; [done|lia|].
  eapply wp_mono; [apply wp_sleep_loop; try done|].
  - split; [|done]. unfold ms_of. apply Z.div_pos; lia.
  - cbn beta. intros _ s' (E & _ & H'). done.
Qed.
Lemma sleep_ms_returns_witness :
  wp (sleep_ms 25 [1; 1; 0; 1; 1]) (set_frequency 100 bss_board) (λ _ s',
    s' = set_ticks (timer_ticks s') (set_frequency 100 bss_board) ∧ 25 ≤ ms_of (timer_ticks s') 100 - ms_of 0 100).
Proof.
  apply (sleep_ms_returns (set_frequency 100 bss_board) 25 [1; 1; 0; 1; 1]);
    [cbn; lia|cbn; lia|by repeat constructor|cbn; lia|vm_compute; discriminate].
Defined.

(** Without interrupts, a wait of at least a millisecond never ends. *)
Lemma sleep_ms_stuck s ms :
  0 < timer_frequency s → 0 ≤ timer_ticks s → timer_ticks s * 1000 < 2 ^ 64 → 0 < ms → sleep_ms ms [] s = Halt.
Proof.
  intros Hf Ht Hmax Hms. destruct (wp_run _ _ _ (wp_timer_get_ms s (λ a s', a = ms_of (timer_ticks s) (timer_frequency s) ∧ s' = s) Hf ltac:(lia) ltac:(done)))
    as (a & s' & Hrun & -> & ->).
  unfold sleep_ms. erewrite run_bind by exact Hrun. cbn [sleep_loop]. erewrite run_bind by exact Hrun.
  rewrite Z.sub_diag. change (u64 0) with 0. by rewrite (proj2 (Z.ltb_lt 0 ms)).
Qed.

(** (error): The physical page allocator is told of 64 MiB of memory and not
    what the kernel uses of them: after the call of [pmm_init] in [kernel_main]
    the pages of the boot page tables and of the whole kernel heap are free, so
    they can be handed out. *)
Theorem boot_frees_kernel_memory s x :
  Z.of_nat (length (pmm_bitmap s)) = BITMAP_WORDS → mem_wf (ph_mem s) →
  (pml4 ≤ x < pt + PAGE_SIZE) ∨ (HEAP_START ≤ x < HEAP_END) →
  wp (pmm_init (64 * 1024 * 1024)) s (λ _ s', x / PAGE_SIZE ∈ free_set s').
Proof.
  intros Hl Hm Hx. eapply wp_mono; [apply pmm_init_ok; [done..|lia]|]. cbn beta. intros _ s' (_ & _ & _ & Hf). apply Hf.
  unfold PMM_START, PAGE_SIZE, HEAP_END, HEAP_START, HEAP_SIZE, pml4, pt in *. dlia.
Qed.
Lemma boot_frees_kernel_memory_witness : wp (pmm_init (64 * 1024 * 1024)) boot_phys (λ _ s', HEAP_START / PAGE_SIZE ∈ free_set s').
Proof.
  apply (boot_frees_kernel_memory boot_phys HEAP_START).
  - unfold boot_phys. cbn [pmm_bitmap]. rewrite length_replicate. exact bitmap_nat.
  - apply mem_wf_empty.
  - right. unfold HEAP_END, HEAP_START, HEAP_SIZE. lia.
Defined.
