(* ===== verification/Kernel.v ===== *)
(** * The kernel as a whole, and process creation (src/kernel/process.c)

    The components of the other files put together: one memory, in which the
    heap, the page tables and the pages of the processes lie, the variables of
    the heap and of the page allocator, the scheduler with the console and the
    keyboard, the file system, the pipes, the descriptor tables and the
    interrupt tables.  Every component works on its own part of the state
    ([at_heap], [at_sched], ...); the heap and the page allocator with the
    address-space code share the memory.

    The process table operations that allocate are here: [process_create],
    [process_destroy], [allocate_process_struct], [free_process_struct].  The
    blocks that [kmalloc] returns for a typed object (a process, a descriptor
    table, a pipe) hold it in a map from addresses, which is entered and left
    with the allocation; kernel stacks are plain memory.

    The typed objects and the static variables are therefore not part of
    [k_mem].  The system calls do not check the pointers they are given, and the
    page allocator is not told which pages the kernel occupies, so the code can
    overwrite its own objects where the model changes [k_mem] only: what is
    proved here holds while no such store hits an object of the kernel. *)
From S2P Require Import Prelude Mem PageAlloc Pmm Kmalloc Pcb Vmm Pipe Sched Fs Console Keyboard Boot.

(** ** File descriptors *)

(** [fd_entry_t]; a null [node] is -1, as in Fs.v, a null [pipe] is 0. *)
Record fd_entry_t := FdEntry {
  fd_node : Z;
  fd_pipe : Z;
  fd_offset : Z;
  fd_flags : Z;
  fd_is_pipe : Z;
}.
Definition MAX_FDS : Z := 16.
Definition SIZEOF_FD_ENTRY : Z := 32.
Definition SIZEOF_PROCESS : Z := 264.
Definition SIZEOF_PIPE : Z := 4116.
Definition fd_clear : fd_entry_t := FdEntry (-1) 0 0 0 0.

(** The entries of the system-call table (src/kernel/syscall.c). *)
Inductive syscall_func : Type :=
  | sys_exit_f | sys_write_f | sys_read_f | sys_getpid_f | sys_sleep_f | sys_sbrk_f
  | sys_fork_f | sys_wait_f | sys_execve_f | sys_ps_f | sys_open_f | sys_close_f
  | sys_stat_f | sys_mkdir_f | sys_readdir_f | sys_kill_f | sys_pipe_f | sys_dup2_f.

(** ** The state *)

Record heap_vars := HeapVars { hv_head : Z; hv_init : bool; hv_allocated : Z; hv_free : Z; hv_count : Z }.
Record phys_vars := PhysVars { pv_bitmap : list Z; pv_total : Z; pv_free : Z; pv_reserved : Z }.
Record kernel := Kernel {
  k_mem : mem;
  k_heap : heap_vars;
  k_phys : phys_vars;
  k_in : input;
  k_fs : ramfs_t;
  k_pipes : gmap Z pipe_t;
  k_fds : gmap Z (list fd_entry_t);
  k_board : board;
  syscall_table : list (option syscall_func);
}.
Definition set_k_mem v s := Kernel v (k_heap s) (k_phys s) (k_in s) (k_fs s) (k_pipes s) (k_fds s) (k_board s) (syscall_table s).
Definition set_k_in v s := Kernel (k_mem s) (k_heap s) (k_phys s) v (k_fs s) (k_pipes s) (k_fds s) (k_board s) (syscall_table s).
Definition set_k_fs v s := Kernel (k_mem s) (k_heap s) (k_phys s) (k_in s) v (k_pipes s) (k_fds s) (k_board s) (syscall_table s).
Definition set_k_pipes v s := Kernel (k_mem s) (k_heap s) (k_phys s) (k_in s) (k_fs s) v (k_fds s) (k_board s) (syscall_table s).
Definition set_k_fds v s := Kernel (k_mem s) (k_heap s) (k_phys s) (k_in s) (k_fs s) (k_pipes s) v (k_board s) (syscall_table s).
Definition set_k_board v s := Kernel (k_mem s) (k_heap s) (k_phys s) (k_in s) (k_fs s) (k_pipes s) (k_fds s) v (syscall_table s).
Definition set_syscall_table v s := Kernel (k_mem s) (k_heap s) (k_phys s) (k_in s) (k_fs s) (k_pipes s) (k_fds s) (k_board s) v.

#[export] Program Instance kernel_mem : HasMem kernel := {| get_mem := k_mem; set_mem := set_k_mem |}.
Solve Obligations with by intros; destruct s.

Definition get_heap (s : kernel) : kheap :=
  KHeap (k_mem s) (hv_head (k_heap s)) (hv_init (k_heap s)) (hv_allocated (k_heap s)) (hv_free (k_heap s)) (hv_count (k_heap s)).
Definition put_heap (h : kheap) (s : kernel) : kernel :=
  Kernel (kh_mem h) (HeapVars (kh_head h) (heap_initialized h) (total_allocated h) (total_free h) (allocation_count h))
    (k_phys s) (k_in s) (k_fs s) (k_pipes s) (k_fds s) (k_board s) (syscall_table s).
Definition get_phys (s : kernel) : phys :=
  Phys (k_mem s) (pv_bitmap (k_phys s)) (pv_total (k_phys s)) (pv_free (k_phys s)) (pv_reserved (k_phys s)).
Definition put_phys (p : phys) (s : kernel) : kernel :=
  Kernel (ph_mem p) (k_heap s) (PhysVars (pmm_bitmap p) (pmm_total_pages p) (pmm_free_count p) (pmm_reserved_pages p))
    (k_in s) (k_fs s) (k_pipes s) (k_fds s) (k_board s) (syscall_table s).

Definition at_heap {A} (c : M kheap A) : M kernel A := zoom get_heap put_heap c.
Definition at_phys {A} (c : M phys A) : M kernel A := zoom get_phys put_phys c.
Definition at_input {A} (c : M input A) : M kernel A := zoom k_in set_k_in c.
Definition at_sched {A} (c : M sched A) : M kernel A := at_input (on_sched c).
Definition at_kbd {A} (c : M kbd A) : M kernel A := at_input (on_kbd c).
Definition at_console {A} (c : M console A) : M kernel A := at_input (on_console c).
Definition at_fs {A} (c : M ramfs_t A) : M kernel A := zoom k_fs set_k_fs c.
Definition at_board {A} (c : M board A) : M kernel A := zoom k_board set_k_board c.

(** The descriptor table at an address, and an entry of it. *)
Definition get_fds (t : Z) : M kernel (list fd_entry_t) := m ← gets k_fds; lift_opt (m !! t).
Definition put_fds (t : Z) (l : list fd_entry_t) : M kernel unit :=
  get_fds t;; modify (λ s, set_k_fds (<[t := l]> (k_fds s)) s).
Definition get_fd (t i : Z) : M kernel fd_entry_t := l ← get_fds t; lift_opt (arr_get l i).
Definition put_fd (t i : Z) (f : fd_entry_t → fd_entry_t) : M kernel unit :=
  l ← get_fds t;
  e ← lift_opt (arr_get l i);
  l' ← lift_opt (arr_set l i (f e));
  put_fds t l'.

(** ** Processes *)

Definition set_rsp v c := Context (r15 c) (r14 c) (r13 c) (r12 c) (rbx c) (rbp c) v (rip c) (rflags c).
Definition set_rip v c := Context (r15 c) (r14 c) (r13 c) (r12 c) (rbx c) (rbp c) (rsp c) v (rflags c).
Definition set_rflags v c := Context (r15 c) (r14 c) (r13 c) (r12 c) (rbx c) (rbp c) (rsp c) (rip c) v.

Section processes.
(** Addresses the linker decides: the static [idle_process] and its stack, the
    functions. *)
Variables idle_process idle_stack idle_task process_entry_trampoline : Z.

Definition pderef (p : Z) : M kernel process_t := at_sched (deref p).
Definition passign (p : Z) (f : process_t → process_t) : M kernel unit := at_sched (assign p f).
Definition psay (s : string) : M kernel unit := at_sched (say s).
Definition pwrite (b : list Z) : M kernel unit := at_sched (writestring b).

(** A new block of the process, zeroed, and giving one back. *)
Definition new_process : M kernel Z :=
  p ← at_heap (kzalloc SIZEOF_PROCESS);
  if p =? 0 then mret 0 else
  at_sched (modify (λ s, set_pcbs (<[p := zero_process]> (pcbs s)) s));;
  mret p.
Definition kfree_process (p : Z) : M kernel unit :=
  at_heap (kfree p);; at_sched (modify (λ s, set_pcbs (delete p (pcbs s)) s)).

Definition init_process_fd_table (proc : Z) : M kernel unit :=
  if proc =? 0 then mret () else
  t ← at_heap (kmalloc (SIZEOF_FD_ENTRY * MAX_FDS));
  passign proc (set_fd_table t);;
  if t =? 0 then mret () else
  modify (λ s, set_k_fds (<[t := replicate (Z.to_nat MAX_FDS) fd_clear]> (k_fds s)) s).

(** "Find free slot". *)
Definition find_slot : M kernel (option Z) :=
  for_until (Z.to_nat (MAX_PROCESSES - 1)) 1 (λ i,
    t ← gets (λ s, process_table (sch (k_in s)));
    p ← lift_opt (arr_get t i);
    mret (if p =? 0 then Some i else None)).
Definition put_slot (slot proc : Z) : M kernel unit :=
  at_sched (t ← gets process_table; t' ← lift_opt (arr_set t slot proc); modify (set_process_table t')).
(** "Remove from process table". *)
Definition clear_slot (process : Z) : M kernel unit :=
  for_until (Z.to_nat MAX_PROCESSES) 0 (λ i,
    t ← gets (λ s, process_table (sch (k_in s)));
    p ← lift_opt (arr_get t i);
    if p =? process then put_slot i 0;; mret (Some ()) else mret None);;
  mret ().
Definition take_pid : M kernel Z :=
  pid ← gets (λ s, next_pid (sch (k_in s)));
  at_sched (modify (λ s, set_next_pid (u32 (next_pid s + 1)) s));;
  mret pid.

Definition process_init : M kernel unit :=
  for_loop (Z.to_nat MAX_PROCESSES) 0 (λ i, put_slot i 0);;
  passign idle_process (set_pid 0);;
  p ← pderef idle_process;
  nm ← lift_opt (strcpy (p_name p) (bytes_of "idle"));
  passign idle_process (set_name nm);;
  passign idle_process (set_state PROCESS_STATE_READY);;
  passign idle_process (set_kernel_stack idle_stack);;
  passign idle_process (set_kernel_stack_size KERNEL_STACK_SIZE);;
  passign idle_process (set_priority 255);;
  passign idle_process (set_ticks_total 0);;
  passign idle_process (set_ticks_remaining 1);;
  passign idle_process (set_entry_point idle_task);;
  passign idle_process (λ p, set_context (set_rsp (idle_stack + KERNEL_STACK_SIZE) (p_context p)) p);;
  passign idle_process (λ p, set_context (set_rip idle_task (p_context p)) p);;
  passign idle_process (λ p, set_context (set_rflags 0x202 (p_context p)) p);;
  put_slot 0 idle_process;;
  init_process_fd_table idle_process;;
  psay "Process management initialized
".

(** "Initialize PCB". *)
Definition init_pcb (proc : Z) (name : list Z) (entry_point priority : Z) : M kernel unit :=
  pid ← take_pid;
  passign proc (set_pid pid);;
  p ← pderef proc;
  nm ← lift_opt (strncpy (p_name p) name 31);
  nm ← lift_opt (arr_set nm 31 0);
  passign proc (set_name nm);;
  passign proc (set_state PROCESS_STATE_READY);;
  passign proc (set_kernel_stack_size KERNEL_STACK_SIZE);;
  passign proc (set_priority (u32 priority));;
  passign proc (set_ticks_total 0);;
  passign proc (set_ticks_remaining DEFAULT_QUANTUM);;
  passign proc (set_entry_point entry_point).
(** "Set up initial context". *)
Definition init_context (proc entry_point : Z) : M kernel unit :=
  p ← pderef proc;
  let stack_top := p_kernel_stack p + KERNEL_STACK_SIZE - 8 in
  store64 stack_top entry_point;;
  passign proc (set_context (Context 0 0 0 0 0 0 stack_top process_entry_trampoline 0x202)).
(** Undo what [process_create] has done so far, and panic. *)
Definition create_failed (proc : Z) (msg : string) : M kernel Z :=
  p ← pderef proc;
  at_heap (kfree (p_kernel_stack p));;
  kfree_process proc;;
  panic msg.
(** "Set up user stack" and "Set up user heap", on the fields of the process;
    the result is that of the call. *)
Definition user_stack (proc : Z) : M kernel Z :=
  p ← pderef proc;
  r ← at_phys (vmm_setup_user_stack p);
  passign proc (λ _, r.2);;
  mret r.1.
Definition user_heap (proc : Z) : M kernel Z :=
  p ← pderef proc;
  passign proc (λ _, (vmm_setup_user_heap p).2);;
  mret (vmm_setup_user_heap p).1.

Definition process_create (name : list Z) (entry_point priority : Z) : M kernel Z :=
  slot ← find_slot;
  match slot with
  | None => psay "Error: Process table full
";; mret 0
  | Some slot =>
      proc ← new_process;
      if proc =? 0 then panic "process_create: Out of memory for PCB" else
      stack ← at_heap (kmalloc KERNEL_STACK_SIZE);
      passign proc (set_kernel_stack stack);;
      if stack =? 0 then kfree_process proc;; panic "process_create: Out of memory for kernel stack" else
      init_pcb proc name entry_point priority;;
      page_table ← at_phys (vmm_create_address_space pml4);
      passign proc (set_page_table page_table);;
      if page_table =? 0 then create_failed proc "process_create: Failed to create address space" else
      r ← user_stack proc;
      if r <? 0 then at_phys (vmm_destroy_address_space pml4 page_table);; create_failed proc "process_create: Failed to set up user stack" else
      r ← user_heap proc;
      if r <? 0 then at_phys (vmm_destroy_address_space pml4 page_table);; create_failed proc "process_create: Failed to set up user heap" else
      passign proc (set_pages_allocated 0);;
      passign proc (set_page_faults 0);;
      init_context proc entry_point;;
      put_slot slot proc;;
      init_process_fd_table proc;;
      at_sched (ready_queue_push proc);;
      psay "Created process: ";;
      pwrite name;;
      psay " (PID ";;
      psay ")
";;
      mret proc
  end.

(** "Free resources", as [process_destroy] and [free_process_struct] do. *)
Definition free_stack (process : Z) : M kernel unit :=
  p ← pderef process;
  if negb (p_kernel_stack p =? 0) then at_heap (kfree (p_kernel_stack p)) else mret ().
Definition free_space (process : Z) : M kernel unit :=
  p ← pderef process;
  if negb (p_page_table p =? 0) then at_phys (vmm_destroy_address_space pml4 (p_page_table p)) else mret ().
Definition free_fds (process : Z) : M kernel unit :=
  p ← pderef process;
  if negb (p_fd_table p =? 0) then
    at_heap (kfree (p_fd_table p));;
    modify (λ s, set_k_fds (delete (p_fd_table p) (k_fds s)) s)
  else mret ().

Definition process_destroy (process : Z) : M kernel unit :=
  if (process =? 0) || (process =? idle_process) then mret () else
  p ← pderef process;
  (if bool_decide (p_state p = PROCESS_STATE_READY) then at_sched (ready_queue_remove process) else mret ());;
  clear_slot process;;
  free_stack process;;
  free_fds process;;
  free_space process;;
  kfree_process process.

Definition process_print_all : M kernel unit :=
  psay "
Process List:
";;
  psay "PID  Name                     State      Ticks
";;
  psay "---  ----------------------  ---------  ------
";;
  for_loop (Z.to_nat MAX_PROCESSES) 0 (λ i,
    t ← gets (λ s, process_table (sch (k_in s)));
    proc ← lift_opt (arr_get t i);
    if negb (proc =? 0) then
      psay "  ";;
      p ← pderef proc;
      pwrite (c_string (p_name p));;
      psay "
"
    else mret ()).

Definition allocate_process_struct : M kernel Z :=
  slot ← find_slot;
  match slot with
  | None => mret 0
  | Some slot =>
      proc ← new_process;
      if proc =? 0 then mret 0 else
      stack ← at_heap (kmalloc KERNEL_STACK_SIZE);
      passign proc (set_kernel_stack stack);;
      if stack =? 0 then kfree_process proc;; mret 0 else
      pid ← take_pid;
      passign proc (set_pid pid);;
      passign proc (set_kernel_stack_size KERNEL_STACK_SIZE);;
      put_slot slot proc;;
      init_process_fd_table proc;;
      mret proc
  end.

Definition free_process_struct (process : Z) : M kernel unit :=
  if process =? 0 then mret () else
  clear_slot process;;
  free_stack process;;
  free_space process;;
  kfree_process process.

Definition find_zombie_child (parent_pid : Z) : M kernel Z :=
  r ← for_until (Z.to_nat MAX_PROCESSES) 0 (λ i,
    t ← gets (λ s, process_table (sch (k_in s)));
    proc ← lift_opt (arr_get t i);
    if proc =? 0 then mret None else
    p ← pderef proc;
    mret (if (p_parent_pid p =? parent_pid) && bool_decide (p_state p = PROCESS_STATE_ZOMBIE) then Some proc else None));
  mret (default 0 r).

Definition scheduler_stats : M kernel unit :=
  psay "Scheduler statistics:
";;
  psay "  Schedule count: ";;
  psay "
".
End processes.

Definition IRQ1 : Z := 33.
Definition init_keyboard : M kernel unit :=
  at_kbd (modify (set_read_pos 0));;
  at_kbd (modify (set_write_pos 0));;
  at_board (register_interrupt_handler IRQ1 keyboard_callback_h).

(** ** Working on a part of the kernel *)

Abbreviation k_sched s := (sch (k_in s)).
Definition upd_sched (v : sched) (s : kernel) : kernel := set_k_in (Input (kb (k_in s)) (con (k_in s)) v) s.
Definition upd_pcbs (m : gmap Z process_t) (s : kernel) : kernel := upd_sched (set_pcbs m (k_sched s)) s.

(** Scheduler code that prints nothing leaves the console alone. *)
Lemma wp_at_sched_quiet {A} (c : M sched A) s Q :
  wp c (set_terminal [] (k_sched s)) (λ r v, terminal v = [] ∧ Q r (upd_sched (set_terminal (terminal (k_sched s)) v) s)) →
  wp (at_sched c) s Q.
Proof.
  intros H. apply wp_zoom. unfold on_sched. apply wp_bind, wp_gets, wp_bind, wp_zoom. eapply wp_mono; [exact H|]. cbn beta.
  intros r v [Ht HQ]. apply wp_bind, wp_gets. cbn [sch]. rewrite Ht. apply wp_bind, wp_zoom, wp_ret, wp_bind, wp_modify, wp_ret.
  by rewrite app_nil_r.
Qed.
(** Other scheduler code changes what the screen shows. *)
Lemma wp_at_sched `{HT : Screen X T adv ok} {A} (c : M sched A) x s Q :
  (∀ ch, ok ch) → T x (con (k_in s)) →
  wp c (set_terminal [] (k_sched s)) (λ r v, ∀ con' x', T x' con' →
    Q r (set_k_in (Input (kb (k_in s)) con' (set_terminal (terminal (k_sched s) ++ terminal v) v)) s)) →
  wp (at_sched c) s Q.
Proof. intros Hok Hc H. by apply wp_zoom, (wp_on_sched Hok c x). Qed.
Lemma upd_sched_id s : upd_sched (set_terminal (terminal (k_sched s)) (set_terminal [] (k_sched s))) s = s.
Proof. by destruct s as [? ? ? [? ? []]]. Qed.

Lemma wp_pderef p pr s Q : pcbs (k_sched s) !! p = Some pr → Q pr s → wp (pderef p) s Q.
Proof.
  intros Hp HQ. apply wp_at_sched_quiet. eapply wp_deref; [exact Hp|]. split; [done|]. by rewrite upd_sched_id.
Qed.
Lemma wp_passign p pr f s Q :
  pcbs (k_sched s) !! p = Some pr → Q () (upd_pcbs (<[p := f pr]> (pcbs (k_sched s))) s) → wp (passign p f) s Q.
Proof.
  intros Hp HQ. apply wp_at_sched_quiet. unfold assign. apply wp_bind. eapply wp_deref; [exact Hp|]. apply wp_modify. split; [done|].
  by destruct s as [? ? ? [? ? []]].
Qed.
Lemma wp_pwrite `{HT : Screen X T adv ok} x b s Q :
  T x (con (k_in s)) → Forall ok (c_string b) →
  (∀ con', T (foldl adv x (c_string b)) con' →
    Q () (set_k_in (Input (kb (k_in s)) con' (set_terminal (terminal (k_sched s) ++ [b]) (k_sched s))) s)) →
  wp (pwrite b) s Q.
Proof.
  intros Hc Hb HQ. apply wp_zoom. unfold on_sched. apply wp_bind, wp_gets, wp_bind, wp_zoom, wp_modify, wp_bind, wp_gets, wp_bind, wp_zoom.
  cbn [con write_all terminal set_terminal sch app]. apply wp_bind. eapply wp_mono; [by apply (wp_screen_write _ x)|].
  cbn beta. intros _ k Hk. apply wp_ret, wp_bind, wp_modify, wp_ret. by apply (HQ k).
Qed.
Lemma wp_psay b s Q :
  screen_ok (con (k_in s)) → 8 ∉ b →
  (∀ con', screen_ok con' → Q () (set_k_in (Input (kb (k_in s)) con' (set_terminal (terminal (k_sched s) ++ [b]) (k_sched s))) s)) →
  wp (pwrite b) s Q.
Proof.
  intros Hc Hb HQ. apply (wp_pwrite (T := λ _ : unit, screen_ok) (adv := λ _ _, ()) (ok := λ ch, ch ≠ 8) ()); [done| |done].
  apply Forall_forall. intros ch Hch ->. apply Hb. by eapply elem_of_prefix, c_string_prefix.
Qed.

(** Descriptor tables. *)
Lemma wp_get_fd t l i e s Q : k_fds s !! t = Some l → arr_get l i = Some e → Q e s → wp (get_fd t i) s Q.
Proof. intros Ht He HQ. unfold get_fd, get_fds. wp_go. eapply wp_lift_opt; [exact Ht|]. by eapply wp_lift_opt. Qed.
Lemma wp_put_fd t l i e f s Q :
  k_fds s !! t = Some l → arr_get l i = Some e →
  Q () (set_k_fds (<[t := <[Z.to_nat i := f e]> l]> (k_fds s)) s) → wp (put_fd t i f) s Q.
Proof.
  intros Ht He HQ. pose proof (arr_get_Some _ _ _ He) as [Hi _]. unfold put_fd, put_fds, get_fds. wp_go.
  eapply wp_lift_opt; [exact Ht|]. apply wp_bind. eapply wp_lift_opt; [exact He|].
  apply wp_bind. eapply wp_lift_opt; [apply arr_set_in; lia|]. wp_go. eapply wp_lift_opt; [exact Ht|]. by apply wp_modify.
Qed.
