(* ===== verification/Process.v ===== *)
(** * Processes on the whole kernel: creation and its invariants

    The kernel's memory is divided: the heap's pages are loose pages of the
    forest of Vmm.v, apart from every address space and never free, so that
    the heap's invariant and those of the address spaces are kept by each
    other's operations ([space_wf]).  On this rests the specification of
    [process_create]. *)
From S2P Require Import Prelude Mem PageAlloc Pmm Kmalloc Pcb Vmm Sched Fs Console Keyboard Boot Kernel.

(** ** Operations that return or panic *)

(** Run from [s], [c] returns a value and a state in [Q], or panics with a
    message in [E]. *)
Definition wpp {S A} (E : string → Prop) (c : M S A) (s : S) (Q : A → S → Prop) : Prop :=
  match c s with Ret (a, s') => Q a s' | Panic msg => E msg | _ => False end.

Lemma wpp_bind {S A B} E (c : M S A) (k : A → M S B) s Q :
  wpp E c s (λ a s', wpp E (k a) s' Q) → wpp E (c ≫= k) s Q.
Proof. unfold wpp, mbind, M_bind. by destruct (c s) as [[a s']| | | |]. Qed.
Lemma wpp_wp {S A} E (c : M S A) s Q : wp c s Q → wpp E c s Q.
Proof. unfold wpp, wp. by destruct (c s) as [[a s']| | | |]. Qed.
Lemma wpp_mono {S A} E (c : M S A) s (P Q : A → S → Prop) : wpp E c s P → (∀ a s', P a s' → Q a s') → wpp E c s Q.
Proof. unfold wpp. destruct (c s) as [[a s']| | | |]; auto. Qed.
Lemma wpp_zoom {S T A} E (get : S → T) put (c : M T A) s Q :
  wpp E c (get s) (λ a t, Q a (put t s)) → wpp E (zoom get put c) s Q.
Proof. unfold wpp, zoom. by destruct (c (get s)) as [[a t]| | | |]. Qed.
(** A step that returns, followed by one that may panic. *)
Lemma wpp_step {S A B} E (c : M S A) (k : A → M S B) s Q :
  wp c s (λ a s', wpp E (k a) s' Q) → wpp E (c ≫= k) s Q.
Proof. intros H. by apply wpp_bind, wpp_wp. Qed.

(** ** Memory divided between the heap and the address spaces *)

(** A page at the bottom of a tree: a page mapped for the user, or a page that
    is a tree by itself.  It may be written freely. *)
Definition bottom (F : forest) (m : mem) (t : Z) : Prop :=
  ∃ r h p, F !! r = Some h ∧ length p = h.1 ∧ reach F m r p t.
Lemma bottom_loose (F : forest) m t n : F !! t = Some (0%nat, n) → bottom F m t.
Proof. intros Ht. exists t, (0%nat, n), []. split_and!; [done..|]. by eapply root_reach. Qed.
Section loose.
Context (F : forest) (m m' : mem) (P : Z → Prop) (Hwf : forest_wf F m P).
Context (Hm : ∀ x, ld m' x = ld m x ∨ bottom F m (page_of x)).

Lemma loose_entry r h p t i :
  F !! r = Some h → upath h (p ++ [i]) → tbl m r p = Some t → entry m' t i = entry m t i.
Proof using Hwf Hm.
  intros Hr Hp Ht. destruct (upath_snoc _ _ _ Hp) as [Hp' Hi].
  assert (Hreach : reach F m r p t) by (by exists h). destruct (fw_ok _ _ _ Hwf _ _ _ Hreach) as [Ht4 _].
  unfold entry. destruct (Hm (t + 8 * i)) as [E|(r' & h' & p' & Hr' & Hl' & Hre)]; [done|]. rewrite entry_page in Hre by done. exfalso.
  destruct (fw_inj _ _ _ Hwf r p r' p' t Hreach Hre) as [-> ->].
  rewrite Hr in Hr'. injection Hr' as ->. destruct Hp as [Hl _]. rewrite length_app in Hl. cbn in Hl. lia.
Qed.
Lemma loose_tbl r h p : F !! r = Some h → upath h p → tbl m' r p = tbl m r p.
Proof using Hwf Hm.
  intros Hr. induction p as [|i p IH] using rev_ind; intros Hp; [done|].
  rewrite !tbl_snoc, IH by (by eapply upath_app_l). destruct (tbl m r p) as [t|] eqn:Ht; [|done].
  unfold step. by rewrite (loose_entry r h p t i).
Qed.
Lemma loose_forest : forest_wf F m' P.
Proof using Hwf Hm.
  assert (Hsame : ∀ r p t, reach F m' r p t → reach F m r p t).
  { intros r p t (h & Hr & Hp & Ht). exists h. split_and!; [done..|]. by rewrite <- (loose_tbl r h). }
  split.
  - intros r p t Ht%Hsame. by apply (fw_ok _ _ _ Hwf r p t).
  - intros r1 p1 r2 p2 t H1%Hsame H2%Hsame. by apply (fw_inj _ _ _ Hwf r1 p1 r2 p2 t).
Qed.
Lemma loose_leaf r v : F !! r = Some (4%nat, 256) → 0 ≤ v < 2 ^ 47 → leaf m' r v = leaf m r v.
Proof using Hwf Hm.
  intros Hr Hv. assert (Hd : upath (4%nat, 256) (dirs v)) by (apply dirs_upath; [done|cbn; lia..]).
  unfold leaf. rewrite (loose_tbl r (4%nat, 256)) by done. destruct (tbl m r (dirs v)) as [t|] eqn:Ht; [|done].
  rewrite (loose_entry r (4%nat, 256) (dirs v) t); [done|done| |done].
  destruct Hd as (_ & Hf & Hh). split; [cbn; lia|]. split; [|done]. apply Forall_app. split; [done|].
  constructor; [|done]. destruct (indices v ltac:(lia)) as (_ & _ & _ & _ & H). lia.
Qed.
End loose.

(** The heap holds the blocks [bs]; the address spaces are those of [F], in
    which every page of the heap is a loose page. *)
Record space_wf (F : forest) (bs : list blk) (s : kernel) : Prop := {
  sp_heap : heap_inv (get_heap s) bs;
  sp_vm : vm_wf F (get_phys s);
  sp_apart x : HEAP_START ≤ x < HEAP_END → F !! page_of x = Some (0%nat, 512);
}.

(** From [s] to [s'] memory has been taken from the heap and from the page
    allocator: the payloads [ps] and the mappings of the address spaces of [F]
    are as before. *)
Record grows (F F' : forest) (ps : list (Z * Z)) (bs' : list blk) (s s' : kernel) : Prop := {
  gw_wf : space_wf F' bs' s';
  gw_forest : F ⊆ F';
  gw_payloads x : x ∈ ps → x ∈ payloads HEAP_START bs';
  gw_data p n x : (p, n) ∈ ps → p ≤ x < p + n → ld (k_mem s') x = ld (k_mem s) x;
  gw_leaves r v : F !! r = Some (4%nat, 256) → 0 ≤ v < 2 ^ 47 → leaf (k_mem s') r v = leaf (k_mem s) r v;
  gw_free : pa_free (get_phys s') ⊆ pa_free (get_phys s);
}.
Lemma grows_refl F ps bs s : space_wf F bs s → (∀ x, x ∈ ps → x ∈ payloads HEAP_START bs) → grows F F ps bs s s.
Proof. by split. Qed.
Lemma grows_trans F1 F2 F3 ps ps' b2 b3 s1 s2 s3 :
  grows F1 F2 ps b2 s1 s2 → grows F2 F3 ps' b3 s2 s3 → (∀ x, x ∈ ps → x ∈ ps') → grows F1 F3 ps b3 s1 s3.
Proof.
  intros H1 H2 Hps. split; [apply H2|etrans; [apply H1|apply H2]|..].
  - intros x Hx. by apply H2, Hps.
  - intros p n x Hp Hx. rewrite (gw_data _ _ _ _ _ _ H2 p n x); [by apply (gw_data _ _ _ _ _ _ H1 p n)|by apply Hps|done].
  - intros r v Hr Hv. rewrite (gw_leaves _ _ _ _ _ _ H2 r v); [by apply H1| |done]. eapply lookup_weaken; [exact Hr|apply H1].
  - etrans; [apply H2|apply H1].
Qed.

(** ** Taking memory *)

Lemma heap_mem_frame h bs m' :
  heap_inv h bs → (∀ x, HEAP_START ≤ x < HEAP_END → ld m' x = ld (kh_mem h) x) → mem_wf m' → heap_inv (set_kh_mem m' h) bs.
Proof.
  intros [] Hm Hwf. split; cbn; try done. eapply links_frame; [|done]. intros x Hx. apply Hm. by rewrite <- hi_end.
Qed.

Section taking.
Context (F : forest) (bs : list blk) (s : kernel) (Hs : space_wf F bs s).

Lemma heap_page x : HEAP_START ≤ x < HEAP_END → owned (get_phys s) (page_of x) ∧ x / PAGE_SIZE ∉ pa_free (get_phys s).
Proof using Hs.
  intros Hx. destruct (fw_root _ _ _ (vw_fw _ _ (sp_vm _ _ _ Hs)) _ _ (sp_apart _ _ _ Hs x Hx)) as [_ Ho].
  split; [done|]. destruct Ho as [_ Ho]. by rewrite page_of_div in Ho.
Qed.
(** A store into the heap leaves the address spaces alone. *)
Lemma space_store m' :
  (∀ x, ¬ (HEAP_START ≤ x < HEAP_END) → ld m' x = ld (k_mem s) x) → mem_wf m' →
  vm_wf F (set_ph_mem m' (get_phys s)) ∧ pa_free (set_ph_mem m' (get_phys s)) ⊆ pa_free (get_phys s) ∧
  ∀ r v, F !! r = Some (4%nat, 256) → 0 ≤ v < 2 ^ 47 → leaf m' r v = leaf (k_mem s) r v.
Proof using Hs.
  intros Hm Hwf. pose proof (sp_vm _ _ _ Hs) as Hvm.
  assert (Hl : ∀ x, ld m' x = ld (k_mem s) x ∨ bottom F (k_mem s) (page_of x)).
  { intros x. destruct (decide (HEAP_START ≤ x < HEAP_END)) as [Hx|Hx]; [right; by eapply bottom_loose, (sp_apart _ _ _ Hs)|left; by apply Hm]. }
  split.
  - apply (vm_wf_store F F (get_phys s) m' Hvm Hwf). exact (loose_forest F (k_mem s) m' _ (vw_fw _ _ Hvm) Hl).
  - split; [|intros r v; exact (loose_leaf F (k_mem s) m' _ (vw_fw _ _ Hvm) Hl r v)].
    destruct (pa_store (get_phys s) m' (vw_pa _ _ Hvm) Hwf) as (_ & E & _). intros p Hp. rewrite <- E. exact Hp.
Qed.

Lemma grows_heap bs' h :
  heap_inv h bs' → heap_frame (payloads HEAP_START bs) (k_mem s) (kh_mem h) →
  (∀ x, x ∈ payloads HEAP_START bs → x ∈ payloads HEAP_START bs') → grows F F (payloads HEAP_START bs) bs' s (put_heap h s).
Proof using Hs.
  intros Hh [Hout Hin] Hsub. destruct (space_store (kh_mem h) Hout (hi_mem _ _ Hh)) as (Hvm & Hfree & Hl).
  split; [split; [by destruct h|exact Hvm|apply Hs]|done|done|exact Hin|exact Hl|exact Hfree].
Qed.
Lemma grows_keeps F' t :
  keeps (get_phys s) t → vm_wf F' t → F ⊆ F' → grows F F' (payloads HEAP_START bs) bs s (put_phys t s).
Proof using Hs.
  intros Hk Hvm Hsub. pose proof (keeps_leaves F (get_phys s) t (sp_vm _ _ _ Hs) Hk) as Hl.
  split; [split|done|done|..].
  - apply (heap_mem_frame (get_heap s) bs (ph_mem t)); [apply Hs| |exact (vm_mem_wf F' t Hvm)].
    intros x Hx. apply (ke_mem _ _ Hk). by apply heap_page.
  - by destruct t.
  - intros x Hx. eapply lookup_weaken; [by apply (sp_apart _ _ _ Hs)|done].
  - intros p n x Hp Hx. apply (ke_mem _ _ Hk).
    destruct (payloads_range HEAP_START bs p n) as (H1 & H2 & _); [eapply links_ok, Hs|apply HEAP_START_mod|done|].
    rewrite (hi_end _ _ (sp_heap _ _ _ Hs)) in *. apply heap_page. unfold BLOCK_HEADER_SIZE in *. lia.
  - intros r v Hr Hv. apply (Hl r (4%nat, 256)); [done|cbn; lia..].
  - destruct t. apply (ke_free _ _ Hk).
Qed.
End taking.

(** Mapping pages into an address space that is new since [s0]. *)
Lemma grows_mapped F ps bs' s0 s a lo n res t :
  grows F (<[a := (4%nat, 256)]> F) ps bs' s0 s → F !! a = None →
  mapped_pages (<[a := (4%nat, 256)]> F) a lo n res (get_phys s) t →
  grows F (<[a := (4%nat, 256)]> F) ps bs' s0 (put_phys t s).
Proof.
  intros G Ha [Hev Hoth _]. pose proof (gw_wf _ _ _ _ _ _ G) as Hs.
  assert (Hheap : ∀ x, HEAP_START ≤ x < HEAP_END → ld (ph_mem t) x = ld (k_mem s) x).
  { intros x Hx. apply (ev_mem _ _ _ _ Hev). intros [Hf|(q & Hq & Hr)]; [by apply (heap_page _ _ _ Hs x Hx) in Hf|].
    pose proof (sp_apart _ _ _ Hs x Hx) as Hpx.
    destruct (fw_inj _ _ _ (vw_fw _ _ (sp_vm _ _ _ Hs)) _ _ (page_of x) [] (page_of x) Hr) as [E _]; [by eapply root_reach|].
    rewrite <- E, lookup_insert_eq in Hpx. discriminate. }
  split; [split|apply G|apply G|..].
  - apply (heap_mem_frame (get_heap s) bs' (ph_mem t)); [apply Hs|exact Hheap|exact (vm_mem_wf _ t (ev_wf _ _ _ _ Hev))].
  - destruct t. apply (ev_wf _ _ _ _ Hev).
  - apply Hs.
  - intros p k x Hp Hx. transitivity (ld (k_mem s) x); [|by apply (gw_data _ _ _ _ _ _ G p k)]. apply Hheap.
    destruct (payloads_range HEAP_START bs' p k) as (H1 & H2 & _); [eapply links_ok, Hs|apply HEAP_START_mod|by apply G|].
    rewrite (hi_end _ _ (sp_heap _ _ _ Hs)) in *. unfold BLOCK_HEADER_SIZE in *. lia.
  - intros r v Hr Hv. transitivity (leaf (k_mem s) r v); [|by apply G].
    apply (Hoth r (4%nat, 256)); [rewrite lookup_insert_ne by congruence; done|cbn; lia..|]. intros [-> _]. congruence.
  - etrans; [|apply G]. destruct t. apply (ev_free _ _ _ _ Hev).
Qed.
(** Writing to a payload that is new since [s0]. *)
Lemma grows_payload F F' ps bs' s0 s p n m' :
  grows F F' ps bs' s0 s → (p, n) ∈ payloads HEAP_START bs' → Forall (apart p n) ps →
  same_outside (k_mem s) m' p n → mem_wf m' → grows F F' ps bs' s0 (set_k_mem m' s).
Proof.
  intros G Hp Hap Hout Hwf. pose proof (gw_wf _ _ _ _ _ _ G) as Hs.
  destruct (payloads_range HEAP_START bs' p n) as (H1 & H2 & _ & _ & _); [eapply links_ok, Hs|apply HEAP_START_mod|done|].
  rewrite (hi_end _ _ (sp_heap _ _ _ Hs)) in *. unfold BLOCK_HEADER_SIZE in *.
  destruct (space_store F' bs' s Hs m') as (Hvm & Hfree & Hl); [intros x Hx; apply Hout; lia|done|].
  split; [split|apply G|apply G|..].
  - by apply (payload_inv (get_heap s) bs' p n m'); [apply Hs|..].
  - exact Hvm.
  - apply Hs.
  - intros q k x Hq Hx. transitivity (ld (k_mem s) x); [|by apply (gw_data _ _ _ _ _ _ G q k)]. apply Hout.
    rewrite Forall_forall in Hap. destruct (Hap _ Hq); cbn [fst snd] in *; lia.
  - intros r v Hr Hv. transitivity (leaf (k_mem s) r v); [|by apply G]. apply Hl; [|done]. eapply lookup_weaken; [exact Hr|apply G].
  - etrans; [exact Hfree|apply G].
Qed.

(** The messages of the panics when memory runs out. *)
Definition oom (msg : string) : Prop :=
  msg = "kmalloc: Out of memory!"%string ∨ msg = "process_create: Failed to create address space"%string ∨
  msg = "process_create: Failed to set up user stack"%string.

(** A block from the heap. *)
Definition got_block (F : forest) (bs : list blk) (s : kernel) (size p : Z) (s' : kernel) : Prop :=
  ∃ bs' n h, s' = put_heap h s ∧ grows F F (payloads HEAP_START bs) bs' s s' ∧ size ≤ n ∧ (p, n) ∈ payloads HEAP_START bs' ∧ p mod 8 = 0 ∧
    HEAP_START < p ∧ p + n ≤ HEAP_END ∧ Forall (apart p n) (payloads HEAP_START bs) ∧
    payloads HEAP_START bs' ≡ₚ (p, n) :: payloads HEAP_START bs.

Lemma block_of F bs s size (c : M kheap Z) :
  space_wf F bs s →
  wp c (get_heap s) (λ p h, ∃ bs' n, heap_inv h bs' ∧ size ≤ n ∧ payloads HEAP_START bs' ≡ₚ (p, n) :: payloads HEAP_START bs ∧
      p mod 8 = 0 ∧ HEAP_START < p ∧ p + n ≤ HEAP_END ∧ Forall (apart p n) (payloads HEAP_START bs) ∧
      heap_frame (payloads HEAP_START bs) (k_mem s) (kh_mem h))
  ∨ c (get_heap s) = Panic "kmalloc: Out of memory!" →
  wpp oom (at_heap c) s (got_block F bs s size).
Proof.
  intros Hs H. apply wpp_zoom. destruct H as [H|H]; [|unfold wpp; rewrite H; by left].
  apply wpp_wp. eapply wp_mono; [exact H|]. cbn beta. intros p h (bs' & n & Hi & Hn & Hp & H8 & Hlo & Hhi & Hap & Hfr).
  exists bs', n, h. split_and!; try done.
  - apply grows_heap; [done..|]. intros x Hx. rewrite Hp. by right.
  - rewrite Hp. by left.
Qed.
Lemma wpp_kmalloc F bs s size : space_wf F bs s → 0 ≤ size ≤ 2 ^ 64 - 8 → wpp oom (at_heap (kmalloc size)) s (got_block F bs s size).
Proof.
  intros Hs Hsz. apply block_of; [done|]. destruct (kmalloc_got (get_heap s) bs size (sp_heap _ _ _ Hs) Hsz) as [H|H]; [left|by right].
  eapply wp_mono; [exact H|]. cbn beta. intros p h (bs' & n & Hx). exists bs', n. tauto.
Qed.
Lemma wpp_kzalloc F bs s size : space_wf F bs s → 0 ≤ size ≤ 2 ^ 64 - 8 → wpp oom (at_heap (kzalloc size)) s (got_block F bs s size).
Proof.
  intros Hs Hsz. apply block_of; [done|]. destruct (kzalloc_got (get_heap s) bs size (sp_heap _ _ _ Hs) Hsz) as [H|H]; [left|by right].
  eapply wp_mono; [exact H|]. cbn beta. intros p h (bs' & n & Hx). exists bs', n. tauto.
Qed.

(** ** The process under construction *)

(** The parts no process operation touches. *)
Definition others (s : kernel) := (k_fs s, k_pipes s, k_board s, syscall_table s, kb (k_in s)).

(** Since [s0], memory has been taken; the scheduler's state is [v] with the
    process [pr] at [proc]; nothing has been printed. *)
Record making (F F' : forest) (ps : list (Z * Z)) (bs' : list blk) (s0 s : kernel) (v : sched) (proc : Z) (pr : process_t) : Prop := {
  mk_grows : grows F F' ps bs' s0 s;
  mk_sched : k_sched s = set_pcbs (<[proc := pr]> (pcbs v)) v;
  mk_con : con (k_in s) = con (k_in s0);
  mk_fds : k_fds s = k_fds s0;
  mk_others : others s = others s0;
}.

Section making.
Context (F F' : forest) (ps : list (Z * Z)) (bs' : list blk) (s0 s : kernel) (v : sched) (proc : Z) (pr : process_t).
Context (H : making F F' ps bs' s0 s v proc pr).

Lemma mk_lookup : pcbs (k_sched s) !! proc = Some pr.
Proof using H. rewrite (mk_sched _ _ _ _ _ _ _ _ _ H). apply lookup_insert_eq. Qed.
Lemma mk_pderef Q : Q pr s → wp (pderef proc) s Q.
Proof using H. apply wp_pderef, mk_lookup. Qed.
(** Other changes of the scheduler's state. *)
Lemma mk_quiet v' pr' :
  making F F' ps bs' s0 (upd_sched (set_pcbs (<[proc := pr']> (pcbs v')) v') s) v' proc pr'.
Proof using H. destruct H as [[[] ? ? ? ? ?] ? ? ? ?]. by split. Qed.
Lemma mk_passign_mem f Q :
  (∀ s', making F F' ps bs' s0 s' v proc (f pr) → k_mem s' = k_mem s → Q () s') → wp (passign proc f) s Q.
Proof using H.
  intros HQ. eapply wp_passign; [apply mk_lookup|]. apply HQ; [|done].
  replace (upd_pcbs _ s) with (upd_sched (set_pcbs (<[proc := f pr]> (pcbs v)) v) s); [apply mk_quiet|].
  unfold upd_pcbs. rewrite (mk_sched _ _ _ _ _ _ _ _ _ H). cbn [pcbs set_pcbs]. by rewrite insert_insert_eq.
Qed.
Lemma mk_passign f Q : (∀ s', making F F' ps bs' s0 s' v proc (f pr) → Q () s') → wp (passign proc f) s Q.
Proof using H. intros HQ. apply mk_passign_mem. intros s' Hs' _. by apply HQ. Qed.
(** A block from the heap for the process. *)
Lemma mk_kmalloc size Q :
  0 ≤ size ≤ 2 ^ 64 - 8 →
  (∀ p n bs2 s', making F F' ps bs2 s0 s' v proc pr → size ≤ n → p ≠ 0 → p mod 8 = 0 →
     (p, n) ∈ payloads HEAP_START bs2 → Forall (apart p n) (payloads HEAP_START bs') →
     (∀ x, x ∈ payloads HEAP_START bs' → x ∈ payloads HEAP_START bs2) → Q p s') →
  wpp oom (at_heap (kmalloc size)) s Q.
Proof using H.
  intros Hsz HQ. pose proof (mk_grows _ _ _ _ _ _ _ _ _ H) as G.
  eapply wpp_mono; [apply (wpp_kmalloc F' bs'); [apply G|done]|].
  intros p s' (bs2 & n & h & -> & G2 & Hn & Hin & H8 & Hlo & Hhi & Hap & Hp). apply (HQ p n bs2); try done.
  - destruct H as [? Es Ec Ef Eo]. split; [eapply grows_trans; [exact G|exact G2|apply G]|exact Es|exact Ec|exact Ef|exact Eo].
  - unfold HEAP_START in *. lia.
  - apply G2.
Qed.
(** Printing ends the construction. *)
Lemma mk_take_pid Q :
  (∀ s', making F F' ps bs' s0 s' (set_next_pid (u32 (next_pid v + 1)) v) proc pr → Q (next_pid v) s') → wp take_pid s Q.
Proof using H.
  intros HQ. unfold take_pid. apply wp_bind, wp_gets. apply wp_bind, wp_at_sched_quiet, wp_modify. split; [done|]. apply wp_ret.
  replace (next_pid (k_sched s)) with (next_pid v) by (by rewrite (mk_sched _ _ _ _ _ _ _ _ _ H)). apply HQ.
  match goal with |- making _ _ _ _ _ ?x _ _ _ => replace x with
    (upd_sched (set_pcbs (<[proc := pr]> (pcbs (set_next_pid (u32 (next_pid v + 1)) v))) (set_next_pid (u32 (next_pid v + 1)) v)) s) end;
    [apply mk_quiet|]. rewrite (mk_sched _ _ _ _ _ _ _ _ _ H). by destruct v.
Qed.
Lemma mk_put_slot slot Q :
  0 ≤ slot < Z.of_nat (length (process_table v)) →
  (∀ s', making F F' ps bs' s0 s' (set_process_table (<[Z.to_nat slot := proc]> (process_table v)) v) proc pr →
     k_mem s' = k_mem s → Q () s') →
  wp (put_slot slot proc) s Q.
Proof using H.
  intros Hr HQ. unfold put_slot. apply wp_at_sched_quiet, wp_bind, wp_gets, wp_bind.
  eapply wp_lift_opt; [apply arr_set_in; rewrite (mk_sched _ _ _ _ _ _ _ _ _ H); exact Hr|]. apply wp_modify. split; [done|]. apply HQ; [|done].
  match goal with |- making _ _ _ _ _ ?x ?w _ _ => replace x with (upd_sched (set_pcbs (<[proc := pr]> (pcbs w)) w) s) end;
    [apply mk_quiet|]. rewrite (mk_sched _ _ _ _ _ _ _ _ _ H). by destruct v.
Qed.
End making.

(** ** The slots of the table *)

Definition free_slot (t : list Z) (r : option Z) : Prop :=
  match r with
  | Some i => 1 ≤ i < MAX_PROCESSES ∧ arr_get t i = Some 0 ∧ ∀ j, 1 ≤ j < i → arr_get t j ≠ Some 0
  | None => ∀ j, 1 ≤ j < MAX_PROCESSES → arr_get t j ≠ Some 0
  end.
Lemma wp_find_slot s :
  Z.of_nat (length (process_table (k_sched s))) = MAX_PROCESSES →
  wp find_slot s (λ r s', s' = s ∧ free_slot (process_table (k_sched s)) r).
Proof.
  intros Hl. apply (wp_for_until (λ i s', s' = s ∧ ∀ j, 1 ≤ j < i → arr_get (process_table (k_sched s)) j ≠ Some 0)).
  - split; [done|]. intros; lia.
  - intros i s' Hi [-> Hno]. change (1 + Z.of_nat (Z.to_nat (MAX_PROCESSES - 1))) with MAX_PROCESSES in Hi.
    destruct (arr_get_is_Some (process_table (k_sched s)) i) as [p Hp]; [lia|].
    apply wp_bind, wp_gets, wp_bind. eapply wp_lift_opt; [exact Hp|]. apply wp_ret. destruct (Z.eqb_spec p 0) as [->|Hnz].
    + split; [done|]. split; [lia|]. done.
    + split; [done|]. intros j Hj. destruct (decide (j = i)) as [->|]; [congruence|]. apply Hno. lia.
  - intros s' [-> Hno]. split; [done|]. exact Hno.
Qed.

(** ** The steps of [process_create] *)

(** The blocks of the processes are the idle process's, outside the heap, and
    payloads of the heap. *)
Record procs_wf (idle : Z) (bs : list blk) (v : sched) : Prop := {
  pw_pcbs p pr : pcbs v !! p = Some pr → p = idle ∨ ∃ n, (p, n) ∈ payloads HEAP_START bs ∧ SIZEOF_PROCESS ≤ n;
  pw_idle : ¬ (HEAP_START ≤ idle < HEAP_END);
  pw_table : Z.of_nat (length (process_table v)) = MAX_PROCESSES;
}.

Section create.
Context (idle trampoline : Z) (F : forest) (bs : list blk) (s0 : kernel).
Context (Hs0 : space_wf F bs s0) (Hprocs : procs_wf idle bs (k_sched s0)).

Lemma wpp_new_process Q :
  (∀ p n bs' s', making F F (payloads HEAP_START bs) bs' s0 s' (k_sched s0) p zero_process → SIZEOF_PROCESS ≤ n → p ≠ 0 →
     (p, n) ∈ payloads HEAP_START bs' → Forall (apart p n) (payloads HEAP_START bs) → pcbs (k_sched s0) !! p = None → Q p s') →
  wpp oom new_process s0 Q.
Proof using Hs0 Hprocs.
  intros HQ. unfold new_process. apply wpp_bind. eapply wpp_mono; [apply (wpp_kzalloc F bs); [done|unfold SIZEOF_PROCESS; lia]|].
  intros p s' (bs' & n & h & -> & G & Hn & Hin & H8 & Hlo & Hhi & Hap & _). unfold HEAP_START in Hlo.
  rewrite (proj2 (Z.eqb_neq p 0)) by lia. apply wpp_wp, wp_bind, wp_at_sched_quiet, wp_modify. split; [done|]. apply wp_ret.
  apply (HQ p n bs'); try done; [|lia|].
  - destruct G as [[] ? ? ? ? ?]. split; try done.
  - destruct (pcbs (k_sched s0) !! p) as [pr|] eqn:E; [|done]. exfalso. unfold SIZEOF_PROCESS in *.
    destruct (pw_pcbs _ _ _ Hprocs p pr E) as [->|(k & Hk & Hk')]; [apply (pw_idle _ _ _ Hprocs); unfold HEAP_START; lia|].
    rewrite Forall_forall in Hap. unfold SIZEOF_PROCESS in *. destruct (Hap _ Hk); cbn [fst snd] in *; lia.
Qed.

(** The PCB after "Initialize PCB". *)
Definition name32 (name : list Z) : list Z := take 31 (name ++ replicate 31 0) ++ [0].
Definition pcb_named (pid : Z) (name : list Z) (entry prio : Z) (pr : process_t) : process_t :=
  set_entry_point entry (set_ticks_remaining DEFAULT_QUANTUM (set_ticks_total 0 (set_priority (u32 prio)
    (set_kernel_stack_size KERNEL_STACK_SIZE (set_state PROCESS_STATE_READY (set_name (name32 name) (set_pid pid pr))))))).
Lemma wp_init_pcb bs' s v proc pr name entry prio Q :
  making F F (payloads HEAP_START bs) bs' s0 s v proc pr → p_name pr = replicate 32 0 →
  (∀ s', making F F (payloads HEAP_START bs) bs' s0 s' (set_next_pid (u32 (next_pid v + 1)) v) proc (pcb_named (next_pid v) name entry prio pr) → Q () s') →
  wp (init_pcb proc name entry prio) s Q.
Proof.
  intros H Hnm HQ. unfold init_pcb. apply wp_bind. eapply mk_take_pid; [exact H|]. intros s1 H1.
  apply wp_bind. eapply mk_passign; [exact H1|]. intros s2 H2. apply wp_bind. eapply mk_pderef; [exact H2|].
  change (p_name (set_pid (next_pid v) pr)) with (p_name pr). rewrite Hnm.
  assert (Hlen : length (take 31 (name ++ replicate 31 0)) = 31%nat) by (rewrite length_take, length_app, length_replicate; lia).
  apply wp_bind. eapply wp_lift_opt; [unfold strncpy; rewrite (proj2 (Nat.leb_le 31 (length (replicate 32 0)))) by (cbn; lia); reflexivity|].
  apply wp_bind. apply wp_lift_opt with (a := name32 name).
  { rewrite arr_set_in by (rewrite length_app, Hlen; cbn; lia). f_equal. change (Z.to_nat 31) with 31%nat.
    rewrite insert_app_r_alt by lia. by rewrite Hlen. }
  repeat first [apply wp_bind; eapply mk_passign; [eassumption|]; intros ? ?].
  eapply mk_passign; [eassumption|]. intros s9 H9. by apply HQ.
Qed.

(** "Create separate address space". *)
Lemma wp_new_space bs' s v proc pr Q :
  making F F (payloads HEAP_START bs) bs' s0 s v proc pr → pml4 / PAGE_SIZE ∉ pa_free (get_phys s) →
  (making F F (payloads HEAP_START bs) bs' s0 s v proc pr → Q 0 s) →
  (∀ a t, a ≠ 0 → F !! a = None → making F (<[a := (4%nat, 256)]> F) (payloads HEAP_START bs) bs' s0 (put_phys t s) v proc pr →
     (∀ w, 0 ≤ w < 2 ^ 47 → leaf (ph_mem t) a w = None) → Q a (put_phys t s)) →
  wp (at_phys (vmm_create_address_space pml4)) s Q.
Proof.
  intros H Hk HQ0 HQ. pose proof (mk_grows _ _ _ _ _ _ _ _ _ H) as G. apply wp_zoom.
  eapply wp_mono; [apply (create_space_ok F (get_phys s) pml4 4); [apply G|done|done]|]. cbn beta.
  intros a t [(-> & _ & ->)|(Ha & Hvm & Hnone & Hke & _ & Hleaf & _)].
  - replace (put_phys (get_phys s) s) with s by by destruct s as [? ? []]. by apply HQ0.
  - apply HQ; try done. destruct H as [? Es Ec Ef Eo]. split; [|exact Es|exact Ec|exact Ef|exact Eo].
    eapply grows_trans; [exact G| |apply G]. apply grows_keeps; [apply G|done|done|]. by apply insert_subseteq.
Qed.
End create.

(** Giving back the blocks of a half-made process, on the way to a panic. *)
Lemma wpp_create_failed bs s proc pr n1 n2 msg (Q : Z → kernel → Prop) :
  heap_inv (get_heap s) bs → pcbs (k_sched s) !! proc = Some pr → (p_kernel_stack pr, n1) ∈ payloads HEAP_START bs →
  (proc, n2) ∈ payloads HEAP_START bs → (p_kernel_stack pr, n1) ≠ (proc, n2) → oom msg → wpp oom (create_failed proc msg) s Q.
Proof.
  intros Hh Hp H1 H2 Hne Hm. unfold create_failed. apply wpp_step. eapply wp_pderef; [exact Hp|].
  pose proof (links_ok _ _ _ _ (hi_links _ _ Hh)) as Hok. pose proof (a_free_payloads bs _ _ Hok H1) as Hperm.
  assert (H2' : (proc, n2) ∈ payloads HEAP_START (a_free (p_kernel_stack pr) bs)) by (rewrite Hperm in H2; apply elem_of_cons in H2 as [?|?]; congruence).
  apply wpp_step, wp_zoom. eapply wp_mono; [by apply (kfree_run _ bs _ n1)|]. cbn beta. intros _ h (Hh' & _ & _).
  apply wpp_step. unfold kfree_process. apply wp_bind, wp_zoom.
  eapply wp_mono; [apply (kfree_run _ (a_free (p_kernel_stack pr) bs) proc n2); [by destruct h|done]|]. cbn beta. intros _ h' _.
  apply wp_at_sched_quiet, wp_modify. split; [done|]. exact Hm.
Qed.

(** The user stack: every page of it is mapped, writable for the user. *)
Definition stack_mapped (m : mem) (a : Z) : Prop :=
  ∀ v, USER_STACK_TOP - USER_STACK_SIZE ≤ v < USER_STACK_TOP → ∃ c,
    leaf m a v = Some (Z.lor (Z.lor c 7) PAGE_PRESENT) ∧ c mod PAGE_SIZE = 0.

Lemma wp_user_stack F ps bs' s0 s v proc a pr Q :
  F !! a = None → making F (<[a := (4%nat, 256)]> F) ps bs' s0 s v proc pr → p_page_table pr = a → p_pages_allocated pr = 0 →
  (∀ s' k, making F (<[a := (4%nat, 256)]> F) ps bs' s0 s' v proc
     (set_pages_allocated k (set_stack_bottom (USER_STACK_TOP - USER_STACK_SIZE) (set_stack_top USER_STACK_TOP pr))) → Q (-1) s') →
  (∀ s' k, making F (<[a := (4%nat, 256)]> F) ps bs' s0 s' v proc
     (set_pages_allocated k (set_stack_bottom (USER_STACK_TOP - USER_STACK_SIZE) (set_stack_top USER_STACK_TOP pr))) →
     stack_mapped (k_mem s') a → Q 0 s') →
  wp (user_stack proc) s Q.
Proof.
  intros Ha H Hpt Hpa HQ1 HQ0. pose proof (mk_grows _ _ _ _ _ _ _ _ _ H) as G. unfold user_stack.
  apply wp_bind. eapply mk_pderef; [exact H|]. apply wp_bind, wp_zoom. unfold vmm_setup_user_stack, vmm_alloc_user_pages.
  rewrite (proj2 (Z.leb_gt KERNEL_BASE _)) by done. set (p1 := set_stack_bottom _ _).
  eapply wp_mono; [apply (alloc_user_ok (<[a := (4%nat, 256)]> F) a); try done|].
  { apply G. } { apply lookup_insert_eq. } { change (p_pages_allocated p1) with (p_pages_allocated pr). rewrite Hpa. lia. }
  cbn beta. intros [r p2] t (Hmp & Hr & _ & [k Hk]). cbn [fst snd] in *. subst p2.
  assert (H' : making F (<[a := (4%nat, 256)]> F) ps bs' s0 (put_phys t s) v proc pr).
  { pose proof (grows_mapped _ _ _ _ _ _ _ _ _ _ G Ha Hmp) as G'. destruct H as [? Es Ec Ef Eo]. split; [exact G'|exact Es|exact Ec|exact Ef|exact Eo]. }
  apply wp_bind. eapply mk_passign_mem; [exact H'|]. intros s' H2 Em. apply wp_ret. destruct Hr as [->| ->]; [|by eapply HQ1].
  eapply HQ0; [exact H2|]. rewrite Em. cbn [k_mem put_phys]. intros w Hw.
  destruct (mp_new _ _ _ _ _ _ _ Hmp w eq_refl) as (c & Hc & Hc4 & _).
  - unfold USER_STACK_TOP, USER_STACK_SIZE in Hw. lia.
  - unfold p1. cbn [p_stack_bottom set_stack_bottom]. unfold USER_STACK_TOP, USER_STACK_SIZE, PAGE_SIZE in *. dlia.
  - exists c. split; [exact Hc|done].
Qed.

Lemma mk_rebase F F' ps ps' bs' s0 s v proc pr :
  making F F' ps bs' s0 s v proc pr → (∀ x, x ∈ ps' → x ∈ payloads HEAP_START bs') → making F' F' ps' bs' s s v proc pr.
Proof. intros H Hps. split; [apply grows_refl; [apply H|done]|apply H|done..]. Qed.

Lemma wp_init_context trampoline F F' ps bs' s0 s v proc pr n entry Q :
  making F F' ps bs' s0 s v proc pr → (p_kernel_stack pr, n) ∈ payloads HEAP_START bs' → KERNEL_STACK_SIZE ≤ n →
  p_kernel_stack pr mod 8 = 0 → Forall (apart (p_kernel_stack pr) n) ps →
  (∀ s', making F F' ps bs' s0 s' v proc
     (set_context (Context 0 0 0 0 0 0 (p_kernel_stack pr + KERNEL_STACK_SIZE - 8) trampoline 0x202) pr) →
     ld (k_mem s') (p_kernel_stack pr + KERNEL_STACK_SIZE - 8) = u64 entry → Q () s') →
  wp (init_context trampoline proc entry) s Q.
Proof.
  intros H Hin Hn H8 Hap HQ. unfold init_context. apply wp_bind. eapply mk_pderef; [exact H|]. cbv zeta. unfold KERNEL_STACK_SIZE in *.
  set (top := p_kernel_stack pr + 8192 - 8) in *. apply wp_bind, wp_store64; [unfold top; dlia|].
  assert (H' : making F F' ps bs' s0 (set_k_mem (st (k_mem s) top entry) s) v proc pr).
  { assert (G : grows F F' ps bs' s0 (set_k_mem (st (k_mem s) top entry) s)).
    { eapply (grows_payload _ _ _ _ _ s _ n); [apply H|done|done| |].
      - intros x Hx. apply ld_st_other. unfold top. lia.
      - apply mem_wf_st. apply (hi_mem _ _ (sp_heap _ _ _ (gw_wf _ _ _ _ _ _ (mk_grows _ _ _ _ _ _ _ _ _ H)))). }
    destruct H as [? Es Ec Ef Eo]. split; [exact G|exact Es|exact Ec|exact Ef|exact Eo]. }
  eapply mk_passign_mem; [exact H'|]. intros s' H2 Em. apply HQ; [exact H2|]. rewrite Em. apply ld_st_same.
Qed.

(** What the last steps make of the scheduler's state [v]: the process is
    queued, and something has been printed. *)
Record queued (v w : sched) (l : list Z) (proc : Z) (pr : process_t) : Prop := {
  qd_queue : queue w (l ++ [proc]);
  qd_pcbs p : unlink <$> pcbs w !! p = unlink <$> <[proc := pr]> (pcbs v) !! p;
  qd_rest : ∃ m h t o, w = set_terminal o (set_rq_tail t (set_rq_head h (set_pcbs m v)));
}.

(** A block of [bs'] with room for [size] bytes, apart from those of [bs]. *)
Definition fresh_block (bs bs' : list blk) (p size : Z) : Prop :=
  ∃ n, (p, n) ∈ payloads HEAP_START bs' ∧ size ≤ n ∧ Forall (apart p n) (payloads HEAP_START bs).

Lemma wpp_finish F F' ps bs' s0 s v proc pr l name :
  making F F' ps bs' s0 s v proc pr → queue v l → proc ∉ l → proc ≠ 0 → screen_ok (con (k_in s0)) → 8 ∉ name →
  wpp oom (init_process_fd_table proc;; at_sched (ready_queue_push proc);; psay "Created process: ";; pwrite name;; psay " (PID ";; psay ")
";; mret proc) s (λ r s', r = proc ∧ ∃ bs2 t, grows F F' ps bs2 s0 s' ∧ (∀ x, x ∈ payloads HEAP_START bs' → x ∈ payloads HEAP_START bs2) ∧
    fresh_block bs' bs2 t (SIZEOF_FD_ENTRY * MAX_FDS) ∧
    k_fds s' = <[t := replicate 16 fd_clear]> (k_fds s0) ∧ others s' = others s0 ∧ screen_ok (con (k_in s')) ∧
    queued v (k_sched s') l proc (set_fd_table t pr)).
Proof.
  intros H Hq Hpl Hp0 Hcon H8. apply wpp_bind. unfold init_process_fd_table. rewrite (proj2 (Z.eqb_neq proc 0)) by done.
  apply wpp_bind. eapply mk_kmalloc; [exact H|unfold SIZEOF_FD_ENTRY, MAX_FDS; lia|].
  intros t n bs2 s1 H1 Hn Ht0 _ Htin Htap Hsub. apply wpp_wp, wp_bind. eapply mk_passign; [exact H1|]. intros s2 H2.
  rewrite (proj2 (Z.eqb_neq t 0)) by done. apply wp_modify. clear H H1 s s1.
  destruct H2 as [G Es Ec Ef Eo]. set (s3 := set_k_fds _ s2). change (k_sched s2) with (k_sched s3) in Es. change (con (k_in s2)) with (con (k_in s3)) in Ec.
  assert (G3 : grows F F' ps bs2 s0 s3) by (destruct G as [[] ? ? ? ? ?]; by split).
  apply wpp_step, wp_at_sched_quiet.
  assert (Hq3 : queue (set_terminal [] (k_sched s3)) l).
  { rewrite Es. destruct Hq as [? ? Hl Hnd H0]. split; try done. cbn. eapply dlseg_frame; [|exact Hl].
    intros p Hp. apply lookup_insert_ne. by intros ->. }
  assert (Hpr : pcbs (set_terminal [] (k_sched s3)) !! proc = Some (set_fd_table t pr)) by (rewrite Es; cbn; apply lookup_insert_eq).
  eapply wp_mono; [by apply (wp_push _ l proc (set_fd_table t pr))|]. cbn beta. intros _ w (Hqw & (m & h & tl & ->) & Hun).
  split; [done|]. set (s4 := upd_sched _ s3).
  assert (Hprint : ∀ b (k : M kernel Z) s' Q, screen_ok (con (k_in s')) → 8 ∉ b →
    (∀ con', screen_ok con' → wpp oom k (set_k_in (Input (kb (k_in s')) con' (set_terminal (terminal (k_sched s') ++ [b]) (k_sched s'))) s') Q) →
    wpp oom (pwrite b;; k) s' Q).
  { intros b k s' Q Hc Hb HQ. by apply wpp_step, wp_psay. }
  do 4 (apply Hprint; [done || (cbn [con k_in s4 upd_sched set_k_in]; by rewrite Ec)|exact H8 || ground|]; intros ? ?).
  apply wpp_wp, wp_ret. split; [done|]. exists bs2, t. split_and!; try done; [..|by exists n| |].
  - destruct G3 as [[] ? ? ? ? ?]. by split.
  - cbn [k_fds set_k_in s4 upd_sched]. unfold s3. cbn [k_fds set_k_fds]. by rewrite Ef.
  - split.
    + eapply queue_ext; [..|exact Hqw]; done.
    + intros p. specialize (Hun p). rewrite Es in Hun. exact Hun.
    + cbn [sch k_in set_k_in s4 upd_sched]. rewrite Es. cbn. eexists m, h, tl, _. by destruct v.
Qed.

(** The processes of [l] wait in this order for the CPU. *)
Record lined (v : sched) (l : list Z) : Prop := {
  ln_queue : queue v l;
  ln_ready p : p ∈ l → pstate v p = Some PROCESS_STATE_READY;
}.
Lemma ring_lined idle v c l : ring idle v c l → lined v l.
Proof. intros H. split; [apply H|apply H]. Qed.

(** Queueing a READY process puts it at the end of the line, and of the ring. *)
Section queued.
Context (v0 v w : sched) (l : list Z) (proc : Z) (pr : process_t).
Context (Hnone : pcbs v0 !! proc = None) (Ep : pcbs v = pcbs v0) (Hst : p_state pr = PROCESS_STATE_READY) (Hqd : queued v w l proc pr).

Lemma queued_state q : q ≠ proc → pstate w q = pstate v0 q.
Proof using Ep Hqd.
  intros Hqp. unfold pstate. pose proof (qd_pcbs _ _ _ _ _ Hqd q) as Hun. rewrite lookup_insert_ne, Ep in Hun by done.
  apply (f_equal (fmap p_state)) in Hun. rewrite <- !option_fmap_compose in Hun. exact Hun.
Qed.
Lemma queued_lined : lined v0 l → lined w (l ++ [proc]).
Proof using All.
  intros [Hq Hrd]. split; [apply Hqd|]. intros p [Hp|Hp%list_elem_of_singleton]%elem_of_app.
  - assert (p ≠ proc). { intros ->. apply Hrd in Hp. unfold pstate in Hp. by rewrite Hnone in Hp. }
    rewrite queued_state by done. by apply Hrd.
  - subst p. unfold pstate. pose proof (qd_pcbs _ _ _ _ _ Hqd proc) as Hun. rewrite lookup_insert_eq in Hun.
    apply (f_equal (fmap p_state)) in Hun. rewrite <- !option_fmap_compose in Hun. cbn in Hun. rewrite Hst in Hun. exact Hun.
Qed.
Lemma queued_ring idle c :
  current_process v = current_process v0 → scheduler_enabled v = scheduler_enabled v0 → ring idle v0 c l → ring idle w c (l ++ [proc]).
Proof using All.
  intros Ec Ee Hring. destruct (queued_lined (ring_lined _ _ _ _ Hring)) as [Hq' Hrd']. destruct Hring as [Hq He Hc Hr Hrd Hid].
  destruct (qd_rest _ _ _ _ _ Hqd) as (m & h & t & o & Ew).
  assert (Hrun : running idle w = running idle v0) by (rewrite Ew; unfold running; cbn; by rewrite Ec).
  assert (Hcp : c ≠ proc) by (intros ->; unfold pstate in Hr; by rewrite Hnone in Hr).
  split; try done.
  - rewrite Ew. cbn. by rewrite Ee.
  - by rewrite Hrun.
  - by rewrite queued_state.
Qed.
End queued.

(** The PCB of a new process, apart from its place in the queue. *)
Definition new_pcb (trampoline pid : Z) (name : list Z) (entry prio a st t : Z) : process_t :=
  Process pid (name32 name) (Context 0 0 0 0 0 0 (st + KERNEL_STACK_SIZE - 8) trampoline 0x202) PROCESS_STATE_READY a
    USER_HEAP_START USER_HEAP_START (USER_HEAP_START + 0x10000000) (USER_STACK_TOP - USER_STACK_SIZE) USER_STACK_TOP
    0 0 st KERNEL_STACK_SIZE 0 DEFAULT_QUANTUM (u32 prio) 0 0 t 0 0 entry.

Record created (idle trampoline : Z) (name : list Z) (entry prio slot : Z) (l : list Z) (F : forest) (bs : list blk) (s s' : kernel) (proc : Z) : Prop := {
  cr_space : ∃ F' bs' a st t pr, F !! a = None ∧ F' = <[a := (4%nat, 256)]> F ∧
    (∀ p n, (p, n) ∈ payloads HEAP_START bs → (p, n) ∈ payloads HEAP_START bs' ∧ ∀ x, p ≤ x < p + n → ld (k_mem s') x = ld (k_mem s) x) ∧
    fresh_block bs bs' proc SIZEOF_PROCESS ∧ fresh_block bs bs' st KERNEL_STACK_SIZE ∧ fresh_block bs bs' t (SIZEOF_FD_ENTRY * MAX_FDS) ∧
    NoDup [proc; st; t] ∧
    space_wf F' bs' s' ∧ procs_wf idle bs' (k_sched s') ∧ stack_mapped (k_mem s') a ∧
    pcbs (k_sched s') !! proc = Some pr ∧ unlink pr = new_pcb trampoline (next_pid (k_sched s)) name entry prio a st t ∧
    ld (k_mem s') (st + KERNEL_STACK_SIZE - 8) = u64 entry ∧ k_fds s' = <[t := replicate 16 fd_clear]> (k_fds s);
  cr_new : pcbs (k_sched s) !! proc = None;
  cr_null : proc ≠ 0;
  cr_line : lined (k_sched s') (l ++ [proc]);
  cr_ring c : ring idle (k_sched s) c l → ring idle (k_sched s') c (l ++ [proc]);
  cr_current : current_process (k_sched s') = current_process (k_sched s);
  cr_table : process_table (k_sched s') = <[Z.to_nat slot := proc]> (process_table (k_sched s));
  cr_pid : next_pid (k_sched s') = u32 (next_pid (k_sched s) + 1);
  cr_pcbs q : q ≠ proc → unlink <$> pcbs (k_sched s') !! q = unlink <$> pcbs (k_sched s) !! q;
  cr_leaves r v : F !! r = Some (4%nat, 256) → 0 ≤ v < 2 ^ 47 → leaf (k_mem s') r v = leaf (k_mem s) r v;
  cr_free : pa_free (get_phys s') ⊆ pa_free (get_phys s);
  cr_screen : screen_ok (con (k_in s'));
  cr_others : others s' = others s;
}.

(** The last part of [process_create], from the state [s2] in which the address
    space has been set up. *)
Lemma wpp_create_tail idle trampoline F a bs bs2 s s2 l name entry prio slot proc v pr n nst :
  space_wf F bs s → procs_wf idle bs (k_sched s) → lined (k_sched s) l → screen_ok (con (k_in s)) → 8 ∉ name →
  free_slot (process_table (k_sched s)) (Some slot) → F !! a = None → pcbs (k_sched s) !! proc = None → proc ≠ 0 →
  making F (<[a := (4%nat, 256)]> F) (payloads HEAP_START bs) bs2 s s2 v proc pr → stack_mapped (k_mem s2) a →
  v = set_next_pid (u32 (next_pid (k_sched s) + 1)) (k_sched s) →
  (proc, n) ∈ payloads HEAP_START bs2 → SIZEOF_PROCESS ≤ n →
  (p_kernel_stack pr, nst) ∈ payloads HEAP_START bs2 → KERNEL_STACK_SIZE ≤ nst → p_kernel_stack pr mod 8 = 0 →
  Forall (apart (p_kernel_stack pr) nst) (payloads HEAP_START bs) → Forall (apart proc n) (payloads HEAP_START bs) → proc ≠ p_kernel_stack pr →
  set_context zero_context (set_page_faults 0 (set_pages_allocated 0 pr)) =
    set_context zero_context (new_pcb trampoline (next_pid (k_sched s)) name entry prio a (p_kernel_stack pr) 0) →
  wpp oom (passign proc (set_pages_allocated 0);; passign proc (set_page_faults 0);; init_context trampoline proc entry;;
    put_slot slot proc;; init_process_fd_table proc;; at_sched (ready_queue_push proc);;
    psay "Created process: ";; pwrite name;; psay " (PID ";; psay ")
";; mret proc) s2 (λ r s', created idle trampoline name entry prio slot l F bs s s' r).
Proof.
  intros Hs Hpw Hring Hcon Hname Hslot Ha Hnew Hp0 H Hmap Ev Hpin Hn Hst Hnst H8 Hap Hpap Hps Hpcb.
  pose proof (mk_grows _ _ _ _ _ _ _ _ _ H) as G2.
  pose proof (mk_rebase _ _ _ (payloads HEAP_START bs) _ _ _ _ _ _ H (gw_payloads _ _ _ _ _ _ G2)) as R.
  apply wpp_step. eapply mk_passign; [exact R|]. intros s3 R3. apply wpp_step. eapply mk_passign; [exact R3|]. intros s4 R4. clear R R3 s3.
  apply wpp_step. eapply (wp_init_context trampoline); [exact R4|done..|]. intros s5 R5 Htop. clear R4 s4.
  cbn [p_kernel_stack set_page_faults set_pages_allocated] in *.
  apply wpp_step. eapply mk_put_slot; [exact R5| |]. { rewrite Ev. cbn. rewrite (pw_table _ _ _ Hpw). destruct Hslot as [? _]. lia. }
  intros s6 R6 Em6. clear R5. rewrite <- Em6 in Htop. clear Em6 s5.
  set (pr6 := set_context _ _) in R6. set (v6 := set_process_table _ v) in R6.
  pose proof (mk_rebase _ _ _ (payloads HEAP_START bs2) _ _ _ _ _ _ R6 (λ x Hx, Hx)) as R7.
  assert (Hpv : pcbs v6 = pcbs (k_sched s)) by (unfold v6; by rewrite Ev).
  assert (Hpl : proc ∉ l). { intros Hl. apply (ln_ready _ _ Hring) in Hl. unfold pstate in Hl. by rewrite Hnew in Hl. }
  eapply wpp_mono; [apply (wpp_finish _ _ _ _ _ _ v6 proc pr6 l name R7); try done|].
  { apply (queue_ext (k_sched s)); [unfold v6; by rewrite Ev..|apply Hring]. }
  { rewrite (mk_con _ _ _ _ _ _ _ _ _ R6), (mk_con _ _ _ _ _ _ _ _ _ H). done. }
  intros r s7 (-> & bs3 & t & G7 & Hsub & (nt & Htin & Hnt & Htap) & Hfds & Hoth & Hcon7 & Hqd). pose proof (mk_grows _ _ _ _ _ _ _ _ _ R6) as G6.
  assert (G : grows F (<[a := (4%nat, 256)]> F) (payloads HEAP_START bs) bs3 s s7).
  { eapply grows_trans; [exact G2| |done]. eapply grows_trans; [exact G6|exact G7|apply G6]. }
  pose proof (qd_pcbs _ _ _ _ _ Hqd) as Hun. pose proof (qd_rest _ _ _ _ _ Hqd) as (m & h & tl & o & Ew).
  assert (Hq : ∀ q, q ≠ proc → unlink <$> pcbs (k_sched s7) !! q = unlink <$> pcbs (k_sched s) !! q).
  { intros q Hqp. rewrite Hun, lookup_insert_ne, Hpv by done. done. }
  assert (Htab : process_table (k_sched s7) = <[Z.to_nat slot := proc]> (process_table (k_sched s))) by (rewrite Ew; unfold v6; by rewrite Ev).
  split; try done.
  - specialize (Hun proc). rewrite lookup_insert_eq in Hun. destruct (pcbs (k_sched s7) !! proc) as [pr7|] eqn:E7; [|done].
    cbn [fmap option_fmap option_map] in Hun. apply (inj Some) in Hun. exists (<[a := (4%nat, 256)]> F), bs3, a, (p_kernel_stack pr), t, pr7.
    assert (Hpos : 0 < SIZEOF_PROCESS ∧ 0 < KERNEL_STACK_SIZE ∧ 0 < SIZEOF_FD_ENTRY * MAX_FDS) by done.
    assert (Htne : ∀ q k, (q, k) ∈ payloads HEAP_START bs2 → 0 < k → t ≠ q).
    { intros q k Hqk Hk ->. rewrite Forall_forall in Htap. destruct (Htap _ Hqk); cbn [fst snd] in *; lia. }
    split_and!; try done.
    + intros q k Hq'. split; [by apply G|]. intros x Hx. by apply (gw_data _ _ _ _ _ _ G q k).
    + exists n. split; [by apply Hsub|done].
    + exists nst. split; [by apply Hsub|done].
    + exists nt. split; [done|]. split; [done|]. rewrite Forall_forall in Htap |- *. intros x Hx. apply Htap. by apply G2.
    + rewrite !NoDup_cons, not_elem_of_cons, !list_elem_of_singleton. split_and!; [done| | |apply not_elem_of_nil|apply NoDup_nil_2].
      * intros E. by apply (Htne proc n Hpin); [lia|].
      * intros E. by apply (Htne _ nst Hst); [lia|].
    + apply G.
    + split; [|apply Hpw|by rewrite Htab, length_insert; apply Hpw]. intros q qr Hqr. destruct (decide (q = proc)) as [->|Hqp].
      { right. exists n. split; [by apply Hsub|done]. }
      specialize (Hq q Hqp). rewrite Hqr in Hq. destruct (pcbs (k_sched s) !! q) as [qr'|] eqn:Eq; [|done].
      destruct (pw_pcbs _ _ _ Hpw q qr' Eq) as [->|(k & Hk & Hk')]; [by left|right]. exists k. split; [by apply G|done].
    + intros w Hw. destruct (Hmap w Hw) as (x & Hx & Hx4). exists x. split; [|done].
      assert (Hl : leaf (k_mem s7) a w = leaf (k_mem s2) a w).
      { unfold USER_STACK_TOP, USER_STACK_SIZE in Hw. etrans; [apply G7|apply G6]; try apply lookup_insert_eq; lia. }
      by rewrite Hl.
    + rewrite Hun. clear -Hpcb. unfold new_pcb, pr6 in *. destruct pr. cbn in Hpcb |- *. injection Hpcb as -> -> -> -> -> -> -> -> -> -> -> -> -> -> -> -> -> -> ->. done.
    + etrans; [|exact Htop]. apply (gw_data _ _ _ _ _ _ G7 (p_kernel_stack pr) nst); [done|]. unfold KERNEL_STACK_SIZE in *. lia.
    + rewrite Hfds, (mk_fds _ _ _ _ _ _ _ _ _ R6), (mk_fds _ _ _ _ _ _ _ _ _ H). done.
  - eapply (queued_lined (k_sched s) v6); [done|done| |exact Hqd|done]. unfold pr6. cbn. apply (f_equal p_state) in Hpcb. exact Hpcb.
  - intros c. eapply (queued_ring (k_sched s) v6); [done|done| |exact Hqd|unfold v6; by rewrite Ev|unfold v6; by rewrite Ev].
    unfold pr6. cbn. apply (f_equal p_state) in Hpcb. exact Hpcb.
  - rewrite Ew. unfold v6. by rewrite Ev.
  - rewrite Ew. unfold v6. by rewrite Ev.
  - apply G.
  - apply G.
  - rewrite Hoth, (mk_others _ _ _ _ _ _ _ _ _ R6), (mk_others _ _ _ _ _ _ _ _ _ H). done.
Qed.

(** The fields set step by step are those of [new_pcb]. *)
Ltac pcb_step f :=
  unfold f; cbn [p_pid p_name p_context p_state p_page_table p_heap_start p_heap_current p_heap_max p_stack_bottom p_stack_top
    p_pages_allocated p_page_faults p_kernel_stack p_kernel_stack_size p_ticks_total p_ticks_remaining p_priority p_parent_pid
    p_exit_status p_fd_table p_next p_prev p_entry_point].
Lemma pcb_complete trampoline pid name entry prio a st k :
  let pr := (vmm_setup_user_heap (set_pages_allocated k (set_stack_bottom (USER_STACK_TOP - USER_STACK_SIZE)
    (set_stack_top USER_STACK_TOP (set_page_table a (pcb_named pid name entry prio (set_kernel_stack st zero_process))))))).2 in
  p_kernel_stack pr = st ∧
  set_context zero_context (set_page_faults 0 (set_pages_allocated 0 pr)) = set_context zero_context (new_pcb trampoline pid name entry prio a st 0).
Proof.
  unfold pcb_named, new_pcb, zero_process. cbn [vmm_setup_user_heap snd]. pcb_step set_kernel_stack. pcb_step set_pid. pcb_step set_name.
  pcb_step set_state. pcb_step set_kernel_stack_size. pcb_step set_priority. pcb_step set_ticks_total. pcb_step set_ticks_remaining.
  pcb_step set_entry_point. pcb_step set_page_table. pcb_step set_stack_top. pcb_step set_stack_bottom. pcb_step set_pages_allocated.
  pcb_step set_heap_start. pcb_step set_heap_current. pcb_step set_heap_max. pcb_step set_page_faults. pcb_step set_context. done.
Qed.

(** Undoing the address space before that. *)
Lemma wpp_undo F a ps bs' s0 s v proc pr n1 n2 msg (Q : Z → kernel → Prop) :
  F !! a = None → making F (<[a := (4%nat, 256)]> F) ps bs' s0 s v proc pr → (p_kernel_stack pr, n1) ∈ payloads HEAP_START bs' →
  (proc, n2) ∈ payloads HEAP_START bs' → (p_kernel_stack pr, n1) ≠ (proc, n2) → oom msg →
  wpp oom (at_phys (vmm_destroy_address_space pml4 a);; create_failed proc msg) s Q.
Proof.
  intros Ha H H1 H2 Hne Hm. pose proof (gw_wf _ _ _ _ _ _ (mk_grows _ _ _ _ _ _ _ _ _ H)) as Hs.
  pose proof (mk_lookup _ _ _ _ _ _ _ _ _ H) as Hp. apply wpp_step, wp_zoom. unfold vmm_destroy_address_space. destruct (_ || _).
  - apply wp_ret. replace (put_phys (get_phys s) s) with s by by destruct s as [? ? []]. by apply (wpp_create_failed bs' _ _ pr n1 n2); [apply Hs|..].
  - apply (wp_free_loose F (get_phys s) a (4%nat, 256)); [apply Hs|done|]. intros t _ _ _ Em.
    apply (wpp_create_failed bs' _ _ pr n1 n2); try done. change (get_mem t) with (ph_mem t) in Em.
    destruct (sp_heap _ _ _ Hs). split; cbn [get_heap put_phys k_mem kh_mem k_heap kh_head heap_initialized] in *; rewrite ?Em; done.
Qed.

Lemma wpp_process_create idle trampoline F bs s l name entry prio slot :
  space_wf F bs s → procs_wf idle bs (k_sched s) → lined (k_sched s) l → screen_ok (con (k_in s)) → 8 ∉ name →
  pml4 / PAGE_SIZE ∉ pa_free (get_phys s) → free_slot (process_table (k_sched s)) (Some slot) →
  wpp oom (process_create trampoline name entry prio) s (λ proc s', created idle trampoline name entry prio slot l F bs s s' proc).
Proof.
  intros Hs Hpw Hring Hcon Hname Hk Hslot. unfold process_create. apply wpp_step.
  eapply wp_mono; [apply wp_find_slot, Hpw|]. cbn beta. intros r s' [-> Hr].
  destruct r as [slot'|]; [|by destruct Hslot as (Hx & Hy & _); destruct (Hr slot)].
  assert (slot' = slot) as ->.
  { destruct Hslot as (Ha & Hb & Hc), Hr as (Ha' & Hb' & Hc'). destruct (Z.lt_total slot slot') as [Hlt|[->|Hlt]]; [|done|].
    - by destruct (Hc' slot ltac:(lia)).
    - by destruct (Hc slot' ltac:(lia)). }
  clear Hr. apply wpp_bind, (wpp_new_process idle F bs s Hs Hpw). intros proc n bs1 s1 H1 Hn Hp0 Hpin Hpap Hnew.
  rewrite (proj2 (Z.eqb_neq proc 0)) by done. apply wpp_bind. eapply mk_kmalloc; [exact H1|unfold KERNEL_STACK_SIZE; lia|].
  intros st nst bs2 s2 H2 Hnst Hst0 H8 Hstin Hstap Hsub. apply wpp_step. eapply mk_passign; [exact H2|]. intros s3 H3.
  rewrite (proj2 (Z.eqb_neq st 0)) by done. apply wpp_step. eapply wp_init_pcb; [exact H3|done|]. intros s4 H4. clear H2 H3 s2 s3.
  assert (Hap : Forall (apart st nst) (payloads HEAP_START bs)).
  { rewrite Forall_forall in Hstap |- *. intros x Hx. apply Hstap. by apply (gw_payloads _ _ _ _ _ _ (mk_grows _ _ _ _ _ _ _ _ _ H1)). }
  assert (Hne : (st, nst) ≠ (proc, n)).
  { intros [= -> ->]. rewrite Forall_forall in Hstap. destruct (Hstap _ Hpin); cbn [fst snd] in *; unfold SIZEOF_PROCESS in *; lia. }
  assert (Hps : proc ≠ st).
  { intros ->. rewrite Forall_forall in Hstap. destruct (Hstap _ Hpin); cbn [fst snd] in *; unfold SIZEOF_PROCESS, KERNEL_STACK_SIZE in *; lia. }
  set (v := set_next_pid _ (k_sched s)) in H4. set (pr := pcb_named _ _ _ _ _) in H4.
  assert (Hfail : ∀ F' s' pr' msg (Q : Z → kernel → Prop), making F F' (payloads HEAP_START bs) bs2 s s' v proc pr' →
    p_kernel_stack pr' = st → oom msg → wpp oom (create_failed proc msg) s' Q).
  { intros F' s' pr' msg Q H' Est Hm. eapply (wpp_create_failed bs2 s' proc pr' nst n); try done.
    - apply (gw_wf _ _ _ _ _ _ (mk_grows _ _ _ _ _ _ _ _ _ H')). - exact (mk_lookup _ _ _ _ _ _ _ _ _ H').
    - by rewrite Est. - by apply Hsub. - by rewrite Est. }
  apply wpp_step. eapply (wp_new_space F bs s); [exact H4|intros Hin; apply Hk, (gw_free _ _ _ _ _ _ (mk_grows _ _ _ _ _ _ _ _ _ H4)), Hin|intros _|].
  { apply wpp_step. eapply mk_passign; [exact H4|]. intros s5 H5. cbn [Z.eqb]. eapply Hfail; [exact H5|done|]. right. by left. }
  intros a t Ha0 Hnone H5 _. apply wpp_step. eapply mk_passign; [exact H5|]. intros s6 H6. clear H4 H5 s4 t.
  rewrite (proj2 (Z.eqb_neq a 0)) by done. apply wpp_step. eapply (wp_user_stack F _ _ _ _ _ _ a); [done|exact H6|done|done|..].
  - intros s7 k H7. eapply (wpp_undo F a); [done|exact H7|exact Hstin|by apply Hsub|done|]. right. by right.
  - intros s7 k H7 Hmap. cbn [Z.ltb Z.compare]. unfold user_heap. apply wpp_step, wp_bind. eapply mk_pderef; [exact H7|].
    apply wp_bind. eapply mk_passign_mem; [exact H7|]. intros s8 H8' Em. apply wp_ret. cbn [vmm_setup_user_heap fst Z.ltb Z.compare].
    destruct (pcb_complete trampoline (next_pid (k_sched s)) name entry prio a st k) as [Est Epcb]. fold pr in Est, Epcb.
    set (pr8 := (vmm_setup_user_heap _).2) in *. clearbody pr8. rewrite <- Est in Epcb, Hstin, H8, Hap, Hps.
    eapply (wpp_create_tail idle trampoline F a bs bs2 s s8 l name entry prio slot proc v _ n nst
      Hs Hpw Hring Hcon Hname Hslot Hnone Hnew Hp0 H8'); [by rewrite Em|reflexivity|by apply Hsub|exact Hn|exact Hstin|exact Hnst|exact H8|exact Hap|exact Hpap|exact Hps|exact Epcb].
Qed.

(** C7 (refinement): With a free slot, and the kernel's own pages out of the
    hands of the page allocator, [process_create] returns a new process at the
    end of the line of ready processes, or panics for want of memory.  The
    process has the next pid, the first free slot, an address space of its own
    in which its stack is mapped, a kernel stack with the entry point on top,
    and an empty descriptor table, in three new blocks of the heap.  Every other
    block of the heap is still there with its contents, no other process and no
    mapping of another address space changes, and the heap, the address spaces
    and the process table stay in order. *)
Theorem process_create_spec idle trampoline F bs s l name entry prio slot :
  space_wf F bs s → procs_wf idle bs (k_sched s) → lined (k_sched s) l → screen_ok (con (k_in s)) → 8 ∉ name →
  pml4 / PAGE_SIZE ∉ pa_free (get_phys s) → free_slot (process_table (k_sched s)) (Some slot) →
  wpp oom (process_create trampoline name entry prio) s (λ proc s', created idle trampoline name entry prio slot l F bs s s' proc).
Proof. apply wpp_process_create. Qed.

(** ** A kernel with the idle process only *)

Definition heap_forest : forest := list_to_map ((λ p, (p * PAGE_SIZE, (0%nat, 512))) <$> seqZ 8192 4096).
Definition lone_phys : phys := some_free_phys (seqZ 5000 600).
Definition lone_sched : sched :=
  Sched {[ 0x100 := demo_pcb PROCESS_STATE_RUNNING 0 0 0 1 ]} (0x100 :: replicate 63 0) 1 0 0 0 true 0 pml4 0 zero_context true [].
Definition lone_kernel : kernel :=
  Kernel (kh_mem heap_104) (HeapVars (kh_head heap_104) true (total_allocated heap_104) (total_free heap_104) (allocation_count heap_104))
    (PhysVars (pmm_bitmap lone_phys) (pmm_total_pages lone_phys) (pmm_free_count lone_phys) (pmm_reserved_pages lone_phys))
    (Input bss_kbd (final (init_vga bss_console) bss_console) lone_sched) booted ∅ ∅ bss_board [].

Lemma heap_forest_lookup r h : heap_forest !! r = Some h ↔ h = (0%nat, 512) ∧ ∃ p, r = p * PAGE_SIZE ∧ 8192 ≤ p < 12288.
Proof.
  unfold heap_forest. rewrite <- elem_of_list_to_map.
  - rewrite list_elem_of_fmap. split.
    + intros (p & [= -> ->] & Hp%elem_of_seqZ). split; [done|]. exists p. split; [done|lia].
    + intros (-> & p & -> & Hp). exists p. split; [done|]. apply elem_of_seqZ. lia.
  - rewrite <- list_fmap_compose. apply NoDup_fmap_2; [|apply NoDup_seqZ]. intros p q E. cbn in E. unfold PAGE_SIZE in E. lia.
Qed.
Lemma lone_phys_ok : pmm_wf lone_phys ∧ free_set lone_phys = list_to_set (seqZ 5000 600) ∧ pmm_total_pages lone_phys = 16384.
Proof.
  unfold lone_phys. destruct (some_free_ok (seqZ 5000 600)) as (H1 & H2 & H3 & _); [apply NoDup_seqZ| |exact (conj H1 (conj H2 H3))].
  apply Forall_forall. intros p. rewrite elem_of_seqZ. lia.
Qed.
Lemma lone_inv : pa_inv lone_phys.
Proof. exact (proj1 lone_phys_ok). Qed.
Lemma lone_get_phys : get_phys lone_kernel = set_mem (kh_mem heap_104) lone_phys.
Proof. with_strategy opaque [lone_phys] reflexivity. Qed.
Lemma lone_free : pa_free (get_phys lone_kernel) = list_to_set (seqZ 5000 600).
Proof.
  destruct lone_phys_ok as (Hwf & Hf & _). rewrite lone_get_phys.
  destruct (pa_store lone_phys (kh_mem heap_104) lone_inv (hi_mem _ _ heap_104_inv)) as (_ & E & _). rewrite E. exact Hf.
Qed.
Lemma lone_space : space_wf heap_forest [Blk 104 false; Blk (HEAP_SIZE - 152) true] lone_kernel.
Proof.
  destruct lone_phys_ok as (_ & _ & Ht). split.
  - exact heap_104_inv.
  - pose proof (hi_mem _ _ heap_104_inv) as Hm. destruct (pa_store lone_phys (kh_mem heap_104) lone_inv Hm) as (Hi & _ & Hman).
    rewrite lone_get_phys. split; [exact Hi|]. rewrite get_set_mem. assert (Hr : ∀ r p t, reach heap_forest (kh_mem heap_104) r p t → p = [] ∧ t = r ∧ ∃ q, r = q * PAGE_SIZE ∧ 8192 ≤ q < 12288).
    { intros r p t (h & (-> & Hq)%heap_forest_lookup & Hp & Hq2). destruct Hp as [Hl _]. cbn in Hl. destruct p; [|cbn in Hl; lia].
      cbn in Hq2. injection Hq2 as ->. exact (conj eq_refl (conj eq_refl Hq)). }
    split.
    + intros r p t (-> & -> & q & -> & Hq)%Hr. split; [unfold PAGE_SIZE; dlia|]. unfold owned. rewrite <- lone_get_phys, lone_free, lone_get_phys, Hman.
      replace (q * PAGE_SIZE / PAGE_SIZE) with q by (unfold PAGE_SIZE; dlia).
      split; [|rewrite elem_of_list_to_set, elem_of_seqZ; lia]. cbn [pa_managed Pmm_allocator]. rewrite Ht, first_page. lia.
    + intros r1 p1 r2 p2 t (-> & -> & _)%Hr (-> & -> & _)%Hr. exact (conj eq_refl eq_refl).
  - intros x Hx. apply heap_forest_lookup. split; [reflexivity|]. exists (x / PAGE_SIZE).
    unfold page_of, PAGE_SIZE, HEAP_START, HEAP_END, HEAP_START, HEAP_SIZE in *. split; [lia|dlia].
Qed.
Lemma process_create_spec_witness :
  wpp oom (process_create 0x101000 (bytes_of "init") 0x102000 1) lone_kernel (λ proc s',
    created 0x100 0x101000 (bytes_of "init") 0x102000 1 1 [] heap_forest [Blk 104 false; Blk (HEAP_SIZE - 152) true] lone_kernel s' proc).
Proof.
  apply (process_create_spec 0x100 0x101000 heap_forest _ lone_kernel [] (bytes_of "init") 0x102000 1 1 lone_space).
  - split; [|unfold HEAP_START; lia|reflexivity]. intros p pr. cbn. intros [<- _]%lookup_singleton_Some. by left.
  - split; [by split; try constructor; apply not_elem_of_nil|]. intros p Hp. by apply elem_of_nil in Hp.
  - destruct (wp_run _ _ _ (wp_init_vga bss_console eq_refl eq_refl)) as (u & s' & E & H). cbn [con k_in lone_kernel]. unfold final. rewrite E.
    left. exact (shows_wf _ _ H).
  - ground.
  - rewrite lone_free, elem_of_list_to_set, elem_of_seqZ. change (pml4 / PAGE_SIZE) with 4096. lia.
  - split; [unfold MAX_PROCESSES; lia|]. split; [done|]. intros; lia.
Defined.
