(* ===== verification/Strings.v ===== *)
(** * Numbers and strings in the kernel and its programs

    The string helpers that several sources define for themselves:
    [int_to_string] and [string_concat] of src/kernel/syscall.c, [int_to_str]
    of src/programs/wc.c, [str_len] and [str_str] of src/programs/grep.c.  A C
    string is the list of its bytes without the final zero ([c_string]). *)
From S2P Require Import Prelude.

Fixpoint count_digits (fuel : nat) (temp digits : Z) : Z :=
  match fuel with
  | O => digits
  | S fuel' => if 0 <? temp then count_digits fuel' (temp / 10) (digits + 1) else digits
  end.
(** "Fill buffer", from index [k - 1] down to 0. *)
Fixpoint fill_digits (k : nat) (num : Z) (buf : list Z) : option (list Z) :=
  match k with
  | O => Some buf
  | S j => b ← arr_set buf (Z.of_nat j) (48 + num mod 10); fill_digits j (num / 10) b
  end.
(** A [uint32_t] has at most 10 digits. *)
Definition int_to_string (num : Z) (buf : list Z) : option (list Z) :=
  if num =? 0 then b ← arr_set buf 0 48; arr_set b 1 0
  else
    let digits := count_digits 10 num 0 in
    b ← arr_set buf digits 0;
    fill_digits (Z.to_nat digits) num b.

(** The copy starts at the zero byte of [dest]. *)
Definition string_concat (dest src : list Z) : option (list Z) :=
  let n := length (c_string dest) in
  if (n + length src <? length dest)%nat
  then Some (take n dest ++ src ++ 0 :: drop (n + length src + 1) dest) else None.

(** [int_to_str] of wc.c, which handles negative numbers; the negation of the
    least [int] is undefined. *)
Definition int_to_str (num : Z) (buf : list Z) : option (list Z) :=
  if num =? 0 then b ← arr_set buf 0 48; arr_set b 1 0
  else if num <? 0 then
    if num =? - 2 ^ 31 then None else
    b ← arr_set buf 0 45;
    let digits := count_digits 10 (- num) 0 in
    b ← arr_set b (1 + digits) 0;
    tl ← fill_digits (Z.to_nat digits) (- num) (drop 1 b);
    Some (take 1 b ++ tl)
  else
    let digits := count_digits 10 num 0 in
    b ← arr_set buf digits 0;
    fill_digits (Z.to_nat digits) num b.

Definition str_len (s : list Z) : Z := Z.of_nat (length (c_string s)).

(** [str_str]: the inner loop gives what is left of the needle, the result is
    the rest of the haystack from the place found. *)
Fixpoint str_match (h n : list Z) : list Z :=
  match h, n with
  | x :: h', y :: n' => if x =? y then str_match h' n' else n
  | _, _ => n
  end.
Fixpoint str_search (haystack needle : list Z) : option (list Z) :=
  match haystack with
  | [] => None
  | _ :: rest => match str_match haystack needle with [] => Some haystack | _ => str_search rest needle end
  end.
Definition str_str (haystack needle : list Z) : option (list Z) :=
  match needle with [] => Some haystack | _ => str_search haystack needle end.

(** ** Numbers *)

(** The value of a string of digits. *)
Definition decimal (l : list Z) : Z := foldl (λ acc c, 10 * acc + (c - 48)) 0 l.

Lemma decimal_snoc l c : decimal (l ++ [c]) = 10 * decimal l + (c - 48).
Proof. unfold decimal. by rewrite foldl_app. Qed.
(** [count_digits] counts the digits that [fill_digits] writes. *)
Lemma count_digits_spec n num d :
  0 ≤ num < 10 ^ Z.of_nat n → ∃ k, count_digits n num d = d + Z.of_nat k ∧ (k ≤ n)%nat ∧ num < 10 ^ Z.of_nat k ∧ (num = 0 ∨ 10 ^ (Z.of_nat k - 1) ≤ num).
Proof.
  revert num d. induction n as [|n IH]; intros num d Hn; cbn [count_digits].
  { exists 0%nat. cbn in *. split_and!; lia. }
  destruct (Z.ltb_spec 0 num) as [Hp|]; [|exists 0%nat; cbn; split_and!; lia].
  rewrite Nat2Z.inj_succ, Z.pow_succ_r in Hn by lia.
  destruct (IH (num / 10) (d + 1)) as (k & E & Hk & Hlt & Hge); [dlia|]. exists (S k).
  rewrite E, Nat2Z.inj_succ, Z.pow_succ_r by lia. split_and!; [lia|lia|dlia|].
  right. replace (Z.succ (Z.of_nat k) - 1) with (Z.of_nat k) by lia. destruct Hge as [Hz|Hge].
  - destruct k as [|k]; [cbn; lia|]. destruct (decide (num / 10 = 0)); [|lia].
    exfalso. assert (num < 10) by dlia. clear -E Hz. destruct n; cbn in E; [lia|]. rewrite Hz in E. cbn in E. lia.
  - destruct k as [|k]; [cbn in *; lia|]. rewrite Nat2Z.inj_succ in *. replace (Z.succ (Z.of_nat k) - 1) with (Z.of_nat k) in Hge by lia.
    rewrite Z.pow_succ_r by lia. dlia.
Qed.
Lemma fill_digits_spec k num buf :
  (k ≤ length buf)%nat → 0 ≤ num < 10 ^ Z.of_nat k →
  ∃ ds, fill_digits k num buf = Some (ds ++ drop k buf) ∧ length ds = k ∧ decimal ds = num ∧ Forall (λ c, 48 ≤ c ≤ 57) ds.
Proof.
  revert num buf. induction k as [|k IH]; intros num buf Hk Hn; cbn [fill_digits].
  { exists []. cbn in *. split_and!; [done..|unfold decimal; cbn; lia|done]. }
  rewrite Nat2Z.inj_succ, Z.pow_succ_r in Hn by lia. rewrite arr_set_in by lia. cbn. rewrite Nat2Z.id.
  destruct (IH (num / 10) (<[k := 48 + num mod 10]> buf)) as (ds & E & Hl & Hd & Hf); [rewrite length_insert; lia|dlia|].
  exists (ds ++ [48 + num mod 10]). rewrite E. split_and!.
  - rewrite <- app_assoc. f_equal. f_equal. cbn [app]. rewrite drop_S with (x := 48 + num mod 10) by (apply list_lookup_insert_eq; lia).
    f_equal. rewrite drop_insert_lt by lia. done.
  - rewrite length_app. cbn. lia.
  - rewrite decimal_snoc, Hd. dlia.
  - apply Forall_app. split; [done|]. constructor; [dlia|done].
Qed.

(** [ds] is how the number is written: digits, no leading zero, at least one. *)
Definition is_decimal (ds : list Z) (num : Z) : Prop :=
  decimal ds = num ∧ Forall (λ c, 48 ≤ c ≤ 57) ds ∧ ds ≠ [] ∧ 10 ^ (Z.of_nat (length ds) - 1) ≤ Z.max 1 num.

Lemma int_to_string_ok num buf :
  0 ≤ num < 2 ^ 32 → (11 ≤ length buf)%nat →
  ∃ b, int_to_string num buf = Some b ∧ length b = length buf ∧ is_decimal (c_string b) num.
Proof.
  intros Hn Hb. unfold int_to_string. destruct (Z.eqb_spec num 0) as [->|Hz].
  { rewrite arr_set_in by lia. cbn [mbind option_bind]. rewrite arr_set_in by (rewrite length_insert; lia).
    destruct buf as [|x [|y buf]]; [cbn in Hb; lia..|]. eexists. split; [reflexivity|]. split; [done|]. vm_compute. repeat constructor; discriminate. }
  destruct (count_digits_spec 10 num 0) as (k & E & Hk & Hlt & Hge); [change (10 ^ Z.of_nat 10) with 10000000000; lia|].
  rewrite E, Z.add_0_l. rewrite arr_set_in by lia. cbn [mbind option_bind]. rewrite Nat2Z.id.
  destruct (fill_digits_spec k num (<[k := 0]> buf)) as (ds & Ef & Hl & Hd & Hf); [rewrite length_insert; lia|lia|].
  rewrite Ef. eexists. split; [done|]. rewrite drop_S with (x := 0) by (apply list_lookup_insert_eq; lia).
  split; [rewrite length_app; cbn; rewrite length_drop, length_insert; lia|].
  rewrite c_string_app by (eapply Forall_impl; [exact Hf|]; intros; cbn in *; lia). split_and!; [done..| |rewrite Hl; lia].
  intros ->. cbn in Hl. subst k. cbn in Hlt. lia.
Qed.

(** (roundtrip): [int_to_string] writes the decimal representation of its
    argument: the string in the buffer consists of digits, has no leading zero
    and reads back as the number; 11 bytes are always enough. *)
Theorem int_to_string_decimal num buf :
  0 ≤ num < 2 ^ 32 → (11 ≤ length buf)%nat →
  ∃ b, int_to_string num buf = Some b ∧ length b = length buf ∧ is_decimal (c_string b) num.
Proof. apply int_to_string_ok. Qed.
Lemma int_to_string_decimal_witness :
  ∃ b, int_to_string 4095 (replicate 16 7) = Some b ∧ length b = 16%nat ∧ is_decimal (c_string b) 4095.
Proof. apply (int_to_string_decimal 4095 (replicate 16 7)); cbn; lia. Defined.

(** The same with a sign. *)
Definition is_signed (ds : list Z) (num : Z) : Prop :=
  if num <? 0 then ∃ d, ds = 45 :: d ∧ is_decimal d (- num) else is_decimal ds num.

Lemma int_to_str_pos num buf : 0 ≤ num → int_to_str num buf = int_to_string num buf.
Proof.
  intros Hn. unfold int_to_str, int_to_string. destruct (num =? 0); [done|]. by rewrite (proj2 (Z.ltb_ge num 0)) by lia.
Qed.
Lemma int_to_str_neg num x buf : - 2 ^ 31 < num < 0 → int_to_str num (x :: buf) = (45 ::.) <$> int_to_string (- num) buf.
Proof.
  intros Hn. unfold int_to_str, int_to_string.
  rewrite (proj2 (Z.eqb_neq num 0)), (proj2 (Z.ltb_lt num 0)), (proj2 (Z.eqb_neq num (- 2 ^ 31))), (proj2 (Z.eqb_neq (- num) 0)) by lia.
  destruct (count_digits_spec 10 (- num) 0) as (k & -> & _); [change (10 ^ Z.of_nat 10) with 10000000000; lia|].
  assert (E : arr_set (45 :: buf) (1 + (0 + Z.of_nat k)) 0 = (45 ::.) <$> arr_set buf (0 + Z.of_nat k) 0).
  { unfold arr_set. rewrite !(proj2 (Z.leb_le 0 _)) by lia. cbn [andb length].
    replace (1 + (0 + Z.of_nat k) <? Z.of_nat (S (length buf))) with (0 + Z.of_nat k <? Z.of_nat (length buf)).
    2: { apply eq_bool_prop_intro. rewrite !Is_true_true, !Z.ltb_lt. lia. }
    destruct (_ <? _); [|done]. replace (Z.to_nat (1 + (0 + Z.of_nat k))) with (S (Z.to_nat (0 + Z.of_nat k))) by lia. done. }
  change (arr_set (x :: buf) 0 45) with (Some (45 :: buf)). cbn [mbind option_bind]. rewrite E.
  destruct (arr_set buf (0 + Z.of_nat k) 0) as [b|]; [|done]. cbn. destruct (fill_digits _ _ _); [|done]. by rewrite take_0.
Qed.

Lemma int_to_str_signed num buf :
  - 2 ^ 31 < num < 2 ^ 31 → (12 ≤ length buf)%nat →
  ∃ b, int_to_str num buf = Some b ∧ length b = length buf ∧ is_signed (c_string b) num.
Proof.
  intros Hn Hb. unfold is_signed. destruct (Z.ltb_spec num 0).
  - destruct buf as [|x buf]; [cbn in Hb; lia|]. rewrite int_to_str_neg by lia.
    destruct (int_to_string_ok (- num) buf) as (b & -> & Hl & Hd); [lia|cbn in Hb; lia|]. exists (45 :: b). split_and!; [done|cbn; by rewrite Hl|].
    exists (c_string b). by split.
  - rewrite int_to_str_pos by lia. apply int_to_string_ok; lia.
Qed.
(** (roundtrip): [int_to_str] of the programs writes any [int] but the least,
    with its sign, in at most 12 bytes: digits without a leading zero that read
    back as the number. *)
Theorem int_to_str_decimal num buf :
  - 2 ^ 31 < num < 2 ^ 31 → (12 ≤ length buf)%nat →
  ∃ b, int_to_str num buf = Some b ∧ length b = length buf ∧ is_signed (c_string b) num.
Proof. apply int_to_str_signed. Qed.
Lemma int_to_str_decimal_witness :
  ∃ b, int_to_str (-1907) (replicate 16 7) = Some b ∧ length b = 16%nat ∧ is_signed (c_string b) (-1907).
Proof. apply (int_to_str_decimal (-1907) (replicate 16 7)); cbn; lia. Defined.

Lemma int_to_str_ok num buf :
  0 ≤ num < 2 ^ 31 → (11 ≤ length buf)%nat →
  ∃ b, int_to_str num buf = Some b ∧ length b = length buf ∧ is_decimal (c_string b) num.
Proof. intros Hn Hb. rewrite int_to_str_pos by lia. apply int_to_string_ok; [lia|done]. Qed.

(** ** Searching *)

(** [n] occurs in [h]. *)
Definition contains (n h : list Z) : Prop := ∃ a b, h = a ++ n ++ b.

Lemma str_match_spec h n : str_match h n = [] ↔ n `prefix_of` h.
Proof.
  revert n. induction h as [|x h IH]; intros [|y n]; cbn [str_match].
  - split; [intros _; apply prefix_nil|done].
  - split; [done|intros []%prefix_nil_not].
  - split; [intros _; apply prefix_nil|done].
  - destruct (Z.eqb_spec x y) as [->|Hne].
    + rewrite IH. split; [apply prefix_cons|apply prefix_cons_inv_2].
    + split; [done|]. intros E%prefix_cons_inv_1. congruence.
Qed.
Lemma str_search_spec h n : n ≠ [] →
  match str_search h n with
  | Some r => ∃ a b, h = a ++ r ∧ r = n ++ b ∧ ∀ a' b', h = a' ++ n ++ b' → (length a ≤ length a')%nat
  | None => ¬ contains n h
  end.
Proof.
  intros Hn. induction h as [|x h IH]; cbn [str_search].
  { intros (a & b & E). symmetry in E. apply app_eq_nil in E as [_ [-> _]%app_eq_nil]. done. }
  destruct (str_match (x :: h) n) as [|y l] eqn:Em.
  - apply str_match_spec in Em as [b ->]. exists [], b. split_and!; [done..|]. intros; cbn; lia.
  - assert (Hnp : ¬ n `prefix_of` x :: h) by (rewrite <- str_match_spec, Em; done).
    destruct (str_search h n) as [r|].
    + destruct IH as (a & b & -> & -> & Hmin). exists (x :: a), b. split_and!; [done..|].
      intros [|z a'] b' E; cbn in E; [destruct Hnp; by exists b'|]. injection E as _ E. cbn. specialize (Hmin a' b' E). lia.
    + intros ([|z a] & b & E); cbn in E; [destruct Hnp; by exists b|]. injection E as _ E. destruct IH. by exists a, b.
Qed.

(** (equivalence): [str_str] is substring search: it finds the first occurrence
    of the needle, and nothing exactly when there is none. *)
Theorem str_str_first h n :
  match str_str h n with
  | Some r => ∃ a b, h = a ++ r ∧ r = n ++ b ∧ ∀ a' b', h = a' ++ n ++ b' → (length a ≤ length a')%nat
  | None => ¬ contains n h
  end.
Proof.
  unfold str_str. destruct n as [|y n]; [|by apply str_search_spec].
  exists [], h. split_and!; [done..|]. intros; cbn; lia.
Qed.
Lemma str_str_contains h n : is_Some (str_str h n) ↔ contains n h.
Proof.
  unfold str_str. destruct n as [|y n]; [split; [intros _; by exists [], h|done]|].
  pose proof (str_search_spec h (y :: n) ltac:(done)) as H. destruct (str_search h (y :: n)) as [r|].
  - destruct H as (a & b & -> & -> & _). split; [intros _; by exists a, b|done].
  - split; [intros []%is_Some_None|done].
Qed.

#[export] Instance contains_dec n h : Decision (contains n h).
Proof.
  destruct (str_str h n) as [r|] eqn:E; [left|right]; rewrite <- str_str_contains, E; [done|intros []%is_Some_None].
Defined.

(** ** Fields and words *)

(** The parts of a text between the characters that satisfy [p]. *)
Fixpoint fields (p : Z → bool) (l : list Z) : list (list Z) :=
  match l with
  | [] => [[]]
  | c :: l' =>
      if p c then [] :: fields p l'
      else match fields p l' with f :: fs => (c :: f) :: fs | [] => [[c]] end
  end.
(** The ones that are not empty. *)
Definition words_of (p : Z → bool) (l : list Z) : list (list Z) := filter (.≠ []) (fields p l).

Lemma fields_cons p l : ∃ f fs, fields p l = f :: fs ∧ (f = [] ↔ match l with [] => True | c :: _ => p c = true end).
Proof.
  destruct l as [|c l]; cbn; [by exists [], []|]. destruct (p c) eqn:E; [by eexists _, _|].
  destruct (fields p l) as [|f fs]; eexists _, _; (split; [done|split; done]).
Qed.
Lemma fields_sep p a c l : Forall (λ x, p x = false) a → p c = true → fields p (a ++ c :: l) = a :: fields p l.
Proof. intros Ha Hc. induction Ha as [|x a Hx _ IH]; cbn; [by rewrite Hc|]. by rewrite Hx, IH. Qed.
Lemma fields_last p a : Forall (λ x, p x = false) a → fields p a = [a].
Proof. intros Ha. induction Ha as [|x a Hx _ IH]; cbn; [done|]. by rewrite Hx, IH. Qed.
Lemma fields_snoc p l c :
  ∃ fs f, fields p l = fs ++ [f] ∧ fields p (l ++ [c]) = if p c then fs ++ [f; []] else fs ++ [f ++ [c]].
Proof.
  induction l as [|x l (fs & f & E & E')]; cbn [app fields]; [exists [], []; by destruct (p c)|].
  rewrite E, E'. destruct (p x); [by exists ([] :: fs), f; destruct (p c)|].
  destruct fs as [|g fs]; [by exists [], (x :: f); destruct (p c)|]. by exists ((x :: g) :: fs), f; destruct (p c).
Qed.
