(* ===== verification/Syscall.v ===== *)
(** * System calls (src/kernel/syscall.c)

    [syscall_handler] is what [int 0x80] runs: it takes the number and the
    arguments from the saved registers, calls the entry of the system-call
    table and stores the result in the saved [rax].  The calls work on the
    whole kernel of Kernel.v.

    A call that gives the CPU away for good or for a while ([sys_exit],
    [sys_wait]) ends with [Switched]: the stack it was running on is left, and
    the result that some later switch back to it would give is not yet known.
    A pointer argument is dereferenced in the memory the kernel sees, which is
    identity mapped and apart from the kernel's own objects (see Kernel.v).

    Interrupt 0x80 goes through an interrupt gate to [isr128], which starts with
    [cli], and no [sti] is executed before the [hlt] of [sys_read] or that of
    [sleep_ms]: a call that halts the CPU halts it for good ([Halt]). *)
From S2P Require Import Prelude Mem PageAlloc Pmm Kmalloc Pcb Vmm Pipe Sched Fs Console Keyboard Boot Kernel Strings.

Definition SYS_EXIT : Z := 1.
Definition SYS_WRITE : Z := 2.
Definition SYS_READ : Z := 3.
Definition SYS_GETPID : Z := 4.
Definition SYS_SLEEP : Z := 5.
Definition SYS_SBRK : Z := 6.
Definition SYS_FORK : Z := 7.
Definition SYS_WAIT : Z := 8.
Definition SYS_EXECVE : Z := 9.
Definition SYS_PS : Z := 10.
Definition SYS_OPEN : Z := 11.
Definition SYS_CLOSE : Z := 12.
Definition SYS_STAT : Z := 13.
Definition SYS_MKDIR : Z := 14.
Definition SYS_READDIR : Z := 15.
Definition SYS_KILL : Z := 16.
Definition SYS_PIPE : Z := 17.
Definition SYS_DUP2 : Z := 18.
Definition STDIN : Z := 0.
Definition STDOUT : Z := 1.
Definition STDERR : Z := 2.
Definition MAX_SYSCALLS : Z := 64.

Inductive sysret : Type := Done (v : Z) | Switched.
(** [return -1] from a function of type [uint64_t]. *)
Definition FAIL : Z := u64 (-1).

(** ** Memory of the caller *)

Definition load_bytes (p n : Z) : M kernel (list Z) :=
  gets (λ s, (λ i, ld8 (k_mem s) (p + Z.of_nat i)) <$> seq 0 (Z.to_nat n)).
Fixpoint store_bytes (p : Z) (l : list Z) : M kernel unit :=
  match l with [] => mret () | x :: l' => store8 p x;; store_bytes (p + 1) l' end.
(** [*(int* )p = v]. *)
Definition store32 (p v : Z) : M kernel unit := store_bytes p (le32_bytes (u32 v)).
(** The C string at [p]; the strings passed to the kernel are shorter than the
    bound. *)
Definition STRING_FUEL : nat := 4096.
Fixpoint string_from (fuel : nat) (m : mem) (p : Z) : option (list Z) :=
  match fuel with
  | O => None
  | S fuel' =>
      if ld8 m p =? 0 then Some []
      else match string_from fuel' m (p + 1) with Some l => Some (ld8 m p :: l) | None => None end
  end.
Definition load_string (p : Z) : M kernel (list Z) :=
  m ← gets k_mem;
  match string_from STRING_FUEL m p with Some l => mret l | None => out_of_fuel end.
(** "Skip leading slash". *)
Definition skip_slash (path : list Z) : list Z :=
  match path with c :: path' => if c =? 47 then path' else path | [] => [] end.

(** ** The calls *)
Section syscalls.
(** Addresses the linker decides. *)
Variables idle_process builtin_hello_main shell_main_addr init_main shell_v2_main : Z.
(** Declared in signal.c and defined nowhere in the repository. *)
Variable process_find_by_pid : Z → sched → Z.
(** Bound on the iterations of the polling loops of a pipe and of [sys_wait]. *)
Variable fuel : nat.

Definition get_current : M kernel Z := at_sched (process_get_current idle_process).
Definition get_fd_table : M kernel Z :=
  current ← get_current;
  if current =? 0 then mret 0 else
  p ← pderef current;
  mret (p_fd_table p).

(** The pipe at an address. *)
Definition at_pipe {A} (p : Z) (c : M pipe_t A) : M kernel A :=
  m ← gets k_pipes;
  pi ← lift_opt (m !! p);
  zoom (λ _, pi) (λ pi' s, set_k_pipes (<[p := pi']> (k_pipes s)) s) c.
Definition pipe_new : M kernel Z :=
  p ← at_heap (kmalloc SIZEOF_PIPE);
  if p =? 0 then mret 0 else
  raw ← load_bytes p PIPE_SIZE;
  modify (λ s, set_k_pipes (<[p := pipe_create raw]> (k_pipes s)) s);;
  mret p.

Definition sys_exit (status : Z) : M kernel sysret :=
  current ← get_current;
  if current =? 0 then mret (Done 0) else
  psay "
[SYSCALL] Process ";;
  p ← pderef current;
  pwrite (c_string (p_name p));;
  psay " exiting with status: ";;
  psay "
";;
  passign current (set_exit_status (s32 status));;
  passign current (set_state PROCESS_STATE_ZOMBIE);;
  p ← pderef current;
  switched ← (if p_parent_pid p =? 0 then at_sched (process_exit idle_process (s32 status))
              else at_sched (schedule idle_process));
  mret (if (switched : bool) then Switched else Done 0).

Definition sys_write (fd buf_ptr count : Z) : M kernel sysret :=
  if (buf_ptr =? 0) || (count =? 0) then mret (Done 0) else
  if (fd =? STDOUT) || (fd =? STDERR) then
    for_loop (Z.to_nat count) 0 (λ i, c ← load8 (buf_ptr + i); at_console (terminal_putchar c));;
    mret (Done count)
  else
  fd_table ← get_fd_table;
  if negb (fd_table =? 0) && (fd <? MAX_FDS) then
    e ← get_fd fd_table fd;
    if negb (fd_is_pipe e =? 0) && negb (fd_pipe e =? 0) then
      buf ← load_bytes buf_ptr count;
      r ← at_pipe (fd_pipe e) (pipe_write fuel buf count);
      mret (Done (u64 r))
    else if negb (fd_node e =? -1) then
      buf ← load_bytes buf_ptr (u32 count);
      written ← at_fs (fs_write (fd_node e) (fd_offset e) (u32 count) buf);
      (if 0 <? written
       then put_fd fd_table fd (λ e, FdEntry (fd_node e) (fd_pipe e) (u32 (fd_offset e + written)) (fd_flags e) (fd_is_pipe e))
       else mret ());;
      mret (Done (u64 written))
    else mret (Done FAIL)
  else mret (Done FAIL).

(** The loop of [sys_read] on the keyboard.  Interrupts are disabled, so no key
    fills the ring during the call and nothing ends the [hlt]. *)
Fixpoint stdin_loop (steps : nat) (buf count read : Z) : M kernel Z :=
  match steps with
  | O => out_of_fuel
  | S steps' =>
      if read <? count then
        has ← at_kbd keyboard_has_char;
        if (has : bool) then
          c ← at_kbd keyboard_getchar;
          store8 (buf + read) c;;
          if c =? 10 then mret (read + 1) else stdin_loop steps' buf count (read + 1)
        else halt
      else mret read
  end.

Definition sys_read (fd buf_ptr count : Z) : M kernel sysret :=
  if (buf_ptr =? 0) || (count =? 0) then mret (Done 0) else
  if fd =? STDIN then
    read ← stdin_loop (S (Z.to_nat count)) buf_ptr count 0;
    mret (Done read)
  else
  fd_table ← get_fd_table;
  if negb (fd_table =? 0) && (fd <? MAX_FDS) then
    e ← get_fd fd_table fd;
    if negb (fd_is_pipe e =? 0) && negb (fd_pipe e =? 0) then
      r ← at_pipe (fd_pipe e) (pipe_read fuel count);
      store_bytes buf_ptr r.2;;
      mret (Done (u64 r.1))
    else if negb (fd_node e =? -1) then
      r ← at_fs (fs_read (fd_node e) (fd_offset e) (u32 count));
      store_bytes buf_ptr r.2;;
      (if 0 <? r.1
       then put_fd fd_table fd (λ e, FdEntry (fd_node e) (fd_pipe e) (u32 (fd_offset e + r.1)) (fd_flags e) (fd_is_pipe e))
       else mret ());;
      mret (Done (u64 r.1))
    else mret (Done FAIL)
  else mret (Done FAIL).

Definition sys_getpid : M kernel sysret := pid ← at_sched (process_get_pid idle_process); mret (Done pid).

(** No timer interrupt arrives during the call. *)
Definition sys_sleep (ms : Z) : M kernel sysret := at_board (sleep_ms (u32 ms) []);; mret (Done 0).

(** The loop of [sys_sbrk]: false when a page cannot be allocated. *)
Fixpoint sbrk_loop (steps : nat) (current page new_page : Z) : M kernel bool :=
  match steps with
  | O => out_of_fuel
  | S steps' =>
      if page <? new_page then
        p ← pderef current;
        if p_heap_current p <=? page then
          r ← at_phys (vmm_alloc_user_pages p page 1);
          passign current (λ _, r.2);;
          if r.1 <? 0 then mret false else sbrk_loop steps' current (u64 (page + PAGE_SIZE)) new_page
        else sbrk_loop steps' current (u64 (page + PAGE_SIZE)) new_page
      else mret true
  end.
Definition sys_sbrk (increment : Z) : M kernel sysret :=
  current ← get_current;
  if current =? 0 then mret (Done FAIL) else
  p ← pderef current;
  let old_heap := p_heap_current p in
  if increment =? 0 then mret (Done old_heap) else
  let new_heap := u64 (p_heap_current p + s64 increment) in
  if p_heap_max p <? new_heap then mret (Done FAIL) else
  if new_heap <? p_heap_start p then mret (Done FAIL) else
  ok ← (if 0 <? s64 increment then
          let old_page := mask_down 12 (p_heap_current p) in
          let new_page := mask_down 12 (u64 (new_heap + PAGE_SIZE - 1)) in
          sbrk_loop (S (Z.to_nat ((new_page - old_page) / PAGE_SIZE))) current old_page new_page
        else mret true);
  if negb ok then mret (Done FAIL) else
  passign current (set_heap_current new_heap);;
  mret (Done old_heap).

(** "Copy other process state" and "Copy memory layout info". *)
Definition fork_copy (parent : process_t) (child : Z) : M kernel unit :=
  passign child (set_context (p_context parent));;
  passign child (set_parent_pid (p_pid parent));;
  passign child (set_state PROCESS_STATE_READY);;
  passign child (set_priority (p_priority parent));;
  passign child (set_ticks_remaining DEFAULT_QUANTUM);;
  passign child (set_ticks_total 0);;
  passign child (set_heap_start (p_heap_start parent));;
  passign child (set_heap_current (p_heap_current parent));;
  passign child (set_heap_max (p_heap_max parent));;
  passign child (set_stack_bottom (p_stack_bottom parent));;
  passign child (set_stack_top (p_stack_top parent));;
  passign child (set_pages_allocated (p_pages_allocated parent));;
  passign child (set_page_faults 0).
(** "Copy file descriptor table". *)
Definition fork_fds (parent child : Z) : M kernel unit :=
  p ← pderef parent;
  c ← pderef child;
  if negb (p_fd_table p =? 0) && negb (p_fd_table c =? 0) then
    for_loop (Z.to_nat MAX_FDS) 0 (λ i, e ← get_fd (p_fd_table p) i; put_fd (p_fd_table c) i (λ _, e))
  else mret ().
(** "Copy process name with [child] suffix". *)
Definition fork_name (parent child : Z) : M kernel unit :=
  p ← pderef parent;
  c ← pderef child;
  nm ← lift_opt (strncpy (p_name c) (c_string (p_name p)) 24);
  nm ← lift_opt (string_concat nm (bytes_of "[child]"));
  passign child (set_name nm).

Definition sys_fork : M kernel sysret :=
  parent ← get_current;
  if parent =? 0 then mret (Done FAIL) else
  psay "[FORK] Starting fork from PID ";;
  psay "
";;
  child ← allocate_process_struct;
  if child =? 0 then
    psay "[FORK] Failed to allocate child process
";;
    mret (Done FAIL)
  else
  fork_name parent child;;
  p ← pderef parent;
  page_table ← at_phys (vmm_clone_address_space pml4 (p_page_table p));
  passign child (set_page_table page_table);;
  if page_table =? 0 then
    psay "[FORK] Failed to clone address space
";;
    free_process_struct child;;
    mret (Done FAIL)
  else
  p ← pderef parent;
  fork_copy p child;;
  fork_fds parent child;;
  at_sched (ready_queue_push child);;
  psay "[FORK] Created child PID ";;
  psay "
";;
  c ← pderef child;
  mret (Done (p_pid c)).

(** The loop of [sys_wait]. *)
Fixpoint wait_loop (steps : nat) (parent status_ptr : Z) : M kernel sysret :=
  match steps with
  | O => out_of_fuel
  | S steps' =>
      p ← pderef parent;
      child ← find_zombie_child (p_pid p);
      if negb (child =? 0) then
        c ← pderef child;
        (if negb (status_ptr =? 0) then store32 status_ptr (p_exit_status c) else mret ());;
        psay "[WAIT] Reaping child PID ";;
        psay "
";;
        free_process_struct child;;
        mret (Done (p_pid c))
      else
        passign parent (set_state PROCESS_STATE_WAITING);;
        switched ← at_sched (schedule idle_process);
        if (switched : bool) then mret Switched else wait_loop steps' parent status_ptr
  end.
Definition sys_wait (status_ptr : Z) : M kernel sysret :=
  parent ← get_current;
  if parent =? 0 then mret (Done FAIL) else
  psay "[WAIT] Process waiting for child
";;
  wait_loop fuel parent status_ptr.

Definition builtins : list (list Z * Z * list Z) :=
  [(bytes_of "/bin/hello", builtin_hello_main, bytes_of "hello");
   (bytes_of "/bin/shell", shell_main_addr, bytes_of "shell");
   (bytes_of "/bin/init", init_main, bytes_of "init");
   (bytes_of "/bin/shell_v2", shell_v2_main, bytes_of "shell_v2")].
Definition exec_builtin (current entry : Z) (name : list Z) : M kernel sysret :=
  psay "[EXEC] Loading built-in program: ";;
  pwrite name;;
  psay "
";;
  p ← pderef current;
  at_phys (vmm_clear_user_space (p_page_table p));;
  passign current (λ p, set_context (set_rip entry (p_context p)) p);;
  passign current (λ p, set_context (set_rsp (USER_STACK_TOP - 16) (p_context p)) p);;
  passign current (λ p, set_context (set_rflags 0x202 (p_context p)) p);;
  p ← pderef current;
  nm ← lift_opt (strncpy (p_name p) name 31);
  nm ← lift_opt (arr_set nm 31 0);
  passign current (set_name nm);;
  mret (Done 0).
Fixpoint exec_search (current : Z) (path : list Z) (progs : list (list Z * Z * list Z)) : M kernel sysret :=
  match progs with
  | [] =>
      psay "[EXEC] Program not found: ";;
      pwrite path;;
      psay "
";;
      mret (Done FAIL)
  | (bpath, entry, name) :: progs' =>
      if bool_decide (path = bpath) then exec_builtin current entry name else exec_search current path progs'
  end.
Definition sys_execve (path_ptr : Z) : M kernel sysret :=
  current ← get_current;
  if (current =? 0) || (path_ptr =? 0) then mret (Done FAIL) else
  path ← load_string path_ptr;
  psay "[EXEC] Executing: ";;
  pwrite path;;
  psay "
";;
  exec_search current path builtins.

Definition state_str (st : process_state_t) : list Z :=
  match st with
  | PROCESS_STATE_READY => bytes_of "READY"
  | PROCESS_STATE_RUNNING => bytes_of "RUN"
  | PROCESS_STATE_BLOCKED => bytes_of "BLOCK"
  | PROCESS_STATE_WAITING => bytes_of "WAIT"
  | PROCESS_STATE_ZOMBIE => bytes_of "ZOMBIE"
  | PROCESS_STATE_TERMINATED => bytes_of "TERM"
  end.
(** A number, through a local buffer of 16 bytes whose old contents do not
    matter. *)
Definition ps_number (n : Z) : M kernel unit :=
  str ← lift_opt (int_to_string n (replicate 16 0));
  pwrite (c_string str);;
  psay "    ".
Definition ps_line (p : process_t) : M kernel unit :=
  ps_number (p_pid p);;
  ps_number (p_parent_pid p);;
  pwrite (state_str (p_state p));;
  let state_len := Z.of_nat (length (state_str (p_state p))) in
  for_loop (Z.to_nat (8 - state_len)) state_len (λ _, psay " ");;
  psay "  ";;
  pwrite (c_string (p_name p));;
  psay "
".
Definition sys_ps : M kernel sysret :=
  psay "PID  PPID  STATE     NAME
";;
  psay "---  ----  --------  ----------
";;
  for_loop (Z.to_nat MAX_PROCESSES) 0 (λ i,
    t ← gets (λ s, process_table (sch (k_in s)));
    proc ← lift_opt (arr_get t i);
    if negb (proc =? 0) then p ← pderef proc; ps_line p else mret ());;
  mret (Done 0).

(** An entry with neither a node nor a pipe. *)
Definition fd_free (e : fd_entry_t) : bool := (fd_node e =? -1) && (fd_pipe e =? 0).

Definition sys_open (path_ptr flags : Z) : M kernel sysret :=
  if path_ptr =? 0 then mret (Done FAIL) else
  fd_table ← get_fd_table;
  if fd_table =? 0 then mret (Done FAIL) else
  fd ← for_until (Z.to_nat (MAX_FDS - 3)) 3 (λ i, e ← get_fd fd_table i; mret (if fd_free e then Some i else None));
  match fd with
  | None => mret (Done FAIL)
  | Some fd =>
      root ← at_fs fs_root;
      if root =? -1 then mret (Done FAIL) else
      path ← load_string path_ptr;
      let path := skip_slash path in
      node ← at_fs (fs_finddir root path);
      node ← (if node =? -1 then at_fs (ramfs_create_file root path) else mret node);
      if node =? -1 then mret (Done FAIL) else
      put_fd fd_table fd (λ e, FdEntry node (fd_pipe e) 0 (s32 flags) 0);;
      mret (Done fd)
  end.

Definition sys_close (fd : Z) : M kernel sysret :=
  fd_table ← get_fd_table;
  if (fd_table =? 0) || (MAX_FDS <=? fd) then mret (Done FAIL) else
  put_fd fd_table fd (λ _, fd_clear);;
  mret (Done 0).

Definition sys_stat (path_ptr stat_ptr : Z) : M kernel sysret :=
  if (path_ptr =? 0) || (stat_ptr =? 0) then mret (Done FAIL) else
  root ← at_fs fs_root;
  if root =? -1 then mret (Done FAIL) else
  path ← load_string path_ptr;
  node ← at_fs (fs_finddir root (skip_slash path));
  if node =? -1 then mret (Done FAIL) else
  n ← at_fs (get_node node);
  store32 stat_ptr (n_size n);;
  store32 (stat_ptr + 4) (n_type n);;
  mret (Done 0).

Definition sys_mkdir (path_ptr : Z) : M kernel sysret :=
  if path_ptr =? 0 then mret (Done FAIL) else
  root ← at_fs fs_root;
  if root =? -1 then mret (Done FAIL) else
  path ← load_string path_ptr;
  dir ← at_fs (ramfs_create_dir root (skip_slash path));
  if dir =? -1 then mret (Done FAIL) else mret (Done 0).

Definition sys_readdir (fd dirent_ptr : Z) : M kernel sysret :=
  fd_table ← get_fd_table;
  if (fd_table =? 0) || (MAX_FDS <=? fd) then mret (Done FAIL) else
  e ← get_fd fd_table fd;
  if fd_node e =? -1 then mret (Done FAIL) else
  n ← at_fs (get_node (fd_node e));
  if negb (n_type n =? FS_TYPE_DIR) then mret (Done FAIL) else
  entry ← at_fs (fs_readdir (fd_node e) (fd_offset e));
  match entry with
  | None => mret (Done 0)
  | Some d =>
      store_bytes dirent_ptr (take 31 (c_string (d_name d) ++ replicate 31 0));;
      store8 (dirent_ptr + 31) 0;;
      store32 (dirent_ptr + 32) FS_TYPE_FILE;;
      put_fd fd_table fd (λ e, FdEntry (fd_node e) (fd_pipe e) (u32 (fd_offset e + 1)) (fd_flags e) (fd_is_pipe e));;
      mret (Done 1)
  end.

Definition sys_kill (pid sig : Z) : M kernel sysret :=
  at_sched (signal_send process_find_by_pid (s32 pid) (s32 sig));; mret (Done 0).

(** "Find two free fds", from [i] on. *)
Fixpoint find_two (k : nat) (i fd_table read_fd : Z) : M kernel (Z * Z) :=
  match k with
  | O => mret (read_fd, -1)
  | S k' =>
      e ← get_fd fd_table i;
      if fd_free e then
        if read_fd =? -1 then find_two k' (i + 1) fd_table i else mret (read_fd, i)
      else find_two k' (i + 1) fd_table read_fd
  end.
Definition sys_pipe (pipefd_ptr : Z) : M kernel sysret :=
  if pipefd_ptr =? 0 then mret (Done FAIL) else
  fd_table ← get_fd_table;
  if fd_table =? 0 then mret (Done FAIL) else
  pipe ← pipe_new;
  if pipe =? 0 then mret (Done FAIL) else
  fds ← find_two (Z.to_nat (MAX_FDS - 3)) 3 fd_table (-1);
  if (fds.1 =? -1) || (fds.2 =? -1) then at_pipe pipe pipe_destroy;; mret (Done FAIL) else
  put_fd fd_table fds.1 (λ e, FdEntry (fd_node e) pipe (fd_offset e) 0 1);;
  put_fd fd_table fds.2 (λ e, FdEntry (fd_node e) pipe (fd_offset e) 1 1);;
  store32 pipefd_ptr fds.1;;
  store32 (pipefd_ptr + 4) fds.2;;
  mret (Done 0).

Definition sys_dup2 (oldfd newfd : Z) : M kernel sysret :=
  fd_table ← get_fd_table;
  if fd_table =? 0 then mret (Done FAIL) else
  if (MAX_FDS <=? oldfd) || (MAX_FDS <=? newfd) then mret (Done FAIL) else
  o ← get_fd fd_table oldfd;
  if fd_free o then mret (Done FAIL) else
  if oldfd =? newfd then mret (Done newfd) else
  n ← get_fd fd_table newfd;
  (if negb (fd_free n) then
     (if negb (fd_node n =? -1) then at_fs (fs_close (fd_node n)) else mret ());;
     put_fd fd_table newfd (λ e, FdEntry (-1) 0 (fd_offset e) (fd_flags e) (fd_is_pipe e))
   else mret ());;
  o ← get_fd fd_table oldfd;
  put_fd fd_table newfd (λ _, o);;
  mret (Done newfd).

(** ** The handler *)

Definition call (f : syscall_func) (a1 a2 a3 : Z) : M kernel sysret :=
  match f with
  | sys_exit_f => sys_exit a1
  | sys_write_f => sys_write a1 a2 a3
  | sys_read_f => sys_read a1 a2 a3
  | sys_getpid_f => sys_getpid
  | sys_sleep_f => sys_sleep a1
  | sys_sbrk_f => sys_sbrk a1
  | sys_fork_f => sys_fork
  | sys_wait_f => sys_wait a1
  | sys_execve_f => sys_execve a1
  | sys_ps_f => sys_ps
  | sys_open_f => sys_open a1 a2
  | sys_close_f => sys_close a1
  | sys_stat_f => sys_stat a1 a2
  | sys_mkdir_f => sys_mkdir a1
  | sys_readdir_f => sys_readdir a1 a2
  | sys_kill_f => sys_kill a1 a2
  | sys_pipe_f => sys_pipe a1
  | sys_dup2_f => sys_dup2 a1 a2
  end.

Definition set_rax (v : Z) (r : registers) : registers :=
  Registers (r_r15 r) (r_r14 r) (r_r13 r) (r_r12 r) (r_r11 r) (r_r10 r) (r_r9 r) (r_r8 r)
    (r_rdi r) (r_rsi r) (r_rbp r) (r_rbx r) (r_rdx r) (r_rcx r) v
    (int_no r) (err_code r) (r_rip r) (r_cs r) (r_rflags r) (r_rsp r) (r_ss r).

(** The saved registers afterwards; [None] when the stack they are on has been
    left. *)
Definition syscall_handler (regs : registers) : M kernel (option registers) :=
  let syscall_num := r_rax regs in
  table ← gets syscall_table;
  entry ← (if MAX_SYSCALLS <=? syscall_num then mret None else lift_opt (arr_get table syscall_num));
  match entry with
  | None => mret (Some (set_rax FAIL regs))
  | Some f =>
      result ← call f (r_rdi regs) (r_rsi regs) (r_rdx regs);
      mret (match result with Done v => Some (set_rax v regs) | Switched => None end)
  end.

Definition set_syscall (n : Z) (f : option syscall_func) : M kernel unit :=
  t ← gets syscall_table; t' ← lift_opt (arr_set t n f); modify (set_syscall_table t').
Definition init_syscalls : M kernel unit :=
  for_loop (Z.to_nat MAX_SYSCALLS) 0 (λ i, set_syscall i None);;
  set_syscall SYS_EXIT (Some sys_exit_f);;
  set_syscall SYS_WRITE (Some sys_write_f);;
  set_syscall SYS_READ (Some sys_read_f);;
  set_syscall SYS_GETPID (Some sys_getpid_f);;
  set_syscall SYS_SLEEP (Some sys_sleep_f);;
  set_syscall SYS_SBRK (Some sys_sbrk_f);;
  set_syscall SYS_FORK (Some sys_fork_f);;
  set_syscall SYS_WAIT (Some sys_wait_f);;
  set_syscall SYS_EXECVE (Some sys_execve_f);;
  set_syscall SYS_PS (Some sys_ps_f);;
  set_syscall SYS_OPEN (Some sys_open_f);;
  set_syscall SYS_CLOSE (Some sys_close_f);;
  set_syscall SYS_STAT (Some sys_stat_f);;
  set_syscall SYS_MKDIR (Some sys_mkdir_f);;
  set_syscall SYS_READDIR (Some sys_readdir_f);;
  set_syscall SYS_KILL (Some sys_kill_f);;
  set_syscall SYS_PIPE (Some sys_pipe_f);;
  set_syscall SYS_DUP2 (Some sys_dup2_f);;
  at_board (register_interrupt_handler 0x80 syscall_handler_h);;
  psay "System call interface initialized (INT 0x80)
".

(** ** The callers' side *)

(** [syscall3]: the registers the wrapper loads, and the value of [rax] that
    [int 0x80] leaves; the other registers are the caller's.  [None] when
    control does not come back from this entry. *)
Definition syscall3 (regs : registers) (num arg1 arg2 arg3 : Z) : M kernel (option Z) :=
  r ← syscall_handler (Registers (r_r15 regs) (r_r14 regs) (r_r13 regs) (r_r12 regs) (r_r11 regs) (r_r10 regs)
        (r_r9 regs) (r_r8 regs) arg1 arg2 (r_rbp regs) (r_rbx regs) arg3 (r_rcx regs) num
        0x80 0 (r_rip regs) (r_cs regs) (r_rflags regs) (r_rsp regs) (r_ss regs));
  mret (r_rax <$> r).
Definition syscall2 (regs : registers) (num arg1 arg2 : Z) : M kernel (option Z) :=
  syscall3 regs num arg1 arg2 (r_rdx regs).
Definition syscall1 (regs : registers) (num arg1 : Z) : M kernel (option Z) :=
  syscall3 regs num arg1 (r_rsi regs) (r_rdx regs).
Definition syscall0 (regs : registers) (num : Z) : M kernel (option Z) :=
  syscall3 regs num (r_rdi regs) (r_rsi regs) (r_rdx regs).

(** The program [hello]; [msg] is the address of its text. *)
Definition builtin_hello (regs : registers) (msg : Z) : M kernel (option Z) :=
  psay "[BUILTIN] Hello program started!
";;
  syscall3 regs SYS_WRITE 1 msg 25;;
  syscall1 regs SYS_EXIT 42.

(** The demonstration shell: it exits in the first iteration, unless the call
    comes back. *)
Fixpoint shell_loop (steps : nat) (regs : registers) : M kernel unit :=
  match steps with
  | O => out_of_fuel
  | S steps' =>
      psay "$ ";;
      psay "Shell running! Press 'F' to test fork/exec instead.
";;
      psay "This is a demo shell. Real shell needs keyboard input integration.
";;
      r ← syscall1 regs SYS_EXIT 0;
      match r with None => mret () | Some _ => shell_loop steps' regs end
  end.
Definition shell_main (regs : registers) : M kernel unit :=
  psay "
=== SimpleOS Shell ===
";;
  psay "Type 'help' for commands

";;
  shell_loop fuel regs.
End syscalls.

(** ** Descriptors of the running process *)

(** The table [init_syscalls] leaves. *)
Definition installed : list (option syscall_func) :=
  [None; Some sys_exit_f; Some sys_write_f; Some sys_read_f; Some sys_getpid_f; Some sys_sleep_f; Some sys_sbrk_f;
   Some sys_fork_f; Some sys_wait_f; Some sys_execve_f; Some sys_ps_f; Some sys_open_f; Some sys_close_f; Some sys_stat_f;
   Some sys_mkdir_f; Some sys_readdir_f; Some sys_kill_f; Some sys_pipe_f; Some sys_dup2_f] ++ replicate 45 None.

Section descriptors.
Context (idle : Z).

(** The running process has the descriptor table [l] at [t]. *)
Record has_fds (s : kernel) (t : Z) (l : list fd_entry_t) : Prop := {
  hf_running : running idle (k_sched s) ≠ 0;
  hf_process : ∃ pr, pcbs (k_sched s) !! running idle (k_sched s) = Some pr ∧ p_fd_table pr = t;
  hf_addr : t ≠ 0;
  hf_table : k_fds s !! t = Some l;
  hf_length : length l = 16%nat;
}.
Definition with_fds (s : kernel) (t : Z) (l : list fd_entry_t) : kernel := set_k_fds (<[t := l]> (k_fds s)) s.

Lemma wp_get_current s Q : Q (running idle (k_sched s)) s → wp (get_current idle) s Q.
Proof.
  intros HQ. apply wp_at_sched_quiet. unfold process_get_current. apply wp_bind, wp_gets, wp_ret. split; [done|].
  rewrite upd_sched_id. exact HQ.
Qed.
Lemma wp_get_fd_table s t l Q : has_fds s t l → Q t s → wp (get_fd_table idle) s Q.
Proof.
  intros [Hr (pr & Hp & <-) _ _ _] HQ. unfold get_fd_table. apply wp_bind, wp_get_current.
  rewrite (proj2 (Z.eqb_neq _ 0)) by done. apply wp_bind. eapply wp_pderef; [exact Hp|]. by apply wp_ret.
Qed.
Lemma has_fds_with s t l l' : has_fds s t l → length l' = 16%nat → has_fds (with_fds s t l') t l'.
Proof. intros [? ? ? ? ?] ?. split; try done. cbn. apply lookup_insert_eq. Qed.

(** The first free descriptor from 3 on. *)
Definition first_free (l : list fd_entry_t) (r : option Z) : Prop :=
  match r with
  | Some fd => 3 ≤ fd < 16 ∧ (∃ e, arr_get l fd = Some e ∧ fd_free e = true) ∧
      ∀ i e, 3 ≤ i < fd → arr_get l i = Some e → fd_free e = false
  | None => ∀ i e, 3 ≤ i < 16 → arr_get l i = Some e → fd_free e = false
  end.
Lemma wp_first_free s t l :
  has_fds s t l →
  wp (for_until (Z.to_nat (MAX_FDS - 3)) 3 (λ i, e ← get_fd t i; mret (if fd_free e then Some i else None))) s
    (λ r s', s' = s ∧ first_free l r).
Proof.
  intros H. apply (wp_for_until (λ i s', s' = s ∧ ∀ k e, 3 ≤ k < i → arr_get l k = Some e → fd_free e = false)).
  - split; [done|]. intros; lia.
  - intros i s' Hi [-> Hno]. change (3 + Z.of_nat (Z.to_nat (MAX_FDS - 3))) with 16 in Hi.
    destruct (arr_get_is_Some l i) as [e He]; [rewrite (hf_length _ _ _ H); lia|].
    apply wp_bind. eapply wp_get_fd; [apply H|exact He|]. apply wp_ret. destruct (fd_free e) eqn:Ef.
    + split; [done|]. split; [done|]. split; [eauto|done].
    + split; [done|]. intros k e' Hk He'. destruct (decide (k = i)) as [->|]; [congruence|]. eapply Hno; [|done]. lia.
  - intros s' [-> Hno]. split; [done|]. exact Hno.
Qed.

Lemma wp_sys_open s t l b cs path_ptr path flags j :
  has_fds s t l → path_ptr ≠ 0 → string_from STRING_FUEL (k_mem s) path_ptr = Some path →
  fs_wf (k_fs s) cs → is_dir (k_fs s) (root (k_fs s)) b → found (k_fs s) b (skip_slash path) j →
  wp (sys_open idle path_ptr flags) s (λ r s',
    (r = Done FAIL ∧ s' = s ∧ first_free l None) ∨
    ∃ fd, first_free l (Some fd) ∧ r = Done fd ∧ s' = with_fds s t (<[Z.to_nat fd := FdEntry j 0 0 (s32 flags) 0]> l)).
Proof.
  intros H Hp Hpath Hw Hd Hfound. unfold sys_open. rewrite (proj2 (Z.eqb_neq path_ptr 0)) by done.
  apply wp_bind. eapply wp_get_fd_table; [exact H|]. rewrite (proj2 (Z.eqb_neq t 0)) by apply H.
  apply wp_bind. eapply wp_mono; [by apply wp_first_free|]. cbn beta. intros fd s' [-> Hfd]. destruct fd as [fd|]; [|by apply wp_ret; left].
  apply wp_bind, wp_zoom, wp_gets.
  assert (Hroot : 0 ≤ root (k_fs s)) by (destruct Hd as (n & Hn & _); apply arr_get_Some in Hn as [? _]; lia).
  rewrite (proj2 (Z.eqb_neq (root _) (-1))) by lia. replace (set_k_fs (k_fs s) s) with s by by destruct s.
  apply wp_bind. unfold load_string. apply wp_bind, wp_gets. rewrite Hpath. apply wp_ret.
  apply wp_bind, wp_zoom. eapply wp_mono; [by eapply wp_finddir_found|]. cbn beta. intros r fs' [-> ->].
  replace (set_k_fs (k_fs s) s) with s by by destruct s.
  assert (Hj : 0 ≤ j) by (destruct Hfound as (n & i & Hn & _); apply arr_get_Some in Hn as [? _]; lia).
  rewrite (proj2 (Z.eqb_neq j (-1))) by lia. apply wp_bind, wp_ret. rewrite (proj2 (Z.eqb_neq j (-1))) by lia.
  destruct Hfd as (Hr & (e & He & Hfree) & Hmin). apply wp_bind. eapply wp_put_fd; [apply H|exact He|].
  apply wp_ret. right. exists fd. split; [split_and!; eauto; lia|]. split; [done|]. unfold with_fds. do 4 f_equal.
  apply andb_prop in Hfree as [_ ->%Z.eqb_eq]. done.
Qed.

Lemma wp_sys_close s t l fd :
  has_fds s t l → 0 ≤ fd < 16 →
  wp (sys_close idle fd) s (λ r s', r = Done 0 ∧ s' = with_fds s t (<[Z.to_nat fd := fd_clear]> l)).
Proof.
  intros H Hfd. unfold sys_close. apply wp_bind. eapply wp_get_fd_table; [exact H|].
  rewrite (proj2 (Z.eqb_neq t 0)) by apply H. rewrite (proj2 (Z.leb_gt MAX_FDS fd)) by (unfold MAX_FDS; lia). cbn [orb].
  destruct (arr_get_is_Some l fd) as [e He]; [rewrite (hf_length _ _ _ H); lia|].
  apply wp_bind. eapply wp_put_fd; [apply H|exact He|]. by apply wp_ret.
Qed.
End descriptors.

(** ** Buffers *)

Definition bytes_at (m : mem) (p n : Z) : list Z := (λ i, ld8 m (p + Z.of_nat i)) <$> seq 0 (Z.to_nat n).
Fixpoint st_bytes (m : mem) (p : Z) (l : list Z) : mem :=
  match l with [] => m | x :: l' => st_bytes (st8 m p x) (p + 1) l' end.

Lemma bytes_at_length m p n : 0 ≤ n → Z.of_nat (length (bytes_at m p n)) = n.
Proof. intros. unfold bytes_at. rewrite length_fmap, length_seq. lia. Qed.
Lemma bytes_at_get m p n i : 0 ≤ i < n → arr_get (bytes_at m p n) i = Some (ld8 m (p + i)).
Proof.
  intros Hi. unfold arr_get, bytes_at. rewrite (proj2 (Z.leb_le 0 i)) by lia. rewrite list_lookup_fmap, lookup_seq_lt by lia. cbn.
  do 2 f_equal. lia.
Qed.
Lemma wp_store_bytes l p s Q : Q () (set_k_mem (st_bytes (k_mem s) p l) s) → wp (store_bytes p l) s Q.
Proof.
  revert p s. induction l as [|x l IH]; intros p s HQ; cbn [store_bytes st_bytes] in *.
  - apply wp_ret. by destruct s.
  - apply wp_bind, wp_store8, IH. by destruct s.
Qed.
Lemma st_bytes_wf m p l : mem_wf m → mem_wf (st_bytes m p l).
Proof. revert m p. induction l as [|x l IH]; intros m p Hm; [done|]. cbn. apply IH. by apply mem_wf_st8. Qed.
Lemma ld8_st_bytes m p l x :
  mem_wf m → ld8 (st_bytes m p l) x = match arr_get l (x - p) with Some v => u8 v | None => ld8 m x end.
Proof.
  revert m p. induction l as [|v l IH]; intros m p Hm; cbn [st_bytes].
  { unfold arr_get. by destruct (0 <=? x - p). }
  rewrite IH by by apply mem_wf_st8. unfold arr_get.
  destruct (decide (x = p)) as [->|Hx].
  - rewrite Z.sub_diag. rewrite (proj2 (Z.leb_gt 0 (p - (p + 1)))) by lia. cbn. by rewrite ld8_st8_same.
  - destruct (Z.leb_spec 0 (x - (p + 1))).
    + rewrite (proj2 (Z.leb_le 0 (x - p))) by lia. replace (Z.to_nat (x - p)) with (S (Z.to_nat (x - (p + 1)))) by lia.
      cbn. destruct (l !! Z.to_nat (x - (p + 1))); [done|]. by rewrite ld8_st8_other.
    + rewrite (proj2 (Z.leb_gt 0 (x - p))) by lia. by rewrite ld8_st8_other.
Qed.

(** ** Reading and writing open files *)
Section files.
Context (idle : Z) (fuel : nat).

Lemma fds_lookup s t l fd : has_fds idle s t l → 0 ≤ fd < 16 → ∃ e, arr_get l fd = Some e.
Proof. intros H Hfd. apply arr_get_is_Some. rewrite (hf_length _ _ _ _ H). lia. Qed.

(** An entry moved on by the bytes transferred. *)
Definition advance (n : Z) (e : fd_entry_t) : fd_entry_t :=
  FdEntry (fd_node e) (fd_pipe e) (u32 (fd_offset e + n)) (fd_flags e) (fd_is_pipe e).
Definition advanced (s : kernel) (t : Z) (l : list fd_entry_t) (fd n : Z) (e : fd_entry_t) : kernel :=
  if 0 <? n then with_fds s t (<[Z.to_nat fd := advance n e]> l) else s.

Lemma wp_sys_write_file s t l fd e buf count P :
  has_fds idle s t l → 0 ≤ fd < 16 → fd ≠ STDOUT → fd ≠ STDERR → arr_get l fd = Some e → fd_is_pipe e = 0 → fd_node e ≠ -1 →
  buf ≠ 0 → 0 < count < 2 ^ 32 →
  wp (fs_write (fd_node e) (fd_offset e) count (bytes_at (k_mem s) buf count)) (k_fs s) P →
  wp (sys_write idle fuel fd buf count) s (λ r s', ∃ w fs', P w fs' ∧ r = Done (u64 w) ∧ s' = advanced (set_k_fs fs' s) t l fd w e).
Proof.
  intros H Hfd H1 H2 He Hp Hn Hb Hc HP. unfold sys_write. rewrite (proj2 (Z.eqb_neq buf 0)), (proj2 (Z.eqb_neq count 0)) by lia.
  rewrite (proj2 (Z.eqb_neq fd STDOUT)), (proj2 (Z.eqb_neq fd STDERR)) by done. cbn [orb].
  apply wp_bind. eapply wp_get_fd_table; [exact H|]. rewrite (proj2 (Z.eqb_neq t 0)) by apply H.
  rewrite (proj2 (Z.ltb_lt fd MAX_FDS)) by (unfold MAX_FDS; lia). cbn [negb andb].
  apply wp_bind. eapply wp_get_fd; [apply H|exact He|]. rewrite Hp, (proj2 (Z.eqb_neq (fd_node e) (-1))) by done. cbn [Z.eqb negb andb].
  rewrite u32_id by lia. apply wp_bind, wp_gets. apply wp_bind, wp_zoom. eapply wp_mono; [exact HP|]. cbn beta. intros w fs' HPw.
  unfold advanced. destruct (0 <? w) eqn:E.
  - apply wp_bind. eapply wp_put_fd; [apply H|exact He|]. apply wp_ret. exists w, fs'. by rewrite E.
  - apply wp_bind, wp_ret, wp_ret. exists w, fs'. by rewrite E.
Qed.

Lemma wp_sys_read_file s t l fd e buf count P :
  has_fds idle s t l → 0 < fd < 16 → arr_get l fd = Some e → fd_is_pipe e = 0 → fd_node e ≠ -1 →
  buf ≠ 0 → 0 < count < 2 ^ 32 →
  wp (fs_read (fd_node e) (fd_offset e) count) (k_fs s) P →
  wp (sys_read idle fuel fd buf count) s (λ r s', ∃ q fs', P q fs' ∧ r = Done (u64 q.1) ∧
    s' = advanced (set_k_mem (st_bytes (k_mem s) buf q.2) (set_k_fs fs' s)) t l fd q.1 e).
Proof.
  intros H Hfd He Hp Hn Hb Hc HP. unfold sys_read. rewrite (proj2 (Z.eqb_neq buf 0)), (proj2 (Z.eqb_neq count 0)) by lia.
  rewrite (proj2 (Z.eqb_neq fd STDIN)) by (unfold STDIN; lia). cbn [orb].
  apply wp_bind. eapply wp_get_fd_table; [exact H|]. rewrite (proj2 (Z.eqb_neq t 0)) by apply H.
  rewrite (proj2 (Z.ltb_lt fd MAX_FDS)) by (unfold MAX_FDS; lia). cbn [negb andb].
  apply wp_bind. eapply wp_get_fd; [apply H|exact He|]. rewrite Hp, (proj2 (Z.eqb_neq (fd_node e) (-1))) by done. cbn [Z.eqb negb andb].
  rewrite u32_id by lia. apply wp_bind, wp_zoom. eapply wp_mono; [exact HP|]. cbn beta. intros q fs' HPq.
  apply wp_bind, wp_store_bytes. unfold advanced. destruct (0 <? q.1) eqn:E.
  - apply wp_bind. eapply wp_put_fd; [apply H|exact He|]. apply wp_ret. exists q, fs'. by rewrite E.
  - apply wp_bind, wp_ret, wp_ret. exists q, fs'. by rewrite E.
Qed.
End files.

Lemma has_fds_advanced idle s t l fd n e :
  has_fds idle s t l → ∃ l', has_fds idle (advanced s t l fd n e) t l' ∧ length l' = 16%nat.
Proof.
  intros H. unfold advanced. pose proof (hf_length _ _ _ _ H) as Hl. destruct (0 <? n); [|by exists l].
  exists (<[Z.to_nat fd := advance n e]> l). rewrite length_insert. split; [|done]. apply (has_fds_with _ _ _ l); [done|by rewrite length_insert].
Qed.
Lemma has_fds_fs idle s t l fs : has_fds idle s t l → has_fds idle (set_k_fs fs s) t l.
Proof. by intros []. Qed.
Lemma advanced_frame s t l fd n e : let s' := advanced s t l fd n e in
  k_mem s' = k_mem s ∧ k_fs s' = k_fs s ∧ syscall_table s' = syscall_table s.
Proof. unfold advanced. by destruct (0 <? n). Qed.

Section calls.
Context (idle hello shell init shell_v2 : Z) (find : Z → sched → Z) (fuel : nat).
Abbreviation sc3 := (syscall3 idle hello shell init shell_v2 find fuel).
Abbreviation sc2 := (syscall2 idle hello shell init shell_v2 find fuel).
Abbreviation sc1 := (syscall1 idle hello shell init shell_v2 find fuel).
Abbreviation callf := (call idle hello shell init shell_v2 find fuel).

(** Through the handler: the entry of the table runs on the arguments, and its
    result comes back in [rax]. *)
Lemma wp_syscall3 regs num a1 a2 a3 f s (Q : option Z → kernel → Prop) :
  syscall_table s = installed → arr_get installed num = Some (Some f) →
  wp (callf f a1 a2 a3) s (λ r s', Q (match r with Done v => Some v | Switched => None end) s') →
  wp (sc3 regs num a1 a2 a3) s Q.
Proof.
  intros Ht Hn HQ. pose proof (arr_get_Some _ _ _ Hn) as [Hr _]. change (Z.of_nat (length installed)) with 64 in Hr.
  unfold syscall3, syscall_handler. apply wp_bind. cbn [r_rax r_rdi r_rsi r_rdx]. cbv zeta. apply wp_bind, wp_gets.
  rewrite (proj2 (Z.leb_gt MAX_SYSCALLS num)) by (unfold MAX_SYSCALLS; lia). rewrite Ht, Hn. apply wp_bind, wp_ret.
  apply wp_bind. eapply wp_mono; [exact HQ|]. cbn beta. intros [v|] s' H; apply wp_ret, wp_ret; exact H.
Qed.

(** Save [count] bytes from [src] in a file, and load them back to [dst] through
    another descriptor. *)
Definition save_and_load (regs : registers) (path src dst count : Z) : M kernel (option Z * option Z) :=
  fd ← sc2 regs SYS_OPEN path 0;
  match fd with
  | None => mret (None, None)
  | Some fd =>
      w ← sc3 regs SYS_WRITE fd src count;
      sc1 regs SYS_CLOSE fd;;
      fd ← sc2 regs SYS_OPEN path 0;
      match fd with
      | None => mret (None, None)
      | Some fd => r ← sc3 regs SYS_READ fd dst count; mret (w, r)
      end
  end.

(** The path at [path_ptr] is that of the file [j], for a process with the
    descriptors [l]. *)
Record file_ready (s : kernel) (t : Z) (l : list fd_entry_t) (path_ptr j : Z) : Prop := {
  fr_table : syscall_table s = installed;
  fr_fds : has_fds idle s t l;
  fr_ptr : path_ptr ≠ 0;
  fr_path : ∃ path b cs, string_from STRING_FUEL (k_mem s) path_ptr = Some path ∧ fs_wf (k_fs s) cs ∧
    is_dir (k_fs s) (root (k_fs s)) b ∧ found (k_fs s) b (skip_slash path) j;
}.
Lemma file_ready_with s t l l' path_ptr j :
  file_ready s t l path_ptr j → length l' = 16%nat → file_ready (with_fds s t l') t l' path_ptr j.
Proof. intros [? ? ? ?] ?. split; try done. by apply (has_fds_with _ _ _ l). Qed.

Lemma wp_open s t l path_ptr j regs (Q : option Z → kernel → Prop) :
  file_ready s t l path_ptr j → ¬ first_free l None →
  (∀ fd, 3 ≤ fd < 16 → Q (Some fd) (with_fds s t (<[Z.to_nat fd := FdEntry j 0 0 0 0]> l))) →
  wp (sc2 regs SYS_OPEN path_ptr 0) s Q.
Proof.
  intros [Ht Hf Hp (path & b & cs & Hpath & Hw & Hd & Hfound)] Hr HQ. eapply wp_syscall3; [done|reflexivity|]. cbn [call].
  eapply wp_mono; [by eapply wp_sys_open|]. cbn beta. intros r s' [(-> & -> & Hno)|(fd & Hfd & -> & ->)]; [done|].
  apply HQ. apply Hfd.
Qed.

Lemma root_not_file s b name j : is_dir s (root s) b → found s b name j → root s ≠ j.
Proof. intros (n & Hn & Ht & _) (m & i & Hm & _ & Hmt & _) E. subst j. rewrite Hn in Hm. injection Hm as ->. rewrite Ht in Hmt. discriminate. Qed.

(** What a write to the file leaves for the next opening of it. *)
Definition saved (s : ramfs_t) (j count w : Z) (buf : list Z) : Prop :=
  (w = -1 ∧ disk_full s) ∨
  (0 ≤ w ≤ count ∧ (w < count → disk_full s) ∧ ∃ cs n, fs_wf s cs ∧ arr_get (nodes s) j = Some n ∧
     n_inode_num n ≠ 0 ∧ n_type n = FS_TYPE_FILE ∧ w ≤ n_size n ∧ ∀ i, 0 ≤ i < w → byte_at (blocks s) (cs j) i = arr_get buf i).

Lemma wp_write s t l path_ptr j fd src count regs (Q : option Z → kernel → Prop) :
  file_ready s t l path_ptr j → 3 ≤ fd < 16 → arr_get l fd = Some (FdEntry j 0 0 0 0) → src ≠ 0 → 0 < count < 2 ^ 31 →
  (∀ w l' s', k_mem s' = k_mem s → file_ready s' t l' path_ptr j →
     saved (k_fs s') j count w (bytes_at (k_mem s) src count) → Q (Some (u64 w)) s') →
  wp (sc3 regs SYS_WRITE fd src count) s Q.
Proof.
  intros [Ht Hf Hp (path & b & cs & Hpath & Hw & Hd & Hfound)] Hfd He Hs Hc HQ.
  pose proof (root_not_file _ _ _ _ Hd Hfound) as Hrj. pose proof Hfound as (n & i & Hn & Hz & Hty & _).
  eapply wp_syscall3; [done|reflexivity|]. cbn [call].
  eapply wp_mono; [eapply (wp_sys_write_file idle fuel s t l fd); try done; try (unfold STDOUT, STDERR; lia)|].
  { cbn. intros ->. by apply arr_get_Some in Hn as [? _]; lia. }
  { cbn [fd_node fd_offset]. apply (wp_ramfs_write j _ cs n); try done; try lia. by rewrite bytes_at_length by lia. }
  cbn beta. intros r s' (w & fs' & (cs' & n' & Hof & Hn' & Hres) & -> & ->).
  destruct (advanced_frame (set_k_fs fs' s) t l fd w (FdEntry j 0 0 0 0)) as (Em & Ef & Et).
  destruct (has_fds_advanced idle (set_k_fs fs' s) t l fd w (FdEntry j 0 0 0 0)) as (l' & Hf' & _); [by apply has_fds_fs|].
  assert (En : n_inode_num n' = n_inode_num n ∧ n_type n' = n_type n)
    by (destruct Hres as [(_ & _ & _ & ->)|(_ & _ & _ & _ & ->)]; done).
  apply (HQ w l'); try done.
  - split; try done; [by rewrite Et|]. rewrite Em, Ef. cbn [k_mem k_fs set_k_fs]. rewrite (of_root _ _ _ _ _ Hof). exists path, b, cs'. split; [done|]. split; [apply Hof|].
    apply (write_keeps_names (k_fs s) cs fs' cs' j); try done.
    + intros m Hm. exists n'. rewrite Hn in Hm. by injection Hm as ->.
    + intros x Hx. destruct Hres as [(_ & _ & D & _)|(_ & _ & _ & W & _)]; [apply D|by apply W].
  - unfold saved. rewrite Ef. cbn [k_fs set_k_fs]. destruct Hres as [(-> & Hfull & _)|(Hw0 & Hfull & _ & W & E)]; [by left|right].
    split; [done|]. split; [done|]. exists cs', n'. split_and!; try done; [apply Hof|by rewrite (proj1 En)|by rewrite (proj2 En)|rewrite E; cbn; lia|].
    intros k Hk. rewrite (wr_bytes _ _ _ _ _ _ _ W). rewrite (proj2 (Z.leb_le 0 k)), (proj2 (Z.ltb_lt k (0 + w))) by lia. cbn.
    f_equal. lia.
Qed.

Lemma wp_read s t l j fd dst count regs n cs (Q : option Z → kernel → Prop) :
  syscall_table s = installed → has_fds idle s t l → 3 ≤ fd < 16 → arr_get l fd = Some (FdEntry j 0 0 0 0) → dst ≠ 0 → 0 < count < 2 ^ 31 →
  mem_wf (k_mem s) → fs_wf (k_fs s) cs → arr_get (nodes (k_fs s)) j = Some n → n_inode_num n ≠ 0 → n_type n = FS_TYPE_FILE →
  (∀ r s', r = Z.min count (n_size n) → k_fs s' = k_fs s →
     (∀ i, 0 ≤ i < r → u8 <$> byte_at (blocks (k_fs s)) (cs j) i = Some (ld8 (k_mem s') (dst + i))) → Q (Some r) s') →
  wp (sc3 regs SYS_READ fd dst count) s Q.
Proof.
  intros Ht Hf Hfd He Hd Hc Hm Hw Hn Hz Hty HQ. pose proof (fw_size _ _ Hw j n Hn Hz Hty) as Hsz.
  eapply wp_syscall3; [done|reflexivity|]. cbn [call].
  eapply wp_mono; [eapply (wp_sys_read_file idle fuel s t l fd); try done; try lia|].
  { cbn. intros ->. apply arr_get_Some in Hn as [? _]; lia. }
  { cbn [fd_node fd_offset]. apply (wp_ramfs_read j _ cs n); try done; lia. }
  cbn beta. intros r s' ([q d] & fs' & (-> & Hq & Hlen & Hd') & -> & ->). cbn [fst snd fd_offset] in *.
  rewrite Z.sub_0_r, Z.max_r in Hq by lia. rewrite u64_id by lia.
  destruct (advanced_frame (set_k_mem (st_bytes (k_mem s) dst d) (set_k_fs (k_fs s) s)) t l fd q (FdEntry j 0 0 0 0)) as (Em & Ef & _).
  apply HQ; [done|by rewrite Ef|]. intros i Hi. rewrite Em. cbn [k_mem set_k_mem]. rewrite ld8_st_bytes by done.
  replace (dst + i - dst) with i by lia. destruct (arr_get_is_Some d i) as [v Hv]; [lia|].
  specialize (Hd' i ltac:(lia)). rewrite Z.add_0_l in Hd'. rewrite <- Hd', Hv. done.
Qed.

(** C8 (roundtrip): Bytes saved in a file come back.  A process with a free
    descriptor opens an existing file, writes [count] bytes from [src], closes
    it, opens it again and reads [count] bytes to [dst].  Either the disk is
    full and the write says so, or [w] bytes are written, short only with the
    disk full, and the first [w] bytes at [dst] are those that were at [src]. *)
Theorem saved_file_loads s t l path_ptr src dst count regs j :
  file_ready s t l path_ptr j → ¬ first_free l None → mem_wf (k_mem s) → src ≠ 0 → dst ≠ 0 → 0 < count < 2 ^ 31 →
  wp (save_and_load regs path_ptr src dst count) s (λ res s', ∃ w,
    res.1 = Some (u64 w) ∧
    ((w = -1 ∧ disk_full (k_fs s')) ∨
     (0 ≤ w ≤ count ∧ (w < count → disk_full (k_fs s')) ∧ (∃ r, res.2 = Some r ∧ w ≤ r ≤ count) ∧
      ∀ i, 0 ≤ i < w → ld8 (k_mem s') (dst + i) = ld8 (k_mem s) (src + i)))).
Proof.
  intros Ho Hr Hm Hs Hd Hc. pose proof (hf_length _ _ _ _ (fr_fds _ _ _ _ _ Ho)) as Hlen.
  unfold save_and_load. apply wp_bind. eapply wp_open; [done..|]. intros fd Hfd.
  set (l1 := <[Z.to_nat fd := FdEntry j 0 0 0 0]> l).
  assert (Hlen1 : length l1 = 16%nat) by (unfold l1; by rewrite length_insert).
  assert (He1 : arr_get l1 fd = Some (FdEntry j 0 0 0 0)) by (unfold l1; rewrite arr_get_insert, Z.eqb_refl by lia; done).
  apply wp_bind. eapply (wp_write _ t l1 path_ptr j); try done; [by apply (file_ready_with _ _ l)|]. intros w l2 s2 Em2 Ho2 Hsaved.
  pose proof (hf_length _ _ _ _ (fr_fds _ _ _ _ _ Ho2)) as Hlen2. cbn [k_mem with_fds set_k_fds] in Em2.
  apply wp_bind. eapply wp_syscall3; [apply Ho2|reflexivity|]. cbn [call].
  eapply wp_mono; [eapply wp_sys_close; [apply Ho2|lia]|]. cbn beta. intros r s3 [-> ->].
  set (l3 := <[Z.to_nat fd := fd_clear]> l2). assert (Hlen3 : length l3 = 16%nat) by (unfold l3; by rewrite length_insert).
  apply wp_bind. eapply (wp_open _ t l3 path_ptr j); [by apply (file_ready_with _ _ l2)| |].
  { intros Hno. cut (fd_free fd_clear = false); [done|]. apply (Hno fd); [done|]. unfold l3. rewrite arr_get_insert, Z.eqb_refl by lia. done. }
  intros fd2 Hfd2. set (l4 := <[Z.to_nat fd2 := FdEntry j 0 0 0 0]> l3).
  assert (Hlen4 : length l4 = 16%nat) by (unfold l4; by rewrite length_insert).
  assert (He4 : arr_get l4 fd2 = Some (FdEntry j 0 0 0 0)) by (unfold l4; rewrite arr_get_insert, Z.eqb_refl by lia; done).
  assert (Ho4 : file_ready (with_fds (with_fds s2 t l3) t l4) t l4 path_ptr j) by (apply (file_ready_with _ _ l3); [by apply (file_ready_with _ _ l2)|done]).
  pose proof (fr_path _ _ _ _ _ Ho4) as (path & b & cs4 & _ & Hw4 & _ & (n4 & _ & Hn4 & Hz4 & Hty4 & _)).
  apply wp_bind. destruct Hsaved as [[-> Hfull]|(Hw & Hshort & cs & n & Hwf & Hn & Hz & Hty & Hsz & Hbytes)].
  - eapply wp_read; [apply Ho4|apply Ho4|done..|cbn; by rewrite Em2|exact Hw4|exact Hn4|done|done|]. intros r s' _ Efs _.
    apply wp_ret. exists (-1). split; [done|]. left. by rewrite Efs.
  - eapply wp_read; [apply Ho4|apply Ho4|done..|cbn; by rewrite Em2|exact Hwf|exact Hn|done|done|]. intros r s' Er Efs Hb.
    apply wp_ret. exists w. split; [done|]. right. rewrite Efs. split_and!; [lia|lia|done|exists r; split; [done|lia]|].
    intros i Hi. specialize (Hb i ltac:(lia)). cbn [k_fs with_fds set_k_fds] in Hb. rewrite Hbytes in Hb by lia.
    rewrite bytes_at_get in Hb by lia. cbn in Hb. injection Hb as <-. apply u8_id, ld8_range.
Qed.

(** ** The terminal *)

Lemma bytes_at_snoc m p n : 0 ≤ n → bytes_at m p (n + 1) = bytes_at m p n ++ [ld8 m (p + n)].
Proof.
  intros Hn. unfold bytes_at. replace (Z.to_nat (n + 1)) with (S (Z.to_nat n)) by lia.
  rewrite seq_S, fmap_app. cbn. by rewrite Z2Nat.id by lia.
Qed.

Lemma wp_stdout `{HT : Screen X T adv ok} s fd buf count x :
  fd = STDOUT ∨ fd = STDERR → buf ≠ 0 → 0 < count → T x (con (k_in s)) → Forall ok (bytes_at (k_mem s) buf count) →
  wp (sys_write idle fuel fd buf count) s (λ r s', r = Done count ∧
    T (foldl adv x (bytes_at (k_mem s) buf count)) (con (k_in s')) ∧
    s' = set_k_in (Input (kb (k_in s)) (con (k_in s')) (k_sched s)) s).
Proof.
  intros Hfd Hb Hc Hsh Hok. unfold sys_write.
  rewrite (proj2 (Z.eqb_neq buf 0)), (proj2 (Z.eqb_neq count 0)) by lia. cbn [orb].
  replace ((fd =? STDOUT) || (fd =? STDERR)) with true by (destruct Hfd as [->| ->]; done).
  apply wp_bind. apply (wp_for (λ i s', T (foldl adv x (bytes_at (k_mem s) buf i)) (con (k_in s')) ∧
    s' = set_k_in (Input (kb (k_in s)) (con (k_in s')) (k_sched s)) s)).
  - split; [done|]. by destruct s as [? ? ? []].
  - intros i s1 Hi [Hsh1 Es1]. apply wp_bind, wp_load8. assert (Em : get_mem s1 = k_mem s) by (rewrite Es1; done). rewrite Em.
    apply wp_zoom, wp_zoom. eapply wp_mono; [apply (HT _ _ _ Hsh1)|].
    { rewrite Forall_forall in Hok. apply Hok, list_elem_of_lookup. exists (Z.to_nat i).
      pose proof (bytes_at_get (k_mem s) buf count i ltac:(lia)) as Hg. by apply arr_get_Some in Hg as [_ ?]. }
    cbn beta. intros u c Hc'. split.
    + cbn [con k_in set_k_in]. rewrite bytes_at_snoc, foldl_app by lia. exact Hc'.
    + rewrite Es1. done.
  - intros s' [Hs' Es']. rewrite Z2Nat.id in * by lia. by apply wp_ret.
Qed.

End calls.

(** ** The keyboard *)

(** What a read of [n] characters takes from the characters waiting: a line with
    its newline, or [n] characters of a longer one. *)
Fixpoint next_line (n : nat) (w : list Z) : option (list Z) :=
  match n, w with
  | O, _ => Some []
  | S _, [] => None
  | S n', c :: w' => if c =? 10 then Some [10] else cons c <$> next_line n' w'
  end.

Lemma has_char_waiting k : kbd_wf k → negb (kbd_read_pos k =? kbd_write_pos k) = negb (length (waiting k) =? 0)%nat.
Proof.
  intros H. pose proof (waiting_length k H) as Hl. destruct H as [_ Hr Hw].
  destruct (Z.eqb_spec (kbd_read_pos k) (kbd_write_pos k)) as [E|Hne].
  - rewrite E, Z.sub_diag in Hl. by destruct (length (waiting k)).
  - destruct (length (waiting k)); [|done]. destruct Hne. cbn in Hl. dlia.
Qed.

(** The state after a line has been taken from the ring to memory. *)
Record line_taken (buf : Z) (line : list Z) (s s' : kernel) : Prop := {
  lt_state : s' = set_k_mem (st_bytes (k_mem s) buf line) (set_k_in (Input (kb (k_in s')) (con (k_in s)) (sch (k_in s))) s);
  lt_kbd : kbd_wf (kb (k_in s'));
  lt_ctrl : ctrl_pressed (kb (k_in s')) = ctrl_pressed (kb (k_in s));
  lt_alt : alt_pressed (kb (k_in s')) = alt_pressed (kb (k_in s));
  lt_ring : waiting (kb (k_in s)) = line ++ waiting (kb (k_in s'));
}.

(** One character. *)
Lemma stdin_char steps buf count read s c w :
  kbd_wf (kb (k_in s)) → read < count → waiting (kb (k_in s)) = c :: w → ∃ s1,
    stdin_loop (S steps) buf count read s = (if c =? 10 then mret (read + 1) else stdin_loop steps buf count (read + 1)) s1 ∧
    line_taken (buf + read) [c] s s1.
Proof.
  intros Hk Hlt Ew. destruct (wp_run _ _ _ (wp_keyboard_getchar _ Hk)) as (c' & k' & Hget & Hk' & Hctrl & Halt & Ec & Hw').
  rewrite Ew in Ec, Hw'. cbn [hd tail] in Ec, Hw'. subst c'.
  exists (set_k_mem (st8 (k_mem s) (buf + read) c) (set_k_in (Input k' (con (k_in s)) (sch (k_in s))) s)). split.
  - cbn [stdin_loop]. rewrite (proj2 (Z.ltb_lt read count)) by done.
    unfold mbind, M_bind, at_kbd, at_input, on_kbd, zoom, keyboard_has_char, gets. rewrite has_char_waiting, Ew by done.
    cbn [length Nat.eqb negb kb k_in set_k_in]. rewrite Hget. done.
  - split; cbn [kb k_in set_k_in set_k_mem con sch k_mem st_bytes]; try done. by rewrite Ew, Hw'.
Qed.
Lemma stdin_dry steps buf count read s :
  kbd_wf (kb (k_in s)) → read < count → waiting (kb (k_in s)) = [] → stdin_loop (S steps) buf count read s = Halt.
Proof.
  intros Hk Hlt Ew. cbn [stdin_loop]. rewrite (proj2 (Z.ltb_lt read count)) by done.
  unfold mbind, M_bind, at_kbd, at_input, on_kbd, zoom, keyboard_has_char, gets. by rewrite has_char_waiting, Ew by done.
Qed.
Lemma line_taken_cons buf c line s s1 s2 :
  line_taken buf [c] s s1 → line_taken (buf + 1) line s1 s2 → line_taken buf (c :: line) s s2.
Proof.
  intros [E1 K1 C1 A1 R1] [E2 K2 C2 A2 R2]. split; [|done|congruence|congruence|by rewrite R1, R2].
  rewrite E2, E1. cbn [kb k_in set_k_in set_k_mem con sch k_mem st_bytes]. by destruct s.
Qed.

Lemma stdin_loop_ok steps buf count read s :
  kbd_wf (kb (k_in s)) → read ≤ count → (Z.to_nat (count - read) < steps)%nat →
  match next_line (Z.to_nat (count - read)) (waiting (kb (k_in s))) with
  | Some line => wp (stdin_loop steps buf count read) s (λ r s',
      r = read + Z.of_nat (length line) ∧ line_taken (buf + read) line s s')
  | None => stdin_loop steps buf count read s = Halt
  end.
Proof.
  revert read s. induction steps as [|steps IH]; intros read s Hk Hc Hst; [lia|].
  destruct (decide (read = count)) as [->|Hne].
  { rewrite Z.sub_diag. cbn [Z.to_nat next_line stdin_loop]. rewrite Z.ltb_irrefl. apply wp_ret. split; [cbn; lia|].
    split; try done. by destruct s as [? ? ? []]. }
  replace (Z.to_nat (count - read)) with (S (Z.to_nat (count - (read + 1)))) in * by lia.
  destruct (waiting (kb (k_in s))) as [|c w] eqn:Ew; cbn [next_line]; [by apply stdin_dry; [|lia|]|].
  destruct (stdin_char steps buf count read s c w Hk ltac:(lia) Ew) as (s1 & Hrun & Hs1).
  unfold wp. rewrite Hrun. destruct (Z.eqb_spec c 10) as [->|Hc10]; [by split|].
  specialize (IH (read + 1) s1 (lt_kbd _ _ _ _ Hs1) ltac:(lia) ltac:(lia)).
  pose proof (lt_ring _ _ _ _ Hs1) as Er. rewrite Ew in Er. injection Er as Er. rewrite <- Er in IH.
  destruct (next_line _ w) as [line|]; [|exact IH]. cbn [fmap option_fmap option_map].
  eapply wp_mono; [exact IH|]. cbn beta. intros r s' [-> H]. split; [cbn [length]; lia|].
  eapply line_taken_cons; [exact Hs1|]. by rewrite <- Z.add_assoc.
Qed.

Lemma syscall3_halts idle hello shell init shell_v2 find fuel regs num a1 a2 a3 f s :
  syscall_table s = installed → arr_get installed num = Some (Some f) →
  call idle hello shell init shell_v2 find fuel f a1 a2 a3 s = Halt →
  syscall3 idle hello shell init shell_v2 find fuel regs num a1 a2 a3 s = Halt.
Proof.
  intros Ht Hn Hh. pose proof (arr_get_Some _ _ _ Hn) as [Hr _]. change (Z.of_nat (length installed)) with 64 in Hr.
  unfold syscall3, syscall_handler. cbn [r_rax r_rdi r_rsi r_rdx]. cbv zeta. apply run_bind_halt.
  erewrite run_bind by reflexivity. rewrite (proj2 (Z.leb_gt MAX_SYSCALLS num)) by (unfold MAX_SYSCALLS; lia).
  rewrite Ht, Hn. erewrite run_bind by reflexivity. by apply run_bind_halt.
Qed.

(** C14 (functional): Reading the standard input takes what has been typed before the
    call.  If the ring holds a line, or [count] characters of one, the call
    stores it in the caller's buffer, newline included, and returns its length;
    the characters after it stay in the ring and nothing else changes.  If the
    ring runs dry first, the call halts the CPU with interrupts disabled and
    never returns: no key pressed later is seen by anybody. *)
Theorem stdin_reads_line idle hello shell init shell_v2 find fuel s buf count regs :
  syscall_table s = installed → kbd_wf (kb (k_in s)) → 0 < count → buf ≠ 0 →
  match next_line (Z.to_nat count) (waiting (kb (k_in s))) with
  | Some line => wp (syscall3 idle hello shell init shell_v2 find fuel regs SYS_READ STDIN buf count) s (λ r s',
      r = Some (Z.of_nat (length line)) ∧ line_taken buf line s s')
  | None => syscall3 idle hello shell init shell_v2 find fuel regs SYS_READ STDIN buf count s = Halt
  end.
Proof.
  intros Ht Hk Hc Hb. pose proof (stdin_loop_ok (S (Z.to_nat count)) buf count 0 s Hk ltac:(lia) ltac:(lia)) as H.
  rewrite Z.sub_0_r in H.
  assert (E : call idle hello shell init shell_v2 find fuel sys_read_f STDIN buf count =
    (read ← stdin_loop (S (Z.to_nat count)) buf count 0; mret (Done read))).
  { cbn [call]. unfold sys_read. rewrite (proj2 (Z.eqb_neq buf 0)), (proj2 (Z.eqb_neq count 0)) by lia. done. }
  destruct (next_line _ _) as [line|].
  - eapply wp_syscall3; [done|reflexivity|]. rewrite E. apply wp_bind. eapply wp_mono; [exact H|]. cbn beta. intros r s' [-> Hl].
    apply wp_ret. rewrite Z.add_0_r in Hl. by split.
  - eapply syscall3_halts; [done|reflexivity|]. rewrite E. by apply run_bind_halt.
Qed.

(** A wait in a system call never ends either. *)
Lemma sys_sleep_halts s ms :
  0 < timer_frequency (k_board s) → 0 ≤ timer_ticks (k_board s) → timer_ticks (k_board s) * 1000 < 2 ^ 64 → 0 < u32 ms →
  sys_sleep ms s = Halt.
Proof.
  intros. unfold sys_sleep. apply run_bind_halt. unfold at_board, zoom. by rewrite sleep_ms_stuck.
Qed.

(** ** The table *)

(** What [init_syscalls] leaves. *)
Definition installed_in (con' : console) (s : kernel) : kernel :=
  set_k_in (Input (kb (k_in s)) con' (set_terminal (terminal (k_sched s) ++ [bytes_of "System call interface initialized (INT 0x80)
"]) (k_sched s)))
    (set_k_board (set_handlers (<[128%nat := Some syscall_handler_h]> (interrupt_handlers (k_board s))) (k_board s)) (set_syscall_table installed s)).
Lemma wp_init_syscalls `{HT : Screen X T adv ok} x0 s Q :
  length (syscall_table s) = 64%nat → length (interrupt_handlers (k_board s)) = 256%nat → T x0 (con (k_in s)) →
  Forall ok (bytes_of "System call interface initialized (INT 0x80)
") →
  (∀ con' x', T x' con' → Q () (installed_in con' s)) → wp init_syscalls s Q.
Proof.
  intros Hl Hh Hc Hok HQ. unfold init_syscalls.
  assert (Hset : ∀ (k : M kernel unit) n f s1 l Q, s1 = set_syscall_table l s → length l = 64%nat → 0 ≤ n < 64 →
    wp k (set_syscall_table (<[Z.to_nat n := f]> l) s) Q → wp (set_syscall n f;; k) s1 Q).
  { intros k n f s1 l Q' -> Hll Hnr HQ'. unfold set_syscall. apply wp_bind, wp_bind, wp_gets. cbn [syscall_table set_syscall_table].
    apply wp_bind. eapply wp_lift_opt; [apply arr_set_in; lia|]. by apply wp_modify. }
  apply wp_bind. apply (wp_for (λ i s', s' = set_syscall_table (replicate (Z.to_nat i) None ++ drop (Z.to_nat i) (syscall_table s)) s)).
  { by destruct s. }
  { intros i s1 Hi ->. change (Z.of_nat (Z.to_nat MAX_SYSCALLS)) with 64 in Hi. unfold set_syscall. apply wp_bind, wp_gets. cbn [syscall_table set_syscall_table].
    assert (Hlen : length (replicate (Z.to_nat i) (@None syscall_func) ++ drop (Z.to_nat i) (syscall_table s)) = 64%nat)
      by (rewrite length_app, length_replicate, length_drop; lia).
    apply wp_bind. eapply wp_lift_opt; [apply arr_set_in; lia|]. apply wp_modify.
    destruct (lookup_lt_is_Some_2 (syscall_table s) (Z.to_nat i)) as [x Hx]; [lia|]. rewrite (drop_S _ x) by done.
    rewrite insert_app_r_alt by (rewrite length_replicate; lia). rewrite length_replicate, Nat.sub_diag. cbn [insert list_insert].
    replace (Z.to_nat (i + 1)) with (S (Z.to_nat i)) by lia. rewrite replicate_S_end, <- app_assoc. done. }
  change (0 + Z.of_nat (Z.to_nat MAX_SYSCALLS)) with 64. intros s1 ->. rewrite drop_ge, app_nil_r by (change (Z.to_nat 64) with 64%nat; lia).
  change (Z.to_nat 64) with 64%nat.
  do 18 (eapply Hset; [reflexivity|reflexivity|split; vm_compute; congruence|]).
  match goal with |- wp _ (set_syscall_table ?l s) _ => replace l with installed by (vm_compute; reflexivity) end.
  apply wp_bind, wp_zoom. unfold register_interrupt_handler. change (u8 0x80) with 128.
  apply wp_bind, wp_gets, wp_bind. eapply wp_lift_opt; [apply arr_set_in; cbn [k_board set_syscall_table]; lia|].
  apply wp_modify. eapply wp_pwrite; [done|exact Hok|]. intros con' Hcon. by eapply HQ.
Qed.

(** (functional): [init_syscalls] installs the 18 calls under their numbers and
    the handler for interrupt 0x80, whatever the table held; any other number
    then returns -1 and changes nothing. *)
Theorem init_syscalls_spec idle hello shell init shell_v2 find fuel s regs :
  length (syscall_table s) = 64%nat → length (interrupt_handlers (k_board s)) = 256%nat → screen_ok (con (k_in s)) →
  0 ≤ r_rax regs → ¬ 1 ≤ r_rax regs ≤ 18 →
  wp init_syscalls s (λ _ s', syscall_table s' = installed ∧
    arr_get (interrupt_handlers (k_board s')) 0x80 = Some (Some syscall_handler_h) ∧
    syscall_handler idle hello shell init shell_v2 find fuel regs s' = Ret (Some (set_rax FAIL regs), s')).
Proof.
  intros Hl Hh Hc Hr Hn. apply (wp_init_syscalls (T := λ _ : unit, screen_ok) ()); [done..|ground|]. intros con' _ Hcon. split; [done|]. split.
  - cbn [installed_in k_board set_k_board set_k_in interrupt_handlers set_handlers set_syscall_table].
    change 128%nat with (Z.to_nat 128). by rewrite arr_get_insert, Z.eqb_refl by lia.
  - unfold syscall_handler. unfold mbind, M_bind, gets. cbn [installed_in syscall_table set_k_in set_k_board set_syscall_table]. cbv zeta.
    destruct (Z.leb_spec MAX_SYSCALLS (r_rax regs)) as [|Hlt]; [done|]. unfold MAX_SYSCALLS in Hlt.
    replace (arr_get installed (r_rax regs)) with (Some (@None syscall_func)); [done|]. symmetry. unfold arr_get. rewrite (proj2 (Z.leb_le 0 _)) by lia.
    unfold installed. destruct (decide (r_rax regs = 0)) as [->|]; [done|]. rewrite lookup_app_r by (cbn; lia). apply lookup_replicate_2. cbn [length]. lia.
Qed.

(** ** A machine for the examples

    The process at 0x200 runs, with a descriptor table at 0x9000; the path
    [/hello.txt] is at 0x1000 and a text at 0x1100. *)
Definition demo_pcbs : gmap Z process_t := <[0x200 := set_fd_table 0x9000 (demo_pcb PROCESS_STATE_RUNNING 0x5000 0 0 2)]> (pcbs demo_sched).
Definition demo_screen : console := final (init_vga bss_console) bss_console.
Definition demo_mem : mem := st_bytes (st_bytes ∅ 0x1000 (bytes_of "/hello.txt" ++ [0])) 0x1100 (bytes_of "written by a process").
Definition demo_machine : kernel :=
  Kernel demo_mem (HeapVars 0 false 0 HEAP_SIZE 0) (PhysVars (replicate (Z.to_nat BITMAP_WORDS) 0xFFFFFFFF) 16384 0 0)
    (Input bss_kbd demo_screen (set_pcbs demo_pcbs demo_sched)) booted ∅ {[ 0x9000 := replicate 16 fd_clear ]} bss_board installed.

Lemma demo_mem_wf : mem_wf demo_mem.
Proof. by apply st_bytes_wf, st_bytes_wf, mem_wf_empty. Qed.
Lemma demo_fds : has_fds 0x100 demo_machine 0x9000 (replicate 16 fd_clear).
Proof. split; [done| |done..]. eexists. split; [vm_compute; reflexivity|reflexivity]. Qed.
Lemma demo_shows : shows [[]] demo_screen.
Proof.
  destruct (wp_run _ _ _ (wp_init_vga bss_console eq_refl eq_refl)) as (u & s' & E & H). unfold demo_screen, final. by rewrite E.
Qed.
Lemma demo_found : found booted 0 (bytes_of "hello.txt") 1.
Proof.
  assert (E : ∀ i, 0 ≤ i < MAX_ENTRIES → ∀ ino, names booted 0 i (bytes_of "hello.txt") ino → i = 0 ∧ ino = 2).
  { intros i Hi ino (e & He & <- & Hz & Hnm).
    assert (H : forallb (λ i, match dirents booted 0 i with
      | Some e => (d_inode e =? 0) || negb (bool_decide (c_string (d_name e) = bytes_of "hello.txt")) || ((i =? 0) && (d_inode e =? 2))
      | None => false end) (seqZ 0 MAX_ENTRIES) = true) by (vm_compute; reflexivity).
    rewrite forallb_forall in H. specialize (H i ltac:(apply list_elem_of_In, elem_of_seqZ; lia)). rewrite He in H.
    rewrite (bool_decide_true _ Hnm), (proj2 (Z.eqb_neq _ 0)) in H by done. cbn [negb orb] in H.
    apply andb_prop in H as [Hi0%Z.eqb_eq Hd%Z.eqb_eq]. exact (conj Hi0 Hd). }
  eexists _, 0. split; [vm_compute; reflexivity|]. split; [done|]. split; [done|]. split; [done|]. split.
  - eexists. split; [vm_compute; reflexivity|]. split_and!; [done..|vm_compute; reflexivity].
  - intros k ino Hk Hn. destruct (E k Hk ino Hn) as [_ ->]. done.
Qed.
Lemma demo_ready : file_ready 0x100 demo_machine 0x9000 (replicate 16 fd_clear) 0x1000 1.
Proof.
  split; [done|exact demo_fds|done|]. exists (bytes_of "/hello.txt"), 0, (chains booted_chains).
  split; [vm_compute; reflexivity|]. split; [exact booted_wf|]. split; [exact booted_root|exact demo_found].
Qed.

Lemma saved_file_loads_witness :
  wp (save_and_load 0x100 0x700000 0x700010 0x700020 0x700030 (λ _ _, 0) 100 zero_registers 0x1000 0x1100 0x1200 20) demo_machine (λ res s', ∃ w,
    res.1 = Some (u64 w) ∧
    ((w = -1 ∧ disk_full (k_fs s')) ∨
     (0 ≤ w ≤ 20 ∧ (w < 20 → disk_full (k_fs s')) ∧ (∃ r, res.2 = Some r ∧ w ≤ r ≤ 20) ∧
      ∀ i, 0 ≤ i < w → ld8 (k_mem s') (0x1200 + i) = ld8 (k_mem demo_machine) (0x1100 + i)))).
Proof.
  apply (saved_file_loads 0x100 0x700000 0x700010 0x700020 0x700030 (λ _ _, 0) 100 demo_machine 0x9000 (replicate 16 fd_clear)
    0x1000 0x1100 0x1200 20 zero_registers 1 demo_ready); [|exact demo_mem_wf|lia|lia|lia].
  intros H. specialize (H 3 fd_clear ltac:(lia) eq_refl). discriminate.
Defined.
Lemma init_syscalls_spec_witness :
  wp init_syscalls demo_machine (λ _ s', syscall_table s' = installed ∧
    arr_get (interrupt_handlers (k_board s')) 0x80 = Some (Some syscall_handler_h) ∧
    syscall_handler 0x100 0x700000 0x700010 0x700020 0x700030 (λ _ _, 0) 100 zero_registers s' = Ret (Some (set_rax FAIL zero_registers), s')).
Proof.
  apply (init_syscalls_spec 0x100 0x700000 0x700010 0x700020 0x700030 (λ _ _, 0) 100 demo_machine zero_registers);
    [done|done|left; exact (shows_wf _ _ demo_shows)|done|cbn; lia].
Defined.
(** The line [hi] has been typed, and the first letter of another. *)
Definition demo_typed : kernel :=
  set_k_in (Input (Kbd (bytes_of "hi" ++ [10; 97] ++ replicate 252 0) 0 4 false false) demo_screen (set_pcbs demo_pcbs demo_sched)) demo_machine.
Lemma stdin_reads_line_witness :
  wp (syscall3 0x100 0x700000 0x700010 0x700020 0x700030 (λ _ _, 0) 100 zero_registers SYS_READ STDIN 0x1200 80) demo_typed (λ r s',
    r = Some 3 ∧ line_taken 0x1200 (bytes_of "hi" ++ [10]) demo_typed s') ∧
  syscall3 0x100 0x700000 0x700010 0x700020 0x700030 (λ _ _, 0) 100 zero_registers SYS_READ STDIN 0x1200 80 demo_machine = Halt.
Proof.
  split.
  - apply (stdin_reads_line 0x100 0x700000 0x700010 0x700020 0x700030 (λ _ _, 0) 100 demo_typed 0x1200 80 zero_registers);
      [reflexivity|by split|lia|lia].
  - apply (stdin_reads_line 0x100 0x700000 0x700010 0x700020 0x700030 (λ _ _, 0) 100 demo_machine 0x1200 80 zero_registers);
      [reflexivity|by split|lia|lia].
Defined.
