(* ===== verification/Interrupt.v ===== *)
(** * Interrupts on the whole kernel
    (src/kernel/kernel.c [isr_handler], src/drivers/timer.c)

    Boot.v has the dispatcher over any meaning of the handlers.  Here each
    handler of the table is the function the kernel registers: the timer with
    the scheduler behind it, the keyboard, the system calls, and the exception
    handlers.  The result is the frame of saved registers that [iretq] returns
    through; [None] when the handler has switched to another process and will
    finish when this one is resumed. *)
From S2P Require Import Prelude Mem Pcb Sched Console Keyboard Boot Kernel Strings Syscall Partial.

Section interrupts.
(** Addresses the linker decides, as in Syscall.v. *)
Variables idle_process builtin_hello_main shell_main_addr init_main shell_v2_main : Z.
Variable process_find_by_pid : Z → sched → Z.

Variable fuel : nat.
(** What the keyboard controller and the page-fault address register hold when
    the interrupt arrives. *)
Variables scancode cr2 : Z.

Definition timer_irq (r : registers) : M kernel (option registers) :=
  at_board (modify (λ s, set_ticks (u64 (timer_ticks s + 1)) s));;
  switched ← at_sched (scheduler_tick idle_process);
  if (switched : bool) then mret None else
  at_board (Boot.outb 0x20 0x20);;
  mret (Some r).

Definition handle (h : handler) (r : registers) : M kernel (option registers) :=
  match h with
  | timer_callback_h => timer_irq r
  | keyboard_callback_h =>
      at_input (keyboard_callback process_find_by_pid idle_process scancode);; mret (Some r)
  | syscall_handler_h =>
      syscall_handler idle_process builtin_hello_main shell_main_addr init_main shell_v2_main
        process_find_by_pid fuel r
  | invalid_opcode_handler_h => at_board (invalid_opcode_handler r);; mret (Some r)
  | double_fault_handler_h => at_board (double_fault_handler r);; mret (Some r)
  | stack_fault_handler_h => at_board (stack_fault_handler r);; mret (Some r)
  | general_protection_fault_handler_h => at_board (general_protection_fault_handler r);; mret (Some r)
  | page_fault_handler_h => at_board (page_fault_handler cr2 r);; mret (Some r)
  end.

Definition kernel_isr (r : registers) : M kernel (option registers) :=
  if int_no r <? 32 then at_board (exception_handler r);; mret (Some r) else
  hs ← gets (λ s, interrupt_handlers (k_board s));
  h ← lift_opt (arr_get hs (int_no r));
  match h with
  | Some h => handle h r
  | None =>
      psay "Unhandled interrupt: ";;
      psay "
";;
      mret (Some r)
  end.
End interrupts.

(** ** The timer *)

(** The tick prints nothing. *)
Lemma tick_quiet idle t : keeps (λ v, terminal v = t) (scheduler_tick idle).
Proof.
  assert (Hm : ∀ f, (∀ v, terminal (f v) = terminal v) → keeps (λ v, terminal v = t) (modify f)) by (intros f Hf; apply yields_modify; intros v <-; apply Hf).
  assert (Ha : ∀ p f, keeps (λ v, terminal v = t) (assign p f)) by (intros p f; unfold assign, deref; yields_go; by apply Hm).
  unfold scheduler_tick, schedule, context_switch, vmm_switch_address_space, ready_queue_push, ready_queue_pop, ready_queue_remove, process_get_current, deref.
  yields_go; by apply Hm.
Qed.
(** What the scheduler prints is no part of its ring. *)
Lemma ring_terminal t idle v c l : ring idle v c l → ring idle (set_terminal t v) c l.
Proof. intros [[] ? ? ? ? ?]. by split. Qed.

(** C18 (functional): A timer interrupt counts a tick.  While the running process
    has more of its quantum left, the interrupt controller is told and the
    process continues from the frame the interrupt saved.  The tick that ends
    the quantum gives the CPU to the first process of the queue; the
    controller is not told, so it holds back the next timer interrupt until
    this process runs again. *)
Theorem timer_interrupt idle hello shell init shell_v2 find fuel scancode cr2 r s c p l k :
  int_no r = IRQ0 → arr_get (interrupt_handlers (k_board s)) IRQ0 = Some (Some timer_callback_h) →
  ring idle (k_sched s) c (p :: l) → ticks_left (k_sched s) c = Some k → 0 < k →
  wp (kernel_isr idle hello shell init shell_v2 find fuel scancode cr2 r) s (λ res s',
    timer_ticks (k_board s') = u64 (timer_ticks (k_board s) + 1) ∧
    if k =? 1
    then res = None ∧ ring idle (k_sched s') p (l ++ [c]) ∧ ports (k_board s') = ports (k_board s)
    else res = Some r ∧ ring idle (k_sched s') c (p :: l) ∧ ticks_left (k_sched s') c = Some (k - 1) ∧
      ports (k_board s') = ports (k_board s) ++ [(0x20, 0x20)]).
Proof.
  intros Hr Hh Hrg Hk Hpos. unfold kernel_isr. rewrite Hr. change (IRQ0 <? 32) with false. cbv iota.
  apply wp_bind, wp_gets, wp_bind. eapply wp_lift_opt; [exact Hh|]. unfold handle, timer_irq.
  apply wp_bind, wp_zoom, wp_modify, wp_bind. apply wp_at_sched_quiet. cbn [k_in set_k_board].
  eapply wp_mono; [eapply wp_yields; [apply (wp_tick idle _ c p l k); [by apply ring_terminal|exact Hk|exact Hpos]|apply (tick_quiet idle [])|done]|]. cbn beta.
  intros b v [(-> & _ & Hv & Ht) E]. split; [exact E|]. destruct (Z.eqb_spec k 1) as [->|Hk1].
  - apply wp_ret. split; [done|]. split; [done|]. split; [by apply ring_terminal|done].
  - apply wp_bind, wp_zoom, wp_modify, wp_ret. split; [done|]. split; [done|]. split; [by apply ring_terminal|].
    split; [|done]. specialize (Ht c). rewrite decide_True in Ht by done. exact Ht.
Qed.

Definition demo_timer : kernel :=
  set_k_board (set_handlers (<[32%nat := Some timer_callback_h]> (interrupt_handlers bss_board)) bss_board)
    (set_k_in (Input bss_kbd demo_screen demo_sched) demo_machine).
Definition timer_frame : registers := Registers 0 0 0 0 0 0 0 0 0 0 0 0 0 0 0 32 0 0x400000 8 0x202 0x7000 16.
Lemma timer_interrupt_witness :
  wp (kernel_isr 0x100 0x700000 0x700010 0x700020 0x700030 (λ _ _, 0) 100 0 0 timer_frame) demo_timer (λ res s',
    timer_ticks (k_board s') = u64 (timer_ticks (k_board demo_timer) + 1) ∧
    if 10 =? 1
    then res = None ∧ ring 0x100 (k_sched s') 0x300 ([0x400] ++ [0x200]) ∧ ports (k_board s') = ports (k_board demo_timer)
    else res = Some timer_frame ∧ ring 0x100 (k_sched s') 0x200 [0x300; 0x400] ∧ ticks_left (k_sched s') 0x200 = Some (10 - 1) ∧
      ports (k_board s') = ports (k_board demo_timer) ++ [(0x20, 0x20)]).
Proof.
  apply (timer_interrupt 0x100 0x700000 0x700010 0x700020 0x700030 (λ _ _, 0) 100 0 0 timer_frame demo_timer 0x200 0x300 [0x400] 10);
    [reflexivity|vm_compute; reflexivity|exact demo_ring|vm_compute; reflexivity|lia].
Defined.
