(* ===== verification/Typed.v ===== *)
(** * Well-typed kernel states

    The arrays of the kernel keep their sizes and the values in them their
    ranges: the process table, the control blocks, the descriptor tables with
    the pipes and nodes they name, the pipes, the filesystem, the keyboard ring
    and the screens.  Every system call, with any registers, every key, every
    timer tick and every creation or removal of a process that returns leaves
    a well-typed state well-typed.

    Preservation is the [yields] of Partial.v. *)
From S2P Require Import Prelude Mem PageAlloc Pmm Kmalloc Pcb Vmm Pipe Sched Fs Console Keyboard Boot Kernel Strings Syscall Interrupt Partial.

(** ** Well-typed parts *)

Definition int32 (z : Z) : Prop := - 2 ^ 31 ≤ z < 2 ^ 31.
Definition uint32 (z : Z) : Prop := 0 ≤ z < 2 ^ 32.

(** A pointer to a node of the filesystem, as an index. *)
Definition node_or_null (j : Z) : Prop := -1 ≤ j < FS_MAX_FILES.

Record process_typed (p : process_t) : Prop := {
  pt_pid : uint32 (p_pid p);
  pt_name : length (p_name p) = 32%nat;
  pt_priority : uint32 (p_priority p);
  pt_parent : uint32 (p_parent_pid p);
  pt_status : int32 (p_exit_status p);
}.
Record sched_typed (v : sched) : Prop := {
  st_pcbs p pr : pcbs v !! p = Some pr → process_typed pr;
  st_table : Z.of_nat (length (process_table v)) = MAX_PROCESSES;
  st_next : uint32 (next_pid v);
}.
Record console_typed (c : console) : Prop := {
  ct_vga : length (vga c) = 2000%nat;
  ct_terminals : Z.of_nat (length (terminals c)) = NUM_VIRTUAL_TERMINALS;
  ct_buffers i t : arr_get (terminals c) i = Some t → length (buffer t) = 2000%nat;
  ct_current : 0 ≤ current_terminal c < NUM_VIRTUAL_TERMINALS;
}.
(** A character some key produces. *)
Definition key_code (c : Z) : Prop := c ∈ kbd_us ++ [9; 27; 91; 65; 66; 67; 68].
Record kbd_typed (k : kbd) : Prop := {
  bt_wf : kbd_wf k;
  bt_codes c : c ∈ kbd_buffer k → key_code c;
}.
Record input_typed (i : input) : Prop := {
  it_kbd : kbd_typed (kb i);
  it_console : console_typed (con i);
  it_sched : sched_typed (sch i);
}.
(** An entry names a node of the filesystem or none, and a pipe that exists or
    none. *)
Record entry_typed (pipes : gmap Z pipe_t) (e : fd_entry_t) : Prop := {
  et_node : node_or_null (fd_node e);
  et_pipe : fd_pipe e = 0 ∨ is_Some (pipes !! fd_pipe e);
  et_offset : uint32 (fd_offset e);
  et_flags : int32 (fd_flags e);
  et_is_pipe : fd_is_pipe e = 0 ∨ fd_is_pipe e = 1;
}.
Record kernel_typed (s : kernel) : Prop := {
  kt_input : input_typed (k_in s);
  kt_fs : shape (k_fs s);
  kt_pipes p pi : k_pipes s !! p = Some pi → pipe_wf pi;
  kt_fds t l : k_fds s !! t = Some l → Z.of_nat (length l) = MAX_FDS ∧ ∀ e, e ∈ l → entry_typed (k_pipes s) e;
}.

Lemma u32_uint32 z : uint32 (u32 z).
Proof. apply u32_range. Qed.
Lemma s32_int32 z : int32 (s32 z).
Proof. unfold int32, s32, u32. case_cmp; dlia. Qed.
Lemma zero_uint32 : uint32 0.
Proof. done. Qed.
Lemma zero_int32 : int32 0.
Proof. done. Qed.
Lemma one_int32 : int32 1.
Proof. done. Qed.
#[export] Hint Resolve u32_uint32 s32_int32 zero_uint32 zero_int32 one_int32 : typed.

(** ** The scheduler *)

Ltac process_tac :=
  intros; first [solve [auto 2 with typed] | match goal with H : process_typed _ |- _ => destruct H end; split; cbn; auto with typed].

Lemma yields_deref p : yields sched_typed process_typed (deref p).
Proof.
  unfold deref. apply (yields_bind _ (λ m, ∀ pr, m !! p = Some pr → process_typed pr)).
  - apply yields_gets. intros s Hs. exact (st_pcbs s Hs p).
  - intros m Hm. by apply yields_lift_opt.
Qed.
#[export] Hint Resolve yields_deref : typed.
Lemma yields_assign p f : (∀ pr, process_typed pr → process_typed (f pr)) → keeps sched_typed (assign p f).
Proof.
  intros Hf. unfold assign. yields_go. apply yields_modify. intros s [Hp Ht Hn]. split; cbn; [|done..].
  intros q pr. destruct (decide (p = q)) as [->|Hne]; [rewrite lookup_insert_eq; intros [= <-]; auto|].
  rewrite lookup_insert_ne by done. apply Hp.
Qed.
#[export] Hint Extern 2 (keeps sched_typed (assign _ _)) => apply yields_assign; process_tac : typed.
#[export] Hint Extern 2 (keeps sched_typed (modify _)) => apply yields_modify; intros ? [? ? ?]; split; cbn; auto with typed : typed.
Lemma yields_writestring b : keeps sched_typed (writestring b).
Proof. unfold writestring. yields_go. Qed.
Lemma yields_say b : keeps sched_typed (say b).
Proof. apply yields_writestring. Qed.
#[export] Hint Resolve yields_writestring yields_say : typed.

Section sched.
Context (idle : Z) (find : Z → sched → Z).
Lemma yields_push p : keeps sched_typed (ready_queue_push p).
Proof. unfold ready_queue_push. yields_go. Qed.
Lemma yields_remove p : keeps sched_typed (ready_queue_remove p).
Proof. unfold ready_queue_remove. yields_go. Qed.
#[local] Hint Resolve yields_push yields_remove : typed.
Lemma yields_pop : keeps sched_typed ready_queue_pop.
Proof. unfold ready_queue_pop. yields_go. Qed.
Lemma yields_get_current : keeps sched_typed (process_get_current idle).
Proof. unfold process_get_current. yields_go. Qed.
Lemma yields_switch_space p : keeps sched_typed (vmm_switch_address_space p).
Proof. unfold vmm_switch_address_space. yields_go. Qed.
Lemma yields_context_switch old new : keeps sched_typed (context_switch old new).
Proof. unfold context_switch. yields_go. Qed.
#[local] Hint Resolve yields_pop yields_get_current yields_switch_space yields_context_switch : typed.
Lemma yields_schedule : keeps sched_typed (schedule idle).
Proof. unfold schedule. yields_go. Qed.
#[local] Hint Resolve yields_schedule : typed.
Lemma yields_exit status : keeps sched_typed (process_exit idle status).
Proof. unfold process_exit. yields_go. Qed.
Lemma yields_tick : keeps sched_typed (scheduler_tick idle).
Proof. unfold scheduler_tick. yields_go. Qed.
Lemma yields_get_pid : keeps sched_typed (process_get_pid idle).
Proof. unfold process_get_pid. yields_go. Qed.
Lemma yields_report what p new : keeps sched_typed (signal_report what p new).
Proof. unfold signal_report. yields_go. Qed.
#[local] Hint Resolve yields_report : typed.
Lemma yields_signal pid sig : keeps sched_typed (signal_send find pid sig).
Proof. unfold signal_send. yields_go. Qed.
End sched.
#[export] Hint Resolve yields_push yields_remove yields_pop yields_get_current yields_schedule yields_exit yields_tick
  yields_get_pid yields_signal : typed.

(** ** The console and the keyboard *)

Lemma yields_vga_put i c : keeps console_typed (vga_put i c).
Proof.
  unfold vga_put. apply (yields_bind _ (λ v, length v = 2000%nat)); [apply yields_gets; by intros s []|]. intros v Hv.
  apply (yields_bind _ (λ v, length v = 2000%nat)).
  - apply yields_lift_opt. intros v' E. rewrite <- Hv. exact (arr_set_length _ _ _ _ E).
  - intros v' Hv'. apply yields_modify. by intros s [? ? ? ?].
Qed.
Lemma yields_get_vt i : yields console_typed (λ t, length (buffer t) = 2000%nat) (get_vt i).
Proof.
  unfold get_vt. apply (yields_bind _ (λ ts, ∀ t, arr_get ts i = Some t → length (buffer t) = 2000%nat)).
  - apply yields_gets. intros s Hs. apply (ct_buffers s Hs).
  - intros ts H. by apply yields_lift_opt.
Qed.
Lemma yields_upd_vt i f :
  (∀ t t', length (buffer t) = 2000%nat → f t = Some t' → length (buffer t') = 2000%nat) → keeps console_typed (upd_vt i f).
Proof.
  intros Hf s [] s' [Hv Ht Hb Hc]. unfold upd_vt, mbind, M_bind, gets.
  destruct (arr_get (terminals s) i) as [t|] eqn:Et; [|done]. cbn [lift_opt mret M_ret].
  destruct (f t) as [t'|] eqn:Ef; [|done]. cbn [lift_opt mret M_ret].
  pose proof (arr_get_Some _ _ _ Et) as [Hi _]. rewrite arr_set_in by lia. cbn [lift_opt mret M_ret modify]. intros [= <-].
  split; [|done]. split; cbn [vga terminals current_terminal set_terminals]; [done|by rewrite length_insert| |done].
  intros j u. rewrite arr_get_insert by lia. destruct (j =? i); [|apply Hb]. intros [= <-]. eapply Hf; [|exact Ef]. by eapply Hb.
Qed.
Lemma put_cell_length i v t t' : length (buffer t) = 2000%nat → put_cell i v t = Some t' → length (buffer t') = 2000%nat.
Proof.
  unfold put_cell. cbn. destruct (arr_set (buffer t) i v) as [b|] eqn:E; [|done]. intros Hl [= <-]. cbn. rewrite <- Hl.
  exact (arr_set_length _ _ _ _ E).
Qed.
Lemma yields_outb port v : keeps console_typed (Console.outb port v).
Proof. unfold Console.outb. apply yields_modify. by intros s [? ? ? ?]. Qed.
#[export] Hint Resolve yields_vga_put yields_get_vt yields_outb : typed.
#[export] Hint Extern 2 (keeps console_typed (upd_vt _ _)) =>
  apply yields_upd_vt; intros ? ? ?; first [apply put_cell_length; assumption | intros [= <-]; assumption] : typed.
#[export] Hint Extern 2 (keeps console_typed (modify _)) => apply yields_modify; intros ? [? ? ? ?]; split; cbn; assumption : typed.
Lemma yields_vga_get i : keeps console_typed (vga_get i).
Proof. unfold vga_get. yields_go. Qed.
#[export] Hint Resolve yields_vga_get : typed.

Lemma yields_set_cursor x y : keeps console_typed (terminal_set_cursor x y).
Proof. unfold terminal_set_cursor. yields_go. Qed.
#[export] Hint Resolve yields_set_cursor : typed.
Lemma yields_refresh : keeps console_typed vt_refresh.
Proof. unfold vt_refresh. yields_go. Qed.
#[export] Hint Resolve yields_refresh : typed.
Lemma yields_vt_scroll cur : keeps console_typed (vt_scroll cur).
Proof. unfold vt_scroll. yields_go. Qed.
#[export] Hint Resolve yields_vt_scroll : typed.
Lemma yields_vt_putchar c : keeps console_typed (vt_putchar c).
Proof. unfold vt_putchar. yields_go. Qed.
Lemma yields_vt_switch t : keeps console_typed (vt_switch t).
Proof.
  unfold vt_switch. yields_go. propify. apply yields_modify. intros s [? ? ? ?]. split; cbn; try assumption. lia.
Qed.
Lemma yields_terminal_scroll : keeps console_typed terminal_scroll.
Proof. unfold terminal_scroll. yields_go. Qed.
#[export] Hint Resolve yields_vt_putchar yields_vt_switch yields_terminal_scroll : typed.
Lemma yields_next_row : keeps console_typed next_row.
Proof. unfold next_row. yields_go. Qed.
#[export] Hint Resolve yields_next_row : typed.
Lemma yields_putchar c : keeps console_typed (terminal_putchar c).
Proof. unfold terminal_putchar. yields_go. Qed.
#[export] Hint Resolve yields_putchar : typed.
Lemma yields_write l : keeps console_typed (terminal_write l).
Proof. induction l as [|c l IH]; cbn [terminal_write]; yields_go. Qed.
Lemma yields_write_all l : keeps console_typed (write_all l).
Proof. induction l as [|x l IH]; cbn [write_all]; unfold terminal_writestring; [by apply yields_ret|]. pose proof (yields_write (c_string x)). yields_go. Qed.
#[export] Hint Resolve yields_write yields_write_all : typed.
Lemma yields_terminal_writestring l : keeps console_typed (terminal_writestring l).
Proof. apply yields_write. Qed.
#[export] Hint Resolve yields_terminal_writestring : typed.

Lemma yields_of_wp {S A} (I : S → Prop) (R : A → Prop) (c : M S A) : (∀ s, I s → wp c s (λ a s', I s' ∧ R a)) → yields I R c.
Proof. intros H s a s' Hs E. specialize (H s Hs). unfold wp in H. by rewrite E in H. Qed.

Lemma key_code_us sc c : arr_get kbd_us sc = Some c → key_code c.
Proof. intros [_ E]%arr_get_Some. apply elem_of_app. left. by eapply list_elem_of_lookup_2. Qed.
Lemma yields_us {S} (I : S → Prop) sc : yields I key_code (lift_opt (arr_get kbd_us sc)).
Proof. apply yields_lift_opt. intros c. apply key_code_us. Qed.
Lemma yields_kbd_store c : key_code c → keeps kbd_typed (kbd_store c).
Proof.
  intros Hc k b k' [Hk Hcs] E. split; [|done]. split.
  - pose proof (wp_kbd_store k c Hk) as H. unfold wp in H. rewrite E in H. apply H.
  - revert E. unfold kbd_store, mbind, M_bind, gets. cbv zeta. cbn [id]. destruct (negb _); [|by intros [= _ <-]].
    destruct (arr_set _ _ c) as [l|] eqn:El; [|done]. intros [= _ <-]. cbn [kbd_buffer set_write_pos set_kbd_buffer].
    apply arr_set_Some in El as [Hi ->]. intros x [j Hj]%list_elem_of_lookup. destruct (decide (j = Z.to_nat (kbd_write_pos k))) as [->|Hne].
    + rewrite list_lookup_insert_eq in Hj by lia. by injection Hj as <-.
    + rewrite list_lookup_insert_ne in Hj by done. apply Hcs. by eapply list_elem_of_lookup_2.
Qed.
Lemma yields_getchar : yields kbd_typed (λ c, c = 0 ∨ key_code c) keyboard_getchar.
Proof.
  intros k c k' [Hk Hcs]. unfold keyboard_getchar, mbind, M_bind, gets. cbn [id].
  destruct (_ =? _); [intros [= <- <-]; by split; [|left]|].
  destruct (arr_get (kbd_buffer k) (kbd_read_pos k)) as [x|] eqn:Ex; [|done]. intros [= <- <-].
  apply arr_get_Some in Ex as [_ Ex%list_elem_of_lookup_2]. split; [|right; by apply Hcs].
  destruct Hk. split; [split; cbn; [done|dlia|done]|exact Hcs].
Qed.
Lemma key_code_arrow sc : key_code (arrow_char sc).
Proof.
  apply elem_of_app. right. unfold arrow_char. repeat case_if; rewrite !elem_of_cons; auto 9.
Qed.
Lemma key_code_fixed c : c ∈ [9; 27; 91; 65; 66; 67; 68] → key_code c.
Proof. intros H. apply elem_of_app. by right. Qed.
#[export] Hint Resolve yields_us yields_kbd_store yields_getchar key_code_arrow : typed.
#[export] Hint Extern 1 (key_code _) => apply key_code_fixed; rewrite !elem_of_cons; tauto : typed.
#[export] Hint Extern 2 (keeps kbd_typed (modify _)) => apply yields_modify; intros ? [[? ? ?] ?]; split; [split|]; cbn; assumption : typed.
Lemma yields_has_char : keeps kbd_typed keyboard_has_char.
Proof. unfold keyboard_has_char. yields_go. Qed.
Lemma yields_arrow sc : keeps kbd_typed (kbd_arrow sc).
Proof. unfold kbd_arrow. yields_go. Qed.
#[export] Hint Resolve yields_has_char yields_arrow : typed.

Lemma yields_on_kbd {A} (R : A → Prop) c : yields kbd_typed R c → yields input_typed R (on_kbd c).
Proof. intros Hc. eapply yields_zoom; [exact Hc|by intros s []|]. intros s t [? ? ?] ?. by split. Qed.
Lemma yields_on_console {A} (R : A → Prop) c : yields console_typed R c → yields input_typed R (on_console c).
Proof. intros Hc. eapply yields_zoom; [exact Hc|by intros s []|]. intros s t [? ? ?] ?. by split. Qed.
Lemma sched_typed_terminal l v : sched_typed v → sched_typed (set_terminal l v).
Proof. by intros [? ? ?]. Qed.
Lemma yields_on_sched {A} (R : A → Prop) c : yields sched_typed R c → yields input_typed R (on_sched c).
Proof.
  intros Hc. unfold on_sched. apply (yields_bind _ (λ _, True)); [by apply yields_gets|]. intros old _.
  eapply yields_bind.
  { eapply yields_zoom; [exact Hc|intros s []; by apply sched_typed_terminal|]. intros s t [? ? ?] ?. by split. }
  intros r Hr. apply (yields_bind _ (λ _, True)); [by apply yields_gets|]. intros new _.
  eapply yields_bind; [apply yields_on_console, yields_write_all|]. intros _ _.
  eapply yields_bind; [apply yields_modify|intros _ _; by apply yields_ret].
  intros s [? ? ?]. split; [done..|]. by apply sched_typed_terminal.
Qed.
#[export] Hint Resolve yields_on_kbd yields_on_console yields_on_sched : typed.

Lemma yields_callback find idle sc : keeps input_typed (keyboard_callback find idle sc).
Proof. unfold keyboard_callback. yields_go. Qed.
#[export] Hint Resolve yields_callback : typed.

(** ** Pipes *)

Lemma yields_read_turn count br : keeps pipe_wf (read_turn count br).
Proof.
  intros p r p' Hp E. split; [|done]. revert E. destruct (decide (br < count)) as [Hlt|Hge].
  2: { rewrite read_turn_leave by lia. by intros [= <- <-]. }
  destruct (decide (pi_count p = 0)) as [Hz|Hnz]; [rewrite read_turn_empty by done; by intros [= <- <-]|].
  destruct (read_turn_byte count br p Hp Hlt Hnz) as (b & p1 & E & Hp1 & _). rewrite E. by intros [= <- <-].
Qed.
Lemma yields_write_turn buf count bw : keeps pipe_wf (write_turn buf count bw).
Proof.
  intros p r p' Hp E. split; [|done]. revert E. unfold write_turn. destruct (bw <? count); [|by intros [= <- <-]].
  rewrite (run_bind _ _ p p p) by done. unfold id. destruct (Z.eqb_spec (pi_count p) PIPE_SIZE) as [Hz|Hnz]; [by intros [= <- <-]|].
  destruct (arr_get buf bw) as [b|]; [|done]. cbn [lift_opt]. rewrite (run_bind _ _ p b p) by done.
  destruct (write_byte_ok p b Hp Hnz) as (p1 & E & Hp1 & _). rewrite (run_bind _ _ p () p1) by done. by intros [= <- <-].
Qed.
#[export] Hint Resolve yields_read_turn yields_write_turn : typed.
Lemma yields_read_loop fuel count br out : keeps pipe_wf (pipe_read_loop fuel count br out).
Proof. revert br out. induction fuel as [|fuel IH]; intros br out; cbn [pipe_read_loop]; yields_go. Qed.
Lemma yields_write_loop fuel buf count bw : keeps pipe_wf (pipe_write_loop fuel buf count bw).
Proof. revert bw. induction fuel as [|fuel IH]; intros bw; cbn [pipe_write_loop]; yields_go. Qed.
#[export] Hint Resolve yields_read_loop yields_write_loop : typed.
Lemma yields_pipe_read fuel count : keeps pipe_wf (pipe_read fuel count).
Proof. unfold pipe_read. yields_go. Qed.
Lemma yields_pipe_write fuel buf count : keeps pipe_wf (pipe_write fuel buf count).
Proof. unfold pipe_write. yields_go. Qed.
Lemma yields_pipe_destroy : keeps pipe_wf pipe_destroy.
Proof. apply yields_modify. intros p [? ? ? ?]. by split. Qed.
#[export] Hint Resolve yields_pipe_read yields_pipe_write yields_pipe_destroy : typed.

(** ** The filesystem *)

Definition block_typed (v : fs_block_t) : Prop := Z.of_nat (length (b_data v)) = FS_BLOCK_SIZE.
Definition bitmap_typed (l : list Z) : Prop := Z.of_nat (length l) = FS_MAX_BLOCKS / 32 ∧ ∀ w, w ∈ l → uint32 w.
Definition node_range (i : Z) : Prop := 0 ≤ i < FS_MAX_FILES.

Lemma yields_get_node i : yields shape (λ _, node_range i) (get_node i).
Proof.
  intros s n s' Hs. unfold get_node, mbind, M_bind, gets. destruct (arr_get (nodes s) i) as [x|] eqn:E; [|done].
  intros [= <- <-]. split; [done|]. apply arr_get_Some in E as [? _]. destruct Hs. unfold node_range. lia.
Qed.
Lemma yields_put_node i n : keeps shape (put_node i n).
Proof.
  intros s [] s' Hs. unfold put_node, mbind, M_bind, gets. destruct (arr_set (nodes s) i n) as [l|] eqn:E; [|done].
  intros [= <-]. apply arr_set_Some in E as [_ ->]. split; [|done]. by apply shape_put_node.
Qed.
Lemma yields_get_block b : yields shape block_typed (get_block b).
Proof.
  unfold get_block. apply (yields_bind _ (λ bs, ∀ v, arr_get bs b = Some v → block_typed v)).
  - apply yields_gets. intros s Hs v E. exact (sh_data s Hs b v E).
  - intros bs H. by apply yields_lift_opt.
Qed.
Lemma yields_put_block b v : block_typed v → keeps shape (put_block b v).
Proof.
  intros Hv s [] s' Hs. unfold put_block, mbind, M_bind, gets. destruct (arr_set (blocks s) b v) as [l|] eqn:E; [|done].
  intros [= <-]. apply arr_set_Some in E as [? ->]. split; [|done]. apply shape_put_block; [done| |done]. destruct Hs. lia.
Qed.
Lemma yields_get_bitmap : yields shape bitmap_typed (gets free_blocks).
Proof. apply yields_gets. by intros s []. Qed.
Lemma yields_set_bitmap l : bitmap_typed l → keeps shape (modify (set_free_blocks l)).
Proof. intros [? ?]. apply yields_modify. intros s [? ? ? ? ?]. by split. Qed.
#[export] Hint Resolve yields_get_node yields_put_node yields_get_block yields_get_bitmap yields_set_bitmap : typed.
#[export] Hint Extern 2 (keeps shape (put_block _ _)) => apply yields_put_block; assumption : typed.
#[export] Hint Extern 2 (keeps shape (modify _)) => apply yields_modify; intros ? [? ? ? ? ?]; split; cbn; assumption : typed.

Lemma yields_put_next b next : keeps shape (put_next b next).
Proof. unfold put_next. yields_go. Qed.
#[export] Hint Resolve yields_put_next : typed.
Lemma yields_bitmap_set {S} (I : S → Prop) l i w : bitmap_typed l → uint32 w → yields I bitmap_typed (lift_opt (arr_set l i w)).
Proof.
  intros [Hl Hw] Hx. apply yields_lift_opt. intros l' [Hi ->]%arr_set_Some. split; [by rewrite length_insert|].
  intros x [j Hj]%list_elem_of_lookup. destruct (decide (j = Z.to_nat i)) as [->|Hne].
  - rewrite list_lookup_insert_eq in Hj by lia. by injection Hj as <-.
  - rewrite list_lookup_insert_ne in Hj by done. apply Hw. by eapply list_elem_of_lookup_2.
Qed.
#[export] Hint Resolve yields_bitmap_set : typed.
Lemma yields_allocate : keeps shape allocate_block.
Proof.
  unfold allocate_block. eapply yields_bind; [|intros; by apply yields_ret].
  apply (yields_for_until _ (λ _, True)). intros j _. yields_go.
Qed.
#[export] Hint Resolve yields_allocate : typed.

Lemma yields_skip_read fuel b o : keeps shape (skip_read fuel b o).
Proof. revert b o. induction fuel as [|fuel IH]; intros b o; cbn [skip_read]; yields_go. Qed.
Lemma yields_fs_read_loop fuel b o size r out : keeps shape (read_loop fuel b o size r out).
Proof. revert b o r out. induction fuel as [|fuel IH]; intros b o r out; cbn [read_loop]; yields_go. Qed.
#[export] Hint Resolve yields_skip_read yields_fs_read_loop : typed.
Lemma yields_fs_read n o size : keeps shape (fs_read n o size).
Proof. unfold fs_read, ramfs_read. yields_go. Qed.
Lemma yields_next_or_new b : keeps shape (next_or_new b).
Proof. unfold next_or_new. yields_go. Qed.
#[export] Hint Resolve yields_next_or_new : typed.
Lemma yields_skip_write fuel b o : keeps shape (skip_write fuel b o).
Proof. revert b o. induction fuel as [|fuel IH]; intros b o; cbn [skip_write]; yields_go. Qed.
Lemma yields_splice {S} (I : S → Prop) v o d :
  block_typed v → yields I (λ l, Z.of_nat (length l) = FS_BLOCK_SIZE) (lift_opt (splice (b_data v) o d)).
Proof. intros Hv. apply yields_lift_opt. intros l E. apply splice_Some in E as (Hl & _). unfold block_typed in Hv. lia. Qed.
#[export] Hint Resolve yields_skip_write yields_splice : typed.
Lemma yields_fs_write_loop fuel b o size w buf : keeps shape (write_loop fuel b o size w buf).
Proof. revert b o w. induction fuel as [|fuel IH]; intros b o w; cbn [write_loop]; yields_go. Qed.
#[export] Hint Resolve yields_fs_write_loop : typed.
Lemma yields_fs_write n o size buf : keeps shape (fs_write n o size buf).
Proof. unfold fs_write, ramfs_write. yields_go. Qed.
Lemma yields_put_entry {S} (I : S → Prop) v i e :
  block_typed v → yields I (λ l, Z.of_nat (length l) = FS_BLOCK_SIZE) (lift_opt (put_entry (b_data v) i e)).
Proof. apply yields_splice. Qed.
Lemma yields_get_entry b i : keeps shape (Fs.get_entry b i).
Proof. unfold Fs.get_entry. yields_go. Qed.
#[export] Hint Resolve yields_fs_read yields_fs_write yields_put_entry yields_get_entry : typed.
Lemma yields_readdir n i : keeps shape (fs_readdir n i).
Proof.
  unfold fs_readdir, ramfs_readdir. yields_go.
  match goal with |- yields _ _ (?f _ _ _) => enough (Hgo : ∀ k i0 count, keeps shape (f k i0 count)) by apply Hgo end.
  intros k. induction k as [|k IH]; intros i0 count; yields_go.
Qed.
Definition maybe_node (r : option Z) : Prop := ∀ j, r = Some j → node_range j.
Lemma yields_find_inode ino : yields shape maybe_node (find_inode ino).
Proof.
  apply yields_for_until. intros j _. eapply yields_bind; [apply yields_get_node|]. intros n Hj. apply yields_ret.
  case_if; [by intros ? [= <-]|done].
Qed.
Lemma yields_find_free_node : yields shape maybe_node find_free_node.
Proof.
  apply yields_for_until. intros j _. eapply yields_bind; [apply yields_get_node|]. intros n Hj. apply yields_ret.
  case_if; [by intros ? [= <-]|done].
Qed.
Lemma null_node : node_or_null (-1).
Proof. by unfold node_or_null. Qed.
Lemma some_node r j : maybe_node r → r = Some j → node_or_null j.
Proof. intros Hr E. destruct (Hr j E). unfold node_or_null. lia. Qed.
#[export] Hint Resolve yields_readdir yields_find_inode yields_find_free_node null_node some_node : typed.
Lemma default_node r : maybe_node r → node_or_null (default (-1) r).
Proof. destruct r; cbn; eauto with typed. Qed.
#[export] Hint Resolve default_node : typed.
Lemma yields_lookup n i b name :
  yields shape maybe_node (for_until n i (λ i, e ← Fs.get_entry b i;
    if negb (d_inode e =? 0) && bool_decide (c_string (d_name e) = name) then find_inode (d_inode e) else mret None)).
Proof. apply yields_for_until. intros j _. yields_go. apply yields_find_inode. Qed.
#[local] Hint Resolve yields_lookup : typed.
Lemma yields_finddir n name : yields shape node_or_null (fs_finddir n name).
Proof. unfold fs_finddir, ramfs_finddir. yields_go; auto with typed. Qed.
Lemma yields_init_node i name type perm fb : keeps shape (init_node i name type perm fb).
Proof. unfold init_node. yields_go. Qed.
Lemma yields_add_entry p name ino : keeps shape (add_entry p name ino).
Proof.
  unfold add_entry. yields_go. apply (yields_weaken _ (λ r : option unit, ∀ a, r = Some a → True)); [|done].
  apply yields_for_until. intros j _. yields_go. 
Qed.
#[export] Hint Resolve yields_init_node yields_add_entry : typed.
Lemma yields_create_file p name : yields shape node_or_null (ramfs_create_file p name).
Proof. unfold ramfs_create_file. yields_go; eauto with typed. Qed.
Lemma yields_create_dir p name : yields shape node_or_null (ramfs_create_dir p name).
Proof. unfold ramfs_create_dir. yields_go; eauto with typed. apply yields_put_block. reflexivity. Qed.
Lemma yields_fs_close n : keeps shape (fs_close n).
Proof. by apply yields_ret. Qed.
Lemma yields_fs_root : keeps shape fs_root.
Proof. by apply yields_gets. Qed.
#[export] Hint Resolve yields_finddir yields_create_file yields_create_dir yields_fs_close yields_fs_root : typed.

(** ** The kernel *)

(** A well-typed state in which the pipes [D] exist. *)
Definition with_pipes (D : list Z) (s : kernel) : Prop :=
  kernel_typed s ∧ ∀ p, p ∈ D → p = 0 ∨ is_Some (k_pipes s !! p).

Section kernel.
Context (D : list Z).
Abbreviation kt := (with_pipes D).

(** Parts of the state: memory, the allocators and the board have no
    invariant here. *)
Lemma with_pipes_frame s s' :
  kt s → k_in s' = k_in s → k_fs s' = k_fs s → k_pipes s' = k_pipes s → k_fds s' = k_fds s → kt s'.
Proof. intros [[? ? ? ?] ?] E1 E2 E3 E4. split; [split|]; rewrite ?E1, ?E2, ?E3, ?E4; assumption. Qed.
Lemma yields_part {T A} (R : A → Prop) (get : kernel → T) put (c : M T A) :
  yields (λ _, True) R c →
  (∀ s t, k_in (put t s) = k_in s ∧ k_fs (put t s) = k_fs s ∧ k_pipes (put t s) = k_pipes s ∧ k_fds (put t s) = k_fds s) →
  yields kt R (zoom get put c).
Proof.
  intros Hc Hf. eapply yields_zoom; [exact Hc|done|]. intros s t Hs _. destruct (Hf s t) as (? & ? & ? & ?).
  by eapply with_pipes_frame.
Qed.
Lemma yields_any {T A} (c : M T A) : yields (λ _ : T, True) (λ _, True) c.
Proof. by intros s a s'. Qed.
Lemma yields_at_heap {A} (c : M kheap A) : keeps kt (at_heap c).
Proof. apply yields_part; [apply yields_any|done]. Qed.
Lemma yields_at_phys {A} (R : A → Prop) (c : M phys A) : yields (λ _, True) R c → yields kt R (at_phys c).
Proof. intros Hc. by apply yields_part. Qed.
Lemma yields_at_phys_any {A} (c : M phys A) : keeps kt (at_phys c).
Proof. apply yields_at_phys, yields_any. Qed.
Lemma yields_at_board {A} (c : M board A) : keeps kt (at_board c).
Proof. apply yields_part; [apply yields_any|done]. Qed.
Lemma yields_at_input {A} (R : A → Prop) c : yields input_typed R c → yields kt R (at_input c).
Proof.
  intros Hc. eapply yields_zoom; [exact Hc|by intros s [[] _]|]. intros s t [[? ? ? ?] ?] ?. by split; [split|].
Qed.
Lemma yields_at_sched {A} (R : A → Prop) c : yields sched_typed R c → yields kt R (at_sched c).
Proof. intros Hc. by apply yields_at_input, yields_on_sched. Qed.
Lemma yields_at_kbd {A} (R : A → Prop) c : yields kbd_typed R c → yields kt R (at_kbd c).
Proof. intros Hc. by apply yields_at_input, yields_on_kbd. Qed.
Lemma yields_at_console {A} (R : A → Prop) c : yields console_typed R c → yields kt R (at_console c).
Proof. intros Hc. by apply yields_at_input, yields_on_console. Qed.
Lemma yields_at_fs {A} (R : A → Prop) c : yields shape R c → yields kt R (at_fs c).
Proof.
  intros Hc. eapply yields_zoom; [exact Hc|by intros s [[] _]|]. intros s t [[? ? ? ?] ?] ?. by split; [split|].
Qed.
Lemma yields_store8 p v : keeps kt (store8 p v).
Proof. apply yields_modify. intros s Hs. by eapply with_pipes_frame. Qed.
Lemma yields_store64 p v : keeps kt (store64 p v).
Proof.
  unfold store64. case_if; [|apply yields_undefined]. apply yields_modify. intros s Hs. by eapply with_pipes_frame.
Qed.
Lemma yields_load8 p : keeps kt (load8 p).
Proof. by apply yields_gets. Qed.
End kernel.
#[export] Hint Resolve yields_at_heap yields_at_phys yields_at_board yields_at_input yields_at_sched yields_at_kbd
  yields_at_console yields_at_fs yields_store8 yields_store64 yields_load8 : typed.
#[export] Hint Extern 10 (yields _ _ (at_phys _)) => apply yields_at_phys_any : typed.

(** ** Descriptors and pipes *)

Section descriptors.
Context (D : list Z).
Abbreviation kt := (with_pipes D).

(** Code that reads an entry may rely on its pipe. *)
Lemma yields_get_fd {A} (R : A → Prop) t i (k : fd_entry_t → M kernel A) :
  (∀ e, (∀ m, (∀ p, p ∈ fd_pipe e :: D → p = 0 ∨ is_Some (m !! p)) → entry_typed m e) →
    yields (with_pipes (fd_pipe e :: D)) R (k e)) →
  yields kt R (get_fd t i ≫= k).
Proof.
  intros Hk s a s' [Hs HD]. unfold get_fd, get_fds, mbind, M_bind, gets.
  destruct (k_fds s !! t) as [l|] eqn:El; [|done]. cbn [lift_opt mret M_ret].
  destruct (arr_get l i) as [e|] eqn:Ee; [|done]. cbn [lift_opt mret M_ret]. intros Ek.
  destruct (kt_fds s Hs t l El) as [_ He]. apply arr_get_Some in Ee as [_ Ee%list_elem_of_lookup_2]. specialize (He e Ee).
  assert (HD' : ∀ p, p ∈ fd_pipe e :: D → p = 0 ∨ is_Some (k_pipes s !! p)).
  { intros p [->|Hp]%elem_of_cons; [apply (et_pipe _ _ He)|by apply HD]. }
  destruct (Hk e) with s a s' as [[H1 H2] Ha]; [|done|done|].
  - intros m Hm. destruct He. split; try assumption. apply Hm. left.
  - split; [split; [done|]|done]. intros p Hp. apply H2. by right.
Qed.
Lemma yields_put_fd t i f :
  (∀ m e, (∀ p, p ∈ D → p = 0 ∨ is_Some (m !! p)) → entry_typed m e → entry_typed m (f e)) → keeps kt (put_fd t i f).
Proof.
  intros Hf s [] s' [Hs HD]. unfold put_fd, put_fds, get_fds, mbind, M_bind, gets.
  destruct (k_fds s !! t) as [l|] eqn:El; [|done]. cbn [lift_opt mret M_ret].
  destruct (arr_get l i) as [e|] eqn:Ee; [|done]. cbn [lift_opt mret M_ret].
  destruct (arr_set l i (f e)) as [l'|] eqn:E'; [|done]. cbn [lift_opt mret M_ret]. rewrite El. cbn [lift_opt mret M_ret modify].
  intros [= <-]. split; [|done]. split; [|done]. destruct (kt_fds s Hs t l El) as [Hl He]. destruct Hs as [? ? ? Hfds].
  split; cbn [k_in k_fs k_pipes k_fds set_k_fds]; [done..|].
  intros t' l2. destruct (decide (t = t')) as [<-|Hne]; [rewrite lookup_insert_eq; intros [= <-]|rewrite lookup_insert_ne by done; apply Hfds].
  apply arr_set_Some in E' as [Hi ->]. split; [by rewrite length_insert|].
  intros x [j Hj]%list_elem_of_lookup. destruct (decide (j = Z.to_nat i)) as [->|Hji].
  - rewrite list_lookup_insert_eq in Hj by lia. injection Hj as <-. apply Hf; [done|]. apply He.
    apply arr_get_Some in Ee as [_ Ee]. by eapply list_elem_of_lookup_2.
  - rewrite list_lookup_insert_ne in Hj by done. apply He. by eapply list_elem_of_lookup_2.
Qed.
(** A pipe is added or replaced, and none goes. *)
Lemma with_pipes_insert s p pi :
  pipe_wf pi → kt s → with_pipes (p :: D) (set_k_pipes (<[p := pi]> (k_pipes s)) s).
Proof.
  intros Hpi [[? ? Hpipes Hfds] HD].
  assert (Hmono : ∀ q, q = 0 ∨ is_Some (k_pipes s !! q) → q = 0 ∨ is_Some (<[p := pi]> (k_pipes s) !! q)).
  { intros q [Hq|Hq]; [by left|]. right. destruct (decide (p = q)) as [<-|Hne]; [by rewrite lookup_insert_eq|by rewrite lookup_insert_ne]. }
  split; [split|]; cbn [k_in k_fs k_pipes k_fds set_k_pipes]; [done..| | |].
  - intros q x. destruct (decide (p = q)) as [<-|Hne]; [by rewrite lookup_insert_eq; intros [= <-]|rewrite lookup_insert_ne by done; apply Hpipes].
  - intros t l El. destruct (Hfds t l El) as [Hl He]. split; [done|]. intros e Hin. destruct (He e Hin). split; auto.
  - intros q [->|Hq]%elem_of_cons; [right; by rewrite lookup_insert_eq|auto].
Qed.
Lemma with_pipes_tail p s : with_pipes (p :: D) s → kt s.
Proof. intros [Hs HD]. split; [done|]. intros q Hq. apply HD. by right. Qed.
Lemma yields_at_pipe {A} (R : A → Prop) p (c : M pipe_t A) : yields pipe_wf R c → yields kt R (at_pipe p c).
Proof.
  intros Hc s a s' Hs. unfold at_pipe, mbind, M_bind, gets. destruct (k_pipes s !! p) as [pi|] eqn:Ep; [|done].
  cbn [lift_opt mret M_ret]. unfold zoom. destruct (c pi) as [[b pi']| | | |] eqn:Ec; [|done..]. intros [= <- <-].
  destruct (Hc pi b pi') as [Hpi Hb]; [by apply (kt_pipes s (proj1 Hs) p)|done|]. split; [|done].
  by eapply with_pipes_tail, with_pipes_insert.
Qed.
Lemma yields_load_bytes p n : 0 ≤ n → yields kt (λ l, Z.of_nat (length l) = n) (load_bytes p n).
Proof. intros Hn. apply yields_gets. intros s _. rewrite length_fmap, length_seq. lia. Qed.
Lemma pipe_create_wf raw : Z.of_nat (length raw) = PIPE_SIZE → pipe_wf (pipe_create raw).
Proof. intros H. by split. Qed.
(** Code that creates a pipe may rely on it. *)
Lemma yields_pipe_new {A} (R : A → Prop) (k : Z → M kernel A) :
  (∀ p, yields (with_pipes (p :: D)) R (k p)) → yields kt R (pipe_new ≫= k).
Proof.
  intros Hk s a s' Hs. unfold mbind, M_bind. destruct (pipe_new s) as [[p s1]| | | |] eqn:E; [|done..]. intros Ek.
  enough (with_pipes (p :: D) s1) as H1.
  { destruct (Hk p s1 a s' H1 Ek) as [H ?]. split; [by eapply with_pipes_tail|done]. }
  revert E. unfold pipe_new, mbind, M_bind. destruct (at_heap _ s) as [[q s2]| | | |] eqn:Eq; [|done..].
  apply (yields_at_heap D) in Eq as [H2 _]; [|done]. destruct (Z.eqb_spec q 0) as [->|Hq].
  - intros [= <- <-]. destruct H2 as [? H2]. split; [done|]. intros p [->|?]%elem_of_cons; auto.
  - destruct (load_bytes q PIPE_SIZE s2) as [[raw s3]| | | |] eqn:El; [|done..].
    apply yields_load_bytes in El as [H3 Hraw]; [|done..]. intros [= <- <-]. apply with_pipes_insert; [|done].
    by apply pipe_create_wf.
Qed.
End descriptors.
#[export] Hint Resolve yields_at_pipe : typed.
#[export] Hint Extern 2 (keeps (with_pipes _) (put_fd _ _ _)) =>
  apply yields_put_fd; first [solve [auto] | intros ? ? ? [? ? ? ? ?]; split; cbn; auto with typed] : typed.
(** Descriptor entries read and pipes created are remembered. *)
Ltac kernel_step :=
  match goal with
  | |- yields _ _ (get_fd _ _ ≫= _) => apply yields_get_fd; intros ? ?
  | |- yields _ _ (pipe_new ≫= _) => apply yields_pipe_new; intros ?
  | |- _ => yields_step
  end.
Ltac kernel_go := repeat (kernel_step; cbv beta).

(** ** Processes *)

Section processes.
Context (idle : Z) (D : list Z).
Abbreviation kt := (with_pipes D).

Lemma yields_pderef p : yields kt process_typed (pderef p).
Proof. apply yields_at_sched, yields_deref. Qed.
Lemma yields_passign p f : (∀ pr, process_typed pr → process_typed (f pr)) → keeps kt (passign p f).
Proof. intros Hf. by apply yields_at_sched, yields_assign. Qed.
Lemma yields_psay b : keeps kt (psay b).
Proof. apply yields_at_sched, yields_say. Qed.
Lemma yields_pwrite b : keeps kt (pwrite b).
Proof. apply yields_at_sched, yields_writestring. Qed.
End processes.
#[export] Hint Resolve yields_pderef yields_psay yields_pwrite : typed.
#[export] Hint Extern 2 (keeps (with_pipes _) (passign _ _)) => apply yields_passign; process_tac : typed.

(** Names in an array of 32 bytes. *)
Definition name_typed (l : list Z) : Prop := length l = 32%nat.
Lemma yields_strncpy {S} (I : S → Prop) dst src n : name_typed dst → yields I name_typed (lift_opt (strncpy dst src n)).
Proof.
  intros Hd. apply yields_lift_opt. intros l. unfold strncpy. destruct (Nat.leb_spec n (length dst)); [|done].
  intros [= <-]. unfold name_typed in *.
  rewrite length_app, length_take, length_app, length_replicate, length_drop. lia.
Qed.
Lemma yields_strcpy {S} (I : S → Prop) dst src : name_typed dst → yields I name_typed (lift_opt (strcpy dst src)).
Proof.
  intros Hd. apply yields_lift_opt. intros l. unfold strcpy. destruct (Nat.ltb_spec (length src) (length dst)); [|done].
  intros [= <-]. unfold name_typed in *.
  rewrite length_app. cbn [length]. rewrite length_drop. lia.
Qed.
Lemma yields_name_set {S} (I : S → Prop) l i c : name_typed l → yields I name_typed (lift_opt (arr_set l i c)).
Proof. intros Hl. apply yields_lift_opt. intros l' E. unfold name_typed. by rewrite (arr_set_length _ _ _ _ E). Qed.
Lemma yields_string_concat {S} (I : S → Prop) l src : name_typed l → yields I name_typed (lift_opt (string_concat l src)).
Proof.
  intros Hl. apply yields_lift_opt. intros l'. unfold string_concat. cbv zeta.
  destruct (Nat.ltb_spec (length (c_string l) + length src) (length l)); [|done]. intros [= <-]. unfold name_typed in *. rewrite !length_app. cbn [length]. rewrite length_take, length_drop. lia.
Qed.
Lemma process_name p : process_typed p → name_typed (p_name p).
Proof. by intros []. Qed.
#[export] Hint Resolve yields_strncpy yields_strcpy yields_name_set yields_string_concat process_name : typed.

(** What the memory manager does to a process. *)
Lemma yields_alloc_user n i v p : process_typed p → yields (λ _ : phys, True) (λ r, process_typed r.2) (alloc_user_from n i v p).
Proof.
  revert i p. induction n as [|n IH]; intros i p Hp; cbn [alloc_user_from]; [by apply yields_ret|].
  apply (yields_bind _ (λ _, True)); [apply yields_any|]. intros q _. case_if; [by apply yields_ret|]. cbv zeta.
  apply (yields_bind _ (λ _, True)); [apply yields_any|]. intros r _. case_if.
  - apply (yields_bind _ (λ _, True)); [apply yields_any|]. intros _ _. by apply yields_ret.
  - apply IH. process_tac.
Qed.
Lemma yields_alloc_user_pages p v n : process_typed p → yields (λ _ : phys, True) (λ r, process_typed r.2) (vmm_alloc_user_pages p v n).
Proof. intros Hp. unfold vmm_alloc_user_pages. case_if; [by apply yields_ret|by apply yields_alloc_user]. Qed.
Lemma yields_setup_user_stack p : process_typed p → yields (λ _ : phys, True) (λ r, process_typed r.2) (vmm_setup_user_stack p).
Proof. intros Hp. unfold vmm_setup_user_stack. cbv zeta. apply yields_alloc_user_pages. process_tac. Qed.
Lemma setup_user_heap_typed p : process_typed p → process_typed (vmm_setup_user_heap p).2.
Proof. unfold vmm_setup_user_heap. process_tac. Qed.
#[export] Hint Resolve yields_alloc_user_pages yields_setup_user_stack setup_user_heap_typed : typed.

Section processes.
Context (idle trampoline : Z) (D : list Z).
Abbreviation kt := (with_pipes D).

Lemma yields_find_slot : keeps kt find_slot.
Proof.
  unfold find_slot. eapply yields_weaken; [apply (yields_for_until _ (λ _, True))|done]. intros j _. yields_go.
Qed.
Lemma yields_put_slot i p : keeps kt (put_slot i p).
Proof.
  unfold put_slot. apply yields_at_sched.
  apply (yields_bind _ (λ t, Z.of_nat (length t) = MAX_PROCESSES)); [apply yields_gets; by intros s []|]. intros t Ht.
  apply (yields_bind _ (λ t, Z.of_nat (length t) = MAX_PROCESSES)).
  - apply yields_lift_opt. intros t' E. by rewrite (arr_set_length _ _ _ _ E).
  - intros t' Ht'. apply yields_modify. intros s [? ? ?]. by split.
Qed.
#[local] Hint Resolve yields_find_slot yields_put_slot : typed.
Lemma yields_clear_slot p : keeps kt (clear_slot p).
Proof.
  unfold clear_slot. eapply yields_bind; [|intros; by apply yields_ret].
  apply (yields_for_until _ (λ _, True)). intros j _. yields_go.
Qed.
Lemma yields_take_pid : yields kt uint32 take_pid.
Proof.
  unfold take_pid. apply (yields_bind _ uint32); [apply yields_gets; by intros s [[[? ? []]] ?]|]. intros pid Hpid.
  yields_go.
Qed.
Lemma yields_new_process : keeps kt new_process.
Proof.
  unfold new_process. yields_go. apply yields_at_sched, yields_modify. intros s [Hp Ht Hn]. split; cbn; [|done..].
  intros q pr. destruct (decide (a = q)) as [->|Hne]; [rewrite lookup_insert_eq; intros [= <-]; by split|].
  rewrite lookup_insert_ne by done. apply Hp.
Qed.
Lemma yields_kfree_process p : keeps kt (kfree_process p).
Proof.
  unfold kfree_process. yields_go. apply yields_at_sched, yields_modify. intros s [Hp Ht Hn]. split; cbn; [|done..].
  intros q pr [_ E]%lookup_delete_Some. by eapply Hp.
Qed.
Lemma yields_init_fds p : keeps kt (init_process_fd_table p).
Proof.
  unfold init_process_fd_table. yields_go. apply yields_modify. intros s [[? ? ? Hfds] ?]. split; [|done].
  split; cbn [k_in k_fs k_pipes k_fds set_k_fds]; [done..|]. intros t l. destruct (decide (a = t)) as [->|Hne]; [|rewrite lookup_insert_ne by done; apply Hfds].
  rewrite lookup_insert_eq. intros <-%(inj Some). split; [done|]. intros e [-> _]%elem_of_replicate. by split; cbn; auto.
Qed.
Lemma yields_free_fds p : keeps kt (free_fds p).
Proof.
  unfold free_fds. yields_go. apply yields_modify. intros s [[? ? ? Hfds] ?]. split; [|done]. split; cbn; [done..|].
  intros t l [_ Hl]%lookup_delete_Some. exact (Hfds t l Hl).
Qed.
#[local] Hint Resolve yields_clear_slot yields_take_pid yields_new_process yields_kfree_process yields_init_fds yields_free_fds : typed.
Lemma yields_free_stack p : keeps kt (free_stack p).
Proof. unfold free_stack. yields_go. Qed.
Lemma yields_free_space p : keeps kt (free_space p).
Proof. unfold free_space. yields_go. Qed.
#[local] Hint Resolve yields_free_stack yields_free_space : typed.
Lemma yields_free_process_struct p : keeps kt (free_process_struct p).
Proof. unfold free_process_struct. yields_go. Qed.
Lemma yields_process_destroy p : keeps kt (process_destroy idle p).
Proof. unfold process_destroy. yields_go. Qed.
Lemma yields_allocate_process_struct : keeps kt allocate_process_struct.
Proof. unfold allocate_process_struct. yields_go. Qed.
Lemma yields_find_zombie pid : keeps kt (find_zombie_child pid).
Proof.
  unfold find_zombie_child. eapply yields_bind; [|intros; by apply yields_ret].
  apply (yields_for_until _ (λ _, True)). intros j _. yields_go.
Qed.

Lemma yields_init_pcb p name entry prio : keeps kt (init_pcb p name entry prio).
Proof. unfold init_pcb. yields_go. Qed.
Lemma yields_init_context p entry : keeps kt (init_context trampoline p entry).
Proof. unfold init_context. yields_go. Qed.
Lemma yields_user_stack p : keeps kt (user_stack p).
Proof. unfold user_stack. yields_go. Qed.
Lemma yields_user_heap p : keeps kt (user_heap p).
Proof. unfold user_heap. yields_go. Qed.
#[local] Hint Resolve yields_init_pcb yields_init_context yields_user_stack yields_user_heap : typed.
Lemma yields_process_create name entry prio : keeps kt (process_create trampoline name entry prio).
Proof. unfold process_create, create_failed. yields_go. Qed.
End processes.
#[export] Hint Resolve yields_free_process_struct yields_allocate_process_struct yields_find_zombie yields_process_create
  yields_process_destroy : typed.

(** ** System calls *)

Section syscalls.
Context (idle hello shell init shell_v2 : Z) (find : Z → sched → Z).
Context (fuel : nat) (D : list Z).
Abbreviation kt := (with_pipes D).

Lemma yields_store_bytes p l : keeps kt (store_bytes p l).
Proof. revert p. induction l as [|x l IH]; intros p; cbn [store_bytes]; yields_go. Qed.
Lemma yields_store32 p v : keeps kt (store32 p v).
Proof. apply yields_store_bytes. Qed.
Lemma yields_load_string p : keeps kt (load_string p).
Proof. unfold load_string. yields_go. Qed.
Lemma yields_raw p n : keeps kt (load_bytes p n).
Proof. by apply yields_gets. Qed.
Lemma yields_current : keeps kt (Syscall.get_current idle).
Proof. apply yields_at_sched, yields_get_current. Qed.
End syscalls.
#[export] Hint Resolve yields_store_bytes yields_store32 yields_load_string yields_raw yields_current : typed.

Section calls.
Context (idle hello shell init shell_v2 : Z) (find : Z → sched → Z).
Context (fuel : nat) (D : list Z).
Abbreviation kt := (with_pipes D).
Lemma yields_get_fd_table : keeps kt (get_fd_table idle).
Proof. unfold get_fd_table. yields_go. Qed.
#[local] Hint Resolve yields_get_fd_table : typed.

Lemma yields_sys_exit st : keeps kt (sys_exit idle st).
Proof. unfold sys_exit. yields_go. Qed.
Lemma yields_stdin_loop steps buf count read : keeps kt (stdin_loop steps buf count read).
Proof.
  revert read. induction steps as [|steps IH]; intros read; cbn [stdin_loop]; yields_go.
Qed.
Lemma yields_sbrk_loop steps cur page new : keeps kt (sbrk_loop steps cur page new).
Proof. revert page. induction steps as [|steps IH]; intros page; cbn [sbrk_loop]; yields_go. Qed.
Lemma yields_sys_getpid : keeps kt (sys_getpid idle).
Proof. unfold sys_getpid. yields_go. Qed.
Lemma yields_sys_sleep ms : keeps kt (sys_sleep ms).
Proof. unfold sys_sleep. yields_go. Qed.
#[local] Hint Resolve yields_stdin_loop yields_sbrk_loop : typed.
Lemma yields_sys_sbrk inc : keeps kt (sys_sbrk idle inc).
Proof. unfold sys_sbrk. yields_go. Qed.
Lemma yields_exec_builtin cur entry name : keeps kt (exec_builtin cur entry name).
Proof. unfold exec_builtin. yields_go. Qed.
Lemma yields_exec_search cur path progs : keeps kt (exec_search cur path progs).
Proof. pose proof yields_exec_builtin. induction progs as [|[[bp e] n] progs IH]; cbn [exec_search]; yields_go. Qed.
#[local] Hint Resolve yields_exec_search : typed.
Lemma yields_sys_execve path : keeps kt (sys_execve idle hello shell init shell_v2 path).
Proof. unfold sys_execve. yields_go. Qed.
Lemma yields_wait_loop steps parent st : keeps kt (wait_loop idle steps parent st).
Proof. induction steps as [|steps IH]; cbn [wait_loop]; yields_go. Qed.
#[local] Hint Resolve yields_wait_loop : typed.
Lemma yields_sys_wait st : keeps kt (sys_wait idle fuel st).
Proof. unfold sys_wait. yields_go. Qed.
Lemma yields_sys_ps : keeps kt sys_ps.
Proof. unfold sys_ps, ps_line, ps_number. yields_go. Qed.
Lemma yields_sys_stat path st : keeps kt (sys_stat path st).
Proof. unfold sys_stat. yields_go. Qed.
Lemma yields_sys_mkdir path : keeps kt (sys_mkdir path).
Proof. unfold sys_mkdir. yields_go. Qed.
Lemma yields_sys_kill pid sig : keeps kt (sys_kill find pid sig).
Proof. unfold sys_kill. yields_go. Qed.

Lemma yields_sys_write fd buf count : keeps kt (sys_write idle fuel fd buf count).
Proof. unfold sys_write. kernel_go. Qed.
Lemma yields_sys_read fd buf count : keeps kt (sys_read idle fuel fd buf count).
Proof. unfold sys_read. kernel_go. Qed.
Lemma yields_find_fd t : keeps kt (for_until (Z.to_nat (MAX_FDS - 3)) 3 (λ i, e ← get_fd t i; mret (if fd_free e then Some i else None))).
Proof.
  eapply yields_weaken; [apply (yields_for_until _ (λ _, True))|done]. intros j _. kernel_go.
Qed.
(** The node found, or a new one. *)
Lemma yields_or_create r path n :
  node_or_null n → yields kt node_or_null (if n =? -1 then at_fs (ramfs_create_file r path) else mret n).
Proof. intros Hn. apply yields_if; [|by apply yields_ret]. apply yields_at_fs, yields_create_file. Qed.
#[local] Hint Resolve yields_find_fd yields_or_create : typed.
Lemma yields_sys_open path flags : keeps kt (sys_open idle path flags).
Proof. unfold sys_open. kernel_go. Qed.
Lemma yields_sys_close fd : keeps kt (sys_close idle fd).
Proof. unfold sys_close. kernel_go. Qed.
Lemma yields_sys_readdir fd d : keeps kt (sys_readdir idle fd d).
Proof. unfold sys_readdir. kernel_go. Qed.
Lemma yields_sys_dup2 old new : keeps kt (sys_dup2 idle old new).
Proof. unfold sys_dup2. kernel_go. Qed.
End calls.
#[export] Hint Resolve yields_get_fd_table : typed.
Lemma yields_find_two D k i t r : keeps (with_pipes D) (find_two k i t r).
Proof. revert D i r. induction k as [|k IH]; intros D i r; cbn [find_two]; kernel_go. Qed.
#[export] Hint Resolve yields_find_two : typed.
Lemma yields_sys_pipe idle D p : keeps (with_pipes D) (sys_pipe idle p).
Proof.
  unfold sys_pipe. kernel_go; apply yields_put_fd; intros m e Hm []; (split; cbn; auto with typed); apply Hm; left.
Qed.
Lemma yields_fork_fds D parent child : keeps (with_pipes D) (fork_fds parent child).
Proof. unfold fork_fds. kernel_go. Qed.
Lemma yields_fork_copy D parent child : process_typed parent → keeps (with_pipes D) (fork_copy parent child).
Proof. intros []. unfold fork_copy. yields_go. Qed.
Lemma yields_fork_name D parent child : keeps (with_pipes D) (fork_name parent child).
Proof. unfold fork_name. yields_go. Qed.
#[export] Hint Resolve yields_fork_fds yields_fork_copy yields_fork_name : typed.
Lemma yields_sys_fork idle D : keeps (with_pipes D) (sys_fork idle).
Proof. unfold sys_fork. yields_go. Qed.
#[export] Hint Resolve yields_sys_exit yields_sys_write yields_sys_read yields_sys_getpid yields_sys_sleep yields_sys_sbrk yields_sys_fork
  yields_sys_wait yields_sys_execve yields_sys_ps yields_sys_open yields_sys_close yields_sys_stat yields_sys_mkdir
  yields_sys_readdir yields_sys_kill yields_sys_pipe yields_sys_dup2 : typed.

(** ** Interrupts *)

Section interrupts.
Context (idle trampoline hello shell init shell_v2 : Z) (find : Z → sched → Z).

Lemma yields_syscall D fuel r :
  keeps (with_pipes D) (syscall_handler idle hello shell init shell_v2 find fuel r).
Proof. unfold syscall_handler, call. yields_go. Qed.
Lemma yields_handle D fuel sc cr2 h r :
  keeps (with_pipes D) (handle idle hello shell init shell_v2 find fuel sc cr2 h r).
Proof. pose proof (yields_syscall D). unfold handle, timer_irq. yields_go. Qed.
Lemma yields_isr D fuel sc cr2 r :
  keeps (with_pipes D) (kernel_isr idle hello shell init shell_v2 find fuel sc cr2 r).
Proof. pose proof (yields_handle D). unfold kernel_isr. yields_go. Qed.

(** What happens to the kernel: an interrupt that returns, with any registers and
    scancode, and the creation and removal of processes.  As everywhere in the
    model, the stores of a system call through its pointer arguments do not hit
    the kernel's own objects (see Kernel.v). *)
Inductive kstep : kernel → kernel → Prop :=
  | step_interrupt fuel sc cr2 r res s s' :
      kernel_isr idle hello shell init shell_v2 find fuel sc cr2 r s = Ret (res, s') → kstep s s'
  | step_create name entry prio p s s' : process_create trampoline name entry prio s = Ret (p, s') → kstep s s'
  | step_destroy p s s' : process_destroy idle p s = Ret ((), s') → kstep s s'.

Lemma kstep_typed s s' : kstep s s' → kernel_typed s → kernel_typed s'.
Proof.
  intros H Hs. assert (H0 : with_pipes [] s) by (split; [done|by intros p ?%elem_of_nil]).
  enough (H' : with_pipes [] s') by apply H'.
  destruct H as [fuel sc cr2 r res s s' E|name entry prio p s s' E|p s s' E].
  - exact (proj1 (yields_isr [] fuel sc cr2 r _ _ _ H0 E)).
  - exact (proj1 (yields_process_create trampoline [] name entry prio _ _ _ H0 E)).
  - exact (proj1 (yields_process_destroy idle [] p _ _ _ H0 E)).
Qed.

(** (type): Over any sequence of interrupts that return (system calls, keys,
    timer ticks), creations and removals of processes, the kernel's data stays well-typed: the tables keep their sizes, every
    descriptor names an existing node and an existing pipe or none, pipes,
    keyboard ring, screens and filesystem arrays stay well-formed, names fit
    their 32 bytes. *)
Theorem kernel_stays_typed s s' : rtc kstep s s' → kernel_typed s → kernel_typed s'.
Proof. induction 1 as [|s1 s2 s3 Hstep _ IH]; [done|]. intros Hs. apply IH. by eapply kstep_typed. Qed.
End interrupts.

(** The running process closes a descriptor; the handler is installed. *)
Definition demo_kernel : kernel :=
  set_k_board (set_handlers (<[128%nat := Some syscall_handler_h]> (interrupt_handlers bss_board)) bss_board) demo_machine.
Definition close_frame : registers := Registers 0 0 0 0 0 0 0 0 3 0 0 0 0 0 SYS_CLOSE 128 0 0x400000 8 0x202 0x7000 16.
Lemma bss_kbd_typed : kbd_typed bss_kbd.
Proof.
  split; [by split|]. intros c [-> _]%elem_of_replicate. apply (key_code_us 0). reflexivity.
Qed.
Lemma demo_kernel_typed : kernel_typed demo_kernel.
Proof.
  split; cbn [demo_kernel set_k_board k_in k_fs k_pipes k_fds demo_machine].
  - split; cbn [kb con sch]; [by apply bss_kbd_typed| |].
    + split; [vm_compute; reflexivity..| |vm_compute; split; congruence].
      intros i t E. apply arr_get_Some in E as [_ E]. revert E.
      assert (H : Forall (λ t, length (buffer t) = 2000%nat) (terminals demo_screen)) by (vm_compute; repeat constructor).
      apply (Forall_lookup_1 _ _ _ _ H).
    + split; [|done..]. intros p pr E. cbn [pcbs set_pcbs] in E.
      assert (H : map_Forall (λ _ pr, process_typed pr) demo_pcbs).
      { unfold demo_pcbs. cbn [pcbs demo_sched]. repeat apply map_Forall_insert_2; try apply map_Forall_singleton; by split. }
      exact (H p pr E).
  - apply booted_wf.
  - done.
  - intros t l [_ <-]%lookup_singleton_Some. split; [done|]. intros e [-> _]%elem_of_replicate. split; cbn; auto with typed.
Qed.
Lemma kernel_stays_typed_witness :
  kernel_typed (final (kernel_isr 0x100 0x700000 0x700010 0x700020 0x700030 (λ _ _, 0) 100 0 0 close_frame demo_kernel) demo_kernel).
Proof.
  apply (kernel_stays_typed 0x100 0x101000 0x700000 0x700010 0x700020 0x700030 (λ _ _, 0) demo_kernel); [|exact demo_kernel_typed].
  assert (E : match kernel_isr 0x100 0x700000 0x700010 0x700020 0x700030 (λ _ _, 0) 100 0 0 close_frame demo_kernel with
    | Ret _ => true | _ => false end = true) by (vm_compute; reflexivity).
  apply rtc_once. destruct (kernel_isr _ _ _ _ _ _ _ _ _ _ demo_kernel) as [[res s']| | | |] eqn:Er; [|discriminate E..].
  exact (step_interrupt _ _ _ _ _ _ _ _ _ _ _ _ _ _ Er).
Defined.
