(* ===== verification/Elf.v ===== *)
(** * The ELF loader (src/lib/elf.c, include/lib/elf.h)

    The image is a range of kernel memory, read through the two packed
    structures of the header file.  [elf_load] maps the pages of each loadable
    segment into the address space of a process, copies the file's bytes and
    clears the rest, going through [vmm_get_physical] a page at a time.  The
    headers are read once each: loading writes to pages that were free.

    The address [vmm_get_physical] returns already has the offset in the page,
    and the loader adds it again: a segment that starts at a page boundary is
    copied to where its addresses lead, one that does not is copied to twice
    the offset. *)
From S2P Require Import Prelude Mem PageAlloc Pmm Kmalloc Pcb Vmm Sched Console Keyboard Boot Kernel Process Strings Syscall.

Definition ELFMAG0 : Z := 0x7F.
Definition ELFMAG1 : Z := 69.
Definition ELFMAG2 : Z := 76.
Definition ELFMAG3 : Z := 70.
Definition ELFCLASS64 : Z := 2.
Definition ET_EXEC : Z := 2.
Definition EM_X86_64 : Z := 62.
Definition PT_LOAD : Z := 1.
Definition PF_W : Z := 2.

Record Elf64_Ehdr := Ehdr {
  e_ident : list Z;
  e_type : Z;
  e_machine : Z;
  e_version : Z;
  e_entry : Z;
  e_phoff : Z;
  e_shoff : Z;
  e_flags : Z;
  e_ehsize : Z;
  e_phentsize : Z;
  e_phnum : Z;
  e_shentsize : Z;
  e_shnum : Z;
  e_shstrndx : Z;
}.
Record Elf64_Phdr := Phdr {
  p_type : Z;
  p_flags : Z;
  p_offset : Z;
  p_vaddr : Z;
  p_paddr : Z;
  p_filesz : Z;
  p_memsz : Z;
  p_align : Z;
}.

(** The little-endian number in [n] bytes from [off] on. *)
Definition num_at (b : list Z) (off n : nat) : Z := foldr (λ x acc, x + 256 * acc) 0 (take n (drop off b)).
Definition ehdr_of (b : list Z) : Elf64_Ehdr :=
  Ehdr (take 16 b) (num_at b 16 2) (num_at b 18 2) (num_at b 20 4) (num_at b 24 8) (num_at b 32 8) (num_at b 40 8)
    (num_at b 48 4) (num_at b 52 2) (num_at b 54 2) (num_at b 56 2) (num_at b 58 2) (num_at b 60 2) (num_at b 62 2).
Definition phdr_of (b : list Z) : Elf64_Phdr :=
  Phdr (num_at b 0 4) (num_at b 4 4) (num_at b 8 8) (num_at b 16 8) (num_at b 24 8) (num_at b 32 8) (num_at b 40 8) (num_at b 48 8).
Definition SIZEOF_EHDR : Z := 64.
Definition SIZEOF_PHDR : Z := 56.

(** [*header], and [phdrs[i]]. *)
Definition load_ehdr (elf_data : Z) : M kernel Elf64_Ehdr := b ← load_bytes elf_data SIZEOF_EHDR; mret (ehdr_of b).
Definition load_phdr (phdrs i : Z) : M kernel Elf64_Phdr := b ← load_bytes (phdrs + SIZEOF_PHDR * i) SIZEOF_PHDR; mret (phdr_of b).

Definition elf_validate (header : Elf64_Ehdr) : M kernel Z :=
  let id i := default 0 (arr_get (e_ident header) i) in
  if negb (id 0 =? ELFMAG0) || negb (id 1 =? ELFMAG1) || negb (id 2 =? ELFMAG2) || negb (id 3 =? ELFMAG3) then
    psay "ELF: Invalid magic
";; mret (-1)
  else if negb (id 4 =? ELFCLASS64) then
    psay "ELF: Not 64-bit
";; mret (-1)
  else if negb (e_type header =? ET_EXEC) then
    psay "ELF: Not executable
";; mret (-1)
  else if negb (e_machine header =? EM_X86_64) then
    psay "ELF: Wrong architecture
";; mret (-1)
  else mret 0.

(** "Map pages", from page [j] of the segment on, [n] pages to go. *)
Fixpoint map_pages (n : nat) (j process start flags : Z) : M kernel Z :=
  match n with
  | O => mret 0
  | S n' =>
      let vaddr := u64 (start + j * PAGE_SIZE) in
      phys_page ← at_phys pmm_alloc;
      if phys_page =? 0 then
        psay "ELF: Out of memory
";; mret (-1)
      else
      p ← pderef process;
      r ← at_phys (vmm_map_page (p_page_table p) vaddr phys_page flags);
      if r <? 0 then
        psay "ELF: Failed to map page
";;
        at_phys (pmm_free phys_page);;
        mret (-1)
      else
      passign process (λ p, set_pages_allocated (u64 (p_pages_allocated p + 1)) p);;
      map_pages n' (j + 1) process start flags
  end.

(** The two loops over a range of virtual addresses, page by page; [put] is
    [memcpy] from the image or [memset]. *)
Fixpoint fill_range (fuel : nat) (put : Z → Z → Z → M kernel unit) (msg : string) (process base size off : Z) : M kernel Z :=
  match fuel with
  | O => out_of_fuel
  | S fuel' =>
      if off <? size then
        let vaddr := u64 (base + off) in
        p ← pderef process;
        paddr ← at_phys (vmm_get_physical (p_page_table p) vaddr);
        if paddr =? 0 then psay msg;; mret (-1) else
        let page_off := Z.land vaddr 0xFFF in
        let n := PAGE_SIZE - page_off in
        let n := if size <? u64 (off + n) then size - off else n in
        put (u64 (paddr + page_off)) off n;;
        fill_range fuel' put msg process base size (u64 (off + n))
      else mret 0
  end.
(** Enough for every page of the range and the one it starts in. *)
Definition range_fuel (size : Z) : nat := Z.to_nat (size / PAGE_SIZE + 3).
Definition copy_from (src : Z) (dst off n : Z) : M kernel unit := b ← load_bytes (src + off) n; store_bytes dst b.
Definition clear_at (dst off n : Z) : M kernel unit := store_bytes dst (replicate (Z.to_nat n) 0).

(** "Copy data". *)
Definition copy_data (process elf_data : Z) (phdr : Elf64_Phdr) : M kernel Z :=
  if 0 <? p_filesz phdr then
    fill_range (range_fuel (p_filesz phdr)) (copy_from (u64 (elf_data + p_offset phdr))) "ELF: Failed to get physical address
" process (p_vaddr phdr) (p_filesz phdr) 0
  else mret 0.
(** "Zero BSS section". *)
Definition zero_bss (process : Z) (phdr : Elf64_Phdr) : M kernel Z :=
  if p_filesz phdr <? p_memsz phdr then
    let bss_start := u64 (p_vaddr phdr + p_filesz phdr) in
    let bss_size := p_memsz phdr - p_filesz phdr in
    fill_range (range_fuel bss_size) clear_at "ELF: Failed to get physical address for BSS
" process bss_start bss_size 0
  else mret 0.

(** One iteration of the loop over the program headers. *)
Definition load_segment (process elf_data : Z) (phdr : Elf64_Phdr) : M kernel Z :=
  if negb (p_type phdr =? PT_LOAD) then mret 0 else
  psay "ELF: Loading segment ";;
  psay "
";;
  let start := mask_down 12 (p_vaddr phdr) in
  let end_ := mask_down 12 (u64 (p_vaddr phdr + p_memsz phdr + 0xFFF)) in
  let pages := u64 (end_ - start) / PAGE_SIZE in
  let flags := Z.lor PAGE_PRESENT PAGE_USER in
  let flags := if negb (Z.land (p_flags phdr) PF_W =? 0) then Z.lor flags PAGE_WRITABLE else flags in
  r ← map_pages (Z.to_nat pages) 0 process start flags;
  if r <? 0 then mret (-1) else
  r ← copy_data process elf_data phdr;
  if r <? 0 then mret (-1) else
  zero_bss process phdr.
Fixpoint load_segments (n : nat) (i process elf_data phdrs : Z) : M kernel Z :=
  match n with
  | O => mret 0
  | S n' =>
      phdr ← load_phdr phdrs i;
      r ← load_segment process elf_data phdr;
      if r <? 0 then mret (-1) else load_segments n' (i + 1) process elf_data phdrs
  end.

Definition elf_load (process elf_data size : Z) : M kernel Z :=
  header ← load_ehdr elf_data;
  r ← elf_validate header;
  if r <? 0 then mret (-1) else
  psay "ELF: Loading executable, entry=0x";;
  psay "
";;
  let phdrs := u64 (elf_data + e_phoff header) in
  r ← load_segments (Z.to_nat (e_phnum header)) 0 process elf_data phdrs;
  if r <? 0 then mret (-1) else
  passign process (λ p, set_context (set_rip (e_entry header) (p_context p)) p);;
  passign process (λ p, set_context (set_rsp (USER_STACK_TOP - 16) (p_context p)) p);;
  passign process (λ p, set_context (set_rflags 0x202 (p_context p)) p);;
  passign process (set_entry_point (e_entry header));;
  mret 0.

Section create.
Variables idle_process process_entry_trampoline : Z.
Definition elf_create_process (elf_data size : Z) (name : list Z) : M kernel Z :=
  process ← process_create process_entry_trampoline name 0x100000 1;
  if process =? 0 then mret 0 else
  r ← elf_load process elf_data size;
  if r <? 0 then process_destroy idle_process process;; mret 0 else
  psay "ELF: Process '";;
  pwrite name;;
  psay "' created
";;
  mret process.
End create.

(** ** One page of a range *)

Lemma st_bytes_word m p l x : (∀ i, 0 ≤ i < Z.of_nat (length l) → 8 * ((p + i) / 8) ≠ x) → ld (st_bytes m p l) x = ld m x.
Proof.
  revert m p. induction l as [|v l IH]; intros m p Hx; [done|]. cbn [st_bytes length] in *. rewrite IH.
  - apply ld_st8_other. rewrite <- (Z.add_0_r p). apply Hx. lia.
  - intros i Hi. rewrite <- Z.add_assoc. apply Hx. lia.
Qed.

(** The process at [process] has the address space [root]. *)
Record has_space (F : forest) (s : kernel) (process root : Z) : Prop := {
  hs_vm : vm_wf F (get_phys s);
  hs_root : F !! root = Some (4%nat, 256);
  hs_process : ∃ pr, pcbs (k_sched s) !! process = Some pr ∧ p_page_table pr = root;
}.

Section range.
Context (F : forest) (process root : Z).

Lemma wp_get_physical s v e (Q : Z → kernel → Prop) :
  has_space F s process root → 0 ≤ v < 2 ^ 47 → leaf (k_mem s) root v = Some e → Q (frame e + v mod PAGE_SIZE) s →
  wp (at_phys (vmm_get_physical root v)) s Q.
Proof.
  intros [Hvm Hr _] Hv He HQ. apply wp_zoom.
  pose proof (get_physical_run F (get_phys s) root (4%nat, 256) v Hvm Hr ltac:(cbn; lia) ltac:(cbn; lia) Hv) as E.
  change (get_mem (get_phys s)) with (k_mem s) in E. rewrite He in E. eapply wp_of_run; [exact E|].
  rewrite flags_mod, lor_low.
  - by destruct s as [? [] []].
  - eapply (fw_ok _ _ _ (vw_fw _ _ Hvm)), (leaf_reach F (get_phys s) root (4%nat, 256) v e); done.
  - apply Z.mod_pos_bound. done.
Qed.
Lemma frame_range s v e : has_space F s process root → 0 ≤ v < 2 ^ 47 → leaf (k_mem s) root v = Some e →
  frame e mod PAGE_SIZE = 0 ∧ 0 < frame e < 2 ^ 52 ∧ bottom F (k_mem s) (frame e).
Proof.
  intros [Hvm Hr _] Hv He.
  pose proof (leaf_reach F (get_phys s) root (4%nat, 256) v e Hr eq_refl ltac:(cbn; lia) Hv He) as Hre.
  destruct (reach_range F (get_phys s) root _ _ Hvm Hre) as [H1 H2]. split; [done|]. split; [done|].
  exists root, (4%nat, 256), (dirs v ++ [PT_INDEX v]). done.
Qed.

(** An iteration works on the rest of the page, at the frame plus twice the
    offset in the page. *)
Lemma wp_fill_step fuel put msg base size off s e Q :
  has_space F s process root → 0 ≤ base → 0 ≤ off < size → base + size ≤ 2 ^ 47 →
  leaf (k_mem s) root (base + off) = Some e →
  (let o := (base + off) mod PAGE_SIZE in let n := Z.min (PAGE_SIZE - o) (size - off) in
   wp (put (frame e + 2 * o) off n;; fill_range fuel put msg process base size (off + n)) s Q) →
  wp (fill_range (S fuel) put msg process base size off) s Q.
Proof.
  intros Hs Hb Ho Hmax He. cbv zeta. intros HQ. destruct (frame_range s (base + off) e Hs ltac:(lia) He) as (Ha & Hf & _).
  destruct (hs_process _ _ _ _ Hs) as (pr & Hp & Ept).
  cbn [fill_range]. rewrite (proj2 (Z.ltb_lt off size)) by lia. cbv zeta. rewrite (u64_id (base + off)) by lia.
  apply wp_bind. eapply wp_pderef; [exact Hp|]. rewrite Ept. apply wp_bind. eapply wp_get_physical; [done|lia|exact He|].
  set (o := (base + off) mod PAGE_SIZE) in *. assert (Hor : 0 ≤ o < 4096) by (apply Z.mod_pos_bound; done).
  rewrite (proj2 (Z.eqb_neq _ 0)) by lia. rewrite flags_mod. fold o.
  replace (if size <? u64 (off + (PAGE_SIZE - o)) then size - off else PAGE_SIZE - o) with (Z.min (PAGE_SIZE - o) (size - off))
    by (rewrite u64_id by (unfold PAGE_SIZE; lia); destruct (Z.ltb_spec size (off + (PAGE_SIZE - o))); lia).
  rewrite !u64_id by (unfold PAGE_SIZE; lia). by replace (frame e + o + o) with (frame e + 2 * o) by lia.
Qed.
End range.

(** ** Copying a segment *)

Section copying.
Context (F : forest) (process root base size src : Z) (s0 : kernel).
Context (Hbase : 0 ≤ base) (Halign : base mod PAGE_SIZE = 0) (Hmax : base + size ≤ 2 ^ 47).
(** Every page of the segment is mapped, and the image is in none of them. *)
Context (Hmapped : ∀ v, base ≤ v < base + size → ∃ e, leaf (k_mem s0) root v = Some e).
Context (Hsrc : ∀ i v e, 0 ≤ i < size → base ≤ v < base + size → leaf (k_mem s0) root v = Some e → page_of (src + i) ≠ frame e).

(** The first [off] bytes are where their addresses lead, and nothing else has
    changed outside the pages of the segment. *)
Record copied (off : Z) (s : kernel) : Prop := {
  cp_state : s = set_k_mem (k_mem s) s0;
  cp_space : has_space F s process root;
  cp_leaf v : 0 ≤ v < 2 ^ 47 → leaf (k_mem s) root v = leaf (k_mem s0) root v;
  cp_bytes i : 0 ≤ i < off → ∃ e, leaf (k_mem s0) root (base + i) = Some e ∧
    ld8 (k_mem s) (frame e + (base + i) mod PAGE_SIZE) = ld8 (k_mem s0) (src + i);
  cp_else x : (∀ v e, base ≤ v < base + size → leaf (k_mem s0) root v = Some e → page_of x ≠ frame e) →
    ld (k_mem s) x = ld (k_mem s0) x;
}.

Lemma page_of_word x : page_of (8 * (x / 8)) = page_of x.
Proof. unfold page_of, PAGE_SIZE. dlia. Qed.
Lemma page_of_frame a o : a mod PAGE_SIZE = 0 → 0 ≤ o < PAGE_SIZE → page_of (a + o) = a.
Proof. unfold page_of, PAGE_SIZE. intros. dlia. Qed.

Section page.
Context (s : kernel) (off n e : Z) (Hs : copied off s).
Context (Hoff : off mod PAGE_SIZE = 0) (Ho : 0 ≤ off) (Hn : 0 < n ≤ PAGE_SIZE) (Hend : off + n ≤ size).
Context (He : leaf (k_mem s) root (base + off) = Some e).
Let m' : mem := st_bytes (k_mem s) (frame e) (bytes_at (k_mem s) (src + off) n).

Lemma page_frame : frame e mod PAGE_SIZE = 0 ∧ 0 < frame e < 2 ^ 52 ∧ bottom F (k_mem s) (frame e).
Proof using All. apply (frame_range F process root s (base + off)); [apply Hs|lia|done]. Qed.
Lemma page_else x : page_of x ≠ frame e → ld m' x = ld (k_mem s) x.
Proof using All.
  intros Hx. destruct page_frame as (Ha & _). apply st_bytes_word. intros i Hi <-.
  rewrite bytes_at_length in Hi by lia. apply Hx. rewrite page_of_word. apply page_of_frame; [done|lia].
Qed.
Lemma page_wf : mem_wf m'.
Proof using All. apply st_bytes_wf. exact (vm_mem_wf F (get_phys s) (hs_vm _ _ _ _ (cp_space _ _ Hs))). Qed.
Lemma page_loose x : ld m' x = ld (k_mem s) x ∨ bottom F (k_mem s) (page_of x).
Proof using All.
  destruct (decide (page_of x = frame e)) as [->|Hx]; [right; apply page_frame|left; by apply page_else].
Qed.
Lemma page_space : has_space F (set_k_mem m' s) process root.
Proof using All.
  destruct Hs as [_ [Hvm Hr Hp] _ _ _]. split; [|done|done].
  apply (vm_wf_store F F (get_phys s) m' Hvm page_wf). exact (loose_forest F (k_mem s) m' _ (vw_fw _ _ Hvm) page_loose).
Qed.
Lemma page_leaf v : 0 ≤ v < 2 ^ 47 → leaf m' root v = leaf (k_mem s0) root v.
Proof using All.
  intros Hv. destruct Hs as [_ [Hvm Hr _] Hl _ _]. rewrite <- Hl by done.
  exact (loose_leaf F (k_mem s) m' _ (vw_fw _ _ Hvm) page_loose root v Hr Hv).
Qed.
(** The image is as it was. *)
Lemma page_src i : 0 ≤ i < size → ld8 (k_mem s) (src + i) = ld8 (k_mem s0) (src + i).
Proof using All.
  intros Hi. apply ld8_word, (cp_else _ _ Hs). intros v e' Hv Hl. rewrite page_of_word. by eapply Hsrc.
Qed.
Lemma page_bytes i : 0 ≤ i < off + n → ∃ e', leaf (k_mem s0) root (base + i) = Some e' ∧
  ld8 m' (frame e' + (base + i) mod PAGE_SIZE) = ld8 (k_mem s0) (src + i).
Proof using All.
  intros Hi. destruct page_frame as (Ha & Hf & _). pose proof (vm_mem_wf F (get_phys s) (hs_vm _ _ _ _ (cp_space _ _ Hs))) as Hwf.
  unfold m'. destruct (decide (i < off)) as [Hlt|Hge].
  - destruct (cp_bytes _ _ Hs i ltac:(lia)) as (e' & Hl' & Hb). exists e'. split; [done|]. rewrite ld8_st_bytes by done.
    assert (Hv : 0 ≤ base + i < 2 ^ 47) by lia.
    rewrite <- (cp_leaf _ _ Hs) in Hl' by done. destruct (frame_range F process root s (base + i) e' (cp_space _ _ Hs) Hv Hl') as (Ha' & _).
    assert (Hne : frame e' ≠ frame e).
    { intros Heq. destruct (leaf_inj F (get_phys s) root root (base + i) (base + off) e' e) as [_ Hp]; try done; try apply Hs; [lia|].
      unfold PAGE_SIZE in *. dlia. }
    rewrite arr_get_out; [done|]. rewrite bytes_at_length by lia. pose proof (Z.mod_pos_bound (base + i) PAGE_SIZE ltac:(done)).
    unfold PAGE_SIZE in *. dlia.
  - exists e. rewrite <- (cp_leaf _ _ Hs) by lia. split.
    + rewrite (leaf_page _ root (base + i) (base + off)); [done|lia|lia|unfold PAGE_SIZE in *; dlia].
    + replace ((base + i) mod PAGE_SIZE) with (i - off) by (unfold PAGE_SIZE in *; dlia).
      rewrite ld8_st_bytes by done. replace (frame e + (i - off) - frame e) with (i - off) by lia.
      rewrite bytes_at_get by lia. replace (src + off + (i - off)) with (src + i) by lia.
      rewrite u8_id by apply ld8_range. apply page_src. lia.
Qed.
Lemma page_copied : copied (off + n) (set_k_mem m' s).
Proof using All.
  split.
  - rewrite (cp_state _ _ Hs). by destruct s0.
  - exact page_space.
  - exact page_leaf.
  - exact page_bytes.
  - intros x Hx. transitivity (ld (k_mem s) x); [|by apply Hs]. apply page_else. apply (Hx (base + off)); [lia|].
    rewrite <- (cp_leaf _ _ Hs) by lia. done.
Qed.
End page.

Lemma wp_copy_loop msg fuel : ∀ off s,
  copied off s → off mod PAGE_SIZE = 0 ∨ off = size → 0 ≤ off ≤ size → (size - off + 4095) / PAGE_SIZE + 1 ≤ Z.of_nat fuel →
  wp (fill_range fuel (copy_from src) msg process base size off) s (λ r s', r = 0 ∧ copied size s').
Proof using All.
  induction fuel as [|fuel IH]; intros off s Hs Hoff Ho Hfuel; [unfold PAGE_SIZE in *; dlia|].
  destruct (decide (off = size)) as [->|Hne].
  { cbn [fill_range]. rewrite (proj2 (Z.ltb_ge size size)) by lia. by apply wp_ret. }
  destruct Hoff as [Hoff|]; [|done]. destruct (Hmapped (base + off) ltac:(lia)) as [e He].
  rewrite <- (cp_leaf _ _ Hs) in He by lia.
  eapply (wp_fill_step F process root); [apply Hs|done|lia|done|exact He|]. cbv zeta.
  replace ((base + off) mod PAGE_SIZE) with 0 by (unfold PAGE_SIZE in *; dlia). rewrite Z.mul_0_r, Z.add_0_r, Z.sub_0_r.
  set (n := Z.min PAGE_SIZE (size - off)). apply wp_bind. unfold copy_from.
  apply wp_bind, wp_gets, wp_store_bytes. change ((λ i : nat, ld8 (k_mem s) (src + off + Z.of_nat i)) <$> seq 0 (Z.to_nat n)) with (bytes_at (k_mem s) (src + off) n).
  assert (Hn : n = 4096 ∧ off + 4096 ≤ size ∨ n = size - off ∧ 0 < size - off < 4096) by (unfold n, PAGE_SIZE; lia).
  apply IH; [|destruct Hn as [[-> ?]|[-> ?]]; [left|right]; unfold PAGE_SIZE in *; dlia|lia|].
  2: { destruct Hn as [[-> ?]|[-> ?]]; unfold PAGE_SIZE in *; dlia. }
  apply page_copied; unfold n, PAGE_SIZE in *; try done; lia.
Qed.
End copying.

(** C19 (functional): A segment that starts at a page boundary and whose pages are
    mapped is copied to where its addresses lead: afterwards byte [i] of the
    segment, read through the page tables, is byte [i] of the image.  No
    translation changes, and memory outside the segment's pages is the same. *)
Theorem elf_copies_aligned F process root s elf_data phdr :
  has_space F s process root →
  0 ≤ p_vaddr phdr → p_vaddr phdr mod PAGE_SIZE = 0 → 0 < p_filesz phdr → p_vaddr phdr + p_filesz phdr ≤ 2 ^ 47 →
  (∀ v, p_vaddr phdr ≤ v < p_vaddr phdr + p_filesz phdr → ∃ e, leaf (k_mem s) root v = Some e) →
  (∀ i v e, 0 ≤ i < p_filesz phdr → p_vaddr phdr ≤ v < p_vaddr phdr + p_filesz phdr → leaf (k_mem s) root v = Some e →
    page_of (u64 (elf_data + p_offset phdr) + i) ≠ frame e) →
  wp (copy_data process elf_data phdr) s (λ r s', r = 0 ∧
    s' = set_k_mem (k_mem s') s ∧ has_space F s' process root ∧
    (∀ v, 0 ≤ v < 2 ^ 47 → leaf (k_mem s') root v = leaf (k_mem s) root v) ∧
    (∀ i, 0 ≤ i < p_filesz phdr → ∃ e, leaf (k_mem s') root (p_vaddr phdr + i) = Some e ∧
      ld8 (k_mem s') (frame e + (p_vaddr phdr + i) mod PAGE_SIZE) = ld8 (k_mem s) (u64 (elf_data + p_offset phdr) + i)) ∧
    (∀ x, (∀ v e, p_vaddr phdr ≤ v < p_vaddr phdr + p_filesz phdr → leaf (k_mem s) root v = Some e → page_of x ≠ frame e) →
      ld (k_mem s') x = ld (k_mem s) x)).
Proof.
  intros Hs Hb Ha Hn Hmax Hmap Hsrc. unfold copy_data. rewrite (proj2 (Z.ltb_lt 0 (p_filesz phdr))) by done.
  eapply wp_mono; [eapply (wp_copy_loop F process root _ _ _ s Hb Ha Hmax Hmap Hsrc)|].
  - split; [by destruct s|done|done|intros; lia|done].
  - by left.
  - lia.
  - unfold range_fuel, PAGE_SIZE. dlia.
  - cbn beta. intros r s' (-> & [Hst Hsp Hl Hby Hel]). split_and!; try done.
    intros i Hi. destruct (Hby i Hi) as (e & He & Hld). exists e. split; [|done]. by rewrite Hl by lia.
Qed.

(** (error): A segment that starts inside a page, and fits in it, is copied to
    the page's frame plus twice the offset of its address: the bytes are not
    where the address leads, and when twice the offset and the length exceed a
    page they overwrite the frame after it. *)
Theorem elf_copy_misplaced F process root s elf_data phdr e :
  let o := p_vaddr phdr mod PAGE_SIZE in
  has_space F s process root →
  0 ≤ p_vaddr phdr → 0 < p_filesz phdr → o + p_filesz phdr ≤ PAGE_SIZE → p_vaddr phdr + p_filesz phdr ≤ 2 ^ 47 →
  leaf (k_mem s) root (p_vaddr phdr) = Some e →
  wp (copy_data process elf_data phdr) s (λ r s', r = 0 ∧
    s' = set_k_mem (st_bytes (k_mem s) (frame e + 2 * o) (bytes_at (k_mem s) (u64 (elf_data + p_offset phdr)) (p_filesz phdr))) s).
Proof.
  intros o Hs Hb Hn Hfit Hmax He. unfold copy_data. rewrite (proj2 (Z.ltb_lt 0 (p_filesz phdr))) by done.
  unfold range_fuel. replace (Z.to_nat (p_filesz phdr / PAGE_SIZE + 3)) with (S (S (Z.to_nat (p_filesz phdr / PAGE_SIZE + 1))))
    by (unfold PAGE_SIZE; dlia).
  eapply (wp_fill_step F process root); [done|done|lia|done|by rewrite Z.add_0_r|]. cbv zeta. rewrite Z.add_0_r. fold o.
  rewrite Z.sub_0_r, Z.min_r, Z.add_0_l by lia. unfold copy_from. rewrite Z.add_0_r.
  apply wp_bind, wp_bind, wp_gets, wp_store_bytes. cbn [fill_range]. rewrite (proj2 (Z.ltb_ge (p_filesz phdr) (p_filesz phdr))) by lia.
  by apply wp_ret.
Qed.

(** Two pages at 0x400000 of the address space at [demo_root], which is that of
    the process at 0x200; the image is at 0x1000. *)
Abbreviation demo_two := (alloc_user_from 2 0 0x400000 (set_page_table demo_root zero_process) demo_phys).
Definition demo_loading (t : phys) : kernel :=
  put_phys t (set_k_in (Input bss_kbd demo_screen (set_pcbs {[ 0x200 := set_page_table demo_root zero_process ]} demo_sched)) demo_machine).
Lemma demo_mapped_two : ∃ t, mapped_pages (demo_forest 4) demo_root 0x400 2 0 demo_phys t.
Proof.
  destruct (wp_run _ _ _ (alloc_user_ok (demo_forest 4) demo_root 0x400000 2 0 demo_phys (set_page_table demo_root zero_process)
    (demo_wf 4) eq_refl (demo_lookup 4) ltac:(lia) ltac:(lia) ltac:(unfold PAGE_SIZE; lia) ltac:(cbn; lia))) as ([r p] & t & E & H & _).
  assert (Hr : match demo_two with Ret (r, _, _) => r | _ => 1 end = 0) by (vm_compute; reflexivity).
  rewrite E in Hr. cbn [fst] in H. rewrite Hr in H. by exists t.
Qed.
Lemma demo_free p : p ∈ pa_free demo_phys → 1024 ≤ p < 1034.
Proof.
  destruct (some_free_ok (seqZ 1024 10)) as (_ & Hfs & _); [apply NoDup_seqZ|apply Forall_forall; intros q; rewrite elem_of_seqZ; lia|].
  change (pa_free demo_phys) with (free_set (some_free_phys (seqZ 1024 10))).
  rewrite Hfs, elem_of_list_to_set, elem_of_seqZ. lia.
Qed.
Section demo.
Context (t : phys) (Ht : mapped_pages (demo_forest 4) demo_root 0x400 2 0 demo_phys t).
Lemma demo_loading_space : has_space (demo_forest 4) (demo_loading t) 0x200 demo_root.
Proof using Ht.
  split; [|apply demo_lookup|by eexists]. pose proof (ev_wf _ _ _ _ (mp_evolves _ _ _ _ _ _ _ Ht)) as H. by destruct t.
Qed.
Lemma demo_loading_leaf v : 0x400000 ≤ v < 0x402000 → ∃ e, leaf (k_mem (demo_loading t)) demo_root v = Some e ∧ 1024 ≤ frame e / PAGE_SIZE < 1034.
Proof using Ht.
  intros Hv. destruct (mp_new _ _ _ _ _ _ _ Ht v eq_refl) as (c & Hl & Hc & Hf & _); [lia|unfold PAGE_SIZE; dlia|].
  apply demo_free in Hf. eexists. split; [exact Hl|].
  destruct (mk_entry c 7 Hc) as (_ & _ & Hfr & _); [|unfold PAGE_SIZE; lia|rewrite Hfr; exact Hf].
  clear - Hf Hc. unfold PAGE_SIZE in *. dlia.
Qed.
End demo.
Definition demo_segment (vaddr filesz : Z) : Elf64_Phdr := Phdr PT_LOAD 7 0 vaddr vaddr filesz filesz 0x1000.
Lemma elf_copies_aligned_witness : ∃ t, has_space (demo_forest 4) (demo_loading t) 0x200 demo_root ∧
  wp (copy_data 0x200 0x1000 (demo_segment 0x400000 0x1800)) (demo_loading t) (λ r s', r = 0 ∧
    s' = set_k_mem (k_mem s') (demo_loading t) ∧ has_space (demo_forest 4) s' 0x200 demo_root ∧
    (∀ v, 0 ≤ v < 2 ^ 47 → leaf (k_mem s') demo_root v = leaf (k_mem (demo_loading t)) demo_root v) ∧
    (∀ i, 0 ≤ i < 0x1800 → ∃ e, leaf (k_mem s') demo_root (0x400000 + i) = Some e ∧
      ld8 (k_mem s') (frame e + (0x400000 + i) mod PAGE_SIZE) = ld8 (k_mem (demo_loading t)) (u64 (0x1000 + 0) + i)) ∧
    (∀ x, (∀ v e, 0x400000 ≤ v < 0x400000 + 0x1800 → leaf (k_mem (demo_loading t)) demo_root v = Some e → page_of x ≠ frame e) →
      ld (k_mem s') x = ld (k_mem (demo_loading t)) x)).
Proof.
  destruct demo_mapped_two as [t Ht]. exists t. split; [by apply demo_loading_space|].
  apply (elf_copies_aligned (demo_forest 4) 0x200 demo_root (demo_loading t) 0x1000 (demo_segment 0x400000 0x1800) (demo_loading_space t Ht));
    cbn [p_vaddr p_filesz p_offset demo_segment]; [lia|reflexivity|lia|lia|..].
  - intros v Hv. destruct (demo_loading_leaf t Ht v ltac:(lia)) as (e & He & _). by exists e.
  - intros i v e Hi Hv He. destruct (demo_loading_leaf t Ht v ltac:(lia)) as (e' & He' & Hf). rewrite He in He'. injection He' as <-.
    clear - Hf Hi. change (u64 (0x1000 + 0)) with 0x1000. unfold page_of, PAGE_SIZE in *. dlia.
Defined.
Lemma elf_copy_misplaced_witness : ∃ t e, leaf (k_mem (demo_loading t)) demo_root 0x400C00 = Some e ∧
  wp (copy_data 0x200 0x1000 (demo_segment 0x400C00 0x200)) (demo_loading t) (λ r s', r = 0 ∧
    s' = set_k_mem (st_bytes (k_mem (demo_loading t)) (frame e + 2 * (0x400C00 mod PAGE_SIZE))
           (bytes_at (k_mem (demo_loading t)) (u64 (0x1000 + 0)) 0x200)) (demo_loading t)).
Proof.
  destruct demo_mapped_two as [t Ht]. destruct (demo_loading_leaf t Ht 0x400C00 ltac:(lia)) as (e & He & _).
  exists t, e. split; [exact He|].
  apply (elf_copy_misplaced (demo_forest 4) 0x200 demo_root (demo_loading t) 0x1000 (demo_segment 0x400C00 0x200) e (demo_loading_space t Ht));
    cbn [p_vaddr p_filesz p_offset demo_segment]; [lia|lia|unfold PAGE_SIZE; dlia|lia|exact He].
Defined.
