(* ===== verification/Usermode.v ===== *)
(** * User mode (src/arch/x86_64/usermode.c)

    [switch_to_user_mode] prepares the stack for the next entry into the kernel
    and then executes instructions that load the data segments and return, by
    [iretq], to a frame made on the user's own stack.  The instructions run on
    the machine of Asm.v; the registers the compiler chooses for the two
    pointers are parameters.  The program that runs in user mode,
    [user_mode_test], is in Init.v. *)
From S2P Require Import Prelude Mem Kmalloc Pcb Sched Console Keyboard Boot Kernel Strings Syscall Asm Switch.

Definition USER_CODE_SEL : Z := 0x1B.
Definition USER_DATA_SEL : Z := 0x23.

(** ** Instructions *)

(** [user_stack] and [entry_point] are in the registers [us] and [ep]. *)
Definition user_mode_code (us ep : reg) : list instr := [
  Mov (Reg us) (Reg RSP);
  Push (Imm USER_DATA_SEL);
  Push (Reg us);
  Pushfq;
  Push (Imm USER_CODE_SEL);
  Push (Reg ep);
  MovW USER_DATA_SEL RAX;
  MovSeg RAX DS;
  MovSeg RAX ES;
  MovSeg RAX FS;
  MovSeg RAX GS;
  Iretq].

(** ** In the kernel *)
Section usermode.
Variables idle_process process_entry_trampoline user_mode_test : Z.

(** The result is the entry point and the stack the instructions start from. *)
Definition switch_to_user_mode (entry_point user_stack : Z) : M kernel (Z * Z) :=
  current ← Syscall.get_current idle_process;
  if current =? 0 then panic "switch_to_user_mode: No current process!" else
  p ← pderef current;
  at_sched (tss_set_kernel_stack (u64 (p_kernel_stack p + p_kernel_stack_size p)));;
  psay "Switching to user mode: entry=";;
  psay ", stack=";;
  psay "
";;
  mret (entry_point, user_stack).

Definition create_user_process (name : list Z) (entry_point : Z) : M kernel Z :=
  proc ← process_create process_entry_trampoline name 0 1;
  if proc =? 0 then mret 0 else
  user_stack ← at_heap (kmalloc 8192);
  if user_stack =? 0 then process_destroy idle_process proc;; mret 0 else
  passign proc (set_entry_point entry_point);;
  psay "Created user mode process: ";;
  pwrite name;;
  psay "
";;
  mret proc.

(** The panic after the switch is not reached: user mode comes back through
    interrupts only. *)
Definition test_user_mode : M kernel (Z * Z) :=
  psay "
=== Testing User Mode ===
";;
  user_stack ← at_heap (kmalloc 4096);
  if user_stack =? 0 then panic "Failed to allocate user stack!" else
  psay "Attempting to switch to user mode...
";;
  switch_to_user_mode user_mode_test (user_stack + 4096).
End usermode.

(** C20 (functional): The instructions of [switch_to_user_mode] leave the kernel:
    execution continues at the entry point on the user's stack, with the ring-3
    code and data selectors in all segment registers, the flags unchanged (so
    with interrupts enabled if they were), and nothing written but the five
    words of the frame below the user's stack pointer. *)
Theorem switch_to_user_mode_enters code here us ep m :
  loaded code here (user_mode_code us ep) → pc m = here → machine_wf m → us ≠ RSP → ep ≠ RSP →
  area (gpr m us - 40) 48 →
  wp (run code 12) m (λ _ m',
    pc m' = gpr m ep ∧ gpr m' RSP = gpr m us ∧ flags m' = flags m ∧
    segs m' CS = USER_CODE_SEL ∧ (∀ sg, sg ≠ CS → segs m' sg = USER_DATA_SEL) ∧
    Z.land (segs m' CS) 3 = 3 ∧ Z.land (segs m' SS) 3 = 3 ∧
    (∀ r, r ≠ RSP → r ≠ RAX → gpr m' r = gpr m r) ∧
    (∀ x, ¬ (gpr m us - 40 ≤ x < gpr m us) → ld (ram m') x = ld (ram m) x)).
Proof.
  intros Hl Hpc [Hg Hfl Hm] Hus Hep Ha. set (l := user_mode_code us ep) in *. pose proof (Hg us) as Hu. pose proof (Hg ep) as He.
  assert (Hal : gpr m us mod 8 = 0) by (unfold area in Ha; dlia). unfold area in Ha.
  asm here l 0%nat. apply wp_mov_rr. norm.
  asm here l 1%nat. cbn [exec read]. apply wp_bind, wp_ret, wp_push_op; [addr..|]. norm.
  asm here l 2%nat. cbn [exec read]. apply wp_bind, wp_gets, wp_push_op; [addr..|]. norm.
  asm here l 3%nat. cbn [exec read]. apply wp_bind, wp_gets, wp_push_op; [addr..|]. norm.
  asm here l 4%nat. cbn [exec read]. apply wp_bind, wp_ret, wp_push_op; [addr..|]. norm.
  asm here l 5%nat. cbn [exec read]. apply wp_bind, wp_gets, wp_push_op; [addr..|]. norm.
  rewrite !(upd_other RSP us), !(upd_other RSP ep) by done.
  asm here l 6%nat. cbn [exec]. apply wp_bind, wp_gets, wp_modify. norm. set (a := gpr m RAX - _ + _).
  assert (Eax : u16 a = USER_DATA_SEL) by (unfold a, u16, USER_DATA_SEL; dlia).
  do 4 (match goal with |- wp (run _ (S ?k)) _ _ => asm here l (11 - k)%nat end; cbn [exec]; apply wp_bind, wp_gets, wp_modify; norm).
  rewrite !Eax.
  asm here l 11%nat. cbn [exec].
  do 5 (apply wp_bind, wp_pop_op; [repeat (progress norm); dlia..|]; repeat (progress norm)). wp_go. repeat (progress norm). mload.
  change (u16 (u64 (u64 USER_DATA_SEL))) with USER_DATA_SEL. change (u16 (u64 (u64 USER_CODE_SEL))) with USER_CODE_SEL.
  rewrite (u64_id (gpr m us)), (u64_id (flags m)), (u64_id (gpr m ep)) by done. apply wp_ret. repeat (progress norm).
  split_and!; try done.
  - intros [] Hsg; repeat (progress norm); done.
  - intros r H1 H2. rewrite !(upd_other RSP r), (upd_other RAX r), !(upd_other RSP r) by done. done.
  - intros x Hx. by mload.
Qed.
Definition demo_leaving : machine :=
  Machine (λ r, match r with RCX => 0x9000 | RDX => 0x400000 | _ => 0x1234567890 end) 0x202 0x100000 ∅ (λ _, 0x10) 0 0 0 0.
Lemma switch_to_user_mode_enters_witness :
  wp (run (place 0x100000 (user_mode_code RCX RDX)) 12) demo_leaving (λ _ m',
    pc m' = 0x400000 ∧ gpr m' RSP = 0x9000 ∧ flags m' = 0x202 ∧
    segs m' CS = USER_CODE_SEL ∧ (∀ sg, sg ≠ CS → segs m' sg = USER_DATA_SEL) ∧
    Z.land (segs m' CS) 3 = 3 ∧ Z.land (segs m' SS) 3 = 3 ∧
    (∀ r, r ≠ RSP → r ≠ RAX → gpr m' r = gpr demo_leaving r) ∧
    (∀ x, ¬ (0x9000 - 40 ≤ x < 0x9000) → ld (ram m') x = ld ∅ x)).
Proof.
  apply (switch_to_user_mode_enters (place 0x100000 (user_mode_code RCX RDX)) 0x100000 RCX RDX demo_leaving); try done.
  - apply place_loaded.
  - split; [intros []; cbn; lia|cbn; lia|apply mem_wf_empty].
Defined.
