(* ===== verification/Main.v ===== *)
(** * The kernel's main function (src/kernel/kernel.c)

    [kernel_main] calls the initialisation of every component, creates the
    four test processes and starts the scheduler; what follows is the loop of
    the idle process, which executes the commands typed on the keyboard.  The
    state before it is the cleared memory the boot loader leaves ([bss_kernel]).
    No interrupt arrives before the scheduler starts: they are disabled until
    the processes are created, and the few instructions after [sti] are taken
    to run before the first tick.

    [init_paging] maps the first 2 MiB of memory only, and the first [kmalloc],
    in [process_init], initialises the heap at 32 MiB: [init_core] checks that
    access against the page tables, and [kernel_main_faults] shows that it ends
    in a page fault.  What follows it in [kernel_main] is modelled on memory
    that is mapped as the code expects. *)
From S2P Require Import Prelude Mem PageAlloc Pmm Kmalloc Pcb Vmm Sched Fs Console Keyboard Boot Kernel Strings Syscall Interrupt Typed Elf Usermode Partial.

(** The image in userspace/hello_binary.h: the ELF header, one program header
    and the code. *)
Definition hello_elf : list Z :=
  [0x7f; 0x45; 0x4c; 0x46; 0x02; 0x01; 0x01; 0x00; 0x00; 0x00; 0x00; 0x00; 0x00; 0x00; 0x00; 0x00] ++
  [0x02; 0x00; 0x3e; 0x00; 0x01; 0x00; 0x00; 0x00; 0x00; 0x00; 0x10; 0x00; 0x00; 0x00; 0x00; 0x00] ++
  [0x40; 0x00; 0x00; 0x00; 0x00; 0x00; 0x00; 0x00; 0x00; 0x00; 0x00; 0x00; 0x00; 0x00; 0x00; 0x00] ++
  [0x00; 0x00; 0x00; 0x00; 0x40; 0x00; 0x38; 0x00; 0x01; 0x00; 0x40; 0x00; 0x00; 0x00; 0x00; 0x00] ++
  [0x01; 0x00; 0x00; 0x00; 0x05; 0x00; 0x00; 0x00; 0x00; 0x00; 0x00; 0x00; 0x00; 0x00; 0x00; 0x00] ++
  [0x00; 0x00; 0x10; 0x00; 0x00; 0x00; 0x00; 0x00; 0x00; 0x00; 0x10; 0x00; 0x00; 0x00; 0x00; 0x00] ++
  [0x20; 0x00; 0x00; 0x00; 0x00; 0x00; 0x00; 0x00; 0x20; 0x00; 0x00; 0x00; 0x00; 0x00; 0x00; 0x00] ++
  [0x00; 0x10; 0x00; 0x00; 0x00; 0x00; 0x00; 0x00] ++
  [0x48; 0xc7; 0xc0; 0x02; 0x00; 0x00; 0x00; 0x48; 0xc7; 0xc7; 0x01; 0x00; 0x00; 0x00] ++
  [0x48; 0xc7; 0xc6; 0x00; 0x20; 0x10; 0x00; 0x48; 0xc7; 0xc2; 0x10; 0x00; 0x00; 0x00; 0xcd; 0x80] ++
  [0x48; 0xc7; 0xc0; 0x01; 0x00; 0x00; 0x00; 0x48; 0xc7; 0xc7; 0x00; 0x00; 0x00; 0x00; 0xcd; 0x80; 0x90; 0x90].

Section main.
(** Addresses the linker decides. *)
Variables gdt_addr idt_addr tss_addr default_kernel_stack : Z.
Variable stub : Z → Z.
Variables idle_process idle_stack idle_task process_entry_trampoline : Z.
Variables test_process_1 test_process_2 test_syscall_process test_memory_process fork_test_main init_main : Z.
Variables builtin_hello_main shell_main_addr shell_v2_main : Z.
Variable user_mode_test : Z.
Variable process_find_by_pid : Z → sched → Z.
Variable boot_regs : registers.
(** Where the constant [hello_elf] and the text of the test message are. *)
Variables hello_elf_addr syscall_msg : Z.

Definition tell (s : string) : M kernel unit := at_console (terminal_writestring (bytes_of s)).
(** A function of the tables: it works on the memory of the kernel, and its
    messages go to the console. *)
Definition get_board (s : kernel) : board := set_printed [] (set_bmem (k_mem s) (k_board s)).
Definition put_board (b : board) (s : kernel) : kernel := set_k_board (set_bmem ∅ b) (set_k_mem (b_mem b) s).
Definition on_board {A} (c : M board A) : M kernel A :=
  old ← gets (λ s, printed (k_board s));
  r ← zoom get_board put_board c;
  new ← gets (λ s, printed (k_board s));
  at_console (write_all new);;
  at_board (modify (λ b, set_printed (old ++ new) b));;
  mret r.

(** The page fault of an access to an address that is not mapped: the CPU pushes
    a frame with the interrupted registers. *)
Definition page_fault (regs : registers) : M kernel unit :=
  at_board (exception_handler (Registers (r_r15 regs) (r_r14 regs) (r_r13 regs) (r_r12 regs) (r_r11 regs) (r_r10 regs) (r_r9 regs)
    (r_r8 regs) (r_rdi regs) (r_rsi regs) (r_rbp regs) (r_rbx regs) (r_rdx regs) (r_rcx regs) (r_rax regs) 14 2
    (r_rip regs) (r_cs regs) (r_rflags regs) (r_rsp regs) (r_ss regs))).
(** A store to the address [x], with the page tables in use. *)
Definition touch (regs : registers) (x : Z) : M kernel unit :=
  s ← gets id;
  match leaf (k_mem s) (b_cr3 (k_board s)) x with Some _ => mret () | None => page_fault regs end.

(** The core systems: the tables up to the timer, and the rest.  The lines after
    [pmm_init] and [fs_init] are the ones these functions print; their models
    have no console. *)
Definition init_tables : M kernel unit :=
  at_console init_vga;;
  tell "SimpleOS v0.2 - Now with Multitasking!
";;
  tell "=====================================

";;
  at_phys (pmm_init (64 * 1024 * 1024));;
  tell "PMM initialized: ";;
  tell " MB total, ";;
  tell " MB free
";;
  on_board (init_gdt gdt_addr tss_addr);;
  on_board (tss_init default_kernel_stack);;
  on_board init_pic;;
  on_board (init_idt idt_addr stub);;
  on_board init_exceptions;;
  on_board init_paging;;
  on_board (init_timer 100).
Definition init_systems : M kernel unit :=
  process_init idle_process idle_stack idle_task;;
  at_sched scheduler_init;;
  init_keyboard;;
  init_syscalls;;
  at_fs fs_init;;
  tell "Filesystem initialized
";;
  at_console vt_init;;
  at_console terminal_enable_vt.
(** The access to the heap comes from the [kmalloc] in [process_init], after
    assignments to static variables that the fault makes irrelevant; [boot_regs]
    are the registers at that point. *)
Definition init_core : M kernel unit :=
  init_tables;;
  touch boot_regs HEAP_START;;
  init_systems.

Definition create_test (name : string) (entry : Z) : M kernel Z :=
  process_create process_entry_trampoline (bytes_of name) entry 1.
(** "Create test processes" and start the scheduler; the result says whether it
    has switched to one of them. *)
Definition start_processes : M kernel bool :=
  tell "System initialized. Creating test processes...

";;
  tell "Press Alt+F1 through Alt+F4 to switch virtual terminals

";;
  at_sched (modify (set_interrupts true));;
  p1 ← create_test "TestProc1" test_process_1;
  p2 ← create_test "TestProc2" test_process_2;
  p3 ← create_test "SyscallTest" test_syscall_process;
  p4 ← create_test "MemoryTest" test_memory_process;
  if (p1 =? 0) || (p2 =? 0) || (p3 =? 0) || (p4 =? 0) then panic "Failed to create test processes!" else
  tell "
Starting scheduler...
";;
  tell "You should see processes interleaving their output.
";;
  tell "Commands: 'p' = process list, 's' = scheduler stats, 'f' = test page fault
";;
  tell "          't' = test syscall, 'u' = test user mode, 'e' = test ELF loader
";;
  tell "          'F' = test fork/exec, 'S' = start shell

";;
  at_sched (scheduler_enable idle_process).
(** [kernel_main] up to its loop. *)
Definition kernel_main : M kernel bool := init_core;; start_processes.

(** ** The commands of the idle loop *)

Definition test_elf_loader : M kernel unit :=
  tell "
=== Testing ELF Loader ===
";;
  tell "ELF binary size: ";;
  tell " bytes
";;
  tell "Creating ELF process...
";;
  proc ← elf_create_process idle_process process_entry_trampoline hello_elf_addr (Z.of_nat (length hello_elf)) (bytes_of "hello_elf");
  if negb (proc =? 0) then
    tell "ELF process created successfully!
";;
    tell "Entry point: ";;
    tell "
";;
    tell "Process should be ready to run
"
  else tell "Failed to create ELF process
".

Definition test_fork_exec : M kernel unit :=
  tell "
=== Testing Fork/Exec ===
";;
  test ← process_create process_entry_trampoline (bytes_of "fork_test") fork_test_main 1;
  if negb (test =? 0) then tell "Created fork test process
"
  else tell "Failed to create fork test process
".

(** The texts on one of the other terminals. *)
Definition announce (terminal : Z) (title : string) : M kernel unit :=
  at_console (vt_switch terminal);;
  tell title;;
  tell "Press 'S' to start shell on this terminal
".
Definition test_shell : M kernel unit :=
  tell "
=== Starting Shell via Init ===
";;
  init ← process_create process_entry_trampoline (bytes_of "init") init_main 1;
  if negb (init =? 0) then
    tell "Init process created! Shell should start automatically.
";;
    passign init (set_parent_pid 0);;
    current_vt ← at_console vt_get_current;
    announce 1 "
=== Virtual Terminal 2 ===
";;
    announce 2 "
=== Virtual Terminal 3 ===
";;
    at_console (vt_switch current_vt)
  else tell "Failed to create init process
".

Section loop.
(** The registers when an instruction of the loop is interrupted, what happens
    while a system call waits, and the bound on its polling. *)
Variables (regs : registers) (fuel : nat).

(** One command; the result is the entry point and stack when the command has
    gone to user mode. *)
Definition command (c : Z) : M kernel (option (Z * Z)) :=
  if c =? 112 then process_print_all;; mret None
  else if c =? 115 then scheduler_stats;; mret None
  else if c =? 102 then
    tell "
Triggering page fault test...
";;
    page_fault regs;;
    mret None
  else if c =? 116 then
    tell "
Testing direct syscall from kernel...
";;
    syscall3 idle_process builtin_hello_main shell_main_addr init_main shell_v2_main process_find_by_pid fuel regs
      SYS_WRITE 1 syscall_msg 19;;
    mret None
  else if c =? 117 then
    tell "
Testing user mode...
";;
    r ← test_user_mode idle_process user_mode_test;
    mret (Some r)
  else if c =? 101 then test_elf_loader;; mret None
  else if c =? 70 then test_fork_exec;; mret None
  else if c =? 83 then test_shell;; mret None
  else mret None.

(** One iteration of the loop, before its [hlt]. *)
Definition idle_iteration : M kernel (option (Z * Z)) :=
  has ← at_kbd keyboard_has_char;
  if (has : bool) then c ← at_kbd keyboard_getchar; command c else mret None.
End loop.
End main.

(** Cleared memory; the static idle process is at [idle_process]. *)
Definition bss_kernel (idle_process : Z) : kernel :=
  Kernel ∅ (HeapVars 0 false 0 HEAP_SIZE 0) (PhysVars (replicate (Z.to_nat BITMAP_WORDS) 0) 0 0 0)
    (Input bss_kbd bss_console (Sched {[ idle_process := zero_process ]} (replicate 64 0) 1 0 0 0 false 0 0 0 zero_context false []))
    bss_ramfs ∅ ∅ bss_board (replicate 64 None).

(** ** The running kernel stays well-typed *)

Section typed.
Context (D : list Z).
Abbreviation kt := (with_pipes D).

Lemma yields_tell s : keeps kt (tell s).
Proof. unfold tell. yields_go. Qed.
#[local] Hint Resolve yields_tell : typed.
Lemma yields_vt_current : keeps console_typed vt_get_current.
Proof. unfold vt_get_current. yields_go. Qed.
#[local] Hint Resolve yields_vt_current : typed.
Lemma yields_print_all : keeps kt process_print_all.
Proof. unfold process_print_all. yields_go. Qed.
Lemma yields_stats : keeps kt scheduler_stats.
Proof. unfold scheduler_stats. yields_go. Qed.

(** The loader. *)
Lemma yields_map_pages n j p start fl : keeps kt (map_pages n j p start fl).
Proof. revert j. induction n as [|n IH]; intros j; cbn [map_pages]; yields_go. Qed.
Lemma yields_fill fuel put msg p base size off :
  (∀ d o n, keeps kt (put d o n)) → keeps kt (fill_range fuel put msg p base size off).
Proof. intros Hp. revert off. induction fuel as [|fuel IH]; intros off; cbn [fill_range]; yields_go. Qed.
Lemma yields_copy_from src d o n : keeps kt (copy_from src d o n).
Proof. unfold copy_from. yields_go. Qed.
Lemma yields_clear_at d o n : keeps kt (clear_at d o n).
Proof. unfold clear_at. yields_go. Qed.
#[local] Hint Resolve yields_print_all yields_stats yields_map_pages yields_fill yields_copy_from yields_clear_at : typed.
Lemma yields_load_segments n i p data phdrs : keeps kt (load_segments n i p data phdrs).
Proof.
  revert i. induction n as [|n IH]; intros i; cbn [load_segments]; unfold load_phdr, load_segment, copy_data, zero_bss; yields_go.
Qed.
Lemma yields_validate h : keeps kt (elf_validate h).
Proof. unfold elf_validate. yields_go. Qed.
#[local] Hint Resolve yields_load_segments yields_validate : typed.
Lemma yields_elf_load p data size : keeps kt (elf_load p data size).
Proof. unfold elf_load, load_ehdr. yields_go. Qed.
#[local] Hint Resolve yields_elf_load : typed.
Lemma yields_elf_create idle tr data size name : keeps kt (elf_create_process idle tr data size name).
Proof. unfold elf_create_process. yields_go. Qed.
Lemma yields_user_mode idle entry : keeps kt (test_user_mode idle entry).
Proof. unfold test_user_mode, switch_to_user_mode, tss_set_kernel_stack. yields_go. Qed.
End typed.
#[export] Hint Resolve yields_tell yields_vt_current yields_print_all yields_stats yields_elf_create yields_user_mode : typed.

Section steps.
Context (idle idle_stack idle_task trampoline : Z) (t1 t2 t3 t4 fork_test init hello shell shell_v2 user_test : Z).
Context (find : Z → sched → Z) (elf_addr msg_addr : Z).

Lemma yields_start D : keeps (with_pipes D) (start_processes idle trampoline t1 t2 t3 t4).
Proof.
  unfold start_processes, create_test. yields_go. apply yields_at_sched. unfold scheduler_enable. yields_go.
Qed.
Lemma yields_announce D n s : keeps (with_pipes D) (announce n s).
Proof. unfold announce. yields_go. Qed.
#[local] Hint Resolve yields_announce : typed.
Lemma yields_command D regs fuel c :
  keeps (with_pipes D) (command idle trampoline fork_test init hello shell shell_v2 user_test find elf_addr msg_addr regs fuel c).
Proof.
  pose proof (yields_syscall idle hello shell init shell_v2 find D).
  unfold command, page_fault, syscall3, test_elf_loader, test_fork_exec, test_shell. yields_go.
Qed.

(** What happens once the kernel is initialised: interrupts, the creation and
    removal of processes, the start of the scheduler and the idle loop. *)
Inductive mstep : kernel → kernel → Prop :=
  | mstep_kernel s s' : kstep idle trampoline hello shell init shell_v2 find s s' → mstep s s'
  | mstep_start b s s' : start_processes idle trampoline t1 t2 t3 t4 s = Ret (b, s') → mstep s s'
  | mstep_idle regs fuel r s s' :
      idle_iteration idle trampoline fork_test init hello shell shell_v2 user_test find elf_addr msg_addr regs fuel s = Ret (r, s') →
      mstep s s'.
Lemma typed_no_pipes s : kernel_typed s → with_pipes [] s.
Proof. intros Hs. split; [done|]. by intros p ?%elem_of_nil. Qed.
Lemma yields_idle D regs fuel :
  keeps (with_pipes D) (idle_iteration idle trampoline fork_test init hello shell shell_v2 user_test find elf_addr msg_addr regs fuel).
Proof. pose proof (yields_command D). unfold idle_iteration. yields_go. Qed.
Lemma mstep_typed s s' : mstep s s' → kernel_typed s → kernel_typed s'.
Proof.
  intros H Hs. apply typed_no_pipes in Hs as H0. destruct H as [s s' H|b s s' E|regs fuel r s s' E].
  - by eapply kstep_typed.
  - by apply (yields_start [] s b s' H0 E).
  - by apply (yields_idle [] regs fuel s r s' H0 E).
Qed.
Lemma msteps_typed s s' : rtc mstep s s' → kernel_typed s → kernel_typed s'.
Proof. induction 1 as [|s1 s2 s3 Hs _ IH]; [done|]. intros H. apply IH. by eapply mstep_typed. Qed.
End steps.

(** No key produces a capital letter. *)
Lemma no_capital c : key_code c → c ≠ 70 ∧ c ≠ 83.
Proof.
  assert (H : Forall (λ c, c ≠ 70 ∧ c ≠ 83) (kbd_us ++ [9; 27; 91; 65; 66; 67; 68])) by (apply (bool_decide_unpack _); vm_compute; exact I).
  rewrite Forall_forall in H. apply H.
Qed.

(** ** Initialisation succeeds

    [like P σ s]: the state [s] is that of [σ] but for the screen, the messages
    printed, memory, of which [P] is known, and the descriptor tables of the
    CPU; text is still written to the plain terminal. *)
Record board_like (b b' : board) : Prop := {
  bl_gdt : length (gdt b') = 7%nat;
  bl_idt : length (idt b') = 256%nat;
  bl_length : length (interrupt_handlers b') = 256%nat;
  bl_handlers : interrupt_handlers b' = interrupt_handlers b;
  bl_frequency : timer_frequency b' = timer_frequency b;
  bl_cr3 : b_cr3 b' = b_cr3 b;
  bl_paging : b_paging b' = b_paging b;
}.
Definition first_plain (c : console) : Prop := plain_wf c ∧ current_terminal c = 0.
Lemma putchar_current z ch : keeps (λ c, current_terminal c = z) (terminal_putchar ch).
Proof.
  assert (Hm : ∀ f, (∀ c, current_terminal (f c) = current_terminal c) → keeps (λ c, current_terminal c = z) (modify f)) by (intros f Hf; apply yields_modify; intros c <-; apply Hf).
  assert (Hv : ∀ i c, keeps (λ c, current_terminal c = z) (vga_put i c)) by (intros; unfold vga_put; yields_go; by apply Hm).
  assert (Hu : ∀ i f, keeps (λ c, current_terminal c = z) (upd_vt i f)) by (intros; unfold upd_vt; yields_go; by apply Hm).
  unfold terminal_putchar, next_row, terminal_scroll, vga_get, vt_putchar, vt_scroll, vt_refresh, get_vt, terminal_set_cursor, Console.outb. yields_go; by apply Hm.
Qed.
#[export] Instance first_screen : Screen (λ _ : unit, first_plain) (λ _ _, ()) (λ _, True).
Proof.
  intros [] c ch [Hc Hz] _. eapply wp_mono; [eapply wp_yields; [by apply wp_putchar_wf|apply (putchar_current 0)|exact Hz]|].
  cbn beta. intros _ c' [? ?]. by split.
Qed.

Record same (P : mem → Prop) (σ s : kernel) : Prop := {
  sm_plain : first_plain (con (k_in s));
  sm_mem : P (k_mem s);
  sm_heap : k_heap s = k_heap σ;
  sm_phys : k_phys s = k_phys σ;
  sm_kbd : kb (k_in s) = kb (k_in σ);
  sm_sched : set_terminal [] (k_sched s) = set_terminal [] (k_sched σ);
  sm_fs : k_fs s = k_fs σ;
  sm_pipes : k_pipes s = k_pipes σ;
  sm_fds : k_fds s = k_fds σ;
  sm_table : syscall_table s = syscall_table σ;
  sm_board : board_like (k_board σ) (k_board s);
}.
Definition like (P : mem → Prop) (σ s : kernel) : Prop := kernel_typed s ∧ same P σ s.

(** A computation that is total keeps the types. *)
Lemma wp_typed {A} (R : A → Prop) (c : M kernel A) s Q :
  wp c s Q → yields (with_pipes []) R c → kernel_typed s → wp c s (λ a s', Q a s' ∧ kernel_typed s').
Proof.
  intros Hw Hy Hs. eapply wp_mono; [eapply wp_yields; [exact Hw|exact Hy|by apply typed_no_pipes]|]. cbn beta. by intros a s' [? []].
Qed.

(** Code of the scheduler, and code that only prints. *)
Section prints.
Context (P : mem → Prop).
Lemma wp_sched_like {A} (R : A → Prop) (c : M sched A) σ s (Q : A → kernel → Prop) :
  like P σ s → yields (with_pipes []) R (at_sched c) →
  wp c (set_terminal [] (k_sched σ)) (λ r v, ∀ s', like P (upd_sched v σ) s' → Q r s') → wp (at_sched c) s Q.
Proof.
  intros [Ht [Hpl ? ? ? ? Es ? ? ? ? ?]] Hy Hw. eapply wp_mono.
  { eapply (wp_typed _ _ s (λ r s', ∃ v, (∀ s', like P (upd_sched v σ) s' → Q r s') ∧ same P (upd_sched v σ) s')); [|exact Hy|exact Ht].
    apply (wp_at_sched (T := λ _ : unit, first_plain) c ()); [done|exact Hpl|]. rewrite Es. eapply wp_mono; [exact Hw|]. cbn beta. intros r v HQ con' _ Hcon. exists v. split; [exact HQ|].
    by split. }
  cbn beta. intros r s' [(v & HQ & Hs) Ht']. apply HQ. by split.
Qed.
Lemma wp_psay_like x σ s (Q : unit → kernel → Prop) : like P σ s → (∀ s', like P σ s' → Q () s') → wp (psay x) s Q.
Proof.
  intros Hs HQ. eapply wp_sched_like; [exact Hs|apply yields_psay|]. apply wp_modify. intros s' [Ht []]. apply HQ. by split; [|split].
Qed.
Lemma wp_tell x σ s (Q : unit → kernel → Prop) : like P σ s → (∀ s', like P σ s' → Q () s') → wp (tell x) s Q.
Proof.
  intros [Ht []] HQ. eapply wp_mono.
  { eapply (wp_typed _ _ s (λ _ s', same P σ s')); [|apply yields_tell|exact Ht]. unfold tell, at_console.
    apply wp_zoom, wp_zoom. eapply wp_mono; [apply (wp_screen_write (T := λ _ : unit, first_plain) (ok := λ _, True) _ ()); [done|by apply Forall_true]|]. cbn beta. intros _ k Hk. by split. }
  cbn beta. intros [] s' [? ?]. apply HQ. by split.
Qed.
End prints.

(** Functions of the tables. *)
Definition total_on {S} (I : S → Prop) (c : M S unit) : Prop := ∀ s, I s → wp c s (λ _ s', I s').
Lemma total_bind {S} (I : S → Prop) (c d : M S unit) : total_on I c → total_on I d → total_on I (c;; d).
Proof. intros Hc Hd s Hs. apply wp_bind. eapply wp_mono; [by apply Hc|]. cbn beta. intros [] s'. apply Hd. Qed.
Lemma total_for {S} (I : S → Prop) n i body :
  (∀ j, i ≤ j < i + Z.of_nat n → total_on I (body j)) → total_on I (for_loop n i body).
Proof.
  revert i. induction n as [|n IH]; intros i Hb; [by intros s Hs; apply wp_ret|]. cbn [for_loop].
  apply total_bind; [apply Hb; lia|]. apply IH. intros j Hj. apply Hb. lia.
Qed.

Definition tables (P : mem → Prop) (β b : board) : Prop := board_like β b ∧ P (b_mem b).
Section boards.
Context (P : mem → Prop) (β : board).
Lemma tables_modify f :
  (∀ b, gdt (f b) = gdt b ∧ idt (f b) = idt b ∧ interrupt_handlers (f b) = interrupt_handlers b ∧
        timer_frequency (f b) = timer_frequency b ∧ b_cr3 (f b) = b_cr3 b ∧ b_paging (f b) = b_paging b ∧ b_mem (f b) = b_mem b) → total_on (tables P β) (modify f).
Proof.
  intros Hf b [[] Hm]. apply wp_modify. destruct (Hf b) as (E1 & E2 & E3 & E4 & E5 & E6 & E7).
  split; [split|]; rewrite ?E1, ?E2, ?E3, ?E4, ?E5, ?E6, ?E7; done.
Qed.
Lemma tables_gdt_put n f : 0 ≤ n < 7 → total_on (tables P β) (gdt_put n f).
Proof.
  intros Hn b [[] Hm]. unfold gdt_put. destruct (arr_get_is_Some (gdt b) n) as [e He]; [lia|]. apply wp_bind, wp_gets, wp_bind.
  eapply wp_lift_opt; [exact He|]. apply wp_bind. eapply wp_lift_opt; [apply arr_set_in; lia|]. apply wp_modify.
  split; [|done]. split; cbn; try done. by rewrite length_insert.
Qed.
Lemma tables_gate n base sel fl : 0 ≤ n < 256 → total_on (tables P β) (idt_set_gate n base sel fl).
Proof.
  intros Hn b [[] Hm]. unfold idt_set_gate. apply wp_bind, wp_gets, wp_bind. rewrite u8_id by (change (2 ^ 8) with 256; lia).
  eapply wp_lift_opt; [apply arr_set_in; lia|]. apply wp_modify. split; [|done]. split; cbn; try done. by rewrite length_insert.
Qed.
Ltac tables_go := repeat match goal with
  | |- total_on _ (mbind _ _) => apply total_bind
  | |- total_on _ (modify _) => by apply tables_modify
  | |- total_on _ (gdt_put _ _) => by apply tables_gdt_put
  | |- total_on _ (for_loop _ _ _) => apply total_for; intros ? ?
  | |- total_on _ (idt_set_gate _ _ _ _) => apply tables_gate; unfold IDT_ENTRIES in *; lia
  end.

Lemma tables_init_gdt g t : total_on (tables P β) (init_gdt g t).
Proof. unfold init_gdt, load_gdt, gdt_set_gate, gdt_set_tss. tables_go. Qed.
Lemma tables_tss_init k : total_on (tables P β) (tss_init k).
Proof. unfold tss_init, prints, print. tables_go. Qed.
Lemma tables_init_pic : total_on (tables P β) init_pic.
Proof. unfold init_pic, Boot.outb. tables_go. Qed.
Lemma tables_init_idt a stub : total_on (tables P β) (init_idt a stub).
Proof.
  unfold init_idt, load_idt. tables_go.
  assert (H : Forall (λ v, 0 ≤ v < 256) exception_vectors) by (apply (bool_decide_unpack _); vm_compute; exact I).
  induction H as [|v vs Hv _ IH]; cbn [set_gates]; [intros b Hb; by apply wp_ret|]. apply total_bind; [by apply tables_gate|exact IH].
Qed.
End boards.

(** The tables of [init_paging]: the first 2 MiB and no more. *)
Definition paged (m : mem) : Prop :=
  mem_wf m ∧ ∀ v, 0 ≤ v < 2 ^ 47 → leaf m pml4 v = (if v <? 2 ^ 21 then Some (Z.lor (PAGE_SIZE * (v / PAGE_SIZE)) 3) else None).
Lemma tables_store β a v : a mod 8 = 0 → total_on (tables mem_wf β) (store64 a v).
Proof. intros Ha b [[] Hm]. apply wp_store64; [done|]. split; [by split|]. by apply mem_wf_st. Qed.
Lemma paging_tables β b : tables mem_wf β b → wp init_paging b (λ _ b', tables mem_wf (set_paging pml4 true β) b').
Proof.
  intros Hb. unfold init_paging. apply wp_bind. eapply wp_mono.
  { refine (total_for (tables mem_wf β) _ _ _ _ b Hb). intros j Hj. apply tables_store. unfold pt. dlia. }
  cbn beta. clear b Hb. intros _ b Hb.
  do 3 (apply wp_bind; eapply wp_mono; [refine (tables_store β _ _ _ b Hb); reflexivity|]; cbn beta; clear b Hb; intros _ b Hb).
  apply wp_modify. destruct Hb as [[] ?]. by split; [split|].
Qed.
Lemma wp_init_paging_tables β b :
  tables (λ m, m = ∅) β b → wp init_paging b (λ _ b', tables paged (set_paging pml4 true β) b').
Proof.
  intros [Hl Hm].
  assert (Hz : ∀ i, 0 ≤ i < 512 → entry (b_mem b) pml4 i = 0 ∧ entry (b_mem b) pdpt i = 0 ∧ entry (b_mem b) pd i = 0)
    by (intros i Hi; by rewrite Hm).
  pose proof (λ v, init_paging_maps_2mib b v Hz) as W2.
  assert (W1 : wp init_paging b (λ _ b', tables mem_wf (set_paging pml4 true β) b')).
  { apply paging_tables. split; [done|]. rewrite Hm. apply mem_wf_empty. }
  revert W1 W2. generalize init_paging. intros c W1 W2.
  destruct (wp_run _ _ _ W1) as ([] & b' & Hrun & Hb' & Hm'). apply (wp_of_run _ _ () b'); [exact Hrun|]. split; [exact Hb'|]. split; [exact Hm'|].
  intros v Hv. destruct (wp_result _ _ _ _ _ (W2 v Hv) Hrun) as [_ H]. by rewrite (bl_cr3 _ _ Hb') in H.
Qed.

Lemma tables_register P β n h b (Q : unit → board → Prop) :
  tables P β b → 0 ≤ n < 256 →
  (∀ b', tables P (set_handlers (<[Z.to_nat n := Some h]> (interrupt_handlers β)) β) b' → Q () b') →
  wp (register_interrupt_handler n h) b Q.
Proof.
  intros [[] Hm] Hn HQ. unfold register_interrupt_handler. apply wp_bind, wp_gets, wp_bind. rewrite u8_id by (change (2 ^ 8) with 256; lia).
  eapply wp_lift_opt; [apply arr_set_in; lia|]. apply wp_modify, HQ. split; [|done]. split; cbn; try done; [by rewrite length_insert|congruence].
Qed.
Lemma tables_print P β x b (Q : unit → board → Prop) : tables P β b → (∀ b', tables P β b' → Q () b') → wp (prints x) b Q.
Proof. intros [[] Hm] HQ. apply wp_modify, HQ. by split; [split|]. Qed.

(** The handlers after [init_exceptions], and after [init_timer]. *)
Definition with_exceptions (hs : list (option handler)) : list (option handler) :=
  <[14%nat := Some page_fault_handler_h]> (<[13%nat := Some general_protection_fault_handler_h]> (<[12%nat := Some stack_fault_handler_h]>
    (<[8%nat := Some double_fault_handler_h]> (<[6%nat := Some invalid_opcode_handler_h]> hs)))).
Lemma wp_init_exceptions P β b :
  tables P β b → wp init_exceptions b (λ _ b', tables P (set_handlers (with_exceptions (interrupt_handlers β)) β) b').
Proof.
  intros Hb. unfold init_exceptions.
  do 5 (apply wp_bind; eapply tables_register; [eassumption|lia|]; clear b Hb; intros b Hb). eapply tables_print; [exact Hb|]. done.
Qed.
Definition with_timer (b : board) : board :=
  set_frequency 100 (set_handlers (<[32%nat := Some timer_callback_h]> (interrupt_handlers b)) b).
Lemma wp_init_timer P β b : tables P β b → wp (init_timer 100) b (λ _ b', tables P (with_timer β) b').
Proof.
  intros [[] Hm]. unfold init_timer. apply wp_bind, wp_modify. change (100 =? 0) with false. cbv iota zeta.
  set (b1 := set_frequency 100 b). assert (H1 : tables P (set_frequency 100 β) b1) by (split; [by split|done]).
  assert (Ho : ∀ p v, total_on (tables P (set_frequency 100 β)) (Boot.outb p v)) by (intros; by apply tables_modify).
  do 3 (apply wp_bind; eapply wp_mono; [apply Ho; eassumption|]; cbn beta; clear dependent b1; intros _ b1 H1).
  apply wp_bind. eapply tables_register; [exact H1|unfold IRQ0; lia|]. clear b1 H1. intros b1 H1.
  apply wp_bind. eapply tables_print; [exact H1|]. clear b1 H1. intros b1 H1. eapply tables_print; [exact H1|]. by destruct β.
Qed.

Lemma yields_on_board D {A} (c : M board A) : keeps (with_pipes D) (on_board c).
Proof.
  unfold on_board. yields_go. eapply yields_part; [apply yields_any|done].
Qed.
Lemma wp_on_board P P' c σ s β (Q : unit → kernel → Prop) :
  like P σ s → (∀ b, tables P (k_board σ) b → wp c b (λ _ b', tables P' β b')) →
  (∀ s', like P' (set_k_board β σ) s' → Q () s') → wp (on_board c) s Q.
Proof.
  intros [Ht [Hp Hm ? ? ? ? ? ? ? ? []]] Hc HQ. eapply wp_mono.
  { eapply (wp_typed _ _ s (λ _ s', same P' (set_k_board β σ) s')); [|apply (yields_on_board [])|exact Ht].
    unfold on_board. apply wp_bind, wp_gets, wp_bind, wp_zoom. eapply wp_mono; [apply Hc; by split; [split|]|].
    cbn beta. intros [] b [[] Hm']. apply wp_bind, wp_gets, wp_bind, wp_zoom, wp_zoom.
    eapply wp_mono; [apply (wp_write_all (T := λ _ : unit, first_plain) (ok := λ _, True) (λ _, I) _ ()), Hp|]. cbn beta. intros _ k [_ Hk]. apply wp_bind, wp_zoom, wp_modify, wp_ret. by split; [..|split]. }
  cbn beta. intros [] s' [Hl Ht']. apply HQ. by split.
Qed.

(** *** The idle process *)
Section idle.
Context (idle idle_stack idle_task : Z).
Definition boot_sched (pr : process_t) (table : list Z) : sched :=
  Sched {[ idle := pr ]} table 1 0 0 0 false 0 0 0 zero_context false [].
(** The process control block [process_init] fills in. *)
Definition idle_pcb (fd : Z) : process_t :=
  let ctx := set_rflags 0x202 (set_rip idle_task (set_rsp (idle_stack + KERNEL_STACK_SIZE) (p_context zero_process))) in
  set_fd_table fd (set_context ctx (set_entry_point idle_task (set_ticks_remaining 1 (set_ticks_total 0 (set_priority 255
    (set_kernel_stack_size KERNEL_STACK_SIZE (set_kernel_stack idle_stack (set_state PROCESS_STATE_READY
    (set_name (bytes_of "idle" ++ replicate 28 0) (set_pid 0 zero_process)))))))))).

Lemma wp_passign_boot P pr table f σ s (Q : unit → kernel → Prop) :
  like P (upd_sched (boot_sched pr table) σ) s → (∀ pr, process_typed pr → process_typed (f pr)) →
  (∀ s', like P (upd_sched (boot_sched (f pr) table) σ) s' → Q () s') → wp (passign idle f) s Q.
Proof.
  intros Hs Hf HQ. eapply wp_sched_like; [exact Hs|by apply yields_passign|]. unfold assign. apply wp_bind.
  eapply wp_deref; [apply lookup_singleton_eq|]. apply wp_modify. intros s' Hs'. apply HQ.
  replace (upd_sched (boot_sched (f pr) table) σ) with (upd_sched (set_pcbs (<[idle := f pr]> {[idle := pr]}) (boot_sched pr table)) σ); [exact Hs'|].
  unfold boot_sched, set_pcbs. cbn. by rewrite insert_singleton_eq.
Qed.
Lemma wp_put_slot_boot P pr table i p σ s (Q : unit → kernel → Prop) :
  like P (upd_sched (boot_sched pr table) σ) s → 0 ≤ i < Z.of_nat (length table) →
  (∀ s', like P (upd_sched (boot_sched pr (<[Z.to_nat i := p]> table)) σ) s' → Q () s') → wp (put_slot i p) s Q.
Proof.
  intros Hs Hi HQ. eapply wp_sched_like; [exact Hs|apply yields_put_slot|]. apply wp_bind, wp_gets, wp_bind.
  eapply wp_lift_opt; [by apply arr_set_in|]. by apply wp_modify.
Qed.

Lemma first_kmalloc s size :
  heap_boot s → 0 ≤ size ≤ 65536 →
  wp (kmalloc size) s (λ p s', ∃ bs n, heap_inv s' bs ∧ size ≤ n ∧ HEAP_START < p ∧ payloads HEAP_START bs = [(p, n)]).
Proof.
  intros Hb Hsz. destruct (kmalloc_at s heap_start_blocks size) as [H|[_ H]]; [by right|lia| |].
  - eapply wp_mono; [exact H|]. cbn beta. intros p s' (bs & n & Hi & Hn & Hp & _ & H0 & _). exists bs, n. split_and!; [done..|].
    by apply Permutation_singleton_r in Hp.
  - assert (HEAP_SIZE - BLOCK_HEADER_SIZE < round8 size) as Hlt by (apply (H (Blk (HEAP_SIZE - BLOCK_HEADER_SIZE) true)); [by left|done]).
    unfold round8, HEAP_SIZE, BLOCK_HEADER_SIZE in Hlt. dlia.
Qed.

Definition set_k_heap (h : heap_vars) (s : kernel) : kernel :=
  Kernel (k_mem s) h (k_phys s) (k_in s) (k_fs s) (k_pipes s) (k_fds s) (k_board s) (syscall_table s).
(** The heap after the first allocation, [fd]. *)
Definition one_block (fd : Z) (m : mem) (h : heap_vars) : Prop :=
  ∃ bs n, heap_inv (KHeap m (hv_head h) (hv_init h) (hv_allocated h) (hv_free h) (hv_count h)) bs ∧
    SIZEOF_FD_ENTRY * MAX_FDS ≤ n ∧ payloads HEAP_START bs = [(fd, n)].
Definition booted_fds (pr : process_t) (table : list Z) (fd : Z) (h : heap_vars) (σ : kernel) : kernel :=
  set_k_fds (<[fd := replicate (Z.to_nat MAX_FDS) fd_clear]> (k_fds σ)) (set_k_heap h (upd_sched (boot_sched (set_fd_table fd pr) table) σ)).
Lemma wp_fd_table pr table σ s (Q : unit → kernel → Prop) :
  like mem_wf (upd_sched (boot_sched pr table) σ) s → idle ≠ 0 → k_heap σ = HeapVars 0 false 0 HEAP_SIZE 0 →
  (∀ fd h s', HEAP_START < fd → like (λ m, one_block fd m h) (booted_fds pr table fd h σ) s' → Q () s') →
  wp (init_process_fd_table idle) s Q.
Proof.
  intros [Ht [Hp Hm Eh ? ? Es ? ? ? ? ?]] Hidle Hh HQ. eapply wp_mono.
  { eapply (wp_typed _ _ s (λ _ s', ∃ fd h, HEAP_START < fd ∧ same (λ m, one_block fd m h) (booted_fds pr table fd h σ) s'));
      [|apply (yields_init_fds [])|exact Ht].
    unfold init_process_fd_table. rewrite (proj2 (Z.eqb_neq idle 0)) by done. apply wp_bind, wp_zoom. eapply wp_mono.
    { apply first_kmalloc; [|unfold SIZEOF_FD_ENTRY, MAX_FDS; lia]. unfold heap_boot, get_heap. change (k_heap (upd_sched _ σ)) with (k_heap σ) in Eh.
      by rewrite Eh, Hh. }
    cbn beta. intros fd h (bs & n & Hi & Hn & H0 & Hpl). apply wp_bind. eapply wp_passign.
    { change (pcbs (k_sched (put_heap h s))) with (pcbs (set_terminal [] (k_sched s))). rewrite Es. apply lookup_singleton_eq. }
    rewrite (proj2 (Z.eqb_neq fd 0)) by (unfold HEAP_START in H0; lia). apply wp_modify.
    exists fd, (HeapVars (kh_head h) (heap_initialized h) (total_allocated h) (total_free h) (allocation_count h)). split; [done|].
    split; try done.
    - exists bs, n. split_and!; [|done..]. by destruct h.
    - transitivity (set_pcbs (<[idle := set_fd_table fd pr]> (pcbs (set_terminal [] (k_sched s)))) (set_terminal [] (k_sched s))); [done|].
      rewrite Es. unfold boot_sched, set_pcbs. cbn. by rewrite insert_singleton_eq.
    - cbn. by f_equal. }
  cbn beta. intros [] s' [(fd & h & H0 & Hs) Ht']. apply (HQ fd h); [done|]. by split.
Qed.

(** The state after [process_init]. *)
Definition with_idle (fd : Z) (h : heap_vars) (σ : kernel) : kernel :=
  set_k_fds (<[fd := replicate (Z.to_nat MAX_FDS) fd_clear]> (k_fds σ))
    (set_k_heap h (upd_sched (boot_sched (idle_pcb fd) (idle :: replicate 63 0)) σ)).
Lemma wp_process_init σ s (Q : unit → kernel → Prop) :
  like mem_wf (upd_sched (boot_sched zero_process (replicate 64 0)) σ) s → idle ≠ 0 → k_heap σ = HeapVars 0 false 0 HEAP_SIZE 0 →
  (∀ fd h s', HEAP_START < fd → like (λ m, one_block fd m h) (with_idle fd h σ) s' → Q () s') →
  wp (process_init idle idle_stack idle_task) s Q.
Proof.
  intros Hs Hi Hh HQ. unfold process_init. apply wp_bind.
  apply (wp_for (λ _ s', like mem_wf (upd_sched (boot_sched zero_process (replicate 64 0)) σ) s')); [done| |clear s Hs; intros s Hs].
  { intros j s' Hj Hs'. change (Z.of_nat (Z.to_nat MAX_PROCESSES)) with 64 in Hj. eapply wp_put_slot_boot; [exact Hs'|rewrite length_replicate; lia|].
    intros s2. by rewrite insert_replicate. }
  apply wp_bind. eapply wp_passign_boot; [exact Hs|process_tac|]. clear s Hs. intros s Hs. apply wp_bind.
  eapply wp_sched_like; [exact Hs|apply yields_pderef|]. eapply wp_deref; [apply lookup_singleton_eq|]. clear s Hs. intros s Hs.
  apply wp_bind. eapply wp_lift_opt; [vm_compute; reflexivity|].
  change (upd_sched (set_terminal _ _) _) with (upd_sched (boot_sched (set_pid 0 zero_process) (replicate 64 0)) σ) in Hs.
  do 11 (apply wp_bind; eapply wp_passign_boot; [exact Hs|intros ? []; by split|]; clear s Hs; intros s Hs).
  apply wp_bind. eapply wp_put_slot_boot; [exact Hs|rewrite length_replicate; lia|]. clear s Hs. intros s Hs. apply wp_bind.
  eapply wp_fd_table; [exact Hs|done|exact Hh|]. clear s Hs. intros fd h s H0 Hs. eapply wp_psay_like; [exact Hs|]. intros s' Hs'. by apply (HQ fd h).
Qed.
End idle.

(** *** From cleared memory to the running system *)
Definition set_k_phys (p : phys_vars) (s : kernel) : kernel :=
  Kernel (k_mem s) (k_heap s) p (k_in s) (k_fs s) (k_pipes s) (k_fds s) (k_board s) (syscall_table s).

Lemma bss_typed idle : kernel_typed (bss_kernel idle).
Proof.
  split; cbn [bss_kernel k_in k_fs k_pipes k_fds]; [| |by intros ? ? ?%lookup_empty_Some..].
  - split; cbn [kb con sch]; [apply bss_kbd_typed| |].
    + split; [apply length_replicate|done| |done]. intros i t [_ E]%arr_get_Some. apply lookup_replicate in E as [-> _]. apply length_replicate.
    + split; [|done|done]. cbn. intros p pr [_ <-]%lookup_singleton_Some. by split.
  - split; cbn [bss_ramfs nodes blocks free_blocks]; rewrite ?length_replicate; [done..| |done|].
    + intros x v [_ E]%arr_get_Some. apply lookup_replicate in E as [-> _]. cbn [b_data]. by rewrite length_replicate.
    + intros w [-> _]%elem_of_replicate. lia.
Qed.
Lemma init_vga_current z : keeps (λ c, current_terminal c = z) init_vga.
Proof. unfold init_vga, vga_put. yields_go; apply yields_modify; by intros c <-. Qed.
Lemma yields_init_vga : keeps console_typed init_vga.
Proof. unfold init_vga. yields_go. Qed.
Lemma wp_bss_vga idle (Q : unit → kernel → Prop) :
  (∀ s', like (λ m, m = ∅) (bss_kernel idle) s' → Q () s') → wp (at_console init_vga) (bss_kernel idle) Q.
Proof.
  intros HQ. eapply wp_mono.
  { eapply (wp_typed _ _ _ (λ _ s', same (λ m, m = ∅) (bss_kernel idle) s')); [|apply yields_at_console, yields_init_vga|apply bss_typed].
    apply wp_zoom, wp_zoom. eapply wp_mono; [eapply wp_yields; [apply wp_init_vga; [apply length_replicate|done]|apply (init_vga_current 0)|done]|].
    cbn beta. intros _ k [Hk%shows_wf Hz]. by split. }
  cbn beta. intros [] s' [? ?]. apply HQ. by split.
Qed.

(** The page allocator of a machine with 64 MiB. *)
Definition pages_of (v : phys_vars) (m : mem) : phys := Phys m (pv_bitmap v) (pv_total v) (pv_free v) (pv_reserved v).
Definition all_free (v : phys_vars) : Prop :=
  (∀ m, mem_wf m → pmm_wf (pages_of v m)) ∧ pv_total v = 16384 ∧ ∀ m p, p ∈ free_set (pages_of v m) ↔ 1024 ≤ p < 16384.
Lemma pmm_wf_mem v m m' : pmm_wf (pages_of v m) → mem_wf m' → pmm_wf (pages_of v m').
Proof. intros [] Hm. by split. Qed.
Lemma wp_pmm_like (P : mem → Prop) σ s (Q : unit → kernel → Prop) :
  (∀ m, P m → mem_wf m) → like P σ s → Z.of_nat (length (pv_bitmap (k_phys σ))) = BITMAP_WORDS →
  (∀ v s', all_free v → like P (set_k_phys v σ) s' → Q () s') → wp (at_phys (pmm_init (64 * 1024 * 1024))) s Q.
Proof.
  intros HP [Ht [? Hm ? Ep ? ? ? ? ? ? ?]] Hl HQ. eapply wp_mono.
  { eapply (wp_typed _ _ s (λ _ s', ∃ v, all_free v ∧ same P (set_k_phys v σ) s')); [|apply (yields_at_phys_any [])|exact Ht].
    apply wp_zoom. eapply wp_mono; [apply pmm_init_ok; cbn; [by rewrite Ep|by apply HP|lia]|]. cbn beta. intros _ ph (Hw & Em & Et & Hf).
    exists (PhysVars (pmm_bitmap ph) (pmm_total_pages ph) (pmm_free_count ph) (pmm_reserved_pages ph)). split.
    - split; [|split; [exact Et|exact (λ _, Hf)]]. intros m. apply (pmm_wf_mem _ (ph_mem ph)). by destruct ph.
    - split; try done. cbn. by rewrite Em. }
  cbn beta. intros [] s' [(v & Hv & Hs) Ht']. apply (HQ v); [done|]. by split.
Qed.

Lemma yields_init_keyboard D : keeps (with_pipes D) init_keyboard.
Proof.
  assert (H : ∀ f, (∀ k, kbd_typed k → kbd_typed (f k)) → keeps (with_pipes D) (at_kbd (modify f))) by (intros; by apply yields_at_kbd, yields_modify).
  unfold init_keyboard. yields_go; apply H; intros k [[] ?]; by split; [split|].
Qed.

Lemma yields_init_syscalls D : keeps (with_pipes D) init_syscalls.
Proof.
  assert (H : ∀ n f, keeps (with_pipes D) (set_syscall n f)).
  { intros n f. unfold set_syscall. yields_go. apply yields_modify. intros s Hs. by eapply with_pipes_frame. }
  unfold init_syscalls. yields_go.
Qed.

(** Registering a handler, and the components after the idle process. *)
Section last.
Context (P : mem → Prop).
Lemma wp_keyboard_like σ s (Q : unit → kernel → Prop) :
  like P σ s → kb (k_in σ) = bss_kbd →
  (∀ s', like P (set_k_board (set_handlers (<[33%nat := Some keyboard_callback_h]> (interrupt_handlers (k_board σ))) (k_board σ)) σ) s' → Q () s') →
  wp init_keyboard s Q.
Proof.
  intros [Ht [? ? ? ? Ek ? ? ? ? ? Hb]] E HQ. rewrite E in Ek. eapply wp_mono.
  { eapply (wp_typed _ _ s (λ _ s', same P (set_k_board (set_handlers (<[33%nat := Some keyboard_callback_h]> (interrupt_handlers (k_board σ))) (k_board σ)) σ) s'));
      [|apply (yields_init_keyboard [])|exact Ht].
    unfold init_keyboard. apply wp_bind, wp_zoom, wp_zoom, wp_modify, wp_bind, wp_zoom, wp_zoom, wp_modify, wp_zoom. cbn beta.
    destruct Hb as [? ? Hl Hh ?]. unfold register_interrupt_handler. apply wp_bind, wp_gets, wp_bind.
    eapply wp_lift_opt; [apply arr_set_in; cbn; rewrite Hl; done|]. apply wp_modify. split; try done.
    - cbn. by rewrite Ek, E.
    - split; cbn; try done; [by rewrite length_insert|by f_equal]. }
  cbn beta. intros [] s' [Hs Ht']. apply HQ. by split.
Qed.
Lemma wp_syscalls_like σ s (Q : unit → kernel → Prop) :
  like P σ s → length (syscall_table σ) = 64%nat →
  (∀ s', like P (set_k_board (set_handlers (<[128%nat := Some syscall_handler_h]> (interrupt_handlers (k_board σ))) (k_board σ))
    (set_syscall_table installed σ)) s' → Q () s') →
  wp init_syscalls s Q.
Proof.
  intros [Ht [? ? ? ? ? Es ? ? ? Et [? ? Hl Hh ?]]] Hl0 HQ. eapply wp_mono.
  { eapply (wp_typed _ _ s (λ _ s', ∃ con', first_plain con' ∧ s' = installed_in con' s)); [|apply (yields_init_syscalls [])|exact Ht].
    apply (wp_init_syscalls (T := λ _ : unit, first_plain) (ok := λ _, True) ()); [by rewrite Et|done|done|by apply Forall_true|]. intros con' _ Hc. by exists con'. }
  cbn beta. intros [] s' [(con' & Hc & ->) Ht']. apply HQ. split; [done|]. split; try done.
  split; cbn; try done; [by rewrite length_insert|by f_equal].
Qed.
Lemma wp_fs_like σ s (Q : unit → kernel → Prop) :
  like P σ s → k_fs σ = bss_ramfs → (∀ s', like P (set_k_fs booted σ) s' → Q () s') → wp (at_fs fs_init) s Q.
Proof.
  intros [[] []] E HQ. apply wp_zoom. unfold wp. replace (k_fs s) with bss_ramfs by congruence. rewrite fs_init_run. cbv iota beta.
  pose proof (fw_shape _ _ booted_wf) as Hb. revert Hb HQ. generalize booted. intros fs Hb HQ. apply HQ. by split; split.
Qed.
(** The terminals: every one is blank, the first is active. *)
Definition blank_terminals (c : console) : Prop :=
  terminals c = set_active 1 blank_vt :: replicate 3 blank_vt ∧ current_terminal c = 0 ∧ vga c = indicated 0 blank_buffer ∧ vt_enabled c = true.
Lemma wp_terminals σ s (Q : unit → kernel → Prop) :
  like P σ s →
  (∀ c s', like P σ s' → console_typed c → blank_terminals c → Q () (set_k_in (Input (kb (k_in s')) c (k_sched s')) s')) →
  wp (at_console vt_init;; at_console terminal_enable_vt) s Q.
Proof.
  intros Hs HQ. pose proof Hs as [[[_ [? Ht Hb Hcur] _] _ _ _] [[_ Hz] _ _ _ _ _ _ _ _ _ _]]. apply wp_bind, wp_zoom, wp_zoom.
  apply wp_vt_init; [done..|]. apply wp_zoom, wp_zoom, wp_modify. cbn beta.
  set (c := set_vt_enabled true _).
  assert (Hv : vga c = indicated 0 blank_buffer) by (change (vga c) with (indicated (current_terminal (con (k_in s))) blank_buffer); by rewrite Hz).
  apply (HQ c s Hs); [|by split_and!]. split; [|done| |done].
  - rewrite Hv. vm_compute. reflexivity.
  - intros i t [_ E]%arr_get_Some. change (terminals c) with (set_active 1 blank_vt :: replicate 3 blank_vt) in E.
    assert (H : buffer t = blank_buffer) by (destruct (Z.to_nat i) as [|[|[|[|]]]]; by simplify_eq/=). rewrite H. apply length_replicate.
Qed.
End last.

Section boot.
Context (gdt_addr idt_addr tss_addr kernel_stack : Z) (stub : Z → Z) (idle idle_stack idle_task : Z).
Context (trampoline t1 t2 t3 t4 fork_test init hello shell shell_v2 user_test : Z) (find : Z → sched → Z) (elf_addr msg_addr : Z).

(** The handlers in place when the core systems are initialised. *)
Definition boot_handlers : list (option handler) :=
  <[128%nat := Some syscall_handler_h]> (<[33%nat := Some keyboard_callback_h]> (<[32%nat := Some timer_callback_h]>
    (with_exceptions (replicate 256 None)))).
(** The state of every component; [fd] is the idle process's descriptor table,
    the one block of the heap, and [fs] the filesystem. *)
Record booted_kernel (fd : Z) (fs : ramfs_t) (s : kernel) : Prop := {
  bk_typed : kernel_typed s;
  bk_pages : pmm_wf (get_phys s) ∧ pv_total (k_phys s) = 16384;
  bk_free p : p ∈ free_set (get_phys s) ↔ 1024 ≤ p < 16384;
  bk_heap : one_block fd (k_mem s) (k_heap s);
  bk_sched : set_terminal [] (k_sched s) = boot_sched idle (idle_pcb idle_stack idle_task fd) (idle :: replicate 63 0);
  bk_fds : k_fds s = {[ fd := replicate 16 fd_clear ]};
  bk_pipes : k_pipes s = ∅;
  bk_kbd : kb (k_in s) = bss_kbd;
  bk_fs : k_fs s = fs;
  bk_handlers : interrupt_handlers (k_board s) = boot_handlers;
  bk_timer : timer_frequency (k_board s) = 100;
  bk_table : syscall_table s = installed;
  bk_terminals : blank_terminals (con (k_in s));
}.
Abbreviation tables_of := (init_tables gdt_addr idt_addr tss_addr kernel_stack stub).
Abbreviation systems := (init_systems idle idle_stack idle_task).

Lemma yields_scheduler_init D : keeps (with_pipes D) (at_sched scheduler_init).
Proof. apply yields_at_sched. unfold scheduler_init. yields_go. Qed.
Lemma booted_like v fd h fs c s :
  all_free v → console_typed c → blank_terminals c →
  like (λ m, one_block fd m h) (set_k_fs fs (set_k_board (set_paging pml4 true (set_frequency 100 (set_handlers boot_handlers bss_board)))
    (set_syscall_table installed (with_idle idle idle_stack idle_task fd h (set_k_phys v (bss_kernel idle)))))) s →
  booted_kernel fd fs (set_k_in (Input (kb (k_in s)) c (k_sched s)) s).
Proof.
  intros (Hv & Hvt & Hvf) Hc Hb [[[] ? ? ?] [? Hm Eh Ep ? ? Ef ? ? ? []]]. assert (Hm' : mem_wf (k_mem s)) by (destruct Hm as (bs & n & Hi & _); apply Hi).
  split; try done.
  - unfold get_phys. cbn [k_mem k_phys set_k_in]. rewrite Ep. split; [by apply Hv|done].
  - intros p. unfold get_phys. cbn [k_mem k_phys set_k_in]. rewrite Ep. apply Hvf.
  - cbn. by rewrite Eh.
Qed.
(** The state after the tables. *)
Definition with_tables (v : phys_vars) : kernel :=
  set_k_board (set_paging pml4 true (set_frequency 100 (set_handlers (<[32%nat := Some timer_callback_h]> (with_exceptions (replicate 256 None))) bss_board)))
    (set_k_phys v (bss_kernel idle)).
Lemma wp_init_tables : wp tables_of (bss_kernel idle) (λ _ s, ∃ v, all_free v ∧ like paged (with_tables v) s).
Proof.
  unfold init_tables. apply wp_bind, wp_bss_vga. intros s Hs.
  do 2 (apply wp_bind; eapply wp_tell; [exact Hs|]; clear s Hs; intros s Hs). apply wp_bind.
  eapply (wp_pmm_like (λ m, m = ∅)); [intros m ->; apply mem_wf_empty|exact Hs|cbn; rewrite length_replicate; apply bitmap_nat|]. clear s Hs. intros v s Hv Hs.
  do 3 (apply wp_bind; eapply wp_tell; [exact Hs|]; clear s Hs; intros s Hs).
  apply wp_bind. eapply wp_on_board; [exact Hs|apply tables_init_gdt|]. clear s Hs. intros s Hs.
  apply wp_bind. eapply wp_on_board; [exact Hs|apply tables_tss_init|]. clear s Hs. intros s Hs.
  apply wp_bind. eapply wp_on_board; [exact Hs|apply tables_init_pic|]. clear s Hs. intros s Hs.
  apply wp_bind. eapply wp_on_board; [exact Hs|apply tables_init_idt|]. clear s Hs. intros s Hs.
  apply wp_bind. eapply wp_on_board; [exact Hs|intros b; apply wp_init_exceptions|]. clear s Hs. intros s Hs.
  apply wp_bind. eapply wp_on_board; [exact Hs|intros b; apply wp_init_paging_tables|]. clear s Hs. intros s Hs.
  eapply wp_on_board; [exact Hs|intros b; apply wp_init_timer|]. clear s Hs. intros s Hs. by exists v.
Qed.
Lemma wp_init_systems v s :
  idle ≠ 0 → all_free v → like mem_wf (with_tables v) s → wp systems s (λ _ s', ∃ fd, HEAP_START < fd ∧ booted_kernel fd booted s').
Proof.
  intros Hi Hv Hs. unfold init_systems.
  apply wp_bind. apply (wp_process_init _ _ _ (with_tables v)); [exact Hs|done|reflexivity|]. clear s Hs. intros fd h s Hfd Hs.
  apply wp_bind. eapply wp_sched_like; [exact Hs|apply yields_scheduler_init|].
  apply wp_bind, wp_modify, wp_bind, wp_modify, wp_modify. clear s Hs. intros s Hs.
  apply wp_bind. eapply wp_keyboard_like; [exact Hs|reflexivity|]. clear s Hs. intros s Hs.
  apply wp_bind. eapply wp_syscalls_like; [exact Hs|reflexivity|]. clear s Hs. intros s Hs.
  apply wp_bind. eapply wp_fs_like; [exact Hs|reflexivity|]. clear s Hs. intros s Hs.
  apply wp_bind. eapply wp_tell; [exact Hs|]. clear s Hs. intros s Hs.
  eapply wp_terminals; [exact Hs|]. intros c s' Hs' Hc Hb. exists fd. split; [done|]. apply (booted_like v fd h booted); [done..|].
  destruct Hs' as [Ht Hm]. split; [exact Ht|]. clear -Hm. revert Hm. generalize booted. intros fs [? ? ? ? ? ? ? ? ? ? []].
  split; [done..|]. by split.
Qed.

(** The state the initialisation is meant to reach: it does if the heap is
    mapped. *)
Lemma wp_mapped_core :
  idle ≠ 0 → wp (tables_of;; systems) (bss_kernel idle) (λ _ s, ∃ fd, HEAP_START < fd ∧ booted_kernel fd booted s).
Proof.
  intros Hi. apply wp_bind. eapply wp_mono; [apply wp_init_tables|]. cbn beta. intros _ s (v & Hv & [Ht Hs]).
  apply (wp_init_systems v); [done..|]. split; [exact Ht|]. destruct Hs as [? [? _] ? ? ? ? ? ? ? ? ?]. by split.
Qed.

(** C11 (error): the kernel does not boot.  From cleared memory [kernel_main]
    initialises the screen, the page allocator, the descriptor tables, the
    interrupts, the page tables and the timer; the page tables in force then map
    the first 2 MiB to themselves and nothing else of the user half, so the first
    access to the kernel heap, at 32 MiB, is a page fault, and the machine stops
    with that report. *)
Theorem kernel_main_faults regs :
  (∃ s, tables_of (bss_kernel idle) = Ret ((), s) ∧ b_paging (k_board s) = true ∧
    ∀ x, 0 ≤ x < 2 ^ 47 →
      leaf (k_mem s) (b_cr3 (k_board s)) x = (if x <? 2 ^ 21 then Some (Z.lor (PAGE_SIZE * (x / PAGE_SIZE)) 3) else None)) ∧
  kernel_main gdt_addr idt_addr tss_addr kernel_stack stub idle idle_stack idle_task trampoline t1 t2 t3 t4 regs (bss_kernel idle)
    = Panic "Page Fault".
Proof.
  destruct (wp_run _ _ _ wp_init_tables) as ([] & s & Hrun & v & _ & [_ Hs]).
  destruct Hs as [_ [_ Hl] _ _ _ _ _ _ _ _ [_ _ _ _ _ Hcr Hpg]]. change (b_cr3 (k_board s) = pml4) in Hcr. split.
  - exists s. split; [exact Hrun|]. split; [exact Hpg|]. intros x Hx. rewrite Hcr. by apply Hl.
  - unfold kernel_main, init_core. apply run_bind_panic. erewrite run_bind by exact Hrun. apply run_bind_panic.
    unfold touch. erewrite run_bind by reflexivity. unfold id. by rewrite Hcr, Hl by (unfold HEAP_START; lia).
Qed.
End boot.
Lemma kernel_main_faults_witness :
  kernel_main 0x5000 0x6000 0x7000 0x90000 (λ v, 0x100000 + 16 * Z.land v 255) 0x100 0x80000 0x101000 0x101000 0x102000 0x103000 0x104000 0x105000
    zero_registers (bss_kernel 0x100) = Panic "Page Fault".
Proof. apply kernel_main_faults. Defined.

(** ** What the keyboard can say *)
Section keyboard.
Context (find : Z → sched → Z) (idle : Z).

(** A key pressed or released, and a character taken from the ring; the ring
    belongs to the driver. *)
Inductive key_step : input → input → Prop :=
  | key_event scancode i i' : keyboard_callback find idle scancode i = Ret ((), i') → key_step i i'
  | key_read c i i' : on_kbd keyboard_getchar i = Ret (c, i') → key_step i i'.

Definition ring_typed (i : input) : Prop := kbd_typed (kb i).
Lemma ring_on_kbd {A} (R : A → Prop) c : yields kbd_typed R c → yields ring_typed R (on_kbd c).
Proof. intros Hc. by eapply yields_zoom. Qed.
Lemma ring_on_console {A} (c : M console A) : keeps ring_typed (on_console c).
Proof. eapply (yields_zoom _ (λ _, True)); [apply yields_any|done..]. Qed.
Lemma ring_on_sched {A} (c : M sched A) : keeps ring_typed (on_sched c).
Proof.
  pose proof (@ring_on_console unit). unfold on_sched. yields_go; [|by apply yields_modify].
  eapply (yields_zoom _ (λ _, True)); [apply yields_any|done..].
Qed.
#[local] Hint Resolve ring_on_kbd ring_on_console ring_on_sched : typed.
Lemma ring_callback scancode : keeps ring_typed (keyboard_callback find idle scancode).
Proof. unfold keyboard_callback. yields_go. Qed.

Lemma ring_steps i i' : rtc key_step i i' → ring_typed i → ring_typed i'.
Proof.
  induction 1 as [|i1 i2 i3 [scancode j j' Hj|c j j' Hj] _ IH]; [done|..]; intros H; apply IH.
  - by apply (ring_callback scancode j () j').
  - by apply (ring_on_kbd _ _ yields_getchar j c j').
Qed.

(** C21 (safety): whatever keys are pressed and whenever characters are taken from
    the keyboard's ring, none of them is [F] or [S], the commands of the idle
    loop that start the fork test and the shell: the driver has no shifted
    characters.  Only the driver writes to the ring here; a store of a program
    to the ring's address is not a key. *)
Theorem shell_command_unreachable i i' i'' c :
  kb i = bss_kbd → rtc key_step i i' → on_kbd keyboard_getchar i' = Ret (c, i'') → c ≠ 70 ∧ c ≠ 83.
Proof.
  intros E Hs Hc. assert (H : ring_typed i') by (eapply ring_steps; [exact Hs|]; unfold ring_typed; rewrite E; apply bss_kbd_typed).
  destruct (ring_on_kbd _ _ yields_getchar i' c i'' H Hc) as [_ [->|Hk]]; [lia|by apply no_capital].
Qed.
End keyboard.
(** The key [f] with the shift key held down (scancodes 0x2A and 0x21). *)
Definition quiet_input : input := Input bss_kbd bss_console demo_sched.
Lemma shell_command_unreachable_witness :
  ∃ i' i'', rtc (key_step (λ _ _, 0) 0x100) quiet_input i' ∧ on_kbd keyboard_getchar i' = Ret (102, i'') ∧ 102 ≠ 70 ∧ 102 ≠ 83.
Proof.
  assert (E : ∃ i1 i2 i3, keyboard_callback (λ _ _, 0) 0x100 0x2A quiet_input = Ret ((), i1) ∧
    keyboard_callback (λ _ _, 0) 0x100 0x21 i1 = Ret ((), i2) ∧ on_kbd keyboard_getchar i2 = Ret (102, i3))
    by (do 3 eexists; split; [vm_compute; reflexivity|split; vm_compute; reflexivity]).
  destruct E as (i1 & i2 & i3 & E1 & E2 & E3). exists i2, i3.
  assert (Hs : rtc (key_step (λ _ _, 0) 0x100) quiet_input i2)
    by (eapply rtc_l; [exact (key_event _ _ _ _ _ E1)|]; eapply rtc_once; exact (key_event _ _ _ _ _ E2)).
  split; [exact Hs|]. split; [exact E3|]. exact (shell_command_unreachable (λ _ _, 0) 0x100 quiet_input i2 i3 102 eq_refl Hs E3).
Defined.
