(* ===== verification/User.v ===== *)
(** * User programs as interaction trees

    A program is a tree of the system calls it makes: [itree sysE A], with the
    registers and buffers a call returns as its answer.  What is undefined in C
    is an event without an answer.

    [runs Q X t w] is total correctness against an environment: whatever the
    environment answers, [t] ends, in a return with [Q] or in [sys_exit] with
    [X], and never does anything undefined.  [stream] is an environment with an
    input and two outputs, in which a read may return any part of what was
    asked for. *)
From S2P Require Import Prelude Strings.
From ITree Require Import Core.ITreeDefinition Eq.Shallow.

(** ** System calls

    The wrappers around [int 0x80] that each program defines for itself.  A
    read is answered with [rax] and the contents of the buffer after the call,
    [sys_wait] with [rax] and the status if one was stored.  [Terminal] is a
    call of [terminal_writestring] by the programs that are linked into the
    kernel, [TerminalAt] the same for a string in memory; they may also call
    [sleep_ms].  [Store] is an assignment through a pointer. *)
Inductive sysE : Type → Type :=
| SysExit (code : Z) : sysE Empty_set
| SysWrite (fd : Z) (buf : list Z) : sysE Z
| SysRead (fd len : Z) : sysE (Z * list Z)
| SysGetpid : sysE Z
| SysSleep (ms : Z) : sysE unit
| SysFork : sysE Z
| SysWait : sysE (Z * option Z)
| SysExecve (path : list Z) (argv : list (list Z)) : sysE Z
| SysPs : sysE unit
| SysOpen (path : list Z) (flags mode : Z) : sysE Z
| SysClose (fd : Z) : sysE unit
| SysReaddir (fd : Z) : sysE (Z * list Z)
| SysKill (pid sig : Z) : sysE unit
| SysPipe : sysE (Z * (Z * Z))
| SysDup2 (oldfd newfd : Z) : sysE Z
| SysSbrk (increment : Z) : sysE Z
| Terminal (s : list Z) : sysE unit
| TerminalAt (p : Z) : sysE unit
| SleepMs (ms : Z) : sysE unit
| Store (p v : Z) : sysE unit
| Undefined : sysE Empty_set.

Notation prog := (itree sysE).

#[export] Instance prog_ret : MRet prog := λ A a, Ret a.
#[export] Instance prog_bind : MBind prog := λ A B k t, ITree.bind t k.

Definition sys_exit {A} (code : Z) : prog A := v ← ITree.trigger (SysExit code); match v : Empty_set with end.
Definition ub {A} : prog A := v ← ITree.trigger Undefined; match v : Empty_set with end.
Definition of_opt {A} (o : option A) : prog A := match o with Some a => mret a | None => ub end.
(** [sys_write(fd, buf, len)] with [buf] an array: bytes outside it are not
    read. *)
Definition sys_write (fd : Z) (buf : list Z) (len : Z) : prog Z :=
  if len <=? Z.of_nat (length buf) then ITree.trigger (SysWrite fd (take (Z.to_nat len) buf)) else ub.
(** The same for a string constant, an array that ends with a zero byte. *)
Definition write_lit (fd : Z) (s : string) (len : Z) : prog Z := sys_write fd (bytes_of s ++ [0]) len.
(** [sys_write(fd, s, str_len(s))]. *)
Definition write_str (fd : Z) (s : list Z) : prog Z := sys_write fd s (str_len s).
Definition sys_read (fd len : Z) : prog (Z * list Z) := ITree.trigger (SysRead fd len).

(** [for (i = i0; i < i0 + n; i++)] over local variables [x]. *)
Fixpoint for_vars {V} (n : nat) (i : Z) (x : V) (body : Z → V → prog V) : prog V :=
  match n with
  | O => mret x
  | S n' => x' ← body i x; for_vars n' (i + 1) x' body
  end.

(** Arithmetic on [int]: an overflow is undefined. *)
Definition int_of (z : Z) : prog Z := if (- 2 ^ 31 <=? z) && (z <? 2 ^ 31) then mret z else ub.

(** ** Environments *)

Class Env (W : Type) : Type := env : ∀ A, sysE A → W → A → W → Prop.
Arguments env {W _ A}.

Inductive runs {W} `{Env W} {R} (Q : R → W → Prop) (X : Z → W → Prop) : prog R → W → Prop :=
| runs_ret t w r : observe t = RetF r → Q r w → runs Q X t w
| runs_tau t w t' : observe t = TauF t' → runs Q X t' w → runs Q X t w
| runs_exit t w c k : observe t = VisF (SysExit c) k → X c w → runs Q X t w
| runs_call t w A (e : sysE A) k :
    observe t = VisF e k → (∃ a w', env e w a w') → (∀ a w', env e w a w' → runs Q X (k a) w') → runs Q X t w.

Section runs_rules.
Context {W : Type} `{Env W}.
Implicit Types w : W.

Lemma runs_mret {R} (Q : R → W → Prop) X r w : Q r w → runs Q X (mret r) w.
Proof. by eapply runs_ret. Qed.

(** [runs] depends on what is observed of the tree. *)
Lemma runs_observe {R} (Q : R → W → Prop) X t t' w : observe t' = observe t → runs Q X t w → runs Q X t' w.
Proof.
  intros E Hr. destruct Hr as [t w r E'|t w u E'|t w c k E'|t w A e k E'].
  all: rewrite <- E in E'.
  1: by eapply runs_ret.
  1: by eapply runs_tau.
  1: by eapply runs_exit.
  by eapply runs_call.
Qed.

Lemma runs_mono {R} (Q Q' : R → W → Prop) (X X' : Z → W → Prop) t w :
  runs Q X t w → (∀ r w', Q r w' → Q' r w') → (∀ c w', X c w' → X' c w') → runs Q' X' t w.
Proof.
  intros Hr HQ HX. induction Hr as [t w r E Hq|t w t' E _ IH|t w c k E Hx|t w A e k E Hen _ IH].
  - eapply runs_ret; [done|]. by apply HQ.
  - by eapply runs_tau.
  - eapply runs_exit; [done|]. by apply HX.
  - by eapply runs_call.
Qed.

Lemma observe_mbind {A R} (t : prog A) (k : A → prog R) :
  observe (t ≫= k) =
  match observe t with
  | RetF r => observe (k r)
  | TauF t' => TauF (t' ≫= k)
  | VisF e h => VisF e (λ x, h x ≫= k)
  end.
Proof. unfold mbind, prog_bind. rewrite observe_bind. by destruct (observe t). Qed.

(** Sequencing; the tree of a bind is that of its first part until it
    returns. *)
Lemma runs_bind {A R} (P : A → W → Prop) (Q : R → W → Prop) X (t : prog A) (k : A → prog R) w :
  runs P X t w → (∀ a w', P a w' → runs Q X (k a) w') → runs Q X (t ≫= k) w.
Proof.
  intros Hr Hk. induction Hr as [t w r E Hq|t w t' E _ IH|t w c k' E Hx|t w B e k' E Hen _ IH].
  - eapply runs_observe; [|by apply Hk]. by rewrite observe_mbind, E.
  - eapply runs_tau; [|exact IH]. by rewrite observe_mbind, E.
  - eapply runs_exit; [|exact Hx]. by rewrite observe_mbind, E.
  - eapply runs_call; [|exact Hen|exact IH]. by rewrite observe_mbind, E.
Qed.

(** The same as a weakest precondition. *)
Lemma runs_seq {A R} (Q : R → W → Prop) X (t : prog A) (k : A → prog R) w :
  runs (λ a w', runs Q X (k a) w') X t w → runs Q X (t ≫= k) w.
Proof. intros Ht. by eapply runs_bind. Qed.

Lemma runs_trigger {A} (Q : A → W → Prop) X (e : sysE A) w :
  (∃ a w', env e w a w') → (∀ a w', env e w a w' → Q a w') → runs Q X (ITree.trigger e) w.
Proof. intros He Hq. eapply runs_call; [done|done|]. intros a w' Ha. eapply runs_ret; [done|]. by apply Hq. Qed.
Lemma runs_sys_exit {R} (Q : R → W → Prop) (X : Z → W → Prop) c w : X c w → runs Q X (sys_exit c) w.
Proof. intros Hx. eapply runs_exit; [unfold sys_exit; rewrite observe_mbind; reflexivity|exact Hx]. Qed.
Lemma runs_of_opt {A} (Q : A → W → Prop) X o a w : o = Some a → Q a w → runs Q X (of_opt o) w.
Proof. intros ->. apply runs_mret. Qed.
Lemma runs_int_of (Q : Z → W → Prop) X z w : - 2 ^ 31 ≤ z < 2 ^ 31 → Q z w → runs Q X (int_of z) w.
Proof. intros Hz Hq. unfold int_of. case_if; [by apply runs_mret|lia]. Qed.

(** The rule of a loop whose every round lowers the measure [n]. *)
Lemma runs_iter {I R} (P : nat → I → W → Prop) (Q : R → W → Prop) X (body : I → prog (I + R)) n i w :
  P n i w →
  (∀ n i w, P n i w →
     runs (λ r w', match r with inl i' => ∃ m, (m < n)%nat ∧ P m i' w' | inr r => Q r w' end) X (body i) w) →
  runs Q X (ITree.iter body i) w.
Proof.
  revert i w. induction (lt_wf n) as [n _ IH]. intros i w Hp Hbody.
  apply (runs_observe _ _ (body i ≫= λ lr, match lr with inl l => Tau (ITree.iter body l) | inr r => Ret r end)); [done|].
  eapply runs_bind; [by apply (Hbody n)|]. intros [i'|r] w'; [|by eapply runs_ret].
  intros (m & Hm & Hp'). eapply runs_tau; [done|]. by apply (IH m).
Qed.

(** The invariant rule of the counting loop. *)
Lemma runs_for {V} (P : Z → V → W → Prop) (Q : V → W → Prop) X n i x body w :
  P i x w →
  (∀ j x w, i ≤ j < i + Z.of_nat n → P j x w → runs (P (j + 1)) X (body j x) w) →
  (∀ x w, P (i + Z.of_nat n) x w → Q x w) →
  runs Q X (for_vars n i x body) w.
Proof.
  revert i x w. induction n as [|n IH]; intros i x w Hi Hstep Hend; cbn [for_vars].
  - apply runs_mret, Hend. by rewrite Z.add_0_r.
  - eapply runs_bind; [apply Hstep; [lia|done]|]. intros x' w' Hx. apply IH; [done| |].
    + intros j y v Hj. apply Hstep. lia.
    + intros y v. replace (i + 1 + Z.of_nat n) with (i + Z.of_nat (S n)) by lia. apply Hend.
Qed.
End runs_rules.

(** Drive a goal through the straight-line part of a program. *)
Ltac runs_step :=
  match goal with
  | |- runs _ _ (_ ≫= _) _ => apply runs_seq
  | |- runs _ _ (mret _) _ => apply runs_mret
  | |- runs _ _ (of_opt (Some _)) _ => eapply runs_of_opt; [reflexivity|]
  end.
Ltac runs_go := repeat (runs_step; cbn beta).

(** ** An environment with an input and two outputs *)

Record stream : Type := Stream { st_in : list Z; st_out : list Z; st_err : list Z }.
Definition emit (fd : Z) (b : list Z) (w : stream) : stream :=
  if fd =? 1 then Stream (st_in w) (st_out w ++ b) (st_err w) else Stream (st_in w) (st_out w) (st_err w ++ b).

(** A read returns at least one byte when there is input left, at most what was
    asked for, and 0 at the end. *)
Definition stream_env A (e : sysE A) (w : stream) : A → stream → Prop :=
  match e with
  | SysWrite fd b => λ r w', (fd = 1 ∨ fd = 2) ∧ r = Z.of_nat (length b) ∧ w' = emit fd b w
  | SysRead fd len => λ '(r, buf) w', fd = 0 ∧ Z.of_nat (length buf) = len ∧
      ∃ p, r = Z.of_nat (length p) ∧ p `prefix_of` buf ∧ st_in w = p ++ st_in w' ∧ (p = [] → st_in w = []) ∧
           st_out w' = st_out w ∧ st_err w' = st_err w
  | _ => λ _ _, False
  end.
#[export] Instance stream_Env : Env stream := stream_env.

Lemma runs_write (Q : Z → stream → Prop) X fd s len w :
  fd = 1 ∨ fd = 2 → 0 ≤ len ≤ Z.of_nat (length s) → Q len (emit fd (take (Z.to_nat len) s) w) →
  runs Q X (sys_write fd s len) w.
Proof.
  intros Hfd Hl Hq. unfold sys_write. case_if; [|lia]. apply runs_trigger.
  { by eexists _, _. }
  intros a w' (_ & -> & ->).
  replace (Z.of_nat (length (take (Z.to_nat len) s))) with len by (rewrite length_take; lia). done.
Qed.
