(* ===== verification/Programs.v ===== *)
(** * The programs wc and grep (src/programs/wc.c, src/programs/grep.c)

    Each program is a tree of system calls over its local variables, run in an
    environment that delivers the input in parts of any size.  What they print
    is compared with definitions on the whole input: [words_of], [fields] and
    [contains] of Strings.v. *)
From S2P Require Import Prelude Strings User.
From ITree Require Import Core.ITreeDefinition.

(** ** wc *)

(** The local variables of [wc_main]. *)
Record wc_vars : Type := WcVars { lines : Z; words : Z; chars : Z; in_word : bool }.

Definition is_blank (c : Z) : bool := (c =? 32) || (c =? 9) || (c =? 10).

(** The body of the loop over the buffer. *)
Definition wc_char (c : Z) (v : wc_vars) : prog wc_vars :=
  chars ← int_of (chars v + 1);
  lines ← (if c =? 10 then int_of (lines v + 1) else mret (lines v));
  if is_blank c then
    if in_word v then words ← int_of (words v + 1); mret (WcVars lines words chars false)
    else mret (WcVars lines (words v) chars (in_word v))
  else mret (WcVars lines (words v) chars true).

(** [while (1)]: one read and the loop over what it returned. *)
Definition wc_read (v : wc_vars) : prog (wc_vars + wc_vars) :=
  r ← sys_read 0 256;
  let '(bytes, buffer) := r in
  if bytes <=? 0 then mret (inr v) else
  v' ← for_vars (Z.to_nat bytes) 0 v (λ i v, c ← of_opt (arr_get buffer i); wc_char c v);
  mret (inl v').

(** [int_to_str(n, num_buf)] and the two writes after it. *)
Definition wc_number (n : Z) (num_buf : list Z) : prog (list Z) :=
  num_buf ← of_opt (int_to_str n num_buf);
  write_lit 1 "  " 2;;
  write_str 1 num_buf;;
  mret num_buf.

(** [num_buf] is what the array holds before it is first written. *)
Definition wc_main (num_buf : list Z) : prog unit :=
  v ← ITree.iter wc_read (WcVars 0 0 0 false);
  words ← (if in_word v then int_of (words v + 1) else mret (words v));
  num_buf ← wc_number (lines v) num_buf;
  num_buf ← wc_number words num_buf;
  num_buf ← wc_number (chars v) num_buf;
  sys_write 1 [10] 1;;
  sys_exit 0.

(** ** grep *)

(** The test and the output for a line, [line_pos] being its length. *)
Definition grep_line (pattern line : list Z) (line_pos : Z) : prog (list Z) :=
  line ← of_opt (arr_set line line_pos 0);
  (if str_str (c_string line) pattern then
     write_str 1 line;;
     sys_write 1 [10] 1;;
     mret ()
   else mret ());;
  mret line.

(** One round of the loop over the variables [line] and [line_pos]. *)
Definition grep_read (pattern : list Z) (v : list Z * Z) : prog ((list Z * Z) + unit) :=
  let '(line, line_pos) := v in
  r ← sys_read 0 1;
  let '(bytes, buf) := r in
  if bytes <=? 0 then
    (if 0 <? line_pos then grep_line pattern line line_pos;; mret () else mret ());;
    mret (inr ())
  else
  c ← of_opt (arr_get buf 0);
  if c =? 10 then
    line ← grep_line pattern line line_pos;
    mret (inl (line, 0))
  else if line_pos <? 255 then
    line ← of_opt (arr_set line line_pos c);
    mret (inl (line, line_pos + 1))
  else mret (inl (line, line_pos)).

Definition grep_main (line : list Z) (argc : Z) (argv : list (list Z)) : prog unit :=
  (if argc <? 2 then
     write_lit 2 "Usage: grep <pattern>
" 22;;
     sys_exit 1
   else mret ());;
  pattern ← of_opt (arr_get argv 1);
  ITree.iter (grep_read pattern) (line, 0);;
  sys_exit 0.

(** ** Lemmas *)

Lemma stream_readable w len : 0 < len → ∃ a w', env (SysRead 0 len) w a w'.
Proof.
  intros Hl. destruct w as [[|c l] o e].
  - exists (0, replicate (Z.to_nat len) 0), (Stream [] o e). cbn. rewrite length_replicate. split_and!; [done|lia|].
    exists []. split_and!; try done. apply prefix_nil.
  - exists (1, c :: replicate (Z.to_nat len - 1) 0), (Stream l o e). cbn. rewrite length_replicate. split_and!; [done|lia|].
    exists [c]. split_and!; try done. by eexists.
Qed.
(** A read of the stream: some first part [p] of the input. *)
Lemma runs_read (Q : Z * list Z → stream → Prop) X len w :
  0 < len →
  (∀ p q buf, st_in w = p ++ q → (p = [] → q = []) → Z.of_nat (length (p ++ buf)) = len →
     Q (Z.of_nat (length p), p ++ buf) (Stream q (st_out w) (st_err w))) →
  runs Q X (sys_read 0 len) w.
Proof.
  intros Hl Hq. apply runs_trigger; [by apply stream_readable|].
  intros [r b] [i' o' e']. cbn. intros (_ & Hlen & p & -> & [buf ->] & Ei & Hp & -> & ->).
  apply Hq; [done| |done]. intros ->. cbn in Ei. rewrite <- Ei. by apply Hp.
Qed.

Lemma runs_write_str (Q : Z → stream → Prop) X fd s w :
  fd = 1 ∨ fd = 2 → (∀ n, Q n (emit fd (c_string s) w)) → runs Q X (write_str fd s) w.
Proof.
  intros Hfd Hq. unfold write_str, str_len. apply runs_write; [done| |].
  - pose proof (prefix_length _ _ (c_string_prefix s)). lia.
  - rewrite Nat2Z.id, take_c_string. apply Hq.
Qed.
Lemma emit_out b w : emit 1 b w = Stream (st_in w) (st_out w ++ b) (st_err w).
Proof. done. Qed.

(** ** What wc counts *)

(** The words of a text that starts inside a word or not. *)
Definition open_word (b : bool) (l : list Z) : Z :=
  if b && match l with [] => true | c :: _ => is_blank c end then 1 else 0.
(** The three numbers that the variables and the rest of the input lead to. *)
Definition pending (v : wc_vars) (l : list Z) : Z * Z * Z :=
  (lines v + Z.of_nat (length (filter (.= 10) l)),
   words v + open_word (in_word v) l + Z.of_nat (length (words_of is_blank l)),
   chars v + Z.of_nat (length l)).

Lemma words_of_cons c l :
  Z.of_nat (length (words_of is_blank (c :: l))) =
  Z.of_nat (length (words_of is_blank l)) + (if is_blank c then 0 else open_word true l).
Proof.
  unfold words_of, open_word. cbn [fields]. destruct (fields_cons is_blank l) as (f & fs & E & Hf). rewrite E.
  destruct (is_blank c); [rewrite (filter_cons_False _ []) by (intros H; by apply H); lia|]. rewrite (filter_cons_True _ (c :: f)) by done. cbn [andb length].
  destruct f as [|x f].
  - pose proof (proj1 Hf eq_refl) as Hl. rewrite filter_cons_False by (intros H; by apply H).
    destruct l as [|d l]; [cbn; lia|]. rewrite Hl. lia.
  - rewrite filter_cons_True by done. cbn [length]. destruct l as [|d l]; [by pose proof (proj2 Hf I)|].
    destruct (is_blank d); [by pose proof (proj2 Hf eq_refl)|lia].
Qed.

(** A character moves from the rest of the input to the variables. *)
Lemma runs_wc_char X c l v w a b n :
  pending v (c :: l) = (a, b, n) → 0 ≤ lines v → 0 ≤ words v → 0 ≤ chars v → n < 2 ^ 31 → a < 2 ^ 31 → b < 2 ^ 31 →
  runs (λ v' w', w' = w ∧ pending v' l = (a, b, n) ∧ 0 ≤ lines v' ∧ 0 ≤ words v' ∧ 0 ≤ chars v') X (wc_char c v) w.
Proof.
  unfold pending. rewrite words_of_cons. intros [= <- <- <-] Hl Hw Hc Hn Ha Hb. cbn [length] in *.
  assert (Hf : Z.of_nat (length (filter (.= 10) (c :: l))) = Z.of_nat (length (filter (.= 10) l)) + if c =? 10 then 1 else 0).
  { destruct (Z.eqb_spec c 10); [rewrite filter_cons_True by done; cbn; lia|rewrite filter_cons_False by done; lia]. }
  assert (Ho : 0 ≤ open_word true l ≤ 1) by (unfold open_word; destruct (true && _); lia).
  rewrite Hf in *. unfold wc_char. runs_go. apply runs_int_of; [lia|]. runs_go.
  apply runs_mono with (Q := λ x w', x = lines v + (if c =? 10 then 1 else 0) ∧ w' = w) (X := X); [|intros ? ? [-> ->]|done].
  { destruct (c =? 10); [apply runs_int_of; [lia|done]|apply runs_mret; split; [lia|done]]. }
  change (open_word (in_word v) (c :: l)) with (if in_word v && is_blank c then 1 else 0) in *.
  assert (H0 : open_word false l = 0) by done.
  destruct (is_blank c) eqn:Eb, (in_word v) eqn:Ei; cbn [andb] in *.
  1: runs_go; apply runs_int_of; [lia|].
  all: runs_go; cbn [lines words chars in_word andb]; destruct (c =? 10); split_and!; try done; try lia; repeat apply (f_equal2 pair); lia.
Qed.
Definition counting (T : Z * Z * Z) (v : wc_vars) (l : list Z) : Prop :=
  pending v l = T ∧ 0 ≤ lines v ∧ 0 ≤ words v ∧ 0 ≤ chars v.

(** Each read hands at least one character to the variables. *)
Lemma runs_wc_read X a b n o e v w :
  a < 2 ^ 31 → b < 2 ^ 31 → n < 2 ^ 31 →
  counting (a, b, n) v (st_in w) → st_out w = o → st_err w = e →
  runs (λ r w', match r with
    | inl v' => (length (st_in w') < length (st_in w))%nat ∧ counting (a, b, n) v' (st_in w') ∧ st_out w' = o ∧ st_err w' = e
    | inr v' => counting (a, b, n) v' [] ∧ st_in w' = [] ∧ st_out w' = o ∧ st_err w' = e
    end) X (wc_read v) w.
Proof.
  intros Ha Hb Hn Hc <- <-. unfold wc_read. apply runs_seq, runs_read; [lia|]. intros p q buf Ei Hp Hl.
  destruct (Z.leb_spec (Z.of_nat (length p)) 0) as [H0|H0].
  { destruct p as [|c p]; [|cbn in H0; lia]. rewrite Hp in * by done. rewrite Ei in Hc. by apply runs_mret. }
  apply runs_seq. rewrite Nat2Z.id.
  apply runs_for with (P := λ j v w', w' = Stream q (st_out w) (st_err w) ∧ counting (a, b, n) v (drop (Z.to_nat j) p ++ q)).
  - split; [done|]. by rewrite Ei in Hc.
  - intros j x w' Hj (-> & Hpd & H1 & H2 & H3). destruct (lookup_lt_is_Some_2 p (Z.to_nat j)) as [c Ec]; [lia|].
    apply runs_seq. eapply runs_of_opt.
    { unfold arr_get. rewrite (proj2 (Z.leb_le 0 j)) by lia. by apply lookup_app_l_Some. }
    rewrite (drop_S p c) in Hpd by done. eapply runs_mono; [by eapply (runs_wc_char X c)| |done].
    intros v' w' (-> & Hpd' & ? & ? & ?). split; [done|]. split; [|done]. rewrite <- Hpd'. repeat f_equal. lia.
  - intros v' w' [-> Hc']. apply runs_mret. cbn [st_in st_out st_err]. split; [rewrite Ei, length_app; lia|].
    rewrite drop_ge in Hc' by lia. done.
Qed.

Lemma runs_wc_number (Q : list Z → stream → Prop) X num buf w :
  0 ≤ num < 2 ^ 31 → (11 ≤ length buf)%nat →
  (∀ b ds, is_decimal ds num → (11 ≤ length b)%nat → Q b (emit 1 (32 :: 32 :: ds) w)) →
  runs Q X (wc_number num buf) w.
Proof.
  intros Hn Hb HQ. destruct (int_to_str_ok num buf) as (b & E & Hl & Hd); [done|done|].
  unfold wc_number. runs_go. eapply runs_of_opt; [exact E|]. runs_go. apply runs_write; [by left|cbn; lia|].
  runs_go. apply runs_write_str; [by left|]. intros m. runs_go. rewrite !emit_out. cbn [st_in st_out st_err].
  rewrite <- app_assoc. apply (HQ b (c_string b)); [done|lia].
Qed.

Lemma words_of_length l : Z.of_nat (length (words_of is_blank l)) ≤ Z.of_nat (length l).
Proof.
  induction l as [|c l IH]; [done|]. rewrite words_of_cons. cbn [length]. unfold open_word.
  destruct (is_blank c); [lia|]. case_match; lia.
Qed.
Lemma runs_wc_loop Q X input :
  Z.of_nat (length input) < 2 ^ 31 →
  let a := Z.of_nat (length (filter (.= 10) input)) in
  let b := Z.of_nat (length (words_of is_blank input)) in
  (∀ v, pending v [] = (a, b, Z.of_nat (length input)) → 0 ≤ words v → 0 ≤ a < 2 ^ 31 ∧ 0 ≤ b < 2 ^ 31 → Q v (Stream [] [] [])) →
  runs Q X (ITree.iter wc_read (WcVars 0 0 0 false)) (Stream input [] []).
Proof.
  intros Hlen a b HQ.
  assert (Ha : a ≤ Z.of_nat (length input)) by (apply inj_le, length_filter).
  assert (Hb : b ≤ Z.of_nat (length input)) by apply words_of_length.
  apply runs_iter with (n := length input) (P := λ k v w,
    k = length (st_in w) ∧ counting (a, b, Z.of_nat (length input)) v (st_in w) ∧ st_out w = [] ∧ st_err w = []).
  { by split_and!. }
  intros k v w (-> & Hc & Ho & He). eapply runs_mono; [apply (runs_wc_read X a b (Z.of_nat (length input)) [] []); first [lia|done]| |done].
  intros [v'|v'] [i o e]; cbn [st_in st_out st_err].
  - intros (Hlt & Hc' & -> & ->). eexists. by split_and!.
  - intros ((Hp & _ & Hw & _) & -> & -> & ->). apply HQ; [done|done|lia].
Qed.

(** C16 (equivalence): [wc] prints the number of lines, of words and of characters
    of its input, whatever parts the input arrives in: the loop that tracks
    whether it is inside a word counts the non-empty fields between blanks.  The
    program ends for every input of less than 2^31 characters.  The input comes
    from a descriptor whose [read] returns 0 at its end, as that of a file or a
    closed pipe does; the keyboard's has no end. *)
Theorem wc_counts input num_buf :
  Z.of_nat (length input) < 2 ^ 31 → (11 ≤ length num_buf)%nat →
  runs (λ _ _, False)
    (λ code w, code = 0 ∧ st_err w = [] ∧ ∃ dl dw dc,
       is_decimal dl (Z.of_nat (length (filter (.= 10) input))) ∧
       is_decimal dw (Z.of_nat (length (words_of is_blank input))) ∧
       is_decimal dc (Z.of_nat (length input)) ∧
       st_out w = bytes_of "  " ++ dl ++ bytes_of "  " ++ dw ++ bytes_of "  " ++ dc ++ [10])
    (wc_main num_buf) (Stream input [] []).
Proof.
  intros Hlen Hbuf. unfold wc_main. runs_go. apply runs_wc_loop; [done|].
  intros [l wd c iw] [= Hl Hw Hc] Hw0 [Ha Hb]. cbn [lines words chars in_word] in *.
  change (words_of is_blank []) with (@nil (list Z)) in Hw. cbn [length filter] in *.
  apply runs_seq. apply runs_mono with (Q := λ x w, x = Z.of_nat (length (words_of is_blank input)) ∧ w = Stream [] [] [])
    (X := λ _ _, False); [|intros ? ? [-> ->]|done].
  { destruct iw; cbn in Hw; [apply runs_int_of; [lia|split; [lia|done]]|apply runs_mret; split; [lia|done]]. }
  runs_go. apply runs_wc_number; [lia|done|]. intros b1 dl Hdl Hb1.
  runs_go. apply runs_wc_number; [lia|done|]. intros b2 dw Hdw Hb2.
  runs_go. apply runs_wc_number; [lia|done|]. intros b3 dc Hdc Hb3.
  runs_go. apply runs_write; [by left|cbn; lia|]. apply runs_sys_exit. rewrite !emit_out. split; [done|]. split; [done|].
  exists dl, dw, dc. split_and!; [by replace (Z.of_nat _) with l by lia|done|by replace (Z.of_nat _) with c by lia|].
  cbn [st_out st_in st_err]. rewrite <- !app_assoc. done.
Qed.
Lemma wc_counts_witness :
  runs (λ _ _, False)
    (λ code w, code = 0 ∧ st_err w = [] ∧ ∃ dl dw dc,
       is_decimal dl 2 ∧ is_decimal dw 3 ∧ is_decimal dc 15 ∧
       st_out w = bytes_of "  " ++ dl ++ bytes_of "  " ++ dw ++ bytes_of "  " ++ dc ++ [10])
    (wc_main (replicate 32 0)) (Stream (bytes_of "one  two
three
") [] []).
Proof. apply (wc_counts (bytes_of "one  two
three
") (replicate 32 0)); [done|cbn; lia]. Defined.

(** ** What grep prints *)

Definition is_newline (c : Z) : bool := c =? 10.
(** The lines of a text: what follows the last newline is a line if there is
    something. *)
Definition lines_of (l : list Z) : list (list Z) :=
  let fs := fields is_newline l in
  match last fs with Some [] => take (length fs - 1) fs | _ => fs end.
(** The part of a line that fits the buffer, up to a zero byte. *)
Definition kept (l : list Z) : list Z := c_string (take 255 l).
Definition matching (pattern text : list Z) : list (list Z) := filter (contains pattern) (kept <$> lines_of text).
Definition printed (ls : list (list Z)) : list Z := concat ((.++ [10]) <$> ls).

Definition no_newline (l : list Z) : Prop := Forall (λ c, is_newline c = false) l.

Lemma lines_of_sep a l : no_newline a → lines_of (a ++ 10 :: l) = a :: lines_of l.
Proof.
  intros Ha. unfold lines_of. rewrite fields_sep by done. destruct (fields_cons is_newline l) as (f & fs & E & _). rewrite E.
  rewrite last_cons_cons. destruct (last (f :: fs)) as [[|x y]|]; [|done..]. cbn [length]. by rewrite !Nat.sub_succ, !Nat.sub_0_r.
Qed.
Lemma lines_of_last a : no_newline a → lines_of a = match a with [] => [] | _ => [a] end.
Proof. intros Ha. unfold lines_of. rewrite fields_last by done. by destruct a. Qed.
Lemma matching_sep pattern a l :
  no_newline a → matching pattern (a ++ 10 :: l) = filter (contains pattern) [kept a] ++ matching pattern l.
Proof. intros Ha. unfold matching. rewrite lines_of_sep by done. cbn [fmap list_fmap]. by rewrite <- filter_app. Qed.

(** The buffer holds the start of the line read so far. *)
Definition buffered (line : list Z) (pos : Z) (acc : list Z) : Prop :=
  length line = 256%nat ∧ pos = Z.of_nat (length (take 255 acc)) ∧ take (Z.to_nat pos) line = take 255 acc.

Lemma runs_grep_line (Q : list Z → stream → Prop) X pattern line pos acc w :
  buffered line pos acc →
  (∀ l', length l' = 256%nat → Q l' (emit 1 (printed (filter (contains pattern) [kept acc])) w)) →
  runs Q X (grep_line pattern line pos) w.
Proof.
  intros (Hl & Hp & Ht) HQ. assert (Hp' : 0 ≤ pos < 256) by (rewrite Hp, length_take; lia).
  unfold grep_line. runs_go. eapply runs_of_opt; [apply arr_set_in; lia|].
  set (line' := <[Z.to_nat pos := 0]> line). assert (Hl' : length line' = 256%nat) by (unfold line'; by rewrite length_insert).
  assert (Ec : c_string line' = kept acc).
  { unfold line', kept. rewrite <- Ht, insert_take_drop by lia. apply c_string_cut. }
  rewrite Ec. runs_go. destruct (decide (contains pattern (kept acc))) as [Hc|Hc].
  - apply str_str_contains in Hc as [r Er]. rewrite Er. runs_go. apply runs_write_str; [by left|]. intros m. runs_go.
    apply runs_write; [by left|cbn; lia|]. runs_go. rewrite Ec, !emit_out. cbn [st_in st_out st_err].
    specialize (HQ line' Hl'). rewrite filter_cons_True, emit_out in HQ by (apply str_str_contains; by eexists).
    cbn in HQ. by rewrite <- app_assoc, app_nil_r in *.
  - destruct (str_str (kept acc) pattern) eqn:Er; [destruct Hc; apply str_str_contains; by eexists|].
    runs_go. specialize (HQ line' Hl'). rewrite filter_cons_False, emit_out in HQ by done. cbn in HQ.
    rewrite app_nil_r in HQ. by destruct w.
Qed.

Lemma buffered_nil line : length line = 256%nat → buffered line 0 [].
Proof. intros Hl. by split_and!. Qed.
(** A character goes into the buffer while there is room. *)
Lemma runs_grep_store X line pos acc c w :
  buffered line pos acc →
  runs (λ r w', w' = w ∧ ∃ l' p', r = inl (l', p') ∧ buffered l' p' (acc ++ [c])) X
    (if pos <? 255 then line ← of_opt (arr_set line pos c); mret (inl (line, pos + 1)) else mret (inl (line, pos)) : prog ((list Z * Z) + unit)) w.
Proof.
  intros (Hl & Hp & Ht). rewrite length_take in Hp. destruct (Z.ltb_spec pos 255) as [Hlt|Hge].
  - runs_go. eapply runs_of_opt; [apply arr_set_in; lia|]. runs_go. split; [done|]. eexists _, _. split; [done|].
    assert (Ha : pos = Z.of_nat (length acc)) by lia. rewrite (take_ge acc) in Ht by lia.
    unfold buffered. rewrite length_insert, (take_ge (acc ++ [c])) by (rewrite length_app; cbn; lia). split_and!; [done|rewrite length_app; cbn; lia|].
    replace (Z.to_nat (pos + 1)) with (S (Z.to_nat pos)) by lia.
    rewrite (take_S_r _ _ c) by (apply list_lookup_insert_eq; lia). by rewrite take_insert_ge, Ht by lia.
  - runs_go. split; [done|]. eexists _, _. split; [done|]. unfold buffered. rewrite take_app_le, length_take by lia. by split_and!; [|lia|].
Qed.

(** One round: the lines of [acc] and the input stay the same, or are
    printed. *)
Lemma runs_grep_read X pattern line pos acc w :
  buffered line pos acc → no_newline acc →
  runs (λ r w', match r with
    | inl (l', p') => (length (st_in w') < length (st_in w))%nat ∧ st_err w' = st_err w ∧ ∃ acc', buffered l' p' acc' ∧ no_newline acc' ∧
        st_out w' ++ printed (matching pattern (acc' ++ st_in w')) = st_out w ++ printed (matching pattern (acc ++ st_in w))
    | inr _ => st_err w' = st_err w ∧ st_out w' = st_out w ++ printed (matching pattern (acc ++ st_in w))
    end) X (grep_read pattern (line, pos)) w.
Proof.
  intros Hb Hn. unfold grep_read. apply runs_seq, runs_read; [lia|]. intros p q buf Ei Hp Hl. rewrite length_app in Hl.
  destruct p as [|c p]; cbn [length app].
  { rewrite Hp in * by done. cbn in Ei. rewrite Ei, app_nil_r. unfold matching. rewrite lines_of_last by done.
    change (Z.of_nat 0 <=? 0) with true. cbn beta iota. destruct Hb as (Hl1 & -> & Ht). destruct acc as [|x acc].
    - change (0 <? _) with false. cbn beta iota. runs_go. split; [done|]. cbn. by rewrite app_nil_r.
    - rewrite (proj2 (Z.ltb_lt 0 _)) by (rewrite length_take; cbn; lia). runs_go. apply runs_grep_line with (acc := x :: acc); [by split_and!|]. intros l' _. runs_go. done. }
  assert (p = []) as -> by (destruct p; [done|cbn in Hl; lia]). change (Z.of_nat _ <=? 0) with false. cbn beta iota. rewrite Ei. cbn [app].
  apply runs_seq. apply runs_of_opt with (a := c); [done|].
  destruct (Z.eqb_spec c 10) as [->|Hc].
  - runs_go. apply runs_grep_line with (acc := acc); [done|]. intros l' Hl'. runs_go. rewrite emit_out. cbn [st_in st_out st_err length].
    split; [lia|]. split; [done|]. exists []. split_and!; [by apply buffered_nil|constructor|].
    rewrite matching_sep by done. unfold printed. rewrite fmap_app, concat_app, <- app_assoc. done.
  - eapply runs_mono; [by apply runs_grep_store| |done]. intros r w' (-> & l' & p' & -> & Hb'). cbn [st_in st_out st_err length].
    split; [lia|]. split; [done|]. exists (acc ++ [c]). split_and!; [done| |by rewrite <- app_assoc].
    apply Forall_app. split; [done|]. constructor; [by apply Z.eqb_neq|done].
Qed.

(** C17 (equivalence): [grep] prints exactly the lines of its input that contain the
    pattern, in order, each up to its 255th character, and matches no further
    than that; a line that holds a zero byte ends there.  The program ends for
    every input, in whatever parts it arrives, from a descriptor whose [read]
    returns 0 at its end. *)
Theorem grep_filters input pattern line argv argc :
  length line = 256%nat → arr_get argv 1 = Some pattern → 2 ≤ argc →
  runs (λ _ _, False)
    (λ code w, code = 0 ∧ st_err w = [] ∧ st_out w = printed (matching pattern input))
    (grep_main line argc argv) (Stream input [] []).
Proof.
  intros Hl Hp Ha. unfold grep_main. rewrite (proj2 (Z.ltb_ge argc 2)) by lia. runs_go.
  eapply runs_of_opt; [done|]. runs_go.
  apply runs_iter with (n := length input) (P := λ k v w, k = length (st_in w) ∧ st_err w = [] ∧ ∃ acc,
    buffered v.1 v.2 acc ∧ no_newline acc ∧ st_out w ++ printed (matching pattern (acc ++ st_in w)) = printed (matching pattern input)).
  { split_and!; [done..|]. exists []. split_and!; [by apply buffered_nil|constructor|done]. }
  intros k [l p] w (-> & He & acc & Hb & Hn & Eo). eapply runs_mono; [by apply runs_grep_read| |intros ? ? Hx; exact Hx].
  intros [[l' p']|[]] w'.
  - intros (Hlt & He' & acc' & Hb' & Hn' & Eo'). eexists. split; [exact Hlt|]. split_and!; [done|congruence|].
    exists acc'. split_and!; [done|done|congruence].
  - intros (He' & Eo'). apply runs_sys_exit. split_and!; [done|congruence|congruence].
Qed.
Lemma grep_filters_witness :
  runs (λ _ _, False)
    (λ code w, code = 0 ∧ st_err w = [] ∧ st_out w = bytes_of "two
twofold
")
    (grep_main (replicate 256 0) 2 [bytes_of "grep"; bytes_of "two"]) (Stream (bytes_of "one
two
three
twofold") [] []).
Proof.
  apply (grep_filters (bytes_of "one
two
three
twofold") (bytes_of "two") (replicate 256 0) [bytes_of "grep"; bytes_of "two"] 2); [done|done|lia].
Defined.
