(* ===== verification/Shell.v ===== *)
(** * The shell (src/programs/shell.c)

    [shell_main] reads a line, cuts it into words in place and runs the command:
    a built-in one, or a program in a child process.  The command line is the
    array [cmd]; an element of [argv] is the index in [cmd] at which the word
    starts.  One round of the loop is [shell_round]; the loop has no end but
    [sys_exit].

    The environment [tty] delivers one line for each read of standard input and
    records the calls the program makes; what the calls answer is up to it. *)
From S2P Require Import Prelude Strings User Programs.
From ITree Require Import Core.ITreeDefinition.

Definition MAX_CMD_LEN : Z := 256.
Definition MAX_ARGS : Z := 16.

(** ** Strings *)

(** A [char] is signed. *)
Definition schar (c : Z) : Z := if c <? 128 then c else c - 256.
Fixpoint str_cmp (s1 s2 : list Z) : Z :=
  match s1, s2 with
  | c1 :: s1', c2 :: s2' => if c1 =? c2 then str_cmp s1' s2' else schar c1 - schar c2
  | c1 :: _, [] => schar c1
  | [], c2 :: _ => - schar c2
  | [], [] => 0
  end.
Definition is_cmd (s : list Z) (name : string) : bool := str_cmp s (bytes_of name) =? 0.

(** [str_chr], which shell_v2.c defines: the index found. *)
Fixpoint str_chr (s : list Z) (c : Z) : option Z :=
  match s with
  | [] => None
  | x :: s' => if x =? c then Some 0 else i ← str_chr s' c; Some (i + 1)
  end.

(** ** Parsing *)

Definition is_space (c : Z) : bool := (c =? 32) || (c =? 9).

(** The loop from index [i]; each round reads [cmd[i]], so there are at most as
    many as the array has elements. *)
Fixpoint parse_loop (n : nat) (cmd : list Z) (i : Z) (argv : list Z) (in_token : bool) : option (list Z * list Z) :=
  match n with
  | O => None
  | S n' =>
      c ← arr_get cmd i;
      if negb (c =? 0) && (Z.of_nat (length argv) <? MAX_ARGS - 1) then
        if is_space c then
          if in_token then cmd' ← arr_set cmd i 0; parse_loop n' cmd' (i + 1) argv false
          else parse_loop n' cmd (i + 1) argv in_token
        else if in_token then parse_loop n' cmd (i + 1) argv in_token
        else parse_loop n' cmd (i + 1) (argv ++ [i]) true
      else Some (cmd, argv)
  end.
(** The command at index [base] of the array: the array after it, and the
    elements of [argv] before the null. *)
Definition parse_command (cmd : list Z) (base : Z) : option (list Z * list Z) :=
  parse_loop (length cmd) cmd base [] false.

(** The string an element of [argv] points to. *)
Definition str_at (cmd : list Z) (i : Z) : list Z := c_string (drop (Z.to_nat i) cmd).

(** The conversion of "kill": a character that is no digit gives -1. *)
Fixpoint kill_pid (s : list Z) (pid : Z) : prog Z :=
  match s with
  | [] => mret pid
  | c :: s' =>
      if (48 <=? c) && (c <=? 57) then
        p10 ← int_of (pid * 10);
        pid ← int_of (p10 + (c - 48));
        kill_pid s' pid
      else
        write_lit 1 "Invalid PID
" 12;;
        mret (-1)
  end.

Section shell.
(** What an array of this many bytes holds before it is written. *)
Variable fresh : nat → list Z.

(** [int_to_str(num, buf)] and [sys_write(1, buf, str_len(buf))] for a local
    [buf]. *)
Definition write_int (num : Z) (size : nat) : prog unit :=
  buf ← of_opt (int_to_str num (fresh size));
  write_str 1 buf;;
  mret ().
Definition newline : prog unit := sys_write 1 [10; 0] 1;; mret ().

Definition cmd_help : prog unit :=
  write_lit 1 "Commands:
" 10;;
  write_lit 1 "  help    - Show this help
" 27;;
  write_lit 1 "  ps      - List processes
" 27;;
  write_lit 1 "  echo    - Print arguments
" 28;;
  write_lit 1 "  fork    - Test fork
" 22;;
  write_lit 1 "  stress  - Stress test
" 24;;
  write_lit 1 "  ls      - List files
" 23;;
  write_lit 1 "  cat     - Show file contents
" 31;;
  write_lit 1 "  kill    - Kill a process
" 27;;
  write_lit 1 "  wc      - Count lines/words/chars
" 36;;
  write_lit 1 "  grep    - Search for pattern
" 31;;
  write_lit 1 "  clear   - Clear screen
" 25;;
  write_lit 1 "  exit    - Exit shell
" 23;;
  write_lit 1 "
Pipes: cmd1 | cmd2 (e.g. ps | grep shell)
" 43;;
  mret ().

(** The loop of "echo" over the arguments after the first. *)
Fixpoint echo_args (args : list (list Z)) : prog unit :=
  match args with
  | [] => mret ()
  | [a] => write_str 1 a;; mret ()
  | a :: rest => write_str 1 a;; write_lit 1 " " 1;; echo_args rest
  end.
Definition cmd_echo (args : list (list Z)) : prog unit := echo_args args;; newline.

Definition cmd_fork : prog unit :=
  pid ← ITree.trigger SysFork;
  if pid =? 0 then
    write_lit 1 "Child process running!
" 23;;
    ITree.trigger (SysSleep 2000);;
    write_lit 1 "Child exiting
" 14;;
    sys_exit 0
  else if 0 <? pid then
    write_lit 1 "Created child PID " 18;;
    write_int pid 64;;
    newline;;
    ITree.trigger SysWait;;
    write_lit 1 "Child finished
" 15;;
    mret ()
  else
    write_lit 1 "Fork failed!
" 13;;
    mret ().

Definition stress_spawn (i : Z) (_ : unit) : prog unit :=
  pid ← ITree.trigger SysFork;
  if pid =? 0 then
    write_lit 1 "Worker " 7;;
    me ← ITree.trigger SysGetpid;
    write_int me 64;;
    write_lit 1 " running
" 9;;
    ITree.trigger (SysSleep (1000 + i * 500));;
    sys_exit i
  else mret ().
Definition stress_wait (_ : Z) (_ : unit) : prog unit :=
  r ← ITree.trigger SysWait;
  write_lit 1 "Child " 6;;
  write_int (fst r) 64;;
  write_lit 1 " exited
" 8;;
  mret ().
Definition cmd_stress : prog unit :=
  write_lit 1 "Starting stress test...
" 24;;
  for_vars 3 0 () stress_spawn;;
  for_vars 3 0 () stress_wait;;
  write_lit 1 "Stress test complete!
" 22;;
  mret ().

Definition cmd_clear : prog unit :=
  sys_write 1 ([27; 91; 50; 74] ++ [27; 91; 72] ++ [0]) 7;; mret ().

(** One round of the loop over the directory; [SysReaddir] is answered with the
    name array of the entry. *)
Definition ls_entry (fd : Z) (_ : unit) : prog (unit + unit) :=
  r ← ITree.trigger (SysReaddir fd);
  let '(ret, name) := r in
  if ret <=? 0 then mret (inr ()) else
  write_str 1 name;;
  newline;;
  mret (inl ()).
Definition cmd_ls : prog unit :=
  fd ← ITree.trigger (SysOpen (bytes_of "/") 0 0);
  if 0 <=? fd then
    ITree.iter (ls_entry fd) ();;
    ITree.trigger (SysClose fd)
  else
    write_lit 1 "Failed to open directory
" 25;;
    mret ().

Definition cat_block (fd : Z) (_ : unit) : prog (unit + unit) :=
  r ← sys_read fd 256;
  let '(bytes, buffer) := r in
  if bytes <=? 0 then mret (inr ()) else
  sys_write 1 buffer bytes;;
  mret (inl ()).
Definition cmd_cat (args : list (list Z)) : prog unit :=
  match args with
  | [] => write_lit 1 "Usage: cat <filename>
" 22;; mret ()
  | name :: _ =>
      fd ← ITree.trigger (SysOpen name 0 0);
      if 0 <=? fd then
        ITree.iter (cat_block fd) ();;
        ITree.trigger (SysClose fd)
      else
        write_lit 1 "File not found: " 16;;
        write_str 1 name;;
        newline
  end.

Definition cmd_kill (args : list (list Z)) : prog unit :=
  match args with
  | [] => write_lit 1 "Usage: kill <pid>
" 18;; mret ()
  | a :: _ =>
      pid ← kill_pid a 0;
      if 0 <? pid then
        ITree.trigger (SysKill pid 9);;
        write_lit 1 "Sent SIGKILL to process " 24;;
        write_str 1 a;;
        newline
      else mret ()
  end.

(** The loop is that of wc.c. *)
Definition cmd_wc : prog unit :=
  v ← ITree.iter wc_read (WcVars 0 0 0 false);
  words ← (if in_word v then int_of (words v + 1) else mret (words v));
  write_lit 1 "  " 2;;
  buf ← of_opt (int_to_str (lines v) (fresh 16));
  write_str 1 buf;;
  write_lit 1 "  " 2;;
  buf ← of_opt (int_to_str words buf);
  write_str 1 buf;;
  write_lit 1 "  " 2;;
  buf ← of_opt (int_to_str (chars v) buf);
  write_str 1 buf;;
  newline.

(** A line is printed when it has the first character of the argument. *)
Definition sgrep_line (c : Z) (line : list Z) (line_pos : Z) : prog (list Z) :=
  line ← of_opt (arr_set line line_pos 0);
  (if str_chr (c_string line) c then write_str 1 line;; newline else mret ());;
  mret line.
Definition sgrep_read (pat : Z) (v : list Z * Z) : prog ((list Z * Z) + unit) :=
  let '(line, line_pos) := v in
  r ← sys_read 0 1;
  let '(bytes, buf) := r in
  if bytes <=? 0 then
    (if 0 <? line_pos then sgrep_line pat line line_pos;; mret () else mret ());;
    mret (inr ())
  else
  c ← of_opt (arr_get buf 0);
  if c =? 10 then
    line ← sgrep_line pat line line_pos;
    mret (inl (line, 0))
  else if line_pos <? 255 then
    line ← of_opt (arr_set line line_pos c);
    mret (inl (line, line_pos + 1))
  else mret (inl (line, line_pos)).
Definition cmd_grep (args : list (list Z)) : prog unit :=
  match args with
  | [] => write_lit 1 "Usage: grep <pattern>
" 22;; mret ()
  | a :: _ => ITree.iter (sgrep_read (hd 0 a)) (fresh 256, 0)
  end.

(** Any other command: a child that becomes the program. *)
Definition run_program (argv : list (list Z)) : prog unit :=
  pid ← ITree.trigger SysFork;
  if pid =? 0 then
    ITree.trigger (SysExecve (hd [] argv) argv);;
    write_lit 1 "Command not found: " 19;;
    write_str 1 (hd [] argv);;
    newline;;
    sys_exit 1
  else if 0 <? pid then ITree.trigger SysWait;; mret ()
  else mret ().

Definition shell_command (argv : list (list Z)) : prog unit :=
  let name := hd [] argv in
  let args := tail argv in
  if is_cmd name "help" then cmd_help
  else if is_cmd name "ps" then ITree.trigger SysPs
  else if is_cmd name "echo" then cmd_echo args
  else if is_cmd name "fork" then cmd_fork
  else if is_cmd name "stress" then cmd_stress
  else if is_cmd name "clear" then cmd_clear
  else if is_cmd name "ls" then cmd_ls
  else if is_cmd name "cat" then cmd_cat args
  else if is_cmd name "kill" then cmd_kill args
  else if is_cmd name "wc" then cmd_wc
  else if is_cmd name "grep" then cmd_grep args
  else if is_cmd name "exit" then write_lit 1 "Goodbye!
" 9;; sys_exit 0
  else run_program argv.

(** The body of [while (1)] over the array [cmd].  The pointers to the two
    halves of a line with a pipe are computed and not used. *)
Definition shell_round (cmd : list Z) : prog (list Z) :=
  write_lit 1 "$ " 2;;
  r ← sys_read 0 (MAX_CMD_LEN - 1);
  let '(len, buf) := r in
  let cmd := buf ++ drop (length buf) cmd in
  if len <=? 0 then mret cmd else
  cmd ← of_opt (arr_set cmd (len - 1) 0);
  if len =? 1 then mret cmd else
  match str_chr (c_string cmd) 124 with
  | Some pipe_pos =>
      cmd ← of_opt (arr_set cmd pipe_pos 0);
      write_lit 1 "Pipes supported in shell_v2. Use 'S' to start enhanced shell.
" 61;;
      mret cmd
  | None =>
      r ← of_opt (parse_command cmd 0);
      let '(cmd, argv) := r in
      if Z.of_nat (length argv) =? 0 then mret cmd else
      shell_command (str_at cmd <$> argv);;
      mret cmd
  end.

Definition shell_main : prog unit :=
  write_lit 1 "
=== SimpleOS Shell ===
" 24;;
  write_lit 1 "Type 'help' for commands

" 26;;
  ITree.iter (λ cmd, cmd ← shell_round cmd; mret (inl cmd)) (fresh 256).
End shell.

(** ** What the parser does *)

Definition no_space (l : list Z) : Prop := Forall (λ c, is_space c = false) l.

(** The words found so far end before [i = length pre]. *)
Definition closed (pre : list Z) (argv : list Z) (ws : list (list Z)) : Prop :=
  Forall2 (λ o w, 0 ≤ o ≤ Z.of_nat (length pre) ∧ ∀ z, str_at (pre ++ z) o = w) argv ws.

Lemma closed_app pre x argv ws : closed pre argv ws → closed (pre ++ x) argv ws.
Proof.
  intros H. eapply Forall2_impl; [exact H|]. intros o w [Ho Hw]. rewrite length_app. split; [lia|].
  intros z. by rewrite <- app_assoc.
Qed.
Lemma closed_token pre tok x argv ws :
  no_nul tok → closed pre argv ws → closed (pre ++ tok ++ 0 :: x) (argv ++ [Z.of_nat (length pre)]) (ws ++ [tok]).
Proof.
  intros Ht Hc. apply Forall2_app; [by apply closed_app|]. constructor; [|constructor]. rewrite length_app. split; [lia|].
  intros z. unfold str_at. rewrite Nat2Z.id, <- !app_assoc, drop_app_length. by apply c_string_app.
Qed.
Lemma closed_done pre z argv ws : closed pre argv ws → str_at (pre ++ z) <$> argv = ws.
Proof. intros H. induction H as [|o w argv ws [_ Hw] _ IH]; [done|]. cbn. by rewrite IH, Hw. Qed.

Lemma words_of_space p tok c l : Forall (λ c, p c = false) tok → p c = true →
  words_of p (tok ++ c :: l) = match tok with [] => [] | _ => [tok] end ++ words_of p l.
Proof.
  intros Ht Hc. unfold words_of. rewrite fields_sep by done. destruct tok; [by rewrite filter_cons_False by (intros H; by apply H)|].
  by rewrite filter_cons_True.
Qed.
Lemma words_of_last p tok : Forall (λ c, p c = false) tok → words_of p tok = match tok with [] => [] | _ => [tok] end.
Proof.
  intros Ht. unfold words_of. rewrite fields_last by done. destruct tok; [by rewrite filter_cons_False by (intros H; by apply H)|].
  by rewrite filter_cons_True.
Qed.

Definition opened (pre tok argv : list Z) : list Z := match tok with [] => argv | _ => argv ++ [Z.of_nat (length pre)] end.
Definition inside (tok : list Z) : bool := match tok with [] => false | _ => true end.

Lemma opened_words pre tok x argv ws :
  no_nul tok → no_space tok → closed pre argv ws →
  str_at (pre ++ tok ++ 0 :: x) <$> opened pre tok argv = ws ++ words_of is_space tok.
Proof.
  intros Hn Hs Hc. rewrite words_of_last by done. destruct tok as [|c tok]; cbn [opened].
  - rewrite app_nil_r. by apply closed_done.
  - rewrite <- (app_nil_r (pre ++ _)). by apply closed_done, closed_token.
Qed.
Lemma opened_length pre tok rest argv ws :
  no_space tok → closed pre argv ws → (length ws + length (words_of is_space (tok ++ rest)) ≤ 14)%nat →
  Z.of_nat (length (opened pre tok argv)) < 15.
Proof.
  intros Hs Hc Hl. apply Forall2_length in Hc. destruct tok as [|c tok]; cbn [opened]; [lia|]. rewrite length_app. cbn [length].
  enough (1 ≤ length (words_of is_space ((c :: tok) ++ rest)))%nat by lia.
  unfold words_of. cbn [fields app]. inversion Hs as [|?? E]; simplify_eq. rewrite E.
  destruct (fields_cons is_space (tok ++ rest)) as (f & fs & -> & _). rewrite filter_cons_True by done. cbn. lia.
Qed.

Lemma parse_loop_words rest pre tok n argv ws junk :
  no_nul rest → no_nul tok → no_space tok → closed pre argv ws →
  (length ws + length (words_of is_space (tok ++ rest)) ≤ 14)%nat → (length rest < n)%nat →
  ∃ x argv', parse_loop n (pre ++ tok ++ rest ++ 0 :: junk) (Z.of_nat (length pre + length tok)) (opened pre tok argv) (inside tok)
      = Some (x ++ 0 :: junk, argv') ∧ length x = (length pre + length tok + length rest)%nat ∧
    str_at (x ++ 0 :: junk) <$> argv' = ws ++ words_of is_space (tok ++ rest).
Proof.
  intros Hr. revert pre tok n argv ws. induction rest as [|c rest IH]; intros pre tok [|n] argv ws Ht Hs Hc Hw Hn; [cbn in Hn; lia| |cbn in Hn; lia|].
  - cbn [parse_loop app]. rewrite app_nil_r in *. rewrite (app_assoc pre tok), <- length_app.
    rewrite (arr_get_middle (pre ++ tok) 0 junk). cbn. eexists (pre ++ tok), _. split; [done|]. rewrite length_app, <- app_assoc.
    split; [lia|]. by apply opened_words.
  - inversion Hr as [|?? Hc0 Hr']; simplify_eq. cbn [parse_loop app].
    assert (Eg : arr_get (pre ++ tok ++ c :: rest ++ 0 :: junk) (Z.of_nat (length pre + length tok)) = Some c).
    { rewrite (app_assoc pre tok), <- length_app. apply arr_get_middle. }
    rewrite Eg. cbn [mbind option_bind].
    pose proof (opened_length pre tok (c :: rest) argv ws Hs Hc Hw) as Hlen.
    rewrite (proj2 (Z.eqb_neq c 0)) by done. rewrite (proj2 (Z.ltb_lt _ (MAX_ARGS - 1))) by done. cbn [negb andb].
    destruct (is_space c) eqn:Esp.
    + rewrite words_of_space in * by done. destruct tok as [|d tok]; cbn [inside opened].
      * edestruct (IH Hr' (pre ++ [c]) [] n argv ws) as (x & argv' & E & Hx & Hr2); [by apply List.Forall_nil|by apply List.Forall_nil|by apply closed_app|done|cbn in Hn; lia|].
        exists x, argv'. cbn [app length opened inside] in *. rewrite length_app in *. cbn [length] in *. split_and!; [|lia|done].
        rewrite <- E, <- app_assoc. cbn [app]. f_equal. lia.
      * rewrite arr_set_in by (rewrite !length_app; cbn; lia). cbn [mbind option_bind].
        replace (<[Z.to_nat (Z.of_nat (length pre + length (d :: tok))) := 0]> (pre ++ (d :: tok) ++ c :: rest ++ 0 :: junk))
          with ((pre ++ (d :: tok) ++ [0]) ++ rest ++ 0 :: junk).
        2: { rewrite Nat2Z.id, <- length_app, !(app_assoc pre (d :: tok)), <- app_assoc, insert_app_r_alt, Nat.sub_diag by done. done. }
        edestruct (IH Hr' (pre ++ (d :: tok) ++ [0]) [] n (argv ++ [Z.of_nat (length pre)]) (ws ++ [d :: tok])) as (x & argv' & E & Hx & Hr2);
          [by apply List.Forall_nil|by apply List.Forall_nil|by apply closed_token|rewrite length_app; rewrite length_app in Hw; cbn [length app] in *; lia|cbn in Hn; lia|].
        exists x, argv'. rewrite !length_app in E, Hx. cbn [app length opened inside] in *. split_and!; [|lia|by rewrite Hr2, <- app_assoc].
        rewrite <- E. f_equal. lia.
    + edestruct (IH Hr' pre (tok ++ [c]) n argv ws) as (x & argv' & E & Hx & Hr2);
        [by apply Forall_app; split; [|constructor]|by apply Forall_app; split; [|constructor]|done|by rewrite <- app_assoc|cbn in Hn; lia|].
      rewrite <- !app_assoc in *. cbn [app length] in *. exists x, argv'. rewrite length_app in *. cbn [length] in *.
      split_and!; [|lia|done]. rewrite <- E. replace (Z.of_nat (length pre + (length tok + 1))) with (Z.of_nat (length pre + length tok) + 1) by lia.
      destruct tok; cbn [opened inside app]; [|done]. by rewrite Nat.add_0_r.
Qed.

(** A command line is cut into its words, if there are at most 14. *)
Lemma parse_command_ok pre s junk :
  no_nul s → (length (words_of is_space s) ≤ 14)%nat →
  ∃ x argv, parse_command (pre ++ s ++ 0 :: junk) (Z.of_nat (length pre)) = Some (x ++ 0 :: junk, argv) ∧
    length x = (length pre + length s)%nat ∧ str_at (x ++ 0 :: junk) <$> argv = words_of is_space s.
Proof.
  intros Hs Hw. unfold parse_command.
  destruct (parse_loop_words s pre [] (length (pre ++ s ++ 0 :: junk)) [] [] junk) as (x & argv & E & Hx & Ha);
    [done|by apply List.Forall_nil..|constructor|done|rewrite !length_app; cbn; lia|].
  cbn [app opened inside length] in *. rewrite Nat.add_0_r in *. by exists x, argv.
Qed.
(** Elements of [argv] are only added. *)
Lemma parse_loop_prefix n cmd i argv b cmd' argv' : parse_loop n cmd i argv b = Some (cmd', argv') → argv `prefix_of` argv'.
Proof.
  revert cmd i argv b. induction n as [|n IH]; intros cmd i argv b; cbn [parse_loop]; [done|].
  destruct (arr_get cmd i) as [c|]; [|done]. cbn [mbind option_bind]. destruct (_ && _); [|naive_solver].
  destruct (is_space c), b; [|by apply IH..|].
  - destruct (arr_set cmd i 0); [|done]. by apply IH.
  - intros E%IH. etransitivity; [by apply prefix_app_r|exact E].
Qed.
Lemma c_string_split w d : c_string d = w → 0 ∈ d → ∃ j, d = w ++ 0 :: j.
Proof.
  intros <-. induction d as [|c d IH]; intros H0; [set_solver|]. cbn. destruct (Z.eqb_spec c 0) as [->|Hc]; [by exists d|].
  destruct IH as [j E]; [set_solver|]. exists j. cbn. by rewrite <- E.
Qed.
Lemma words_of_no_sep p l w : w ∈ words_of p l → Forall (λ c, p c = false) w ∧ w ≠ [].
Proof.
  unfold words_of. intros [Hne Hin]%list_elem_of_filter. split; [|done]. clear Hne. revert w Hin. apply Forall_forall.
  induction l as [|c l IH]; cbn [fields]; [constructor; [apply List.Forall_nil|done]|].
  destruct (p c) eqn:E; [constructor; [apply List.Forall_nil|done]|]. destruct (fields_cons p l) as (f & fs & Ef & _). rewrite Ef in *.
  inversion IH. constructor; [by constructor|done].
Qed.
(** Parsed a second time, a command is its first word only. *)
Lemma parse_command_twice pre s junk name args :
  no_nul s → words_of is_space s = name :: args → (length (name :: args) ≤ 14)%nat → is_space (hd 32 s) = false →
  ∃ b argv, parse_command (pre ++ s ++ 0 :: junk) (Z.of_nat (length pre)) = Some (b, argv) ∧ argv ≠ [] ∧
    length b = length (pre ++ s ++ 0 :: junk) ∧
    ∃ b' argv', parse_command b (Z.of_nat (length pre)) = Some (b', argv') ∧ str_at b' <$> argv' = [name] ∧ length b' = length b.
Proof.
  intros Hs Hw Hl Hsp. destruct (parse_command_ok pre s junk) as (x & argv & E & Hx & Ha); [done|by rewrite Hw|]. rewrite Hw in Ha.
  destruct s as [|c s]; [done|]. cbn in Hsp. exists (x ++ 0 :: junk), argv. split; [done|]. split; [by destruct argv|].
  split; [rewrite !length_app; cbn [length] in *; lia|].
  assert (Hhd : [Z.of_nat (length pre)] `prefix_of` argv).
  { unfold parse_command in E. rewrite length_app in E. cbn [length app] in E. rewrite Nat.add_succ_r in E. cbn [parse_loop] in E.
    rewrite arr_get_middle in E. cbn [mbind option_bind] in E. inversion Hs; simplify_eq. rewrite (proj2 (Z.eqb_neq c 0)), Hsp in E by done.
    by apply parse_loop_prefix in E. }
  destruct Hhd as [argv2 ->]. cbn [fmap list_fmap app] in Ha. injection Ha as Hn _.
  destruct (words_of_no_sep is_space (c :: s) name) as [Hns Hne]; [rewrite Hw; set_solver|].
  unfold str_at in Hn. rewrite Nat2Z.id in Hn. assert (Hnn : no_nul name) by (rewrite <- Hn; apply c_string_no_nul).
  destruct (c_string_split name (drop (length pre) (x ++ 0 :: junk))) as [j Ej]; [done| |].
  { rewrite drop_app_le by (cbn in *; lia). set_solver. }
  rewrite <- (take_drop (length pre) (x ++ 0 :: junk)), Ej.
  assert (Hlp : length (take (length pre) (x ++ 0 :: junk)) = length pre) by (rewrite length_take, length_app; cbn in *; lia).
  destruct (parse_command_ok (take (length pre) (x ++ 0 :: junk)) name j) as (x' & argv' & E' & Hx' & Ha'); [done|rewrite words_of_last by done; destruct name; cbn; lia|].
  rewrite Hlp in E'. exists (x' ++ 0 :: j), argv'. split_and!; [done| |].
  - rewrite Ha', words_of_last by done. by destruct name.
  - rewrite !length_app. cbn [length]. rewrite Hx'. lia.
Qed.
(** The words that [parse_command] finds in a line of 16: the loop ends with the
    15th element of [argv] stored, so nothing cuts the line behind it. *)
Lemma fifteenth_word_is_rest :
  (λ '(cmd, argv), drop 13 (str_at cmd <$> argv)) <$> parse_command (bytes_of "a b c d e f g h i j k l m n o p" ++ [0]) 0
  = Some [bytes_of "n"; bytes_of "o p"].
Proof. done. Qed.

Lemma schar_inj a b : 0 ≤ a < 256 → 0 ≤ b < 256 → schar a = schar b → a = b.
Proof. unfold schar. intros Ha Hb. repeat case_if; intros; lia. Qed.
Definition is_text (s : list Z) : Prop := Forall (λ c, 0 < c < 256) s.
Lemma str_cmp_eq a b : is_text a → is_text b → str_cmp a b = 0 ↔ a = b.
Proof.
  intros Ha. revert b. induction Ha as [|x a Hx _ IH]; intros [|y b] Hb; cbn; [done|..].
  - inversion Hb. split; [|done]. unfold schar. case_if; intros; lia.
  - split; [|done]. unfold schar. case_if; intros; lia.
  - inversion Hb; simplify_eq. destruct (Z.eqb_spec x y) as [->|Hne]; [rewrite IH by done; naive_solver|].
    split; [|naive_solver]. intros E. destruct Hne. apply schar_inj; lia.
Qed.
Lemma is_cmd_spec s name : is_text s → is_text (bytes_of name) → is_cmd s name = bool_decide (s = bytes_of name).
Proof.
  intros Hs Hn. unfold is_cmd. destruct (bool_decide_reflect (s = bytes_of name)) as [->|Hne].
  - apply Z.eqb_eq. by apply str_cmp_eq.
  - apply Z.eqb_neq. by rewrite str_cmp_eq.
Qed.
Lemma str_chr_none s c : c ∉ s → str_chr s c = None.
Proof.
  induction s as [|x s IH]; [done|]. intros [Hx Hs]%not_elem_of_cons. cbn. rewrite (proj2 (Z.eqb_neq x c)) by done. by rewrite IH.
Qed.
Lemma words_of_text p s : is_text s → Forall is_text (words_of p s).
Proof.
  intros Hs. unfold words_of. apply Forall_forall. intros w [_ Hw]%list_elem_of_filter. revert w Hw. apply Forall_forall. induction Hs as [|c s Hc _ IH]; cbn; [constructor; [apply List.Forall_nil|done]|].
  destruct (p c); [constructor; [apply List.Forall_nil|done]|].
  destruct (fields_cons p s) as (f & fs & E & _). rewrite E in *.
  inversion IH. constructor; [by constructor|done].
Qed.

(** ** The environment of a shell *)

Inductive did : Type :=
| DWrite (fd : Z) (b : list Z) | DRead (fd : Z) | DFork (pid : Z) | DWait (r : Z * option Z) | DExec (path : list Z) (argv : list (list Z))
| DGetpid | DPs | DOpen (path : list Z) (flags fd : Z) | DClose (fd : Z) | DReaddir (fd : Z)
| DKill (pid sig : Z) | DPipe | DDup2 (oldfd newfd : Z) | DTerminal (s : list Z).

(** The lines that will be typed, and the calls made.  The kernel's answers to
    [fork], [wait], [open] and the other calls that give a number are any number;
    [sleep] has no answer: it does not return (see [sys_sleep_halts]). *)
Record tty : Type := Tty { tt_in : list (list Z); tt_log : list did }.
Definition logged (d : did) (w : tty) : tty := Tty (tt_in w) (tt_log w ++ [d]).

Definition tty_env A (e : sysE A) (w : tty) : A → tty → Prop :=
  match e with
  | SysWrite fd b => λ r w', r = Z.of_nat (length b) ∧ w' = logged (DWrite fd b) w
  | SysRead fd len => λ '(r, buf) w', Z.of_nat (length buf) = len ∧
      if fd =? 0
      then ∃ l ls, tt_in w = l :: ls ∧ r = Z.of_nat (length l) + 1 ∧ l ++ [10] `prefix_of` buf ∧ w' = Tty ls (tt_log w)
      else r ≤ len ∧ w' = logged (DRead fd) w
  | SysFork => λ pid w', w' = logged (DFork pid) w
  | SysWait => λ r w', w' = logged (DWait r) w
  | SysExecve path argv => λ _ w', w' = logged (DExec path argv) w
  | SysGetpid => λ _ w', w' = logged DGetpid w
  | SysPs => λ _ w', w' = logged DPs w
  | SysOpen path flags _ => λ fd w', w' = logged (DOpen path flags fd) w
  | SysClose fd => λ _ w', w' = logged (DClose fd) w
  | SysReaddir fd => λ '(_, name) w', length name = 32%nat ∧ w' = logged (DReaddir fd) w
  | SysKill pid sig => λ _ w', w' = logged (DKill pid sig) w
  | SysPipe => λ _ w', w' = logged DPipe w
  | SysDup2 o n => λ _ w', w' = logged (DDup2 o n) w
  | Terminal s => λ _ w', w' = logged (DTerminal s) w
  | SysSbrk _ | TerminalAt _ | SleepMs _ | Store _ _ => λ _ _, False
  | SysSleep _ => λ _ _, False
  | SysExit _ | Undefined => λ _ _, False
  end.
#[export] Instance tty_Env : Env tty := tty_env.

(** What the calls have written to standard output. *)
Definition text_of (log : list did) : list Z := concat ((λ d, match d with DWrite 1 b => b | _ => [] end) <$> log).

Lemma tty_write (Q : Z → tty → Prop) X fd s len w :
  0 ≤ len ≤ Z.of_nat (length s) → Q len (logged (DWrite fd (take (Z.to_nat len) s)) w) → runs Q X (sys_write fd s len) w.
Proof.
  intros Hl Hq. unfold sys_write. case_if; [|lia]. apply runs_trigger; [by eexists _, _|]. intros a w' (-> & ->).
  by replace (Z.of_nat (length (take (Z.to_nat len) s))) with len by (rewrite length_take; lia).
Qed.
Lemma tty_write_str (Q : Z → tty → Prop) X fd s w :
  no_nul s → (∀ n, Q n (logged (DWrite fd s) w)) → runs Q X (write_str fd s) w.
Proof.
  intros Hn Hq. unfold write_str, str_len. rewrite c_string_id by done. apply tty_write; [lia|].
  rewrite Nat2Z.id, take_ge by done. apply Hq.
Qed.
Lemma tty_read_line (Q : Z * list Z → tty → Prop) X len l ls log :
  Z.of_nat (length l) < len →
  (∀ z, Z.of_nat (length (l ++ 10 :: z)) = len → Q (Z.of_nat (length l) + 1, l ++ 10 :: z) (Tty ls log)) →
  runs Q X (sys_read 0 len) (Tty (l :: ls) log).
Proof.
  intros Hl Hq. apply runs_trigger.
  - exists (Z.of_nat (length l) + 1, l ++ 10 :: replicate (Z.to_nat len - length l - 1) 0), (Tty ls log). cbn.
    rewrite length_app. cbn. rewrite length_replicate. split; [lia|]. exists l, ls. split_and!; try done. by exists (replicate (Z.to_nat len - length l - 1) 0); rewrite <- app_assoc.
  - intros [r buf] w' [Hb (l' & ls' & [= <- <-] & -> & [z ->] & ->)]. rewrite <- app_assoc in *. by apply Hq.
Qed.

(** ** What a shell sees of its user

    [T ls acts w]: the lines [ls] will be typed, and [acts] is what has been
    shown and typed so far.  An environment that is a [Typist] shows what is
    written to the standard output, if it is [ok], and reads line by line. *)
Inductive act : Type := Wrote (b : list Z) | Typed (l : list Z).

Class Typist {W : Type} `{Env W} (T : list (list Z) → list act → W → Prop) (ok : Z → Prop) : Prop := {
  typist_ok c : 32 ≤ c < 127 ∨ c = 10 → ok c;
  typist_write (Q : Z → W → Prop) X s len ls acts w :
    T ls acts w → 0 ≤ len ≤ Z.of_nat (length s) → Forall ok (take (Z.to_nat len) s) →
    (∀ n w', T ls (acts ++ [Wrote (take (Z.to_nat len) s)]) w' → Q n w') → runs Q X (sys_write 1 s len) w;
  typist_read (Q : Z * list Z → W → Prop) X len l ls acts w :
    T (l :: ls) acts w → Z.of_nat (length l) < len < 2 ^ 31 →
    (∀ z w', Z.of_nat (length (l ++ 10 :: z)) = len → T ls (acts ++ [Typed l]) w' → Q (Z.of_nat (length l) + 1, l ++ 10 :: z) w') →
    runs Q X (sys_read 0 len) w;
}.

(** The text of a session; [shown] is what typing a line shows. *)
Definition render (shown : list Z → list Z) (acts : list act) : list Z :=
  concat ((λ a, match a with Wrote b => b | Typed l => shown l end) <$> acts).
Lemma render_app shown a1 a2 : render shown (a1 ++ a2) = render shown a1 ++ render shown a2.
Proof. unfold render. by rewrite fmap_app, concat_app. Qed.
Lemma render_one shown a : render shown [a] = match a with Wrote b => b | Typed l => shown l end.
Proof. unfold render. cbn. by rewrite app_nil_r. Qed.

(** The environment [tty], after the calls [log]. *)
Definition did_of (acts : list act) : list did := omap (λ a, match a with Wrote b => Some (DWrite 1 b) | Typed _ => None end) acts.
Lemma did_of_app a1 a2 : did_of (a1 ++ a2) = did_of a1 ++ did_of a2.
Proof. apply omap_app. Qed.
#[export] Instance tty_typist log : Typist (λ ls acts w, w = Tty ls (log ++ did_of acts)) (λ _, True).
Proof.
  split; [done| |].
  - intros Q X s len ls acts w -> Hl _ HQ. apply tty_write; [done|]. apply HQ. unfold logged. cbn [tt_in tt_log]. by rewrite did_of_app, app_assoc.
  - intros Q X len l ls acts w -> Hl HQ. apply tty_read_line; [lia|]. intros z Hz. apply HQ; [done|]. by rewrite did_of_app, app_nil_r.
Qed.
Lemma text_of_app l1 l2 : text_of (l1 ++ l2) = text_of l1 ++ text_of l2.
Proof. unfold text_of. by rewrite fmap_app, concat_app. Qed.
Lemma text_of_acts acts : text_of (did_of acts) = render (λ _, []) acts.
Proof.
  induction acts as [|[b|l] acts IH]; [done| |exact IH].
  change (b ++ text_of (did_of acts) = b ++ render (λ _, []) acts). by rewrite IH.
Qed.

(** ** One round of the shell *)

(** A line a user may type: no pipe, at most 14 words, fits the buffer. *)
Record plain_line (l : list Z) : Prop := {
  pl_text : is_text l;
  pl_pipe : 124 ∉ l;
  pl_words : (length (words_of is_space l) ≤ 14)%nat;
  pl_length : (length l ≤ 254)%nat;
}.
Definition prompt : did := DWrite 1 (bytes_of "$ ").

Lemma text_no_nul s : is_text s → no_nul s.
Proof. intros H. eapply Forall_impl; [exact H|]. intros c Hc. cbn in *. lia. Qed.
Lemma words_of_forall P p s : Forall P s → Forall (Forall P) (words_of p s).
Proof.
  intros Hs. unfold words_of. apply Forall_forall. intros w [_ Hw]%list_elem_of_filter. revert w Hw. apply Forall_forall.
  induction Hs as [|c s Hc _ IH]; cbn; [by repeat constructor|].
  destruct (p c); [by constructor|]. destruct (fields_cons p s) as (f & fs & E & _). rewrite E in *. inversion IH. by repeat constructor.
Qed.

Definition unwords (ws : list (list Z)) : list Z :=
  match ws with [] => [] | w :: ws => w ++ concat ((32 ::.) <$> ws) end.
(** What "echo" answers to a line. *)
Definition response (l : list Z) : list Z :=
  match words_of is_space l with [] => [] | _ :: args => unwords args ++ [10] end.

Section rounds.
Context (fresh : nat → list Z).

Section typed.
Context {W : Type} `{HE : Env W} (T : list (list Z) → list act → W → Prop) (ok : Z → Prop) {HT : Typist T ok}.
Lemma ok_literal s : forallb (λ c, (c =? 10) || (32 <=? c) && (c <? 127)) s = true → Forall ok s.
Proof using HT.
  intros H. rewrite forallb_forall in H. apply Forall_forall. intros c Hc%list_elem_of_In%H. apply typist_ok. propify. lia.
Qed.
Lemma typist_lit (Q : Z → W → Prop) X s b len ls acts w :
  T ls acts w → len = Z.of_nat (length b) → take (length b) (bytes_of s ++ [0]) = b →
  forallb (λ c, (c =? 10) || (32 <=? c) && (c <? 127)) b = true →
  (∀ n w', T ls (acts ++ [Wrote b]) w' → Q n w') → runs Q X (write_lit 1 s len) w.
Proof using HT.
  intros Hw -> Hb Hok HQ. unfold write_lit. eapply typist_write; [exact Hw|..].
  - apply (f_equal length) in Hb. rewrite length_take in Hb. lia.
  - rewrite Nat2Z.id, Hb. by apply ok_literal.
  - rewrite Nat2Z.id, Hb. exact HQ.
Qed.
Lemma typist_str (Q : Z → W → Prop) X s ls acts w :
  T ls acts w → no_nul s → Forall ok s →
  (∀ n w', T ls (acts ++ [Wrote s]) w' → Q n w') → runs Q X (write_str 1 s) w.
Proof using HT.
  intros Hw Hn Hok HQ. unfold write_str, str_len. rewrite c_string_id by done.
  eapply typist_write; [exact Hw|lia|..]; rewrite Nat2Z.id, take_ge by done; done.
Qed.

(** The round is the command that the words of the line name. *)
Lemma runs_round (Q : list Z → W → Prop) X cmd l ls acts w :
  T (l :: ls) acts w → length cmd = 256%nat → plain_line l →
  (∀ w', T ls (acts ++ [Wrote (bytes_of "$ "); Typed l]) w' →
     if decide (words_of is_space l = []) then ∀ cmd', length cmd' = 256%nat → Q cmd' w'
     else runs (λ _ w'', ∀ cmd', length cmd' = 256%nat → Q cmd' w'') X (shell_command fresh (words_of is_space l)) w') →
  runs Q X (shell_round fresh cmd) w.
Proof using HT.
  intros HW Hc [Ht Hp Hw Hl] HQ. set (ws := words_of is_space l) in *. unfold shell_round. runs_go.
  eapply (typist_lit _ _ _ (bytes_of "$ ")); [exact HW|reflexivity|reflexivity|reflexivity|]. clear w HW. intros _ w HW. runs_go.
  eapply typist_read; [exact HW|unfold MAX_CMD_LEN; lia|]. clear w HW. intros z w Hz HW. change (MAX_CMD_LEN - 1) with 255 in Hz.
  rewrite <- app_assoc in HW. apply HQ in HW. clear HQ.
  rewrite (proj2 (Z.leb_gt _ 0)) by lia. rewrite <- app_assoc. cbn [app].
  set (junk := z ++ drop (length (l ++ 10 :: z)) cmd).
  assert (Hj : (length l + S (length junk) = 256)%nat).
  { unfold junk. rewrite length_app, length_drop. rewrite length_app in *. cbn [length] in *. lia. }
  runs_go. eapply runs_of_opt.
  { rewrite arr_set_in by (rewrite length_app; cbn; lia). rewrite insert_app_r_alt by lia.
    replace (Z.to_nat (Z.of_nat (length l) + 1 - 1) - length l)%nat with 0%nat by lia. reflexivity. }
  change (<[0%nat := 0]> (10 :: junk)) with (0 :: junk).
  destruct (Z.eqb_spec (Z.of_nat (length l) + 1) 1) as [E|Hne].
  { assert (l = []) as -> by (destruct l; [done|cbn in E; lia]). cbn in HW. runs_go. by apply HW. }
  rewrite c_string_app, str_chr_none by first [done|by apply text_no_nul].
  destruct (parse_command_ok [] l junk) as (x & argv & E & Hx & Ha); [by apply text_no_nul|done|].
  cbn [length app] in *. runs_go. eapply runs_of_opt; [exact E|]. cbn beta iota.
  assert (Hlen : length (x ++ 0 :: junk) = 256%nat) by (rewrite length_app; cbn; lia).
  fold ws in Ha. destruct (decide (ws = [])) as [Ews|Hne'].
  - rewrite Ews in Ha. apply fmap_nil_inv in Ha as ->. change (Z.of_nat (length []) =? 0) with true. cbn beta iota. runs_go. by apply HW.
  - rewrite (proj2 (Z.eqb_neq (Z.of_nat (length argv)) 0)).
    2: { rewrite <- Ha in Hne'. destruct argv; [done|cbn; lia]. }
    rewrite Ha. runs_go. eapply runs_mono; [exact HW| |done]. intros [] w' Hw'. runs_go. by apply Hw'.
Qed.

(** A word that can be written. *)
Definition word_ok (a : list Z) : Prop := no_nul a ∧ Forall ok a.
Lemma runs_echo_args (Q : unit → W → Prop) X args ls acts w :
  T ls acts w → Forall word_ok args →
  (∀ bs w', concat bs = unwords args → (args = [] → bs = []) → T ls (acts ++ (Wrote <$> bs)) w' → Q () w') →
  runs Q X (echo_args args) w.
Proof using HT.
  intros HW Ha. revert acts w HW. induction Ha as [|a args [Hn Hok] Ha IH]; intros acts w HW HQ.
  { apply runs_mret, (HQ []); [done..|]. by rewrite app_nil_r. }
  destruct args as [|b args]; cbn [echo_args].
  - runs_go. eapply typist_str; [exact HW|done..|]. intros n w' HW'. runs_go. apply (HQ [a]); [|done..]. cbn. by rewrite !app_nil_r.
  - runs_go. eapply typist_str; [exact HW|done..|]. clear w HW. intros n w HW. runs_go.
    eapply (typist_lit _ _ _ [32]); [exact HW|reflexivity|reflexivity|reflexivity|]. clear w HW. intros _ w HW. eapply IH; [exact HW|].
    intros bs w' E _ HW'. apply (HQ (a :: [32] :: bs)); [|done|by rewrite <- !app_assoc in HW'].
    cbn [concat]. rewrite E. cbn. by rewrite <- ?app_assoc.
Qed.
Lemma runs_echo (Q : unit → W → Prop) X args ls acts w :
  T ls acts w → Forall word_ok args →
  (∀ bs w', concat bs = unwords args ++ [10] → (args = [] → bs = [[10]]) → T ls (acts ++ (Wrote <$> bs)) w' → Q () w') →
  runs Q X (cmd_echo args) w.
Proof using HT.
  intros HW Ha HQ. unfold cmd_echo, newline. runs_go. eapply runs_echo_args; [exact HW|done|]. clear w HW. intros bs w E E0 HW. runs_go.
  change (sys_write 1 [10; 0] 1) with (write_lit 1 "
" 1).
  eapply (typist_lit _ _ _ [10]); [exact HW|reflexivity|reflexivity|reflexivity|]. intros _ w' HW'. runs_go.
  apply (HQ (bs ++ [[10]])); [by rewrite concat_app, E|intros H; by rewrite E0|]. by rewrite fmap_app, app_assoc.
Qed.

(** A line that is empty or an "echo" command, of characters the screen takes. *)
Definition echo_line (l : list Z) : Prop :=
  plain_line l ∧ Forall ok l ∧ match words_of is_space l with [] => True | w :: _ => w = bytes_of "echo" end.
Lemma line_words l : plain_line l → Forall ok l → Forall word_ok (words_of is_space l).
Proof.
  intros [Ht _ _ _] Hok. apply Forall_forall. intros a Ha. pose proof (words_of_forall _ is_space l Hok) as H1.
  pose proof (words_of_text is_space l Ht) as H2. rewrite Forall_forall in H1, H2. split; [by apply text_no_nul, H2|by apply H1].
Qed.
Lemma runs_echo_round (Q : list Z → W → Prop) X cmd l ls acts w :
  T (l :: ls) acts w → length cmd = 256%nat → echo_line l →
  (∀ cmd' acts' w', length cmd' = 256%nat → T ls (acts ++ acts') w' →
    (∀ shown, render shown acts' = bytes_of "$ " ++ shown l ++ response l) → Q cmd' w') →
  runs Q X (shell_round fresh cmd) w.
Proof using HT.
  intros HW Hc (Hl & Hok & Hw) HQ. eapply runs_round; [exact HW|done|done|]. clear w HW. intros w HW. unfold response in HQ.
  pose proof (line_words l Hl Hok) as Ht. destruct (words_of is_space l) as [|c args]; cbn [decide].
  - intros cmd' Hc'. by eapply HQ.
  - subst c. inversion Ht as [|?? _ Ha]; simplify_eq. destruct (decide _); [done|].
    change (shell_command fresh (bytes_of "echo" :: args)) with (cmd_echo args).
    eapply runs_echo; [exact HW|done|]. intros bs w' E _ HW' cmd' Hc'. rewrite <- app_assoc in HW'. eapply HQ; [done|exact HW'|].
    intros shown. rewrite render_app. assert (Hb : render shown (Wrote <$> bs) = concat bs).
    { unfold render. by rewrite <- list_fmap_compose, list_fmap_id. }
    rewrite Hb, E. unfold render. cbn [fmap list_fmap concat]. by rewrite app_nil_r, <- !app_assoc.
Qed.

Definition shell_banner : list Z := bytes_of "
=== SimpleOS Shell ===
Type 'help' for commands

".
Lemma runs_session ls bye w :
  T (ls ++ [bye]) [] w → length (fresh 256) = 256%nat → Forall echo_line ls → plain_line bye → words_of is_space bye = [bytes_of "exit"] →
  runs (λ _ _, False)
    (λ code w, code = 0 ∧ ∃ acts, T [] acts w ∧ ∀ shown, render shown acts =
       shell_banner ++ concat ((λ l, bytes_of "$ " ++ shown l ++ response l) <$> ls) ++ bytes_of "$ " ++ shown bye ++ bytes_of "Goodbye!
")
    (shell_main fresh) w.
Proof using HT.
  intros HW Hf Hls Hb Hw. unfold shell_main. runs_go.
  eapply (typist_lit _ _ _ (bytes_of "
=== SimpleOS Shell ===
")); [exact HW|reflexivity|reflexivity|reflexivity|]. clear w HW. intros _ w HW. runs_go.
  eapply (typist_lit _ _ _ (bytes_of "Type 'help' for commands

")); [exact HW|reflexivity|reflexivity|reflexivity|]. clear w HW. intros _ w HW. runs_go.
  apply runs_iter with (n := length ls) (P := λ n cmd w, ∃ rem acts, n = length rem ∧ T (rem ++ [bye]) acts w ∧ Forall echo_line rem ∧
    length cmd = 256%nat ∧ ∀ shown, render shown acts ++ concat ((λ l, bytes_of "$ " ++ shown l ++ response l) <$> rem) =
      shell_banner ++ concat ((λ l, bytes_of "$ " ++ shown l ++ response l) <$> ls)).
  { exists ls. eexists. split; [done|]. split; [exact HW|]. by split_and!. }
  clear w HW. intros n cmd w (rem & acts & -> & HW & Hrem & Hc & Et). runs_go. destruct rem as [|l rem]; cbn [app] in HW.
  - eapply runs_round; [exact HW|done|done|]. clear w HW. intros w HW. rewrite Hw. destruct (decide _); [done|].
    change (shell_command fresh [bytes_of "exit"]) with (write_lit 1 "Goodbye!
" 9;; sys_exit 0 : prog unit). runs_go.
    eapply (typist_lit _ _ _ (bytes_of "Goodbye!
")); [exact HW|reflexivity|reflexivity|reflexivity|]. intros _ w' HW'. apply runs_sys_exit. split; [done|].
    eexists. split; [exact HW'|]. intros shown. specialize (Et shown). cbn [concat fmap list_fmap] in Et. rewrite app_nil_r in Et.
    rewrite !render_app, Et. unfold render. cbn [fmap list_fmap concat]. by rewrite !app_nil_r, <- !app_assoc.
  - inversion Hrem as [|?? Hl Hr]; simplify_eq. eapply runs_echo_round; [exact HW|done|done|]. intros cmd' acts' w' Hc' HW' E. runs_go.
    exists (length rem). split; [cbn; lia|]. exists rem, (acts ++ acts'). split_and!; try done. intros shown. rewrite render_app, E, <- (Et shown).
    cbn [fmap list_fmap concat]. by rewrite <- !app_assoc.
Qed.
End typed.

Lemma tty_echo (Q : unit → tty → Prop) X args ls log :
  Forall is_text args →
  (∀ ws, text_of ws = unwords args ++ [10] → (args = [] → ws = [DWrite 1 [10]]) → Q () (Tty ls (log ++ ws))) →
  runs Q X (cmd_echo args) (Tty ls log).
Proof.
  intros Ht HQ. eapply (runs_echo _ _ (HT := tty_typist log) _ _ _ ls []); [cbn; by rewrite app_nil_r| |].
  - eapply Forall_impl; [exact Ht|]. intros a Ha. split; [by apply text_no_nul|by apply Forall_true].
  - intros bs w' E E0 ->. cbn [app]. apply HQ; [rewrite text_of_acts; unfold render; by rewrite <- list_fmap_compose, list_fmap_id|].
    intros H. by rewrite E0.
Qed.

Definition builtin_names : list string :=
  ["help"; "ps"; "echo"; "fork"; "stress"; "clear"; "ls"; "cat"; "kill"; "wc"; "grep"; "exit"].

Lemma not_builtin name argv :
  is_text name → name ∉ bytes_of <$> builtin_names → shell_command fresh (name :: argv) = run_program (name :: argv).
Proof.
  intros Ht Hn. unfold shell_command. cbn [hd]. cbn in Hn.
  repeat rewrite is_cmd_spec by first [done|by repeat constructor].
  repeat (rewrite bool_decide_eq_false_2 by set_solver). done.
Qed.

(** C24 (functional): a line of at most 254 characters and 14 words, without a NUL
    and without a pipe sign, whose first word is not a built-in command: the
    shell forks; the child executes the program of that name with the words of
    the line as arguments and, if [execve] returns, says that there is no such
    command and exits with status 1 without reading another line; the parent
    waits once when it has a child, and the round ends.  Whatever numbers the
    kernel answers, nothing else is done. *)
Theorem shell_runs_program cmd l ls log name args :
  length cmd = 256%nat → plain_line l → words_of is_space l = name :: args → name ∉ bytes_of <$> builtin_names →
  runs
    (λ cmd' w, length cmd' = 256%nat ∧ tt_in w = ls ∧ ∃ pid, pid ≠ 0 ∧
       if 0 <? pid then ∃ r, tt_log w = log ++ [prompt; DFork pid; DWait r] else tt_log w = log ++ [prompt; DFork pid])
    (λ code w, code = 1 ∧ tt_log w = log ++ [prompt; DFork 0; DExec name (name :: args);
       DWrite 1 (bytes_of "Command not found: "); DWrite 1 name; DWrite 1 [10]])
    (shell_round fresh cmd) (Tty (l :: ls) log).
Proof.
  intros Hc Hl Hw Hn. eapply (runs_round _ _ (HT := tty_typist log) _ _ _ _ ls []); [cbn; by rewrite app_nil_r|done|done|].
  intros w ->. rewrite Hw. destruct (decide (name :: args = [])); [done|].
  assert (Ht : is_text name).
  { pose proof (words_of_text is_space l (pl_text _ Hl)) as H. rewrite Hw in H. by inversion H. }
  rewrite not_builtin by done. unfold run_program. runs_go.
  apply runs_trigger; [by exists 0; eexists|]. intros pid w' ->. destruct (Z.eqb_spec pid 0) as [->|Hp].
  - cbn [hd]. runs_go. apply runs_trigger; [by exists 0; eexists|]. intros r w' ->. runs_go. apply tty_write; [cbn; lia|].
    runs_go. apply tty_write_str; [by apply text_no_nul|]. intros m. unfold newline. runs_go. apply tty_write; [cbn; lia|].
    runs_go. apply runs_sys_exit. split; [done|]. cbn. by rewrite <- !app_assoc.
  - destruct (Z.ltb_spec 0 pid).
    + runs_go. apply runs_trigger; [by exists (0, None); eexists|]. intros r w' ->. runs_go. intros cmd' Hc'.
      split_and!; [done..|]. exists pid. split; [done|]. rewrite (proj2 (Z.ltb_lt 0 pid)) by done. exists r. cbn. by rewrite <- !app_assoc.
    + runs_go. intros cmd' Hc'. split_and!; [done..|]. exists pid. split; [done|].
      rewrite (proj2 (Z.ltb_ge 0 pid)) by done. cbn. by rewrite <- !app_assoc.
Qed.

(** (refinement): a session of the shell, from its banner to its end: for any
    number of lines that are empty or "echo" commands, followed by "exit", it
    shows a prompt for each line and the words of the line one space apart, says
    goodbye and exits with status 0. *)
Theorem shell_echo_session ls bye :
  length (fresh 256) = 256%nat → Forall (echo_line (λ _, True)) ls → plain_line bye → words_of is_space bye = [bytes_of "exit"] →
  runs (λ _ _, False)
    (λ code w, code = 0 ∧ text_of (tt_log w) =
       bytes_of "
=== SimpleOS Shell ===
Type 'help' for commands

" ++ concat ((λ l, bytes_of "$ " ++ response l) <$> ls) ++ bytes_of "$ Goodbye!
")
    (shell_main fresh) (Tty (ls ++ [bye]) []).
Proof.
  intros Hf Hls Hb Hw. eapply runs_mono; [apply (runs_session _ _ (HT := tty_typist []) ls bye); [done..]|done|]. cbn beta.
  intros code w (-> & acts & -> & E). split; [done|]. cbn [tt_log app]. rewrite text_of_acts, E. by rewrite <- ?app_assoc.
Qed.
End rounds.

(** Ordinary text, for the examples. *)
Lemma plain_line_check l :
  forallb (λ c, (0 <? c) && (c <? 256) && negb (c =? 124)) l = true →
  (length (words_of is_space l) <=? 14)%nat = true → (length l <=? 254)%nat = true → plain_line l.
Proof.
  intros H1 H2 H3. apply Nat.leb_le in H2, H3. rewrite forallb_forall in H1. split; [| |done|done].
  - apply Forall_forall. intros c Hc%list_elem_of_In%H1. propify. lia.
  - intros Hc%list_elem_of_In%H1. done.
Qed.

Lemma shell_runs_program_witness :
  let l := bytes_of "hello  world" in
  runs
    (λ cmd' w, length cmd' = 256%nat ∧ tt_in w = [] ∧ ∃ pid, pid ≠ 0 ∧
       if 0 <? pid then ∃ r, tt_log w = [] ++ [prompt; DFork pid; DWait r] else tt_log w = [] ++ [prompt; DFork pid])
    (λ code w, code = 1 ∧ tt_log w = [] ++ [prompt; DFork 0; DExec (bytes_of "hello") [bytes_of "hello"; bytes_of "world"];
       DWrite 1 (bytes_of "Command not found: "); DWrite 1 (bytes_of "hello"); DWrite 1 [10]])
    (shell_round (λ n, replicate n 0) (replicate 256 0)) (Tty [l] []).
Proof.
  cbn zeta. apply (shell_runs_program (λ n, replicate n 0) (replicate 256 0) (bytes_of "hello  world") [] [] (bytes_of "hello") [bytes_of "world"]).
  - reflexivity.
  - by apply plain_line_check.
  - reflexivity.
  - set_solver.
Defined.
Lemma shell_echo_session_witness :
  runs (λ _ _, False)
    (λ code w, code = 0 ∧ text_of (tt_log w) = bytes_of "
=== SimpleOS Shell ===
Type 'help' for commands

$ a b
$ $ Goodbye!
")
    (shell_main (λ n, replicate n 0)) (Tty [bytes_of " echo  a b"; []; bytes_of "exit "] []).
Proof.
  apply (shell_echo_session (λ n, replicate n 0) [bytes_of " echo  a b"; []] (bytes_of "exit ")).
  - reflexivity.
  - repeat (constructor; [split; [by apply plain_line_check|by split; [apply Forall_true|]]|]). constructor.
  - by apply plain_line_check.
  - reflexivity.
Defined.
