(* ===== verification/ShellV2.v ===== *)
(** * The second shell (src/programs/shell_v2.c)

    A shell with line editing, a history, jobs, pipes and redirection.  Its
    static variables are the record [shell], which its functions pass along:
    [G A] is a program that returns an [A] and the variables.  A [char *] into
    the command line is an index of [cmd_buffer].

    The line editor is proved to implement an editor on the text left and
    right of the cursor. *)
From S2P Require Import Prelude Strings User Programs Shell.
From ITree Require Import Core.ITreeDefinition.

Definition HISTORY_SIZE : Z := 10.
Definition MAX_JOBS : Z := 16.
Definition JOB_STATE_RUNNING : Z := 0.
Definition JOB_STATE_STOPPED : Z := 1.
Definition JOB_STATE_DONE : Z := 2.

Record job_t : Type := Job { job_id : Z; job_pid : Z; job_command : list Z; job_state : Z; job_background : Z }.

Record shell : Type := Shell {
  history : list (list Z);
  history_count : Z;
  history_pos : Z;
  cmd_buffer : list Z;
  cmd_pos : Z;
  cmd_len : Z;
  jobs : list job_t;
  next_job_id : Z;
  jobs_initialized : bool }.

Definition set_history h n p s := Shell h n p (cmd_buffer s) (cmd_pos s) (cmd_len s) (jobs s) (next_job_id s) (jobs_initialized s).
Definition set_history_pos p s := set_history (history s) (history_count s) p s.
Definition set_line b p n s := Shell (history s) (history_count s) (history_pos s) b p n (jobs s) (next_job_id s) (jobs_initialized s).
Definition set_buffer b s := set_line b (cmd_pos s) (cmd_len s) s.
Definition set_jobs j s := Shell (history s) (history_count s) (history_pos s) (cmd_buffer s) (cmd_pos s) (cmd_len s) j (next_job_id s) (jobs_initialized s).
Definition set_next_job n s := Shell (history s) (history_count s) (history_pos s) (cmd_buffer s) (cmd_pos s) (cmd_len s) (jobs s) n (jobs_initialized s).
Definition set_jobs_initialized b s := Shell (history s) (history_count s) (history_pos s) (cmd_buffer s) (cmd_pos s) (cmd_len s) (jobs s) (next_job_id s) b.

(** ** Programs over the static variables *)

Definition G (A : Type) : Type := shell → prog (A * shell).
#[export] Instance G_ret : MRet G := λ A a s, mret (a, s).
#[export] Instance G_bind : MBind G := λ A B k m s, r ← m s; k r.1 r.2.
Definition sys {A} (t : prog A) : G A := λ s, a ← t; mret (a, s).
Definition vars {A} (f : shell → A) : G A := λ s, mret (f s, s).
Definition assign (f : shell → shell) : G unit := λ s, mret ((), f s).
Definition kcall {A} (e : sysE A) : G A := sys (ITree.trigger e).
Definition say (s : string) (len : Z) : G unit := sys (write_lit 1 s len;; mret ()).
Definition put (s : list Z) : G unit := sys (write_str 1 s;; mret ()).
Definition opt {A} (o : option A) : G A := sys (of_opt o).
Definition nl : G unit := sys newline.
(** [while (1)]: the body returns [Some] to leave the loop. *)
Definition loop {A} (body : G (option A)) : G A :=
  ITree.iter (λ s, r ← body s; mret (match r.1 with Some a => inr (a, r.2) | None => inl r.2 end)).
Fixpoint gfor (n : nat) (i : Z) (body : Z → G unit) : G unit :=
  match n with O => mret () | S n' => body i;; gfor n' (i + 1) body end.
(** The same loop left with a value. *)
Fixpoint gfind {A} (n : nat) (i : Z) (body : Z → G (option A)) : G (option A) :=
  match n with
  | O => mret None
  | S n' => r ← body i; match r with Some a => mret (Some a) | None => gfind n' (i + 1) body end
  end.

Section shell_v2.
(** What an array of this many bytes holds before it is written. *)
Variable fresh : nat → list Z.

Definition put_int (num : Z) (size : nat) : G unit := sys (write_int fresh num size).

(** ** Jobs *)

(** The file's own [strncpy]: at most [n - 1] characters, then zeros up to
    [n]. *)
Definition strncpy (dest src : list Z) (n : nat) : option (list Z) :=
  if (n <=? length dest)%nat then Some (take n (take (n - 1) src ++ replicate n 0) ++ drop n dest) else None.

Definition get_job (i : Z) : G job_t := j ← vars jobs; opt (arr_get j i).
Definition upd_job (i : Z) (f : job_t → job_t) : G unit :=
  j ← vars jobs; x ← opt (arr_get j i); j' ← opt (arr_set j i (f x)); assign (set_jobs j').

Definition jobs_init : G unit :=
  gfor (Z.to_nat MAX_JOBS) 0 (λ i,
    upd_job i (λ j, Job 0 (job_pid j) (job_command j) (job_state j) (job_background j));;
    upd_job i (λ j, Job (job_id j) 0 (job_command j) (job_state j) (job_background j));;
    upd_job i (λ j, Job (job_id j) (job_pid j) (job_command j) JOB_STATE_DONE (job_background j)));;
  assign (set_jobs_initialized true).

Definition jobs_add (pid : Z) (command : list Z) (background : Z) : G Z :=
  init ← vars jobs_initialized;
  (if negb init then jobs_init else mret ());;
  r ← gfind (Z.to_nat MAX_JOBS) 0 (λ i,
    j ← get_job i;
    if job_pid j =? 0 then
      id ← vars next_job_id;
      next ← sys (int_of (id + 1));
      assign (set_next_job next);;
      upd_job i (λ j, Job id (job_pid j) (job_command j) (job_state j) (job_background j));;
      upd_job i (λ j, Job (job_id j) pid (job_command j) (job_state j) (job_background j));;
      j ← get_job i;
      c ← opt (strncpy (job_command j) command 255);
      c ← opt (arr_set c 255 0);
      upd_job i (λ j, Job (job_id j) (job_pid j) c JOB_STATE_RUNNING background);;
      (if negb (background =? 0) then
         say "[" 1;;
         put_int id 16;;
         say "] " 2;;
         put_int pid 16;;
         nl
       else mret ());;
      mret (Some id)
    else mret None);
  mret (default (-1) r).

Definition jobs_list : G unit :=
  init ← vars jobs_initialized;
  if negb init then mret () else
  say "Job ID  PID     State    Command
" 33;;
  say "------  -----   -------  --------
" 34;;
  gfor (Z.to_nat MAX_JOBS) 0 (λ i,
    j ← get_job i;
    if 0 <? job_pid j then
      num ← opt (int_to_str (job_id j) (fresh 16));
      say "[" 1;;
      put num;;
      say "]" 1;;
      say "     " 5;;
      num ← opt (int_to_str (job_pid j) num);
      put num;;
      say "     " 5;;
      put (bytes_of (if job_state j =? JOB_STATE_STOPPED then "Stopped"
                     else if job_state j =? JOB_STATE_DONE then "Done" else "Running"));;
      say "  " 2;;
      put (job_command j);;
      nl
    else mret ()).

(** The index of the job. *)
Definition jobs_get_by_id (id : Z) : G (option Z) :=
  init ← vars jobs_initialized;
  if negb init then mret None else
  gfind (Z.to_nat MAX_JOBS) 0 (λ i, j ← get_job i; mret (if job_id j =? id then Some i else None)).

Definition jobs_remove (pid : Z) : G unit :=
  init ← vars jobs_initialized;
  if negb init then mret () else
  gfind (Z.to_nat MAX_JOBS) 0 (λ i,
    j ← get_job i;
    if job_pid j =? pid then
      upd_job i (λ j, Job (job_id j) 0 (job_command j) JOB_STATE_DONE (job_background j));;
      mret (Some ())
    else mret None);;
  mret ().

(** ** The line on the screen and the history *)

(** [ESC [ n D], the sequence that moves the cursor back. *)
Definition cursor_back (back : Z) : G unit :=
  esc ← opt (arr_set (fresh 16) 0 27);
  esc ← opt (arr_set esc 1 91);
  num ← opt (int_to_str back (drop 2 esc));
  let esc := take 2 esc ++ num in
  let len := str_len esc in
  esc ← opt (arr_set esc len 68);
  esc ← opt (arr_set esc (len + 1) 0);
  put esc.

Definition redraw_line (prompt : list Z) : G unit :=
  sys (sys_write 1 [13; 0] 1);;
  sys (sys_write 1 [27; 91; 75; 0] 3);;
  put prompt;;
  b ← vars cmd_buffer;
  len ← vars cmd_len;
  pos ← vars cmd_pos;
  sys (sys_write 1 b len);;
  if pos <? len then cursor_back (len - pos) else mret ().

Definition hist_at (i : Z) : G (list Z) := h ← vars history; opt (arr_get h (Z.rem i HISTORY_SIZE)).

Definition add_to_history (cmd : list Z) : G unit :=
  if str_len cmd =? 0 then mret () else
  n ← vars history_count;
  dup ← (if 0 <? n then old ← hist_at (n - 1); mret (str_cmp (c_string old) (c_string cmd) =? 0) else mret false);
  if (dup : bool) then mret () else
  old ← hist_at n;
  new ← opt (strcpy old (c_string cmd));
  h ← vars history;
  h' ← opt (arr_set h (Z.rem n HISTORY_SIZE) new);
  n' ← sys (int_of (n + 1));
  assign (set_history h' n' n').

(** ** Parsing a command line *)

Record ParsedCommand : Type := Parsed {
  commands : list Z; input_file : option Z; output_file : option Z; append_output : bool; background : bool }.

(** [while (cmd[i] == ' ' || cmd[i] == '\t') i++]. *)
Fixpoint skip_space (n : nat) (cmd : list Z) (i : Z) : option Z :=
  match n with
  | O => None
  | S n' => c ← arr_get cmd i; if is_space c then skip_space n' cmd (i + 1) else Some i
  end.
(** The loop from index [i]; it goes through the array at most once. *)
Fixpoint split_line (n : nat) (cmd : list Z) (i : Z) (p : ParsedCommand) : option (list Z * ParsedCommand) :=
  match n with
  | O => None
  | S n' =>
      c ← arr_get cmd i;
      if c =? 0 then Some (cmd, p)
      else if c =? 124 then
        cmd ← arr_set cmd i 0;
        split_line n' cmd (i + 1)
          (if Z.of_nat (length (commands p)) <? MAX_ARGS - 1
           then Parsed (commands p ++ [i + 1]) (input_file p) (output_file p) (append_output p) (background p) else p)
      else if c =? 62 then
        cmd ← arr_set cmd i 0;
        c1 ← arr_get cmd (i + 1);
        r ← (if c1 =? 62 then cmd ← arr_set cmd (i + 1) 0; Some (cmd, true, i + 1) else Some (cmd, append_output p, i));
        let '(cmd, app, i) := r in
        i ← skip_space (length cmd) cmd (i + 1);
        Some (cmd, Parsed (commands p) (input_file p) (Some i) app (background p))
      else if c =? 60 then
        cmd ← arr_set cmd i 0;
        i ← skip_space (length cmd) cmd (i + 1);
        split_line n' cmd (i + 1) (Parsed (commands p) (Some i) (output_file p) (append_output p) (background p))
      else split_line n' cmd (i + 1) p
  end.
Definition parse_command_line (cmd : list Z) : option (list Z * ParsedCommand) :=
  let len := str_len cmd in
  r ← (if 0 <? len then
         c ← arr_get cmd (len - 1);
         if c =? 38 then cmd ← arr_set cmd (len - 1) 0; Some (cmd, true) else Some (cmd, false)
       else Some (cmd, false));
  let '(cmd, bg) := r in
  split_line (length cmd) cmd 0 (Parsed [0] None None false bg).

(** ** Commands *)

Definition v2_help : G unit :=
  say "Commands:
" 10;;
  say "  help     - Show this help
" 28;;
  say "  ps       - List processes
" 28;;
  say "  echo     - Print arguments
" 29;;
  say "  fork     - Test fork
" 23;;
  say "  stress   - Stress test
" 25;;
  say "  clear    - Clear screen
" 26;;
  say "  history  - Show command history
" 34;;
  say "  exit     - Exit shell
" 24;;
  say "
Features:
" 11;;
  say "  - Use UP/DOWN arrows for history
" 35;;
  say "  - Commands can be piped: cmd1 | cmd2
" 39;;
  say "  - Redirections: cmd > file, cmd < file
" 41;;
  say "  - Background: cmd &
" 22.

(** The conversion of "fg": other characters are skipped. *)
Fixpoint fg_number (s : list Z) (n : Z) : prog Z :=
  match s with
  | [] => mret n
  | c :: s' =>
      if (48 <=? c) && (c <=? 57) then
        n10 ← int_of (n * 10);
        n ← int_of (n10 + (c - 48));
        fg_number s' n
      else fg_number s' n
  end.
Definition v2_fg (args : list (list Z)) : G unit :=
  match args with
  | [] => say "Usage: fg <job_id>
" 19
  | a :: _ =>
      id ← sys (fg_number a 0);
      job ← jobs_get_by_id id;
      match job with
      | Some i =>
          loop (r ← kcall SysWait; j ← get_job i;
                mret (if negb (fst r =? job_pid j) && (0 <? fst r) then None else Some ()));;
          j ← get_job i;
          jobs_remove (job_pid j)
      | None => say "fg: no such job
" 16
      end
  end.

Definition v2_history : G unit :=
  n ← vars history_count;
  let start := if HISTORY_SIZE <? n then n - HISTORY_SIZE else 0 in
  gfor (Z.to_nat (n - start)) start (λ i,
    num ← opt (int_to_str (i + 1) (fresh 16));
    say "  " 2;;
    put num;;
    say "  " 2;;
    h ← hist_at i;
    put h;;
    nl).

(** A child for the program; the text of a background job is what parsing left
    of the command line at index [cmd].  The result is the status, if one was
    stored. *)
Definition v2_program (cmd : Z) (argv : list (list Z)) (bg : bool) : G (option Z) :=
  pid ← kcall SysFork;
  if pid =? 0 then
    kcall (SysExecve (hd [] argv) argv);;
    say "Command not found: " 19;;
    put (hd [] argv);;
    nl;;
    sys (sys_exit 1)
  else if 0 <? pid then
    if bg then
      b ← vars cmd_buffer;
      jobs_add pid (str_at b cmd) 1;;
      mret (Some (-1))
    else
      r ← kcall SysWait;
      mret (snd r)
  else mret (Some (-1)).

Definition execute_command_bg (cmd : Z) (bg : bool) : G (option Z) :=
  b ← vars cmd_buffer;
  r ← opt (parse_command b cmd);
  let '(b, offs) := r in
  assign (set_buffer b);;
  let argv := str_at b <$> offs in
  if Z.of_nat (length offs) =? 0 then mret (Some 0) else
  let name := hd [] argv in
  let args := tail argv in
  if is_cmd name "help" then v2_help;; mret (Some 0)
  else if is_cmd name "jobs" then jobs_list;; mret (Some 0)
  else if is_cmd name "fg" then v2_fg args;; mret (Some 0)
  else if is_cmd name "ps" then kcall SysPs;; mret (Some 0)
  else if is_cmd name "echo" then sys (cmd_echo args);; mret (Some 0)
  else if is_cmd name "history" then v2_history;; mret (Some 0)
  else if is_cmd name "clear" then sys cmd_clear;; mret (Some 0)
  else if is_cmd name "exit" then say "Goodbye!
" 9;; sys (sys_exit 0)
  else if is_cmd name "fork" then sys (cmd_fork fresh);; mret (Some 0)
  else if is_cmd name "stress" then sys (cmd_stress fresh);; mret (Some 0)
  else v2_program cmd argv bg.
Definition execute_command (cmd : Z) : G (option Z) := execute_command_bg cmd false.

(** The child that runs the first command: its parse of the command changes the
    buffer. *)
Definition pipe_writer (cmd1 rd wr : Z) : G unit :=
  kcall (SysClose rd);;
  b ← vars cmd_buffer;
  r ← opt (parse_command b cmd1);
  assign (set_buffer (fst r));;
  (if 0 <? Z.of_nat (length (snd r)) then
     kcall (SysDup2 wr 1);;
     kcall (SysClose wr);;
     execute_command cmd1;;
     mret ()
   else mret ());;
  kcall (SysClose wr);;
  sys (sys_exit 0).
(** The child that runs the second command. *)
Definition pipe_reader (cmd2 rd wr : Z) : G unit :=
  kcall (SysClose wr);;
  kcall (SysDup2 rd 0);;
  kcall (SysClose rd);;
  execute_command cmd2;;
  sys (sys_exit 0).
Definition execute_pipe (cmd1 cmd2 : Z) : G Z :=
  r ← kcall SysPipe;
  let '(ret, (rd, wr)) := r in
  if ret <? 0 then say "Failed to create pipe
" 22;; mret (-1) else
  pid1 ← kcall SysFork;
  (if pid1 =? 0 then pipe_writer cmd1 rd wr else mret ());;
  pid2 ← kcall SysFork;
  (if pid2 =? 0 then pipe_reader cmd2 rd wr else mret ());;
  kcall (SysClose rd);;
  kcall (SysClose wr);;
  kcall SysWait;;
  kcall SysWait;;
  mret 0.

(** ** Reading a line *)

(** [for (i = i0; i < i0 + n; i++) b[i] = b[i + 1]]. *)
Fixpoint move_down (n : nat) (i : Z) (b : list Z) : option (list Z) :=
  match n with O => Some b | S n' => x ← arr_get b (i + 1); b ← arr_set b i x; move_down n' (i + 1) b end.
(** [n] rounds of [b[i + k] = b[i]; i--]. *)
Fixpoint move_up (n : nat) (i k : Z) (b : list Z) : option (list Z) :=
  match n with O => Some b | S n' => x ← arr_get b i; b ← arr_set b (i + k) x; move_up n' (i - 1) k b end.
(** [for (j = 0; j < n; j++) b[i + j] = src[j]], for the [n] elements of
    [src]. *)
Fixpoint store_at (i : Z) (src b : list Z) : option (list Z) :=
  match src with [] => Some b | x :: src' => b ← arr_set b i x; store_at (i + 1) src' b end.

Definition key_backspace (prompt : list Z) : G unit :=
  b ← vars cmd_buffer; pos ← vars cmd_pos; len ← vars cmd_len;
  if 0 <? pos then
    b ← opt (move_down (Z.to_nat (len - pos)) (pos - 1) b);
    assign (set_line b (pos - 1) (len - 1));;
    redraw_line prompt
  else mret ().

(** [str_cpy(cmd_buffer, history[history_pos % HISTORY_SIZE])] and what
    follows. *)
Definition recall (prompt : list Z) : G unit :=
  p ← vars history_pos;
  h ← hist_at p;
  b ← vars cmd_buffer;
  b ← opt (strcpy b (c_string h));
  let len := str_len b in
  assign (set_line b len len);;
  redraw_line prompt.
Definition key_up (prompt : list Z) : G unit :=
  n ← vars history_count; p ← vars history_pos;
  if (0 <? n) && (0 <? p) then
    assign (set_history_pos (p - 1));;
    if p - 1 <? n then recall prompt else mret ()
  else mret ().
Definition key_down (prompt : list Z) : G unit :=
  n ← vars history_count; p ← vars history_pos;
  if p <? n - 1 then
    assign (set_history_pos (p + 1));;
    recall prompt
  else if p <? n then
    assign (set_history_pos n);;
    b ← vars cmd_buffer;
    b ← opt (arr_set b 0 0);
    assign (set_line b 0 0);;
    redraw_line prompt
  else mret ().
Definition key_right : G unit :=
  pos ← vars cmd_pos; len ← vars cmd_len; b ← vars cmd_buffer;
  if pos <? len then assign (set_line b (pos + 1) len);; sys (sys_write 1 [27; 91; 67; 0] 3);; mret () else mret ().
Definition key_left : G unit :=
  pos ← vars cmd_pos; len ← vars cmd_len; b ← vars cmd_buffer;
  if 0 <? pos then assign (set_line b (pos - 1) len);; sys (sys_write 1 [27; 91; 68; 0] 3);; mret () else mret ().
Definition key_escape (prompt : list Z) : G unit :=
  r ← sys (sys_read 0 2);
  let '(n, seq) := r in
  if n =? 2 then
    c0 ← opt (arr_get seq 0);
    c1 ← opt (arr_get seq 1);
    if c0 =? 91 then
      if c1 =? 65 then key_up prompt
      else if c1 =? 66 then key_down prompt
      else if c1 =? 67 then key_right
      else if c1 =? 68 then key_left
      else mret ()
    else mret ()
  else mret ().

Definition completions : list string :=
  ["help"; "ps"; "echo"; "fork"; "stress"; "ls"; "cat"; "kill"; "wc"; "grep"; "clear"; "exit"; "history"; "jobs"; "fg"].
(** [while (word_start > 0 && cmd_buffer[word_start - 1] != ' ') word_start--]. *)
Fixpoint word_start (n : nat) (b : list Z) : option nat :=
  match n with
  | O => Some 0%nat
  | S n' => c ← arr_get b (Z.of_nat n'); if c =? 32 then Some n else word_start n' b
  end.
(** The loop that compares a command, with its zero byte, and the partial
    word. *)
Fixpoint matches (cmd partial : list Z) {struct partial} : option bool :=
  match partial with
  | [] => Some true
  | p :: partial' => match cmd with [] => None | c :: cmd' => if c =? p then matches cmd' partial' else Some false end
  end.
(** The commands that match; [match] is the last of them. *)
Fixpoint all_matches (cs : list string) (partial : list Z) : option (list string) :=
  match cs with
  | [] => Some []
  | c :: cs' =>
      m ← matches (bytes_of c ++ [0]) partial;
      rest ← all_matches cs' partial;
      Some (if (m : bool) then c :: rest else rest)
  end.
(** Completing the word: the text behind the cursor is moved, with its zero
    byte, and the rest of the match goes in its place. *)
Definition complete (prompt : list Z) (m : list Z) (partial_len : nat) : G unit :=
  b ← vars cmd_buffer; pos ← vars cmd_pos; len ← vars cmd_len;
  let to_add := Z.of_nat (length m) - Z.of_nat partial_len in
  if len + to_add <? MAX_CMD_LEN - 1 then
    b ← opt (move_up (Z.to_nat (len - pos + 1)) len to_add b);
    b ← opt (store_at pos (drop partial_len m) b);
    assign (set_line b (pos + to_add) (len + to_add));;
    redraw_line prompt
  else mret ().
Definition key_tab (prompt : list Z) : G unit :=
  b ← vars cmd_buffer; pos ← vars cmd_pos;
  start ← opt (word_start (Z.to_nat pos) b);
  let partial := take (Z.to_nat pos - start) (drop start b) in
  ms ← opt (all_matches completions partial);
  match ms with
  | [] => mret ()
  | [m] => complete prompt (bytes_of m) (Z.to_nat pos - start)
  | _ =>
      nl;;
      gfor (length ms) 0 (λ i, m ← opt (arr_get ms i); put (bytes_of m);; say "  " 2);;
      nl;;
      redraw_line prompt
  end.

Definition key_char (c : Z) : G unit :=
  b ← vars cmd_buffer; pos ← vars cmd_pos; len ← vars cmd_len;
  b ← opt (move_up (Z.to_nat (len - pos)) (len - 1) 1 b);
  b ← opt (arr_set b pos c);
  b ← opt (arr_set b (len + 1) 0);
  assign (set_line b (pos + 1) (len + 1));;
  sys (sys_write 1 (drop (Z.to_nat pos) b) (len - pos + 1));;
  if pos + 1 <? len + 1 then cursor_back (len - pos) else mret ().

(** One round of the loop: one key. *)
Definition read_key (prompt : list Z) : G (option Z) :=
  r ← sys (sys_read 0 1);
  let '(n, buf) := r in
  if negb (n =? 1) then mret None else
  c ← opt (arr_get buf 0);
  if c =? 10 then
    nl;;
    b ← vars cmd_buffer; len ← vars cmd_len;
    b ← opt (arr_set b len 0);
    assign (set_buffer b);;
    mret (Some len)
  else if c =? 8 then key_backspace prompt;; mret None
  else if c =? 27 then key_escape prompt;; mret None
  else if c =? 9 then key_tab prompt;; mret None
  else
    len ← vars cmd_len;
    (if (32 <=? c) && (c <? 127) && (len <? MAX_CMD_LEN - 1) then key_char c else mret ());;
    mret None.
Definition read_line (prompt : list Z) : G Z :=
  b ← vars cmd_buffer;
  b ← opt (arr_set b 0 0);
  assign (set_line b 0 0);;
  put prompt;;
  loop (read_key prompt).

(** ** The main loop *)

(** [None] is [continue] after a failed open. *)
Definition redirect_in (f : option Z) : G (option Z) :=
  match f with
  | None => mret (Some (-1))
  | Some i =>
      b ← vars cmd_buffer;
      fd ← kcall (SysOpen (str_at b i) 0 0);
      if fd <? 0 then
        say "Failed to open input file: " 27;;
        put (str_at b i);;
        nl;;
        mret None
      else
        kcall (SysDup2 fd 0);;
        mret (Some fd)
  end.
Definition redirect_out (f : option Z) (saved_stdin : Z) : G (option Z) :=
  match f with
  | None => mret (Some (-1))
  | Some i =>
      b ← vars cmd_buffer;
      fd ← kcall (SysOpen (str_at b i) 1 0);
      if fd <? 0 then
        say "Failed to open output file: " 28;;
        put (str_at b i);;
        nl;;
        (if 0 <=? saved_stdin then kcall (SysClose saved_stdin) else mret ());;
        mret None
      else
        kcall (SysDup2 fd 1);;
        mret (Some fd)
  end.
(** One command with its redirections. *)
Definition run_redirected (cmd : Z) (p : ParsedCommand) : G unit :=
  i ← redirect_in (input_file p);
  match i with
  | None => mret ()
  | Some saved_stdin =>
      o ← redirect_out (output_file p) saved_stdin;
      match o with
      | None => mret ()
      | Some saved_stdout =>
          execute_command_bg cmd (background p);;
          (if 0 <=? saved_stdin then kcall (SysClose saved_stdin) else mret ());;
          (if 0 <=? saved_stdout then kcall (SysClose saved_stdout) else mret ())
      end
  end.

Definition v2_round : G unit :=
  n ← vars history_count;
  assign (set_history_pos n);;
  r ← read_line (bytes_of "$ ");
  if r <=? 0 then mret () else
  b ← vars cmd_buffer;
  add_to_history b;;
  r ← opt (parse_command_line b);
  let '(b, p) := r in
  assign (set_buffer b);;
  init ← vars jobs_initialized;
  (if negb init then jobs_init else mret ());;
  match commands p with
  | [c1; c2] => execute_pipe c1 c2;; mret ()
  | [c] => run_redirected c p
  | _ => say "Complex pipes/redirections not yet supported
" 45
  end.
Definition shell_v2_main : G unit :=
  say "
=== SimpleOS Shell v2 ===
" 27;;
  say "Enhanced with history and line editing
" 39;;
  say "Type 'help' for commands

" 26;;
  loop (v2_round;; mret None).
End shell_v2.

(** ** Rules for programs over the variables *)

Definition gruns {W} `{Env W} {A} (Q : A → shell → W → Prop) (X : Z → W → Prop) (m : G A) (s : shell) (w : W) : Prop :=
  runs (λ r w', Q r.1 r.2 w') X (m s) w.

Section gruns_rules.
Context {W : Type} `{Env W}.
Implicit Types w : W.

Lemma gruns_ret {A} (Q : A → shell → W → Prop) X a s w : Q a s w → gruns Q X (mret a) s w.
Proof. intros. by apply runs_mret. Qed.
Lemma gruns_seq {A B} (Q : B → shell → W → Prop) X (m : G A) (k : A → G B) s w :
  gruns (λ a s' w', gruns Q X (k a) s' w') X m s w → gruns Q X (m ≫= k) s w.
Proof. intros. by apply runs_seq. Qed.
Lemma gruns_mono {A} (P Q : A → shell → W → Prop) X (m : G A) s w :
  gruns P X m s w → (∀ a s' w', P a s' w' → Q a s' w') → gruns Q X m s w.
Proof. intros Hm Hq. eapply runs_mono; [exact Hm| |done]. intros [a s'] w'. apply Hq. Qed.
Lemma gruns_sys {A} (Q : A → shell → W → Prop) X (t : prog A) s w :
  runs (λ a w', Q a s w') X t w → gruns Q X (sys t) s w.
Proof. intros Ht. apply runs_seq. eapply runs_mono; [exact Ht| |done]. intros a w' Hq. by apply runs_mret. Qed.
Lemma gruns_vars {A} (Q : A → shell → W → Prop) X f s w : Q (f s) s w → gruns Q X (vars f) s w.
Proof. intros. by apply runs_mret. Qed.
Lemma gruns_assign (Q : unit → shell → W → Prop) X f s w : Q () (f s) w → gruns Q X (assign f) s w.
Proof. intros. by apply runs_mret. Qed.
Lemma gruns_opt {A} (Q : A → shell → W → Prop) X o a s w : o = Some a → Q a s w → gruns Q X (opt o) s w.
Proof. intros -> Hq. by apply gruns_sys, runs_mret. Qed.
(** The loop: each round lowers the measure. *)
Lemma gruns_loop {A} (P : nat → shell → W → Prop) (Q : A → shell → W → Prop) X (body : G (option A)) n s w :
  P n s w →
  (∀ n s w, P n s w → gruns (λ r s' w', match r with Some a => Q a s' w' | None => ∃ m, (m < n)%nat ∧ P m s' w' end) X body s w) →
  gruns Q X (loop body) s w.
Proof.
  intros Hp Hb. unfold gruns, loop. apply runs_iter with (P := P) (n := n); [done|]. intros k s' w' Hk.
  apply runs_seq. eapply runs_mono; [by apply Hb| |done]. intros [[a|] t] v; cbn; intros; by apply runs_mret.
Qed.
End gruns_rules.

Ltac g_step :=
  match goal with
  | |- gruns _ _ (_ ≫= _) _ _ => apply gruns_seq
  | |- gruns _ _ (mret _) _ _ => apply gruns_ret
  | |- gruns _ _ (vars _) _ _ => apply gruns_vars
  | |- gruns _ _ (assign _) _ _ => apply gruns_assign
  end.
Ltac g_go := repeat (g_step; cbn beta).

(** ** Moving characters in the buffer *)

Lemma move_down_spec m a x t : ∃ y, move_down (length m) (Z.of_nat (length a)) (a ++ x :: m ++ t) = Some (a ++ m ++ y :: t).
Proof.
  revert a x. induction m as [|z m IH]; intros a x; cbn [length move_down app]; [by exists x|].
  replace (a ++ x :: z :: m ++ t) with ((a ++ [x]) ++ z :: m ++ t) by by rewrite <- app_assoc.
  rewrite arr_get_at by (rewrite length_app; cbn; lia). cbn [mbind option_bind]. rewrite <- app_assoc. cbn [app].
  rewrite arr_set_at by done. cbn [mbind option_bind]. destruct (IH (a ++ [z]) z) as [y E]. exists y.
  rewrite <- !app_assoc in E. cbn [app] in E. rewrite <- E. f_equal. rewrite length_app. cbn. lia.
Qed.
Lemma move_up_spec m a t k i :
  (k ≤ length t)%nat → i = Z.of_nat (length a + length m) - 1 →
  ∃ g, length g = k ∧ move_up (length m) i (Z.of_nat k) (a ++ m ++ t) = Some (a ++ g ++ m ++ drop k t).
Proof.
  revert t i. induction m as [|x m IH] using rev_ind; intros t i Hk ->.
  { exists (take k t). rewrite length_take. split; [lia|]. cbn. by rewrite take_drop. }
  rewrite length_app. cbn [length]. rewrite Nat.add_1_r. cbn [move_up].
  rewrite <- (app_assoc m), (app_assoc a m). cbn [app].
  rewrite arr_get_at by (rewrite length_app; lia). cbn [mbind option_bind].
  rewrite arr_set_in by (rewrite !length_app; cbn; lia). cbn [mbind option_bind].
  rewrite insert_app_r_alt by (rewrite length_app; lia).
  replace (Z.to_nat _ - length (a ++ m))%nat with k by (rewrite length_app; lia).
  destruct (IH (<[k:=x]> (x :: t)) (Z.of_nat (length a + length m) - 1)) as (g & Hg & E); [rewrite length_insert; cbn; lia|done|].
  exists g. split; [done|]. rewrite <- app_assoc.
  replace (Z.of_nat (length a + S (length m)) - 1 - 1) with (Z.of_nat (length a + length m) - 1) by lia. rewrite E.
  rewrite (drop_S _ x) by (apply list_lookup_insert_eq; cbn; lia). rewrite drop_insert_lt by lia. by rewrite <- app_assoc.
Qed.
Lemma store_at_spec src a g t i : i = Z.of_nat (length a) → length g = length src → store_at i src (a ++ g ++ t) = Some (a ++ src ++ t).
Proof.
  revert a g i. induction src as [|x src IH]; intros a [|y g] i -> Hg; try done. cbn [store_at app]. rewrite arr_set_at by done.
  cbn [mbind option_bind]. specialize (IH (a ++ [x]) g (Z.of_nat (length a) + 1)). rewrite <- !app_assoc in IH. apply IH; [rewrite length_app; cbn; lia|].
  by injection Hg.
Qed.

(** ** The keyboard as an environment

    A read of standard input returns as many characters as it asks for, or
    fewer if one of them is a newline, which is then the last. *)
Fixpoint read_part (len : nat) (w : list Z) : option (list Z) :=
  match len, w with
  | O, _ => Some []
  | S _, [] => None
  | S len', c :: w' => if c =? 10 then Some [c] else p ← read_part len' w'; Some (c :: p)
  end.
Record typing : Type := Typing { typed : list Z }.
Definition typing_env A (e : sysE A) (w : typing) : A → typing → Prop :=
  match e with
  | SysWrite fd b => λ r w', r = Z.of_nat (length b) ∧ w' = w
  | SysRead fd len => λ '(r, buf) w', fd = 0 ∧ Z.of_nat (length buf) = len ∧
      ∃ p, read_part (Z.to_nat len) (typed w) = Some p ∧ r = Z.of_nat (length p) ∧ p `prefix_of` buf ∧ typed w = p ++ typed w'
  | _ => λ _ _, False
  end.
#[export] Instance typing_Env : Env typing := typing_env.

Lemma typing_write (Q : Z → typing → Prop) X fd s len w :
  0 ≤ len ≤ Z.of_nat (length s) → (∀ r, Q r w) → runs Q X (sys_write fd s len) w.
Proof. intros Hl Hq. unfold sys_write. case_if; [|lia]. apply runs_trigger; [by eexists _, _|]. intros a w' (-> & ->). apply Hq. Qed.
Lemma typing_read (Q : Z * list Z → typing → Prop) X p w :
  p ≠ [] → read_part (length p) (p ++ w) = Some p →
  (∀ r, r = Z.of_nat (length p) → Q (r, p) (Typing w)) → runs Q X (sys_read 0 (Z.of_nat (length p))) (Typing (p ++ w)).
Proof.
  intros Hp Hr Hq. apply runs_trigger.
  - exists (Z.of_nat (length p), p), (Typing w). cbn. split_and!; [done|done|]. exists p. by rewrite Nat2Z.id.
  - intros [r buf] [w']. cbn. rewrite Nat2Z.id. intros (_ & Hl & q & Eq & -> & [z ->] & Ew). rewrite Hr in Eq. injection Eq as <-.
    rewrite length_app in Hl. destruct z; [|cbn in Hl; lia]. rewrite app_nil_r. apply app_inv_head in Ew as <-. by apply Hq.
Qed.
Lemma typing_put (Q : unit → shell → typing → Prop) X p s w : Q () s w → gruns Q X (put p) s w.
Proof.
  intros Hq. apply gruns_sys. runs_go. unfold write_str, str_len. apply typing_write; [|intros r; by runs_go].
  pose proof (prefix_length _ _ (c_string_prefix p)). lia.
Qed.
Lemma typing_say (Q : unit → shell → typing → Prop) X str n s w :
  0 ≤ n ≤ Z.of_nat (length (bytes_of str)) + 1 → Q () s w → gruns Q X (say str n) s w.
Proof.
  intros Hn Hq. apply gruns_sys. runs_go. unfold write_lit. apply typing_write; [rewrite length_app; cbn; lia|intros r; by runs_go].
Qed.
Lemma typing_nl (Q : unit → shell → typing → Prop) X s w : Q () s w → gruns Q X nl s w.
Proof. intros Hq. apply gruns_sys. unfold newline. runs_go. apply typing_write; [cbn; lia|]. intros r. by runs_go. Qed.
Lemma typing_out (Q : Z → shell → typing → Prop) X b n s w :
  0 ≤ n ≤ Z.of_nat (length b) → (∀ r, Q r s w) → gruns Q X (sys (sys_write 1 b n)) s w.
Proof. intros Hn Hq. apply gruns_sys. by apply typing_write. Qed.

(** ** The line editor *)

(** The text left and right of the cursor, and the place in the history. *)
Record editor : Type := Ed { left : list Z; right : list Z; place : Z }.
Definition ed_text (e : editor) : list Z := left e ++ right e.

Inductive key : Type := KChar (c : Z) | KBackspace | KLeft | KRight | KUp | KDown | KTab.
(** The characters the keyboard driver delivers for a key. *)
Definition codes (k : key) : list Z :=
  match k with
  | KChar c => [c] | KBackspace => [8] | KTab => [9]
  | KUp => [27; 91; 65] | KDown => [27; 91; 66] | KRight => [27; 91; 67] | KLeft => [27; 91; 68]
  end.
Definition last_word (l : list Z) : list Z := default [] (last (fields (λ c, c =? 32) l)).

(** What a key does, with [entry i] the text of entry [i] of a history of [n]
    entries. *)
Definition ed_key (entry : Z → list Z) (n : Z) (e : editor) (k : key) : editor :=
  let '(Ed l r p) := e in
  match k with
  | KChar c => if (length (l ++ r) <? 255)%nat then Ed (l ++ [c]) r p else e
  | KBackspace => Ed (take (length l - 1) l) r p
  | KLeft => match last l with Some c => Ed (take (length l - 1) l) (c :: r) p | None => e end
  | KRight => match r with c :: r' => Ed (l ++ [c]) r' p | [] => e end
  | KUp => if (0 <? n) && (0 <? p) then if p - 1 <? n then Ed (entry (p - 1)) [] (p - 1) else Ed l r (p - 1) else e
  | KDown => if p <? n - 1 then Ed (entry (p + 1)) [] (p + 1) else if p <? n then Ed [] [] n else e
  | KTab =>
      let w := last_word l in
      match filter (λ m, w `prefix_of` m) (bytes_of <$> completions) with
      | [m] => if Z.of_nat (length (l ++ r)) + (Z.of_nat (length m) - Z.of_nat (length w)) <? 255 then Ed (l ++ drop (length w) m) r p else e
      | _ => e
      end
  end.

Definition printable (s : list Z) : Prop := Forall (λ c, 32 ≤ c < 127) s.
Definition key_ok (k : key) : Prop := match k with KChar c => 32 ≤ c < 127 | _ => True end.

(** The history holds strings. *)
Definition hist_ok (h : list (list Z)) : Prop :=
  length h = 10%nat ∧ Forall (λ a, length a = 256%nat ∧ (length (c_string a) ≤ 255)%nat ∧ printable (c_string a)) h.
Definition entry_of (h : list (list Z)) (i : Z) : list Z := c_string (default [] (arr_get h (Z.rem i HISTORY_SIZE))).

(** The variables [s] hold the editor [e]. *)
Record edits (h : list (list Z)) (n : Z) (e : editor) (s : shell) : Prop := {
  eb_len : length (cmd_buffer s) = 256%nat;
  eb_text : ed_text e `prefix_of` cmd_buffer s;
  eb_pos : cmd_pos s = Z.of_nat (length (left e));
  eb_cnt : cmd_len s = Z.of_nat (length (ed_text e));
  eb_fits : (length (ed_text e) ≤ 255)%nat;
  eb_print : printable (ed_text e);
  eb_hist : history s = h;
  eb_count : history_count s = n;
  eb_place : history_pos s = place e;
  eb_low : 0 ≤ place e ≤ n;
}.

Section editor.
Context (fresh : nat → list Z) (Hfresh : ∀ n, length (fresh n) = n) (h : list (list Z)) (Hh : hist_ok h) (n : Z).
Implicit Types e : editor.

(** The buffer with the text in front. *)
Lemma edits_buffer e s : edits h n e s → ∃ x t, cmd_buffer s = left e ++ right e ++ x :: t ∧ (length (left e) + length (right e) + S (length t) = 256)%nat.
Proof.
  intros [Hl [z Ez] _ _ Hf _ _ _ _ _]. unfold ed_text in *. rewrite Ez, length_app in Hl. destruct z as [|x t]; [rewrite !length_app in *; cbn in *; lia|].
  exists x, t. rewrite Ez, app_assoc. split; [done|]. rewrite length_app in Hl. cbn in Hl. lia.
Qed.
(** Setting the line to [b] whose text is that of [e]. *)
Lemma edits_set_line e e' s b t :
  edits h n e s → b = left e' ++ right e' ++ t → length b = 256%nat → (length (ed_text e') ≤ 255)%nat → printable (ed_text e') →
  place e' = place e →
  edits h n e' (set_line b (Z.of_nat (length (left e'))) (Z.of_nat (length (ed_text e'))) s).
Proof.
  intros [] Hb Hl Hf Hp Hpl. split; try done; [|by rewrite Hpl..]. exists t. unfold ed_text. by rewrite <- app_assoc.
Qed.
(** Moving the cursor. *)
Lemma edits_move e e' s :
  edits h n e s → ed_text e' = ed_text e → place e' = place e →
  edits h n e' (set_line (cmd_buffer s) (Z.of_nat (length (left e'))) (cmd_len s) s).
Proof. intros [] Ht Hp. split; rewrite ?Ht, ?Hp; done. Qed.
Lemma edits_printable e s : edits h n e s → printable (left e) ∧ printable (right e).
Proof. intros He. by apply Forall_app, (eb_print _ _ _ _ He). Qed.

Lemma gruns_cursor_back (Q : unit → shell → typing → Prop) X back s w :
  0 ≤ back ≤ 255 → Q () s w → gruns Q X (cursor_back fresh back) s w.
Proof.
  intros Hb HQ. assert (H16 := Hfresh 16). destruct (fresh 16) as [|a [|b f]] eqn:E; [done..|]. cbn in H16.
  unfold cursor_back. rewrite E. g_go. eapply gruns_opt; [apply (arr_set_at [] a); done|]. cbn [app]. g_go.
  eapply gruns_opt; [apply (arr_set_at [27] b); done|]. cbn [app drop take]. g_go.
  destruct (int_to_str_ok back f) as (num & En & Hn & Hd); [lia|lia|]. eapply gruns_opt; [exact En|].
  assert (Hc : c_string (27 :: 91 :: num) = 27 :: 91 :: c_string num) by done.
  assert (Hdl : (length (c_string num) ≤ 3)%nat).
  { destruct Hd as (_ & _ & _ & Hd). destruct (decide (length (c_string num) ≤ 3)%nat); [done|exfalso].
    assert (10 ^ 3 ≤ 10 ^ (Z.of_nat (length (c_string num)) - 1)) by (apply Z.pow_le_mono_r; lia). lia. }
  rewrite take_0. cbn [app]. unfold str_len. rewrite Hc. cbn [length]. g_go.
  eapply gruns_opt; [apply arr_set_in; cbn; lia|]. g_go. eapply gruns_opt; [apply arr_set_in; rewrite length_insert; cbn; lia|].
  by apply typing_put.
Qed.
Lemma gruns_redraw (Q : unit → shell → typing → Prop) X prompt e s w :
  edits h n e s → Q () s w → gruns Q X (redraw_line fresh prompt) s w.
Proof.
  intros He HQ. destruct He as [Hl _ Hp Hc Hf _ _ _ _ _]. unfold redraw_line. g_go. apply typing_out; [cbn; lia|]. intros _.
  g_go. apply typing_out; [cbn; lia|]. intros _. g_go. apply typing_put. g_go. apply typing_out; [lia|]. intros _.
  destruct (Z.ltb_spec (cmd_pos s) (cmd_len s)); [|by g_go]. apply gruns_cursor_back; [|done]. lia.
Qed.

(** ** The keys *)

Definition key_runs (X : Z → typing → Prop) (m : G unit) (e : editor) (k : key) (s : shell) (w : typing) : Prop :=
  gruns (λ _ s' w', w' = w ∧ edits h n (ed_key (entry_of h) n e k) s') X m s w.

Lemma removelast_app (l : list Z) : l ≠ [] → ∃ l' c, l = l' ++ [c] ∧ take (length l - 1) l = l' ∧ last l = Some c.
Proof.
  intros Hl. destruct l as [|c l' _] using rev_ind; [done|]. exists l', c. split; [done|]. rewrite length_app, last_snoc. cbn.
  by rewrite Nat.add_sub, take_app_length.
Qed.

Lemma run_key_left X e s w : edits h n e s → key_runs X key_left e KLeft s w.
Proof.
  intros He. destruct (edits_buffer e s He) as (x & t & Eb & Hlen). unfold key_left, key_runs. g_go. rewrite (eb_pos _ _ _ _ He).
  destruct e as [l r p]. cbn [left right ed_key] in *. destruct (decide (l = [])) as [->|Hl].
  { change (0 <? _) with false. cbn beta iota. g_go. done. }
  destruct (removelast_app l Hl) as (l' & c & -> & -> & ->). rewrite length_app. cbn [length].
  rewrite (proj2 (Z.ltb_lt 0 _)) by lia. g_go. apply typing_out; [cbn; lia|]. intros _. g_go. split; [done|].
  replace (Z.of_nat (length l' + 1) - 1) with (Z.of_nat (length l')) by lia.
  apply (edits_move _ (Ed l' (c :: r) p) s He); [|done]. unfold ed_text. cbn. by rewrite <- app_assoc.
Qed.
Lemma run_key_right X e s w : edits h n e s → key_runs X key_right e KRight s w.
Proof.
  intros He. unfold key_right, key_runs. g_go. rewrite (eb_pos _ _ _ _ He).
  replace (cmd_len s) with (Z.of_nat (length (left e) + length (right e))) by by rewrite (eb_cnt _ _ _ _ He), <- length_app.
  destruct e as [l [|c r] p]; cbn [left right ed_key length] in *.
  { rewrite (proj2 (Z.ltb_ge _ _)) by lia. by g_go. }
  rewrite (proj2 (Z.ltb_lt _ _)) by lia. g_go. apply typing_out; [cbn; lia|]. intros _. g_go. split; [done|].
  pose proof (edits_move _ (Ed (l ++ [c]) r p) s He) as Hm. unfold ed_text in Hm. cbn [left right place] in Hm. rewrite length_app in Hm.
  replace (Z.of_nat (length l) + 1) with (Z.of_nat (length l + length [c])) by (cbn; lia).
  replace (Z.of_nat (length l + S (length r))) with (cmd_len s) by by rewrite (eb_cnt _ _ _ _ He); unfold ed_text; rewrite length_app.
  apply Hm; [by rewrite <- app_assoc|done].
Qed.

Lemma run_key_backspace X prompt e s w : edits h n e s → key_runs X (key_backspace fresh prompt) e KBackspace s w.
Proof.
  intros He. destruct (edits_buffer e s He) as (x & t & Eb & Hlen). unfold key_backspace, key_runs. g_go. rewrite (eb_pos _ _ _ _ He).
  pose proof (eb_cnt _ _ _ _ He) as Hc. destruct e as [l r p]. unfold ed_text in Hc. cbn [left right ed_key] in *.
  destruct (decide (l = [])) as [->|Hl].
  { change (0 <? _) with false. cbn beta iota. g_go. done. }
  destruct (removelast_app l Hl) as (l' & c & -> & -> & _). rewrite length_app in *. cbn [length] in *.
  rewrite (proj2 (Z.ltb_lt 0 _)) by lia. rewrite length_app in Hc. cbn [length] in Hc.
  destruct (move_down_spec r l' c (x :: t)) as [y Ey]. g_go. eapply gruns_opt.
  { rewrite Eb, Hc, <- app_assoc. cbn [app]. replace (Z.to_nat _) with (length r) by lia.
    replace (Z.of_nat (length l' + 1) - 1) with (Z.of_nat (length l')) by lia. exact Ey. }
  g_go. rewrite Hc. replace (Z.of_nat (length l' + 1) - 1) with (Z.of_nat (length l')) by lia.
  replace (Z.of_nat _ - 1) with (Z.of_nat (length (ed_text (Ed l' r p)))) by (unfold ed_text; rewrite length_app; cbn; lia).
  destruct (edits_printable _ s He) as [Hpl Hpr]. apply Forall_app in Hpl as [Hpl _].
  assert (He' : edits h n (Ed l' r p) (set_line (l' ++ r ++ y :: x :: t) (Z.of_nat (length l')) (Z.of_nat (length (ed_text (Ed l' r p)))) s)).
  { apply (edits_set_line _ (Ed l' r p) s _ (y :: x :: t) He); try done.
    - rewrite !length_app. cbn [length]. lia.
    - unfold ed_text. rewrite length_app. cbn [left right]. lia.
    - by apply Forall_app. }
  by apply (gruns_redraw _ _ _ (Ed l' r p)).
Qed.

Lemma run_key_char X c e s w : 32 ≤ c < 127 → edits h n e s → (length (ed_text e) < 255)%nat → key_runs X (key_char fresh c) e (KChar c) s w.
Proof.
  intros Hcc He Hlt. destruct (edits_buffer e s He) as (x & t & Eb & Hlen). unfold key_char, key_runs. g_go.
  pose proof (eb_cnt _ _ _ _ He) as Hc. rewrite (eb_pos _ _ _ _ He). destruct e as [l r p]. unfold ed_text in *. cbn [left right ed_key] in *.
  rewrite (proj2 (Nat.ltb_lt _ 255)) by done. rewrite length_app in *.
  destruct (move_up_spec r l (x :: t) 1 (cmd_len s - 1)) as (g & Hg & E); [cbn; lia|lia|]. destruct g as [|g0 [|]]; [done| |done].
  eapply gruns_opt; [rewrite Eb, <- E; f_equal; lia|]. cbn [app drop]. g_go. eapply gruns_opt; [by apply arr_set_at|]. g_go.
  destruct t as [|t0 t]; [cbn in Hlen; lia|]. cbn [drop]. eapply gruns_opt.
  { replace (l ++ c :: r ++ t0 :: t) with ((l ++ c :: r) ++ t0 :: t) by by rewrite <- app_assoc. apply arr_set_at. rewrite Hc, length_app. cbn. lia. }
  g_go. rewrite <- app_assoc. cbn [app]. apply typing_out; [rewrite Nat2Z.id, drop_app_length; cbn [length]; rewrite length_app; cbn; lia|]. intros _.
  destruct (edits_printable _ s He) as [Hpl Hpr].
  assert (He' : edits h n (Ed (l ++ [c]) r p) (set_line (l ++ c :: r ++ 0 :: t) (Z.of_nat (length l) + 1) (cmd_len s + 1) s)).
  { replace (Z.of_nat (length l) + 1) with (Z.of_nat (length (left (Ed (l ++ [c]) r p)))) by (cbn; rewrite length_app; cbn; lia).
    replace (cmd_len s + 1) with (Z.of_nat (length (ed_text (Ed (l ++ [c]) r p)))) by (unfold ed_text; cbn; rewrite !length_app; cbn; lia).
    apply (edits_set_line _ (Ed (l ++ [c]) r p) s _ (0 :: t) He); try done.
    - cbn. by rewrite <- !app_assoc.
    - rewrite !length_app. cbn [length]. rewrite length_app. cbn in *. lia.
    - unfold ed_text. cbn [left right]. rewrite !length_app. cbn [length]. lia.
    - unfold ed_text, printable. cbn. rewrite !Forall_app. split_and!; [done|by constructor|done]. }
  case_if; [apply gruns_cursor_back; [lia|done]|by g_go].
Qed.

(** Changing the place in the history keeps the line. *)
Lemma edits_place e s p : edits h n e s → 0 ≤ p ≤ n → edits h n (Ed (left e) (right e) p) (set_history_pos p s).
Proof. intros [] Hp. by split. Qed.
Lemma hist_entry i : 0 ≤ i → ∃ a, arr_get h (Z.rem i HISTORY_SIZE) = Some a ∧ entry_of h i = c_string a ∧
  (length (c_string a) ≤ 255)%nat ∧ printable (c_string a).
Proof.
  intros Hi. destruct Hh as [Hl Hf]. unfold HISTORY_SIZE. assert (Hr : 0 ≤ Z.rem i 10 < 10) by (apply Z.rem_bound_pos; lia).
  destruct (lookup_lt_is_Some_2 h (Z.to_nat (Z.rem i 10))) as [a Ea]; [lia|].
  assert (Eg : arr_get h (Z.rem i 10) = Some a) by (unfold arr_get; rewrite (proj2 (Z.leb_le 0 _)) by lia; done).
  exists a. split; [done|]. unfold entry_of, HISTORY_SIZE. rewrite Eg. cbn. split; [done|].
  eapply Forall_lookup_1 in Hf; [|exact Ea]. naive_solver.
Qed.
Lemma run_recall (Q : unit → shell → typing → Prop) X prompt e s w :
  edits h n e s → (∀ s', edits h n (Ed (entry_of h (place e)) [] (place e)) s' → Q () s' w) →
  gruns Q X (recall fresh prompt) s w.
Proof.
  intros He HQ. destruct (hist_entry (place e)) as (a & Ea & En & Hl & Hp); [apply He|].
  unfold recall, hist_at. g_go. rewrite (eb_hist _ _ _ _ He), (eb_place _ _ _ _ He). eapply gruns_opt; [exact Ea|]. g_go.
  assert (Hb := eb_len _ _ _ _ He). set (b := c_string a ++ 0 :: drop (S (length (c_string a))) (cmd_buffer s)).
  eapply gruns_opt; [unfold strcpy; rewrite (proj2 (Nat.ltb_lt _ _)) by lia; reflexivity|]. fold b.
  assert (Hs : str_len b = Z.of_nat (length (c_string a))).
  { unfold str_len, b. by rewrite c_string_app by apply c_string_no_nul. }
  rewrite Hs. g_go. set (e' := Ed (entry_of h (place e)) [] (place e)).
  assert (Ht : ed_text e' = c_string a) by (unfold ed_text; cbn; by rewrite app_nil_r).
  assert (He' : edits h n e' (set_line b (Z.of_nat (length (c_string a))) (Z.of_nat (length (c_string a))) s)).
  { rewrite <- Ht at 2. rewrite <- En. apply (edits_set_line e e' s b (0 :: drop (S (length (c_string a))) (cmd_buffer s)) He).
    - cbn. by rewrite En.
    - unfold b. rewrite length_app. cbn [length]. rewrite length_drop. lia.
    - by rewrite Ht.
    - by rewrite Ht.
    - done. }
  apply (gruns_redraw _ _ _ e'); [done|]. by apply HQ.
Qed.
Lemma run_key_up X prompt e s w : edits h n e s → key_runs X (key_up fresh prompt) e KUp s w.
Proof.
  intros He. unfold key_up, key_runs. g_go. rewrite (eb_count _ _ _ _ He), (eb_place _ _ _ _ He). pose proof (eb_low _ _ _ _ He) as Hp.
  destruct e as [l r p]. cbn [place ed_key] in *. destruct ((0 <? n) && (0 <? p)) eqn:E; [|by g_go]. propify. g_go.
  pose proof (edits_place _ s (p - 1) He ltac:(lia)) as He'. cbn [left right] in He'.
  destruct (p - 1 <? n); [|by g_go]. apply (run_recall _ _ _ (Ed l r (p - 1))); [done|]. by split.
Qed.
Lemma run_key_down X prompt e s w : edits h n e s → key_runs X (key_down fresh prompt) e KDown s w.
Proof.
  intros He. unfold key_down, key_runs. g_go. rewrite (eb_count _ _ _ _ He), (eb_place _ _ _ _ He). pose proof (eb_low _ _ _ _ He) as Hp.
  destruct e as [l r p]. cbn [place ed_key] in *. destruct (Z.ltb_spec p (n - 1)).
  { g_go. pose proof (edits_place _ s (p + 1) He ltac:(lia)) as He'. cbn [left right] in He'.
    apply (run_recall _ _ _ (Ed l r (p + 1))); [done|]. by split. }
  destruct (Z.ltb_spec p n); [|by g_go]. g_go. pose proof (edits_place _ s n He ltac:(lia)) as He'. cbn [left right] in He'.
  pose proof (eb_len _ _ _ _ He) as Hb. cbn [cmd_buffer set_history_pos set_history]. destruct (cmd_buffer s) as [|x b] eqn:Eb; [done|].
  eapply gruns_opt; [by apply (arr_set_at [] x)|]. g_go. cbn [app].
  assert (He2 : edits h n (Ed [] [] n) (set_line (0 :: b) 0 0 (set_history_pos n s))).
  { apply (edits_set_line _ (Ed [] [] n) _ (0 :: b) (0 :: b) He'); try done; [cbn; lia|by apply List.Forall_nil]. }
  by apply (gruns_redraw _ _ _ (Ed [] [] n)).
Qed.

(** ** Completion *)

Lemma last_word_snoc l c : last_word (l ++ [c]) = if c =? 32 then [] else last_word l ++ [c].
Proof.
  unfold last_word. destruct (fields_snoc (λ c, c =? 32) l c) as (fs & f & -> & ->). rewrite last_snoc.
  destruct (c =? 32); [|by rewrite last_snoc]. change [f; []] with ([f] ++ [[]]). by rewrite app_assoc, last_snoc.
Qed.
Lemma last_word_suffix l : ∃ a, l = a ++ last_word l.
Proof.
  induction l as [|c l [a E]] using rev_ind; [by exists []|]. rewrite last_word_snoc. destruct (c =? 32).
  - exists (l ++ [c]). by rewrite app_nil_r.
  - exists a. by rewrite app_assoc, <- E.
Qed.
Lemma word_start_spec l x : word_start (length l) (l ++ x) = Some (length l - length (last_word l))%nat.
Proof.
  revert x. induction l as [|c l IH] using rev_ind; intros x; [done|]. rewrite length_app. cbn [length]. rewrite Nat.add_1_r.
  cbn [word_start]. rewrite <- app_assoc. cbn [app]. rewrite arr_get_middle. cbn [mbind option_bind]. rewrite last_word_snoc.
  destruct (c =? 32); [cbn; f_equal; lia|]. rewrite IH, length_app. cbn [length]. f_equal. lia.
Qed.
Lemma matches_spec c partial : no_nul partial → matches (c ++ [0]) partial = Some (bool_decide (partial `prefix_of` c)).
Proof.
  intros Hp. revert c. induction Hp as [|p partial Hp0 _ IH]; intros c; cbn [matches].
  { by rewrite bool_decide_eq_true_2 by apply prefix_nil. }
  destruct c as [|x c]; cbn [app].
  - rewrite (proj2 (Z.eqb_neq 0 p)) by done. by rewrite bool_decide_eq_false_2 by apply prefix_nil_not.
  - destruct (Z.eqb_spec x p) as [->|Hne].
    + rewrite IH. f_equal. apply bool_decide_ext. split; [apply prefix_cons|apply prefix_cons_inv_2].
    + rewrite bool_decide_eq_false_2; [done|]. intros E%prefix_cons_inv_1. done.
Qed.
Lemma all_matches_spec cs partial : no_nul partial →
  ∃ ms, all_matches cs partial = Some ms ∧ bytes_of <$> ms = filter (λ m, partial `prefix_of` m) (bytes_of <$> cs).
Proof.
  intros Hp. induction cs as [|c cs (ms & E & Em)]; [by exists []|]. cbn [all_matches]. rewrite matches_spec by done.
  cbn [mbind option_bind]. rewrite E. cbn [mbind option_bind fmap list_fmap]. destruct (bool_decide_reflect (partial `prefix_of` bytes_of c)).
  - exists (c :: ms). rewrite filter_cons_True by done. cbn. by rewrite Em.
  - exists ms. by rewrite filter_cons_False.
Qed.
Lemma printable_no_nul s : printable s → no_nul s.
Proof. intros Hs. eapply Forall_impl; [exact Hs|]. intros c Hc. cbn in *. lia. Qed.
Lemma completions_printable m : m ∈ bytes_of <$> completions → printable m.
Proof.
  intros Hm. assert (Hall : Forall (λ m, forallb (λ c, (32 <=? c) && (c <? 127)) m = true) (bytes_of <$> completions)) by (by repeat constructor).
  eapply Forall_forall in Hall; [|exact Hm]. apply Forall_forall. intros c Hc%list_elem_of_In. rewrite forallb_forall in Hall.
  specialize (Hall c Hc). propify. lia.
Qed.

Lemma run_complete (Q : unit → shell → typing → Prop) X prompt e s w m :
  edits h n e s → printable m → last_word (left e) `prefix_of` m →
  let k := length (last_word (left e)) in
  let '(Ed l r p) := e in
  (∀ s', edits h n (if Z.of_nat (length (l ++ r)) + (Z.of_nat (length m) - Z.of_nat k) <? 255 then Ed (l ++ drop k m) r p else e) s' → Q () s' w) →
  gruns Q X (complete fresh prompt m k) s w.
Proof.
  intros He Hm [y Ey] k. destruct (edits_buffer e s He) as (x & t & Eb & Hlen). pose proof (eb_cnt _ _ _ _ He) as Hc.
  pose proof (eb_pos _ _ _ _ He) as Hpos. destruct (edits_printable _ s He) as [Hpl Hpr]. destruct e as [l r p]. unfold ed_text in Hc. cbn [left right] in *. intros HQ.
  assert (Hk : length m = (k + length y)%nat) by (rewrite Ey; apply length_app). assert (Hd : drop k m = y) by (rewrite Ey; apply drop_app_length).
  unfold complete. g_go. rewrite Hpos, Hc. change (MAX_CMD_LEN - 1) with 255. replace (Z.of_nat (length m) - Z.of_nat k) with (Z.of_nat (length y)) in * by lia.
  destruct (Z.ltb_spec (Z.of_nat (length (l ++ r)) + Z.of_nat (length y)) 255) as [Hlt|]; [|g_go; by apply HQ]. g_go.
  rewrite length_app in *.
  destruct (move_up_spec (r ++ [x]) l t (length y) (Z.of_nat (length l + length r))) as (g & Hg & E); [lia|rewrite length_app; cbn; lia|].
  eapply gruns_opt.
  { rewrite Eb. replace (r ++ x :: t) with ((r ++ [x]) ++ t) by by rewrite <- app_assoc.
    replace (Z.to_nat _) with (length (r ++ [x])) by (rewrite length_app; cbn; lia). exact E. }
  g_go. eapply gruns_opt; [rewrite Hd; by apply store_at_spec|]. g_go. rewrite Hd in HQ. set (e' := Ed (l ++ y) r p).
  assert (He' : edits h n e' (set_line (l ++ y ++ (r ++ [x]) ++ drop (length y) t) (Z.of_nat (length l) + Z.of_nat (length y)) (Z.of_nat (length l + length r) + Z.of_nat (length y)) s)).
  { replace (Z.of_nat (length l) + Z.of_nat (length y)) with (Z.of_nat (length (left e'))) by (cbn; rewrite length_app; lia).
    replace (Z.of_nat (length l + length r) + Z.of_nat (length y)) with (Z.of_nat (length (ed_text e'))) by (unfold ed_text; cbn; rewrite !length_app; lia).
    apply (edits_set_line _ e' s _ (x :: drop (length y) t) He); try done.
    - cbn. by rewrite <- !app_assoc.
    - rewrite !length_app, length_drop. cbn [length]. lia.
    - unfold ed_text. cbn [left right e']. rewrite !length_app. lia.
    - unfold ed_text, printable. cbn. rewrite !Forall_app. split_and!; [done| |done]. rewrite Ey in Hm. by apply Forall_app in Hm as [_ ?]. }
  apply (gruns_redraw _ _ _ e'); [done|]. by apply HQ.
Qed.

(** The list of candidates is printed. *)
Lemma run_candidates (Q : unit → shell → typing → Prop) X (ms : list string) k i s w :
  0 ≤ i → i + Z.of_nat k ≤ Z.of_nat (length ms) → Q () s w →
  gruns Q X (gfor k i (λ i, m ← opt (arr_get ms i); put (bytes_of m);; say "  " 2)) s w.
Proof.
  revert i. induction k as [|k IH]; intros i Hi Hk HQ; cbn [gfor]; [by g_go|]. g_go.
  destruct (lookup_lt_is_Some_2 ms (Z.to_nat i)) as [m Em]; [lia|]. eapply gruns_opt.
  { unfold arr_get. rewrite (proj2 (Z.leb_le 0 i)) by lia. exact Em. }
  g_go. apply typing_put. apply typing_say; [cbn; lia|]. apply IH; [lia|lia|done].
Qed.
Lemma run_key_tab X prompt e s w : edits h n e s → key_runs X (key_tab fresh prompt) e KTab s w.
Proof.
  intros He. destruct (edits_buffer e s He) as (x & t & Eb & Hlen). destruct (edits_printable _ s He) as [Hpl _].
  unfold key_tab, key_runs. g_go. rewrite (eb_pos _ _ _ _ He), Nat2Z.id, Eb. eapply gruns_opt; [apply word_start_spec|].
  destruct (last_word_suffix (left e)) as [a Ea]. set (lw := last_word (left e)) in *.
  assert (Hle : length (left e) = (length a + length lw)%nat) by (rewrite Ea at 1; apply length_app).
  replace (length (left e) - (length (left e) - length lw))%nat with (length lw) by lia.
  assert (Ep : take (length lw) (drop (length (left e) - length lw) (left e ++ right e ++ x :: t)) = lw).
  { replace (length (left e) - length lw)%nat with (length a) by lia. rewrite Ea at 1. by rewrite <- app_assoc, drop_app_length, take_app_length. }
  rewrite Ep. destruct (all_matches_spec completions lw) as (ms & E & Em).
  { apply printable_no_nul. rewrite Ea in Hpl. by apply Forall_app in Hpl as [_ ?]. }
  g_go. eapply gruns_opt; [exact E|]. destruct e as [l r p]. cbn [left right ed_key] in *. fold lw. rewrite <- Em.
  destruct ms as [|m [|m2 ms]]; cbn [fmap list_fmap].
  - by g_go.
  - assert (Hin : bytes_of m ∈ filter (λ m, lw `prefix_of` m) (bytes_of <$> completions)) by (rewrite <- Em; cbn; set_solver).
    apply list_elem_of_filter in Hin as [Hpre Hin]. apply completions_printable in Hin.
    apply (run_complete _ _ _ (Ed l r p)); [done|done|done|]. by split.
  - g_go. apply typing_nl. g_go. apply run_candidates; [lia|lia|]. g_go. apply typing_nl. by apply (gruns_redraw _ _ _ (Ed l r p)).
Qed.

(** ** The loop *)

Lemma read_one (Q : Z * list Z → shell → typing → Prop) X c w s :
  Q (1, [c]) s (Typing w) → gruns Q X (sys (sys_read 0 1)) s (Typing (c :: w)).
Proof.
  intros HQ. apply gruns_sys. apply (typing_read _ X [c] w); [done|cbn; by destruct (c =? 10)|]. intros r ->. done.
Qed.
Lemma run_escape X prompt e s w k b m :
  b ≠ 10 → key_runs X m e k s (Typing w) →
  (if b =? 65 then key_up fresh prompt else if b =? 66 then key_down fresh prompt else if b =? 67 then key_right
   else if b =? 68 then key_left else mret ()) = m →
  gruns (λ _ s' w', w' = Typing w ∧ edits h n (ed_key (entry_of h) n e k) s') X (key_escape fresh prompt) s (Typing (91 :: b :: w)).
Proof.
  intros Hb Hm Hk. unfold key_escape. g_go. apply gruns_sys. apply (typing_read _ X [91; b] w); [done|cbn; by rewrite (proj2 (Z.eqb_neq b 10))|].
  intros r ->. change (Z.of_nat (length [91; b]) =? 2) with true. cbn beta iota. g_go. eapply gruns_opt; [done|]. g_go. eapply gruns_opt; [done|].
  cbn beta iota. change (91 =? 91) with true. cbn beta iota. by rewrite Hk.
Qed.
(** A key is read and does to the variables what it does to the editor. *)
Lemma run_read_key X prompt e k s w :
  edits h n e s → key_ok k →
  gruns (λ r s' w', r = None ∧ w' = Typing w ∧ edits h n (ed_key (entry_of h) n e k) s') X (read_key fresh prompt) s (Typing (codes k ++ w)).
Proof.
  intros He Hk. unfold read_key. g_go.
  destruct k; cbn [codes app]; apply read_one; change (negb (1 =? 1)) with false; cbn beta iota; g_go; (eapply gruns_opt; [done|]); g_go.
  2-7: cbn [Z.eqb Pos.eqb]; g_go.
  - cbn in Hk. rewrite (proj2 (Z.eqb_neq c 10)), (proj2 (Z.eqb_neq c 8)), (proj2 (Z.eqb_neq c 27)), (proj2 (Z.eqb_neq c 9)) by lia. g_go.
    rewrite (proj2 (Z.leb_le 32 c)), (proj2 (Z.ltb_lt c 127)), (eb_cnt _ _ _ _ He) by lia. cbn [andb]. change (MAX_CMD_LEN - 1) with 255.
    destruct (Z.ltb_spec (Z.of_nat (length (ed_text e))) 255).
    + eapply gruns_mono; [apply run_key_char; [done|exact He|lia]|]. intros [] s' w' [-> He']. by g_go.
    + g_go. split_and!; [done..|]. destruct e as [l r p]. cbn [ed_key]. rewrite (proj2 (Nat.ltb_ge _ _)); [done|]. unfold ed_text in *. cbn in *. lia.
  - eapply gruns_mono; [by apply run_key_backspace|]. intros [] s' w' [-> He']. by g_go.
  - eapply gruns_mono; [eapply (run_escape X prompt e s w KLeft 68); [lia|by apply run_key_left|done]|]. intros [] s' w' [-> He']. by g_go.
  - eapply gruns_mono; [eapply (run_escape X prompt e s w KRight 67); [lia|by apply run_key_right|done]|]. intros [] s' w' [-> He']. by g_go.
  - eapply gruns_mono; [eapply (run_escape X prompt e s w KUp 65); [lia|by apply run_key_up|done]|]. intros [] s' w' [-> He']. by g_go.
  - eapply gruns_mono; [eapply (run_escape X prompt e s w KDown 66); [lia|by apply run_key_down|done]|]. intros [] s' w' [-> He']. by g_go.
  - eapply gruns_mono; [by apply run_key_tab|]. intros [] s' w' [-> He']. by g_go.
Qed.

(** C15 (refinement): [read_line] is a line editor: whatever is typed, characters,
    backspace, the arrows, the history keys and completion, followed by
    Enter, it returns with the text that the same keys give in an editor on
    the text left and right of the cursor, as a string in [cmd_buffer], and its
    length.  Nothing is read or written outside the arrays, nothing behind the
    newline is read, and the history is as it was. *)
Theorem read_line_edits X prompt ks s w :
  length (cmd_buffer s) = 256%nat → history s = h → history_count s = n → 0 ≤ history_pos s ≤ n → Forall key_ok ks →
  gruns (λ r s' w',
      let e := foldl (ed_key (entry_of h) n) (Ed [] [] (history_pos s)) ks in
      r = Z.of_nat (length (ed_text e)) ∧ c_string (cmd_buffer s') = ed_text e ∧ (length (ed_text e) ≤ 255)%nat ∧
      history s' = h ∧ history_count s' = n ∧ w' = Typing w)
    X (read_line fresh prompt) s (Typing (concat (codes <$> ks) ++ 10 :: w)).
Proof.
  intros Hb Eh En Hp Hks. unfold read_line. g_go. destruct (cmd_buffer s) as [|x b] eqn:Eb; [done|].
  eapply gruns_opt; [by apply (arr_set_at [] x)|]. g_go. cbn [app]. apply typing_put.
  set (e0 := Ed [] [] (history_pos s)). set (s0 := set_line (0 :: b) 0 0 s).
  assert (He0 : edits h n e0 s0) by (split; try done; [apply prefix_nil|cbn; lia|by apply List.Forall_nil]).
  apply gruns_loop with (n := length ks) (P := λ m t v, ∃ ks' e, m = length ks' ∧ Forall key_ok ks' ∧ edits h n e t ∧
    foldl (ed_key (entry_of h) n) e0 ks = foldl (ed_key (entry_of h) n) e ks' ∧ v = Typing (concat (codes <$> ks') ++ 10 :: w)).
  { by exists ks, e0. }
  intros m t v (ks' & e & -> & Hks' & He & Ef & ->). destruct Hks' as [|k ks' Hk Hks']; cbn [concat fmap list_fmap app].
  - unfold read_key. g_go. apply read_one. change (negb (1 =? 1)) with false. cbn beta iota. g_go. eapply gruns_opt; [done|].
    change (10 =? 10) with true. cbn beta iota. g_go. apply typing_nl. g_go. destruct (edits_buffer e t He) as (y & z & Ez & Hz).
    rewrite Ez, (eb_cnt _ _ _ _ He). unfold ed_text. rewrite app_assoc. eapply gruns_opt; [by apply arr_set_at|]. g_go.
    cbn in Ef. rewrite Ef. split_and!; [done| |apply He..|done]. cbn [cmd_buffer set_buffer set_line]. apply c_string_app, printable_no_nul, He.
  - rewrite <- app_assoc. eapply gruns_mono; [by apply run_read_key|]. intros r t' v' (-> & -> & He'). exists (length ks'). split; [cbn; lia|].
    by exists ks', (ed_key (entry_of h) n e k).
Qed.
End editor.

(** A shell with two entries in its history, for the examples. *)
Definition demo_history : list (list Z) :=
  ((λ s, s ++ replicate (256 - length s) 0) <$> [bytes_of "ps"; bytes_of "echo hi"]) ++ replicate 8 (replicate 256 0).
Definition demo_shell : shell := Shell demo_history 2 2 (replicate 256 0) 0 0 [] 1 false.
Lemma demo_history_ok : hist_ok demo_history.
Proof.
  split; [done|]. assert (Hall : forallb (λ a, (length a =? 256)%nat && (length (c_string a) <=? 255)%nat &&
    forallb (λ c, (32 <=? c) && (c <? 127)) (c_string a)) demo_history = true) by done.
  apply Forall_forall. intros a Ha%list_elem_of_In. rewrite forallb_forall in Hall. apply Hall in Ha. propify.
  split_and!; [by apply Nat.eqb_eq|by apply Nat.leb_le|]. apply Forall_forall. intros c Hc%list_elem_of_In.
  match goal with H : forallb _ (c_string a) = true |- _ => rewrite forallb_forall in H; apply H in Hc end. propify. lia.
Qed.

(** Up recalls "echo hi"; the cursor is moved before the "i", which gets an "o"
    in front of it and is then replaced. *)
Lemma read_line_edits_witness :
  gruns (λ r s' w', r = 8 ∧ c_string (cmd_buffer s') = bytes_of "echo hoo" ∧ w' = Typing [])
    (λ _ _, False) (read_line (λ n, replicate n 0) (bytes_of "$ ")) demo_shell
    (Typing (concat (codes <$> [KUp; KLeft; KChar 111; KRight; KBackspace; KChar 111]) ++ [10])).
Proof.
  eapply gruns_mono.
  - apply (read_line_edits (λ n, replicate n 0) (λ n, length_replicate n 0) demo_history demo_history_ok 2 (λ _ _, False) (bytes_of "$ ")
      [KUp; KLeft; KChar 111; KRight; KBackspace; KChar 111] demo_shell []); first [done|repeat constructor; cbn; lia].
  - intros r s' w' (Hr & Hc & _ & _ & _ & Hw). split_and!; [exact Hr|exact Hc|exact Hw].
Defined.

(** ** The history *)

(** The shell remembers the last ten of the commands [hs]. *)
Record remembers (hs : list (list Z)) (s : shell) : Prop := {
  rm_ok : hist_ok (history s);
  rm_count : history_count s = Z.of_nat (length hs);
  rm_last i c : Z.of_nat (length hs) - 10 ≤ i → hs !! Z.to_nat i = Some c → 0 ≤ i → entry_of (history s) i = c;
  rm_text : Forall printable hs;
}.
Definition remember (hs : list (list Z)) (c : list Z) : list (list Z) :=
  if decide (c = [] ∨ last hs = Some c) then hs else hs ++ [c].

Lemma hist_slot h i : hist_ok h → 0 ≤ i → ∃ a, arr_get h (Z.rem i HISTORY_SIZE) = Some a ∧ length a = 256%nat ∧ entry_of h i = c_string a.
Proof.
  intros Hh Hi. destruct (hist_entry h Hh i Hi) as (a & Ea & En & _). exists a. split_and!; [done| |done].
  destruct Hh as [_ Hf]. unfold arr_get in Ea. case_match; [|done]. eapply Forall_lookup_1 in Hf; [|exact Ea]. naive_solver.
Qed.
Lemma printable_text s : printable s → is_text s.
Proof. intros Hs. eapply Forall_impl; [exact Hs|]. intros c Hc. cbn in *. lia. Qed.
Lemma remembers_last hs s : remembers hs s → hs ≠ [] → last hs = Some (entry_of (history s) (history_count s - 1)).
Proof.
  intros [_ Hn Hl _] Hne. rewrite last_lookup. destruct hs as [|x hs] using rev_ind; [done|]. clear IHhs. rewrite length_app in *. cbn [length] in *.
  replace (pred (length hs + 1)) with (length hs) by lia. rewrite Hn.
  assert (E : (hs ++ [x]) !! length hs = Some x) by (rewrite lookup_app_r, Nat.sub_diag by done; done). rewrite E. f_equal.
  symmetry. apply Hl; [lia| |lia]. replace (Z.to_nat _) with (length hs) by lia. done.
Qed.

(** Whether the last command was the same. *)
Lemma run_duplicate {W} `{Env W} (X : Z → W → Prop) hs s (w : W) c :
  remembers hs s → printable c →
  gruns (λ b s' w', s' = s ∧ w' = w ∧ b = bool_decide (last hs = Some c)) X
    (if 0 <? history_count s then old ← hist_at (history_count s - 1); mret (str_cmp (c_string old) c =? 0) else mret false) s w.
Proof.
  intros Hr Hp. pose proof Hr as [Hok Hn _ _]. destruct (decide (hs = [])) as [->|Hne].
  { rewrite Hn. cbn [length]. change (0 <? Z.of_nat 0) with false. cbn beta iota. by g_go. }
  assert (Hpos : 0 < history_count s) by (rewrite Hn; destruct hs; [done|cbn; lia]). rewrite (proj2 (Z.ltb_lt 0 _)) by done.
  unfold hist_at. g_go. destruct (hist_entry _ Hok (history_count s - 1)) as (a & Ea & En & _ & Hpa); [lia|].
  eapply gruns_opt; [exact Ea|]. g_go. split_and!; [done..|]. rewrite (remembers_last hs s), En by done.
  apply eq_bool_prop_intro. rewrite !Is_true_true, Z.eqb_eq, bool_decide_eq_true, str_cmp_eq by by apply printable_text. naive_solver.
Qed.
Lemma remembers_add hs s c a :
  remembers hs s → printable c → (length c ≤ 255)%nat → length a = 256%nat → c_string a = c →
  remembers (hs ++ [c]) (set_history (<[Z.to_nat (Z.rem (history_count s) HISTORY_SIZE) := a]> (history s)) (history_count s + 1) (history_count s + 1) s).
Proof.
  intros [[Hl10 Hf] Hn Hlast Htext] Hp Hlc Hla Ha. split; cbn [history history_count set_history].
  - split; [by rewrite length_insert|]. apply Forall_insert; [done|]. by rewrite Ha.
  - rewrite length_app. cbn. lia.
  - intros i x Hi Hx Hi0. rewrite length_app in Hi. cbn in Hi. unfold entry_of, HISTORY_SIZE in *.
    assert (0 ≤ Z.rem i 10 < 10) by (apply Z.rem_bound_pos; lia). assert (0 ≤ Z.rem (history_count s) 10 < 10) by (apply Z.rem_bound_pos; lia).
    unfold arr_get in *. rewrite (proj2 (Z.leb_le 0 _)) by lia. apply lookup_lt_Some in Hx as Hlt. rewrite length_app in Hlt. cbn in Hlt.
    rewrite Hn in *. destruct (decide (i = Z.of_nat (length hs))) as [->|Hne].
    + rewrite list_lookup_insert_eq by lia. rewrite Nat2Z.id, lookup_app_r, Nat.sub_diag in Hx by done. cbn in *. congruence.
    + rewrite list_lookup_insert_ne.
      2: { intros E. apply Hne. rewrite !Z.rem_mod_nonneg in * by lia. dlia. }
      specialize (Hlast i x). rewrite (proj2 (Z.leb_le 0 _)) in Hlast by lia. apply Hlast; [lia| |done]. rewrite lookup_app_l in Hx by lia. done.
  - apply Forall_app. split; [done|by constructor].
Qed.

(** (invariant): the ring of ten lines is the end of the list of all commands:
    [add_to_history] of a command appends it, unless it is empty or the same as
    the last one, and the ten latest entries can be recalled, whatever was in
    the slots before. *)
Theorem history_is_last_ten {W} `{Env W} (X : Z → W → Prop) hs s (w : W) cmd :
  remembers hs s → Z.of_nat (length hs) < 2 ^ 31 - 1 → printable (c_string cmd) → (length (c_string cmd) ≤ 255)%nat →
  gruns (λ _ s' w', w' = w ∧ remembers (remember hs (c_string cmd)) s') X (add_to_history cmd) s w.
Proof.
  intros Hr Hlen Hp Hl. pose proof Hr as [Hok Hn _ _]. unfold add_to_history, str_len, remember.
  destruct (decide (c_string cmd = [])) as [E0|E0].
  { rewrite E0. cbn [length]. change (Z.of_nat 0 =? 0) with true. cbn beta iota. g_go. rewrite decide_True by naive_solver. done. }
  rewrite (proj2 (Z.eqb_neq _ 0)) by (destruct (c_string cmd); [done|cbn; lia]). g_go. eapply gruns_mono; [by apply (run_duplicate X hs)|].
  intros b s' w' (-> & -> & ->). destruct (bool_decide_reflect (last hs = Some (c_string cmd))) as [Hd|Hd].
  { g_go. rewrite decide_True by auto. done. }
  rewrite decide_False by naive_solver. unfold hist_at. g_go.
  destruct (hist_slot (history s) (history_count s)) as (a & Ea & Hla & _); [done|lia|]. eapply gruns_opt; [exact Ea|]. g_go.
  eapply gruns_opt; [unfold strcpy; rewrite (proj2 (Nat.ltb_lt _ _)) by lia; reflexivity|]. g_go.
  eapply gruns_opt; [apply arr_set_in; destruct Hok as [-> _]; unfold HISTORY_SIZE; apply Z.rem_bound_pos; lia|]. g_go.
  apply gruns_sys, runs_int_of; [lia|]. g_go. split; [done|]. apply remembers_add; try done.
  - rewrite length_app. cbn [length]. rewrite length_drop. lia.
  - apply c_string_app, c_string_no_nul.
Qed.
Lemma history_is_last_ten_witness :
  gruns (λ _ s' w', w' = Typing [] ∧ remembers [bytes_of "ps"; bytes_of "echo hi"; bytes_of "jobs"] s') (λ _ _, False)
    (add_to_history (bytes_of "jobs" ++ [0])) demo_shell (Typing []).
Proof.
  apply (history_is_last_ten (λ _ _, False) [bytes_of "ps"; bytes_of "echo hi"] demo_shell (Typing []) (bytes_of "jobs" ++ [0])).
  - split; [apply demo_history_ok|done| |].
    + intros i c _ Hi Hi0. apply lookup_lt_Some in Hi as Hlt. cbn in Hlt. assert (i = 0 ∨ i = 1) as [-> | ->] by lia; by injection Hi as <-.
    + repeat constructor; cbn; lia.
  - done.
  - repeat constructor; cbn; lia.
  - by apply Nat.leb_le.
Defined.

(** ** Pipes *)

Lemma tty_call {A} (Q : A → shell → tty → Prop) X (e : sysE A) d s w a0 :
  (∀ a w', env e w a w' → w' = logged (d a) w) → env e w a0 (logged (d a0) w) → (∀ a, Q a s (logged (d a) w)) →
  gruns Q X (kcall e) s w.
Proof. intros He Ha HQ. apply gruns_sys, runs_trigger; [by eexists _, _|]. intros a w' ->%He. apply HQ. Qed.
Lemma tty_say (Q : unit → shell → tty → Prop) X str len s w :
  0 ≤ len ≤ Z.of_nat (length (bytes_of str)) → Q () s (logged (DWrite 1 (take (Z.to_nat len) (bytes_of str))) w) → gruns Q X (say str len) s w.
Proof.
  intros Hl HQ. apply gruns_sys. runs_go. unfold write_lit. apply tty_write; [rewrite length_app; lia|]. runs_go.
  rewrite take_app_le by lia. done.
Qed.

(** One call, for a log entry [d] and some answer. *)
Ltac tty_do d a := apply (tty_call _ _ _ d _ _ a); [naive_solver|done|]; intros ?; g_go.

Section pipes.
Context (fresh : nat → list Z).

(** "echo" as [execute_command] runs it. *)
Lemma run_execute_echo (Q : option Z → shell → tty → Prop) X cmd bg s ls log b offs args :
  parse_command (cmd_buffer s) cmd = Some (b, offs) → str_at b <$> offs = bytes_of "echo" :: args → Forall is_text args →
  (∀ ws, text_of ws = unwords args ++ [10] → (args = [] → ws = [DWrite 1 [10]]) → Q (Some 0) (set_buffer b s) (Tty ls (log ++ ws))) →
  gruns Q X (execute_command_bg fresh cmd bg) s (Tty ls log).
Proof.
  intros Hp Ha Ht HQ. unfold execute_command_bg. g_go. eapply gruns_opt; [exact Hp|]. cbn beta iota. g_go. rewrite Ha.
  rewrite (proj2 (Z.eqb_neq (Z.of_nat (length offs)) 0)) by (destruct offs; [done|cbn; lia]).
  change (gruns Q X (sys (cmd_echo args);; mret (Some 0)) (set_buffer b s) (Tty ls log)). g_go. apply gruns_sys, tty_echo; [done|].
  intros ws E E0. g_go. by apply HQ.
Qed.

Lemma run_pipe_writer (Q : unit → shell → tty → Prop) X s ls log pre c1 junk args1 rd wr :
  cmd_buffer s = pre ++ c1 ++ 0 :: junk →
  is_text c1 → words_of is_space c1 = bytes_of "echo" :: args1 → (length args1 ≤ 13)%nat → is_space (hd 32 c1) = false →
  X 0 (Tty ls (log ++ [DClose rd; DDup2 wr 1; DClose wr; DWrite 1 [10]; DClose wr])) →
  gruns Q X (pipe_writer fresh (Z.of_nat (length pre)) rd wr) s (Tty ls log).
Proof.
  intros Eb Ht Hw Hl Hsp HX. unfold pipe_writer. g_go. tty_do (λ _ : unit, DClose rd) tt. rewrite Eb.
  destruct (parse_command_twice pre c1 junk (bytes_of "echo") args1) as (b & argv & E & Hne & _ & b' & argv' & E' & Ha' & _);
    [by apply text_no_nul|done|cbn; lia|done|].
  eapply gruns_opt; [exact E|]. cbn [fst snd]. g_go. rewrite (proj2 (Z.ltb_lt 0 _)) by (destruct argv; [done|cbn; lia]). g_go.
  tty_do (λ _ : Z, DDup2 wr 1) 0. tty_do (λ _ : unit, DClose wr) tt.
  eapply run_execute_echo; [exact E'|exact Ha'|by apply List.Forall_nil|]. intros ws _ Hws. rewrite Hws by done. g_go.
  tty_do (λ _ : unit, DClose wr) tt. apply gruns_sys, runs_sys_exit. unfold logged. cbn [tt_in tt_log]. by rewrite <- !app_assoc.
Qed.
Lemma run_pipe_reader (Q : unit → shell → tty → Prop) X s ls log pre c2 junk args2 rd wr :
  cmd_buffer s = pre ++ c2 ++ 0 :: junk →
  is_text c2 → words_of is_space c2 = bytes_of "echo" :: args2 → (length args2 ≤ 13)%nat →
  (∀ ws, text_of ws = unwords args2 ++ [10] → X 0 (Tty ls (log ++ [DClose wr; DDup2 rd 0; DClose rd] ++ ws))) →
  gruns Q X (pipe_reader fresh (Z.of_nat (length pre)) rd wr) s (Tty ls log).
Proof.
  intros Eb Ht Hw Hl HX. unfold pipe_reader. g_go. tty_do (λ _ : unit, DClose wr) tt. tty_do (λ _ : Z, DDup2 rd 0) 0. tty_do (λ _ : unit, DClose rd) tt.
  destruct (parse_command_ok pre c2 junk) as (x & argv & E & _ & Ha); [by apply text_no_nul|rewrite Hw; cbn; lia|].
  eapply run_execute_echo; [rewrite Eb; exact E|rewrite Ha; exact Hw| |].
  - pose proof (words_of_text is_space c2 Ht) as H. rewrite Hw in H. by inversion H.
  - intros ws Hws _. g_go. apply gruns_sys, runs_sys_exit. specialize (HX ws Hws). unfold logged. cbn [tt_in tt_log]. by rewrite <- !app_assoc.
Qed.

(** (error): in "cmd1 | cmd2" the first command runs without its arguments: the
    child parses it to see whether there is one, which cuts the text behind the
    first word, and [execute_command] parses what is left.  For two "echo"
    commands, whatever the kernel answers: the first child prints an empty
    line, the second one its words; the parent closes both ends and waits
    twice. *)
Theorem pipe_drops_arguments s ls log pre c1 mid c2 junk args1 args2 :
  cmd_buffer s = pre ++ c1 ++ 0 :: mid ++ c2 ++ 0 :: junk →
  is_text c1 → words_of is_space c1 = bytes_of "echo" :: args1 → (length args1 ≤ 13)%nat → is_space (hd 32 c1) = false →
  is_text c2 → words_of is_space c2 = bytes_of "echo" :: args2 → (length args2 ≤ 13)%nat →
  let cmd1 := Z.of_nat (length pre) in
  let cmd2 := Z.of_nat (length (pre ++ c1 ++ 0 :: mid)) in
  gruns
    (λ r s' w, (r = -1 ∧ w = Tty ls (log ++ [DPipe; DWrite 1 (bytes_of "Failed to create pipe
")])) ∨
       ∃ p1 p2 rd wr r1 r2, r = 0 ∧ p1 ≠ 0 ∧ p2 ≠ 0 ∧
         w = Tty ls (log ++ [DPipe; DFork p1; DFork p2; DClose rd; DClose wr; DWait r1; DWait r2]))
    (λ code w, code = 0 ∧ ∃ rd wr,
       (w = Tty ls (log ++ [DPipe; DFork 0; DClose rd; DDup2 wr 1; DClose wr; DWrite 1 [10]; DClose wr])) ∨
       ∃ p1 ws, p1 ≠ 0 ∧ text_of ws = unwords args2 ++ [10] ∧
         w = Tty ls (log ++ [DPipe; DFork p1; DFork 0; DClose wr; DDup2 rd 0; DClose rd] ++ ws))
    (execute_pipe fresh cmd1 cmd2) s (Tty ls log).
Proof.
  intros Eb Ht1 Hw1 Hl1 Hsp Ht2 Hw2 Hl2 cmd1 cmd2. unfold execute_pipe. g_go.
  apply (tty_call _ _ _ (λ _, DPipe) _ _ (0, (0, 0))); [naive_solver|done|]. intros [ret [rd wr]].
  destruct (ret <? 0).
  { g_go. apply tty_say; [cbn; lia|]. g_go. left. unfold logged. cbn. by rewrite <- app_assoc. }
  g_go. apply (tty_call _ _ _ DFork _ _ 0); [naive_solver|done|]. intros p1. g_go. destruct (Z.eqb_spec p1 0) as [->|Hp1].
  { eapply run_pipe_writer; [exact Eb|done..|]. split; [done|]. exists rd, wr. left. unfold logged. cbn [tt_in tt_log]. by rewrite <- !app_assoc. }
  g_go. apply (tty_call _ _ _ DFork _ _ 0); [naive_solver|done|]. intros p2. g_go. destruct (Z.eqb_spec p2 0) as [->|Hp2].
  { eapply run_pipe_reader; [|done..|].
    - rewrite Eb. replace (pre ++ c1 ++ 0 :: mid ++ c2 ++ 0 :: junk) with ((pre ++ c1 ++ 0 :: mid) ++ c2 ++ 0 :: junk) by (rewrite <- !app_assoc; done). done.
    - intros ws Hws. split; [done|]. exists rd, wr. right. exists p1, ws. split_and!; [done|done|]. unfold logged. cbn [tt_in tt_log]. by rewrite <- !app_assoc. }
  g_go. tty_do (λ _ : unit, DClose rd) tt. tty_do (λ _ : unit, DClose wr) tt.
  apply (tty_call _ _ _ DWait _ _ (0, None)); [by intros ? ? ->|done|]. intros r1. g_go.
  apply (tty_call _ _ _ DWait _ _ (0, None)); [by intros ? ? ->|done|]. intros r2. g_go.
  right. exists p1, p2, rd, wr, r1, r2. split_and!; [done..|]. unfold logged. cbn [tt_in tt_log]. by rewrite <- !app_assoc.
Qed.
End pipes.

Lemma pipe_drops_arguments_witness :
  let s := set_buffer (bytes_of "echo a b" ++ 0 :: bytes_of " echo c" ++ 0 :: replicate 239 0) demo_shell in
  gruns
    (λ r s' w, (r = -1 ∧ w = Tty [] ([] ++ [DPipe; DWrite 1 (bytes_of "Failed to create pipe
")])) ∨
       ∃ p1 p2 rd wr r1 r2, r = 0 ∧ p1 ≠ 0 ∧ p2 ≠ 0 ∧
         w = Tty [] ([] ++ [DPipe; DFork p1; DFork p2; DClose rd; DClose wr; DWait r1; DWait r2]))
    (λ code w, code = 0 ∧ ∃ rd wr,
       (w = Tty [] ([] ++ [DPipe; DFork 0; DClose rd; DDup2 wr 1; DClose wr; DWrite 1 [10]; DClose wr])) ∨
       ∃ p1 ws, p1 ≠ 0 ∧ text_of ws = bytes_of "c" ++ [10] ∧
         w = Tty [] ([] ++ [DPipe; DFork p1; DFork 0; DClose wr; DDup2 rd 0; DClose rd] ++ ws))
    (execute_pipe (λ n, replicate n 0) 0 9) s (Tty [] []).
Proof.
  assert (Ht : is_text (bytes_of "echo a b") ∧ is_text (bytes_of " echo c")) by (split; repeat constructor).
  apply (pipe_drops_arguments (λ n, replicate n 0) _ [] [] [] (bytes_of "echo a b") [] (bytes_of " echo c") (replicate 239 0) [bytes_of "a"; bytes_of "b"] [bytes_of "c"]);
    first [done|apply Ht|cbn; lia].
Defined.
