(* ===== verification/Init.v ===== *)
(** * The first process (src/programs/init.c, [init_main] of
    src/kernel/syscall.c) and the user-mode test of src/arch/x86_64/usermode.c

    [init_main] starts a shell and then reaps children for ever, starting a new
    shell when the shell has died.  [init_round] is one round of that loop over
    the variable [shell_pid].  [init_main] of syscall.c, which the kernel starts
    when there is no such program, is [builtin_init_main]. *)
From S2P Require Import Prelude Strings User Programs Shell.
From ITree Require Import Core.ITreeDefinition.

Section init.
Variable fresh : nat → list Z.

Definition shell_path : list Z := bytes_of "/bin/shell".
Definition sys_execve (path : list Z) (argv : list (list Z)) : prog Z := ITree.trigger (SysExecve path argv).

(** ** init.c *)

(** The start of the shell; the parent goes on with its process number. *)
Definition init_start : prog Z :=
  shell_pid ← ITree.trigger SysFork;
  (if shell_pid =? 0 then
     sys_execve shell_path [shell_path];;
     write_lit 1 "[init] Failed to exec shell!
" 30;;
     sys_exit 1
   else if 0 <? shell_pid then
     write_lit 1 "[init] Shell started with PID " 31;;
     write_int fresh shell_pid 64;;
     newline
   else
     write_lit 1 "[init] Failed to fork shell!
" 30;;
     mret ());;
  mret shell_pid.

Definition init_report (pid : Z) (status : option Z) : prog unit :=
  write_lit 1 "[init] Reaped child PID " 24;;
  buf ← of_opt (int_to_str pid (fresh 128));
  write_str 1 buf;;
  write_lit 1 " with status " 13;;
  status ← of_opt status;
  buf ← of_opt (int_to_str status buf);
  write_str 1 buf;;
  newline.

(** What follows the [wait], with its answer. *)
Definition init_reaped (shell_pid : Z) (r : Z * option Z) : prog Z :=
  let '(pid, status) := r in
  if 0 <? pid then
    init_report pid status;;
    if pid =? shell_pid then
      write_lit 1 "[init] Shell died! Restarting...
" 34;;
      shell_pid ← ITree.trigger SysFork;
      if shell_pid =? 0 then
        sys_execve shell_path [shell_path];;
        sys_exit 1
      else mret shell_pid
    else mret shell_pid
  else
    ITree.trigger (SysSleep 100);;
    mret shell_pid.
Definition init_round (shell_pid : Z) : prog Z :=
  r ← ITree.trigger SysWait;
  init_reaped shell_pid r.

Definition init_main : prog unit :=
  write_lit 1 "[init] Starting SimpleOS init process...
" 41;;
  shell_pid ← init_start;
  write_lit 1 "[init] Entering main loop - reaping children
" 46;;
  ITree.iter (λ p, p ← init_round p; mret (inl p)) shell_pid.

(** ** init_main of syscall.c *)

Definition tprint (s : string) : prog unit := ITree.trigger (Terminal (bytes_of s)).

Definition builtin_round (shell_pid : Z) : prog Z :=
  r ← ITree.trigger SysWait;
  let '(pid, _) := r in
  if 0 <? pid then
    tprint "[init] Reaped child
";;
    if pid =? shell_pid then
      tprint "[init] Shell died! Restarting...
";;
      shell_pid ← ITree.trigger SysFork;
      if shell_pid =? 0 then
        sys_execve shell_path [];;
        sys_exit 1
      else mret shell_pid
    else mret shell_pid
  else mret shell_pid.

Definition builtin_init_main : prog unit :=
  tprint "[init] Starting SimpleOS init process...
";;
  shell_pid ← ITree.trigger SysFork;
  if shell_pid =? 0 then
    sys_execve shell_path [];;
    tprint "[init] Failed to exec shell!
";;
    sys_exit 1
  else if 0 <? shell_pid then
    tprint "[init] Shell started, entering reaper loop
";;
    ITree.iter (λ p, p ← builtin_round p; mret (inl p)) shell_pid
  else
    tprint "[init] Failed to fork shell!
";;
    sys_exit 1.

(** ** usermode.c *)

Definition user_mode_test : prog unit :=
  write_lit 1 "Hello from user mode!
" 22;;
  ITree.trigger SysGetpid;;
  write_lit 1 "User mode process PID obtained!
" 32;;
  ITree.iter (λ _ : unit,
    write_lit 1 "[User Mode] Still running...
" 29;;
    ITree.trigger (SysSleep 3000);;
    mret (inl ())) ().

(** ** What a round of init does *)

Definition report (dp ds : list Z) : list did :=
  [DWrite 1 (bytes_of "[init] Reaped child PID "); DWrite 1 dp; DWrite 1 (bytes_of " with status "); DWrite 1 ds; DWrite 1 [10]].
Definition death_notice : did := DWrite 1 (bytes_of "[init] Shell died! Restarting...
" ++ [0]).
End init.

Section round.
Context (fresh : nat → list Z) (Hfresh : ∀ n, length (fresh n) = n).

Lemma tty_write_buf (Q : Z → tty → Prop) X b w :
  (∀ n, Q n (logged (DWrite 1 (c_string b)) w)) → runs Q X (write_str 1 b) w.
Proof.
  intros HQ. unfold write_str, str_len. apply tty_write.
  - pose proof (prefix_length _ _ (c_string_prefix b)). lia.
  - rewrite Nat2Z.id, take_c_string. apply HQ.
Qed.
Lemma runs_report (Q : unit → tty → Prop) X pid st ls log :
  0 < pid < 2 ^ 31 → - 2 ^ 31 < st < 2 ^ 31 →
  (∀ dp ds, is_signed dp pid → is_signed ds st → Q () (Tty ls (log ++ report dp ds))) →
  runs Q X (init_report fresh pid (Some st)) (Tty ls log).
Proof.
  intros Hp Hst HQ. unfold init_report. runs_go. apply tty_write; [cbn; lia|]. runs_go.
  destruct (int_to_str_signed pid (fresh 128)) as (b1 & E1 & Hl1 & Hd1); [lia|rewrite Hfresh; lia|]. rewrite Hfresh in Hl1.
  eapply runs_of_opt; [exact E1|]. runs_go. apply tty_write_buf. intros _. runs_go. apply tty_write; [cbn; lia|]. runs_go.
  destruct (int_to_str_signed st b1) as (b2 & E2 & Hl2 & Hd2); [lia|lia|]. eapply runs_of_opt; [exact E2|]. runs_go.
  apply tty_write_buf. intros _. unfold newline. runs_go. apply tty_write; [cbn; lia|]. runs_go.
  specialize (HQ _ _ Hd1 Hd2). unfold logged. cbn [tt_in tt_log]. by rewrite <- !app_assoc.
Qed.

(** C40 (functional): what init does when [wait] has given it a child, with the
    status that child left, any [int] but -2^31, which [int_to_str] would
    negate.  The child is reported with the digits of its number and of its
    status.  If it is not the shell being watched, that is all, and the same
    shell is watched.  If it is, init says so and forks.  In the child it
    executes the shell and, if [execve] returns, exits with status 1: it does
    not go on as a second init.  In the parent the answer of [fork] is what is
    watched from then on: the new shell, or a negative number when there is
    none, and then every child that is reaped later is only reported. *)
Theorem init_watches_shell shell_pid pid s ls log :
  0 < pid < 2 ^ 31 → - 2 ^ 31 < s < 2 ^ 31 →
  runs
    (λ pid' w, tt_in w = ls ∧ ∃ dp ds, is_signed dp pid ∧ is_signed ds s ∧
      if pid =? shell_pid then pid' ≠ 0 ∧ tt_log w = log ++ report dp ds ++ [death_notice; DFork pid']
      else pid' = shell_pid ∧ tt_log w = log ++ report dp ds)
    (λ code w, code = 1 ∧ pid = shell_pid ∧ ∃ dp ds, is_signed dp pid ∧ is_signed ds s ∧
      tt_log w = log ++ report dp ds ++ [death_notice; DFork 0; DExec shell_path [shell_path]])
    (init_reaped fresh shell_pid (pid, Some s)) (Tty ls log).
Proof using Hfresh.
  intros Hp Hs. unfold init_reaped. rewrite (proj2 (Z.ltb_lt 0 pid)) by lia. runs_go. apply runs_report; [done..|]. intros dp ds Hdp Hds.
  destruct (Z.eqb_spec pid shell_pid) as [->|Hne]; [|runs_go; split; [done|]; by exists dp, ds].
  runs_go. apply tty_write; [cbn; lia|]. runs_go. apply runs_trigger; [by exists 0; eexists|]. intros p w' ->.
  destruct (Z.eqb_spec p 0) as [->|Hp0].
  - unfold sys_execve. runs_go. apply runs_trigger; [by exists 0; eexists|]. intros r w' ->. apply runs_sys_exit. split_and!; [done..|].
    exists dp, ds. split_and!; [done..|]. cbn. by rewrite <- !app_assoc.
  - runs_go. split; [done|]. exists dp, ds. split_and!; [done..|]. cbn. by rewrite <- !app_assoc.
Qed.
End round.

Lemma demo_fresh n : length (replicate n 0) = n.
Proof. apply length_replicate. Qed.
Lemma init_watches_shell_witness :
  runs
    (λ pid' w, tt_in w = [] ∧ ∃ dp ds, is_signed dp 5 ∧ is_signed ds (-3) ∧ pid' ≠ 0 ∧ tt_log w = [] ++ report dp ds ++ [death_notice; DFork pid'])
    (λ code w, code = 1 ∧ 5 = 5 ∧ ∃ dp ds, is_signed dp 5 ∧ is_signed ds (-3) ∧
      tt_log w = [] ++ report dp ds ++ [death_notice; DFork 0; DExec shell_path [shell_path]])
    (init_reaped (λ n, replicate n 0) 5 (5, Some (-3))) (Tty [] []).
Proof. apply (init_watches_shell (λ n, replicate n 0) demo_fresh 5 5 (-3) [] []); lia. Defined.
