(* ===== verification/Trap.v ===== *)
(** * A program on the kernel

    The system calls of a program answered by the kernel itself: [kernel_env]
    executes the interrupt 0x80 for each of them.  A call that halts the CPU
    ([sys_read] of the standard input with nothing typed, [sys_sleep]) has no
    answer.

    The program runs undisturbed: no timer interrupt switches to another
    process between its calls. *)
From ITree Require Import Core.ITreeDefinition.
From S2P Require Import Prelude Mem Sched Console Keyboard Boot Kernel Strings Syscall Interrupt Main User Partial.

Section trap.
Context (idle hello shell init shell_v2 : Z) (find : Z → sched → Z) (fuel : nat) (scancode cr2 : Z).
(** The other registers of the program, and where its buffer is. *)
Context (regs : registers) (buf : Z).

(** [int 0x80] with the registers the wrappers load; the result is [rax]. *)
Definition trap (num arg1 arg2 arg3 : Z) : M kernel (option Z) :=
  r ← kernel_isr idle hello shell init shell_v2 find fuel scancode cr2
        (Registers (r_r15 regs) (r_r14 regs) (r_r13 regs) (r_r12 regs) (r_r11 regs) (r_r10 regs)
          (r_r9 regs) (r_r8 regs) arg1 arg2 (r_rbp regs) (r_rbx regs) arg3 (r_rcx regs) num
          0x80 0 (r_rip regs) (r_cs regs) (r_rflags regs) (r_rsp regs) (r_ss regs));
  mret (r_rax <$> r).

(** The bytes written are in the buffer before the call, the bytes read after
    it; a path is in the buffer with its zero byte.  [rax] is returned as an
    [int].  The calls that give the CPU to another process, and the remaining
    ones on files, have no answer here: a program that [runs] makes none of
    them. *)
Definition kernel_env A (e : sysE A) (s : kernel) : A → kernel → Prop :=
  match e with
  | SysWrite fd b => λ r s', ∃ v,
      trap SYS_WRITE fd buf (Z.of_nat (length b)) (set_k_mem (st_bytes (k_mem s) buf b) s) = Ret (Some v, s') ∧ r = s32 v
  | SysRead fd len => λ '(r, b) s', ∃ v,
      trap SYS_READ fd buf len s = Ret (Some v, s') ∧ r = s32 v ∧ b = bytes_at (k_mem s') buf len
  | SysOpen path flags mode => λ r s', ∃ v,
      trap SYS_OPEN buf flags mode (set_k_mem (st_bytes (k_mem s) buf (path ++ [0])) s) = Ret (Some v, s') ∧ r = s32 v
  | SysClose fd => λ _ s', ∃ v, trap SYS_CLOSE fd (r_rsi regs) (r_rdx regs) s = Ret (Some v, s')
  | SysGetpid => λ r s', ∃ v, trap SYS_GETPID (r_rdi regs) (r_rsi regs) (r_rdx regs) s = Ret (Some v, s') ∧ r = s32 v
  | SysSleep ms => λ _ s', ∃ v, trap SYS_SLEEP ms (r_rsi regs) (r_rdx regs) s = Ret (Some v, s')
  | Terminal l => λ _ s', at_console (terminal_writestring l) s = Ret ((), s')
  | _ => λ _ _, False
  end.

Lemma wp_trap num a1 a2 a3 s Q :
  arr_get (interrupt_handlers (k_board s)) 0x80 = Some (Some syscall_handler_h) →
  wp (syscall3 idle hello shell init shell_v2 find fuel regs num a1 a2 a3) s Q → wp (trap num a1 a2 a3) s Q.
Proof.
  intros Hh HQ. unfold trap. apply wp_bind. unfold kernel_isr. cbn [int_no]. change (0x80 <? 32) with false. cbv iota.
  apply wp_bind, wp_gets, wp_bind. eapply wp_lift_opt; [exact Hh|]. cbn [handle]. unfold syscall3 in HQ.
  apply wp_bind_inv in HQ. exact HQ.
Qed.

Section screen.
Context `{HT : Screen X T adv ok} (Hbuf : buf ≠ 0).
Definition byte_ok (c : Z) : Prop := ok c ∧ 0 ≤ c < 256.

(** A kernel that answers: the calls are installed, and the screen shows [x]. *)
Record answers (x : X) (s : kernel) : Prop := {
  an_table : syscall_table s = installed;
  an_handler : arr_get (interrupt_handlers (k_board s)) 0x80 = Some (Some syscall_handler_h);
  an_mem : mem_wf (k_mem s);
  an_screen : T x (con (k_in s));
}.

Lemma bytes_at_st m p b : mem_wf m → Forall (λ c, 0 ≤ c < 256) b → bytes_at (st_bytes m p b) p (Z.of_nat (length b)) = b.
Proof.
  intros Hm Hb. apply arr_get_ext; [by apply Nat2Z.inj, bytes_at_length; lia|]. intros i Hi. rewrite bytes_at_length in Hi by lia.
  rewrite bytes_at_get by lia. rewrite ld8_st_bytes by done. replace (p + i - p) with i by lia.
  destruct (arr_get_is_Some b i) as [c Hc]; [lia|]. rewrite Hc. f_equal. apply arr_get_Some in Hc as [_ Hc].
  rewrite Forall_forall in Hb. apply u8_id, Hb. by eapply list_elem_of_lookup_2.
Qed.
Lemma write_answers b x s :
  answers x s → Forall byte_ok b →
  wp (trap SYS_WRITE 1 buf (Z.of_nat (length b))) (set_k_mem (st_bytes (k_mem s) buf b) s) (λ r s', is_Some r ∧ answers (foldl adv x b) s' ∧
    (k_fs s', k_fds s', k_sched s') = (k_fs s, k_fds s, k_sched s)).
Proof using HT Hbuf.
  intros [Ht Hh Hm Hs] Hb. apply wp_trap; [exact Hh|]. eapply wp_syscall3; [exact Ht|reflexivity|]. cbn [call].
  destruct b as [|c b'] eqn:E.
  { unfold Syscall.sys_write. rewrite orb_true_r. apply wp_ret. split; [done|]. split; [by split|done]. }
  rewrite <- E in *. assert (Hl : 0 < Z.of_nat (length b)) by (rewrite E; cbn; lia). clear E c b'.
  assert (Hby : bytes_at (st_bytes (k_mem s) buf b) buf (Z.of_nat (length b)) = b).
  { apply bytes_at_st; [done|]. eapply Forall_impl; [exact Hb|]. by intros c [_ ?]. }
  eapply wp_mono; [apply (wp_stdout (T := T) (adv := adv) (ok := ok) idle fuel _ 1 buf (Z.of_nat (length b)) x); try done; [by left|]|].
  { cbn [k_mem set_k_mem]. rewrite Hby. eapply Forall_impl; [exact Hb|]. by intros c [? _]. }
  cbn beta. intros r s' (-> & Hs' & ->). cbn [k_mem set_k_mem] in Hs'. rewrite Hby in Hs'. split; [done|].
  split; [|done]. split; try done. by apply st_bytes_wf.
Qed.
End screen.
End trap.

(** The kernel with its systems initialised answers, on the first terminal. *)
Lemma booted_answers idle idle_stack idle_task fd fs s :
  booted_kernel idle idle_stack idle_task fd fs s → answers (T := shows_vt 0) (set_active 1 blank_vt) s.
Proof.
  intros [_ _ _ Hh _ _ _ _ _ Hb _ Ht (H1 & H2 & H3 & H4)]. split; [done|by rewrite Hb| |].
  - by destruct Hh as (bs & n & Hi & _); apply Hi.
  - split; [done| |done|by rewrite H1|done].
    split; [by rewrite H1| |by rewrite H2]. intros i t [_ E]%arr_get_Some. rewrite H1 in E.
    assert (H : vt_wf blank_vt) by (split; [apply length_replicate|cbn; lia]).
    destruct (Z.to_nat i) as [|[|[|[|]]]]; by simplify_eq/=.
Qed.

