(* ===== verification/Cat.v ===== *)
(** * The command "cat" on the kernel

    The shell's "cat" opens a file, reads it in blocks of 256 bytes and writes
    each to the standard output.  Here its calls are answered by the kernel, as
    in Trap.v: the file comes from the filesystem, through the descriptor
    table of the running process and the dispatcher, and goes to the screen. *)
From ITree Require Import Core.ITreeDefinition.
From S2P Require Import Prelude Mem Kmalloc Pcb Sched Fs Console Keyboard Boot Kernel Strings Syscall Interrupt Main User Shell Trap Partial.

(** The file called [name] has the bytes [content]. *)
Definition holds (fs : ramfs_t) (name content : list Z) : Prop :=
  ∃ cs b j n, fs_wf fs cs ∧ is_dir fs (root fs) b ∧ found fs b (skip_slash name) j ∧
    arr_get (nodes fs) j = Some n ∧ n_inode_num n ≠ 0 ∧ n_type n = FS_TYPE_FILE ∧ n_size n = Z.of_nat (length content) ∧
    ∀ i, 0 ≤ i < n_size n → byte_at (blocks fs) (cs j) i = arr_get content i.

(** A string stored in memory is read from it. *)
Lemma string_from_at fuel m p s :
  no_nul s → (length s < fuel)%nat → (∀ i c, arr_get (s ++ [0]) i = Some c → ld8 m (p + i) = c) → string_from fuel m p = Some s.
Proof.
  intros Hs. revert fuel p. induction Hs as [|c s Hc _ IH]; intros [|fuel] p Hf Hm; [cbn in Hf; lia| |cbn in Hf; lia|]; cbn [string_from].
  - pose proof (Hm 0 0 eq_refl) as E. rewrite Z.add_0_r in E. by rewrite E.
  - pose proof (Hm 0 c eq_refl) as E. rewrite Z.add_0_r in E. rewrite E, (proj2 (Z.eqb_neq c 0)) by done.
    rewrite (IH fuel (p + 1)); [done|cbn in Hf; lia|]. intros i d Hi. pose proof (arr_get_Some _ _ _ Hi) as [Hr _].
    replace (p + 1 + i) with (p + (1 + i)) by lia. apply Hm. change ((c :: s) ++ [0]) with ([c] ++ (s ++ [0])).
    rewrite arr_get_app_r by (cbn; lia). cbn [length]. by replace (1 + i - Z.of_nat 1) with i by lia.
Qed.

Section cat.
Context (idle hello shell init shell_v2 : Z) (find : Z → sched → Z) (fuel : nat) (scancode cr2 : Z).
Context (regs : registers) (buf : Z).
Context `{HT : Screen X T adv ok} (Hbuf : buf ≠ 0).
Abbreviation trapf := (trap idle hello shell init shell_v2 find fuel scancode cr2 regs).

(** The kernel answers, its running process has the descriptors [l], and the
    filesystem is [fs]. *)
Record ready (fs : ramfs_t) (t : Z) (x : X) (l : list fd_entry_t) (s : kernel) : Prop := {
  re_answers : answers (T := T) x s;
  re_fds : has_fds idle s t l;
  re_fs : k_fs s = fs;
}.
Lemma ready_mem fs t x l s m : ready fs t x l s → mem_wf m → ready fs t x l (set_k_mem m s).
Proof. intros [[] [] ?] ?. split; [by split|by split|done]. Qed.
Lemma ready_fds fs t x l l' s : ready fs t x l s → length l' = 16%nat → ready fs t x l' (with_fds s t l').
Proof. intros [[] ? ?] ?. split; [by split|by apply (has_fds_with _ _ _ l)|done]. Qed.

Section file.
Context (fs : ramfs_t) (t : Z) (name content : list Z) (cs : Z → list Z) (b j : Z) (n : fs_node_t).
Context (Hwf : fs_wf fs cs) (Hdir : is_dir fs (root fs) b) (Hfound : found fs b (skip_slash name) j).
Context (Hn : arr_get (nodes fs) j = Some n) (Hino : n_inode_num n ≠ 0) (Hty : n_type n = FS_TYPE_FILE).
Context (Hsize : n_size n = Z.of_nat (length content)) (Hbytes : ∀ i, 0 ≤ i < n_size n → byte_at (blocks fs) (cs j) i = arr_get content i).
Context (Hname : no_nul name) (Hname8 : Forall (λ c, 0 ≤ c < 256) name) (Hlen : (length name < STRING_FUEL)%nat).
Context (Hcontent : Forall (byte_ok (ok := ok)) content).

Lemma open_ready x l s :
  ready fs t x l s → ¬ first_free l None →
  wp (trapf SYS_OPEN buf 0 0) (set_k_mem (st_bytes (k_mem s) buf (name ++ [0])) s) (λ r s', ∃ fd,
    r = Some fd ∧ 3 ≤ fd < 16 ∧ ready fs t x (<[Z.to_nat fd := FdEntry j 0 0 0 0]> l) s').
Proof using All.
  intros H Hfree. pose proof (an_mem _ _ (re_answers _ _ _ _ _ H)) as Hm. set (s1 := set_k_mem _ s).
  assert (H1 : ready fs t x l s1) by (apply ready_mem; [done|by apply st_bytes_wf]). pose proof H1 as [[Ht Hh Hm1 _] Hf Hfs].
  apply wp_trap; [exact Hh|]. eapply wp_syscall3; [exact Ht|reflexivity|]. cbn [call].
  eapply wp_mono; [eapply (wp_sys_open idle s1 t l b cs buf name 0 j); try done; rewrite ?Hfs; try done|].
  { apply string_from_at; [done|done|]. intros i c Hi. cbn [s1 k_mem set_k_mem]. rewrite ld8_st_bytes by done. replace (buf + i - buf) with i by lia.
    rewrite Hi. apply u8_id. apply arr_get_Some in Hi as [_ Hi]. apply list_elem_of_lookup_2 in Hi.
    assert (Hall : Forall (λ c, 0 ≤ c < 256) (name ++ [0])) by (apply Forall_app; split; [done|repeat constructor; lia]).
    rewrite Forall_forall in Hall. by apply Hall. }
  cbn beta. intros r s' [(_ & _ & ?)|(fd & [Hfd _] & -> & ->)]; [done|]. exists fd. split; [done|]. split; [done|].
  apply (ready_fds _ _ _ l); [done|]. rewrite length_insert. apply Hf.
Qed.
Lemma read_ready x l s fd o :
  ready fs t x l s → 3 ≤ fd < 16 → arr_get l fd = Some (FdEntry j 0 o 0 0) → 0 ≤ o ≤ Z.of_nat (length content) →
  let r := Z.min 256 (Z.of_nat (length content) - o) in
  wp (trapf SYS_READ fd buf 256) s (λ v s', v = Some r ∧
    ready fs t x (<[Z.to_nat fd := FdEntry j 0 (o + r) 0 0]> l) s' ∧
    take (Z.to_nat r) (bytes_at (k_mem s') buf 256) = take (Z.to_nat r) (drop (Z.to_nat o) content)).
Proof using All.
  intros H Hfd He Ho r. pose proof H as [[Ht Hh Hm _] Hf Hfs]. pose proof (fw_size _ _ Hwf j n Hn Hino Hty) as Hsz.
  pose proof (chain_length fs cs j Hwf) as Hcl. unfold FS_BLOCK_SIZE, FS_MAX_BLOCKS in *. pose proof (hf_length _ _ _ _ Hf) as Hl16.
  apply wp_trap; [exact Hh|]. eapply wp_syscall3; [exact Ht|reflexivity|]. cbn [call].
  eapply wp_mono; [eapply (wp_sys_read_file idle fuel s t l fd (FdEntry j 0 o 0 0)); try done; try lia|].
  { cbn. intros ->. apply arr_get_Some in Hn as [? _]; lia. }
  { cbn [fd_node fd_offset]. rewrite Hfs. apply (wp_ramfs_read j _ cs n); try done; lia. }
  cbn beta. intros v s' ([q d] & fs' & (-> & Hq & Hdl & Hd) & -> & ->). cbn [fst snd] in *.
  assert (q = r) as -> by (unfold r; lia). rewrite u64_id by (unfold r; lia). split; [done|]. set (s1 := set_k_mem _ _).
  assert (H1 : ready fs t x l s1) by (unfold s1; apply ready_mem; [|by apply st_bytes_wf]; destruct H as [[] [] ?]; split; [by split|by split|done]).
  split.
  - unfold advanced. destruct (Z.ltb_spec 0 r).
    + unfold advance. cbn [fd_node fd_pipe fd_offset fd_flags fd_is_pipe]. rewrite u32_id by (unfold r in *; lia).
      apply (ready_fds _ _ _ l); [done|by rewrite length_insert].
    + assert (r = 0) as -> by (unfold r in *; lia). rewrite Z.add_0_r, list_insert_id; [done|].
      by apply arr_get_Some in He as [_ He].
  - destruct (advanced_frame s1 t l fd r (FdEntry j 0 o 0 0)) as (-> & _ & _). cbn [s1 k_mem set_k_mem].
    apply arr_get_ext.
    { pose proof (bytes_at_length (st_bytes (k_mem s) buf d) buf 256 ltac:(lia)). rewrite !length_take, length_drop. unfold r in *. lia. }
    intros i Hi. rewrite length_take in Hi. rewrite !arr_get_take by lia. rewrite bytes_at_get, ld8_st_bytes by (done || (unfold r in *; lia)).
    replace (buf + i - buf) with i by lia. rewrite Hd by lia. rewrite arr_get_drop, Z2Nat.id by lia.
    rewrite Hbytes by (unfold r in *; lia). destruct (arr_get content (o + i)) as [c|] eqn:Ec.
    + f_equal. apply u8_id. apply arr_get_Some in Ec as [_ Ec]. apply list_elem_of_lookup_2 in Ec. rewrite Forall_forall in Hcontent. by apply Hcontent.
    + destruct (arr_get_is_Some content (o + i)) as [c Hc]; [unfold r in *; lia|]. congruence.
Qed.

#[local] Instance kernel_Env : Env kernel := kernel_env idle hello shell init shell_v2 find fuel scancode cr2 regs buf.

Lemma write_ready (Q : Z → kernel → Prop) Y x l bs w len :
  ready fs t x l w → 0 ≤ len ≤ Z.of_nat (length bs) → Forall (byte_ok (ok := ok)) (take (Z.to_nat len) bs) →
  (∀ v s', ready fs t (foldl adv x (take (Z.to_nat len) bs)) l s' → Q v s') → runs Q Y (User.sys_write 1 bs len) w.
Proof using All.
  intros [Ha [Hf1 Hf2 Hf3 Hf4 Hf5] Hfs] Hl Hb HQ. unfold User.sys_write. case_if; [|lia].
  pose proof (write_answers idle hello shell init shell_v2 find fuel scancode cr2 regs buf (T := T) (adv := adv) (ok := ok) Hbuf _ _ _ Ha Hb) as W.
  apply runs_trigger.
  - destruct (wp_run _ _ _ W) as (r & s' & E & [v ->] & _). by eexists _, s', v.
  - intros v s' (v' & E & ->). pose proof (wp_result _ _ _ _ _ W E) as (_ & Ha' & [= E1 E2 E3]). apply HQ.
    split; [done| |by rewrite E1]. split; by rewrite ?E2, ?E3.
Qed.

(** One round; [o] bytes have been shown. *)
Lemma cat_round (Q : unit + unit → kernel → Prop) Y x l fd o w :
  ready fs t (foldl adv x (take (Z.to_nat o) content)) l w → 3 ≤ fd < 16 → arr_get l fd = Some (FdEntry j 0 o 0 0) →
  0 ≤ o ≤ Z.of_nat (length content) →
  (∀ w', o = Z.of_nat (length content) → ready fs t (foldl adv x content) l w' → Q (inr ()) w') →
  (∀ o' l' w', o < o' ≤ Z.of_nat (length content) → arr_get l' fd = Some (FdEntry j 0 o' 0 0) → length l' = 16%nat →
     ready fs t (foldl adv x (take (Z.to_nat o') content)) l' w' → Q (inl ()) w') →
  runs Q Y (cat_block fd ()) w.
Proof using All.
  intros H Hfd He Ho Hend Hmore. unfold cat_block. runs_go. pose proof (read_ready _ _ _ fd o H Hfd He Ho) as R. cbn zeta in R.
  pose proof (hf_length _ _ _ _ (re_fds _ _ _ _ _ H)) as Hl.
  unfold User.sys_read. apply runs_trigger.
  { destruct (wp_run _ _ _ R) as (v & s' & E & -> & _). by eexists (_, _), s', _. }
  intros [v bs] s' (v' & E & -> & ->).
  pose proof (wp_result _ _ _ _ _ R E) as ([= ->] & H' & Hb). set (r := Z.min 256 _) in *. rewrite s32_id by (unfold r; lia).
  destruct (Z.leb_spec r 0).
  - assert (o = Z.of_nat (length content)) as -> by (unfold r in *; lia). rewrite Nat2Z.id, take_ge in H' by done. runs_go. apply Hend; [done|].
    replace (<[Z.to_nat fd := _]> l) with l in H'; [done|]. symmetry. apply list_insert_id. assert (r = 0) as -> by (unfold r in *; lia).
    rewrite Z.add_0_r. by apply arr_get_Some in He as [_ He].
  - runs_go. eapply write_ready; [exact H'|pose proof (bytes_at_length (k_mem s') buf 256 ltac:(lia)); unfold r in *; lia| |].
    { rewrite Hb. apply Forall_take, Forall_drop, Hcontent. }
    intros v s2 H2. runs_go. rewrite Hb, <- foldl_app in H2.
    replace (take (Z.to_nat o) content ++ take (Z.to_nat r) (drop (Z.to_nat o) content)) with (take (Z.to_nat (o + r)) content) in H2
      by (rewrite Z2Nat.inj_add by lia; symmetry; apply take_take_drop).
    eapply (Hmore (o + r)); [unfold r in *; lia| |by rewrite length_insert|exact H2]. rewrite arr_get_insert, Z.eqb_refl by lia. done.
Qed.

Lemma runs_cat x l args w :
  ready fs t x l w → ¬ first_free l None →
  runs (λ _ w', ∃ l', ready fs t (foldl adv x content) l' w') (λ _ _, False) (cmd_cat (name :: args)) w.
Proof using All.
  intros H Hfree. unfold cmd_cat. runs_go. pose proof (open_ready _ _ _ H Hfree) as O. pose proof (hf_length _ _ _ _ (re_fds _ _ _ _ _ H)) as Hl.
  apply runs_trigger. { destruct (wp_run _ _ _ O) as (v & s' & E & fd & -> & _). by eexists _, s', fd. }
  intros v s' (fd & E & ->). destruct (wp_result _ _ _ _ _ O E) as (? & [= <-] & Hfd & H'). clear E O.
  rewrite s32_id by lia. rewrite (proj2 (Z.leb_le 0 fd)) by lia. runs_go.
  apply runs_iter with (n := length content) (P := λ k _ w', ∃ o l', k = Z.to_nat (Z.of_nat (length content) - o) ∧ 0 ≤ o ≤ Z.of_nat (length content) ∧
    arr_get l' fd = Some (FdEntry j 0 o 0 0) ∧ ready fs t (foldl adv x (take (Z.to_nat o) content)) l' w').
  { exists 0. eexists. split_and!; [lia|lia|lia| |exact H']. rewrite arr_get_insert, Z.eqb_refl by lia. done. }
  clear s' H'. intros k [] w' (o & l' & -> & Ho & He & H'). eapply cat_round; [exact H'|done|done|done| |].
  - intros w1 _ H1. cbn beta iota. assert (Hh := an_handler _ _ (re_answers _ _ _ _ _ H1)). assert (Ht := an_table _ _ (re_answers _ _ _ _ _ H1)).
    assert (C : wp (trapf SYS_CLOSE fd (r_rsi regs) (r_rdx regs)) w1 (λ r s', is_Some r ∧ ∃ l2, ready fs t (foldl adv x content) l2 s')).
    { apply wp_trap; [exact Hh|]. eapply wp_syscall3; [exact Ht|reflexivity|]. cbn [call].
      eapply wp_mono; [eapply wp_sys_close; [apply H1|lia]|]. cbn beta. intros r s' [-> ->]. split; [done|]. eexists.
      apply (ready_fds _ _ _ l'); [done|]. rewrite length_insert. apply (hf_length _ _ _ _ (re_fds _ _ _ _ _ H1)). }
    apply runs_trigger. { destruct (wp_run _ _ _ C) as (r & s' & E & [v ->] & _). exists (). by eexists s', v. }
    intros [] s' (v & E). by destruct (wp_result _ _ _ _ _ C E) as [_ Hl2].
  - intros o' l2 w1 Ho' He2 _ H1. exists (Z.to_nat (Z.of_nat (length content) - o')). split; [lia|].
    exists o', l2. split_and!; [done|lia|lia|done|done].
Qed.
End file.
End cat.

(** C10 (refinement): The shell's "cat" with the name of a file, on a kernel whose
    running process has a free descriptor: it ends, the screen shows the whole
    content of the file after what it showed, and the filesystem is as before.
    The content is made of bytes the screen accepts: on a virtual terminal, any
    but the backspace. *)
Theorem cat_shows_file `{HT : Screen X T adv ok} idle hello shell init shell_v2 find fuel scancode cr2 regs buf fs t x l name content args s :
  buf ≠ 0 → ready idle (T := T) fs t x l s → ¬ first_free l None →
  holds fs name content → no_nul name → Forall (λ c, 0 ≤ c < 256) name → (length name < STRING_FUEL)%nat →
  Forall (byte_ok (ok := ok)) content →
  runs (H := kernel_env idle hello shell init shell_v2 find fuel scancode cr2 regs buf)
    (λ _ s', T (foldl adv x content) (con (k_in s')) ∧ k_fs s' = fs) (λ _ _, False)
    (cmd_cat (name :: args)) s.
Proof.
  intros Hb Hr Hf (cs & b & j & n & H1 & H2 & H3 & H4 & H5 & H6 & H7 & H8) Hn1 Hn2 Hn3 Hc.
  eapply runs_mono; [eapply (runs_cat idle hello shell init shell_v2 find fuel scancode cr2 regs buf Hb fs t name content cs b j n); done| |done].
  cbn beta. intros _ s' (l' & [[_ _ _ Hs] _ Hfs]). done.
Qed.

(** [hello.txt] after [fs_init]. *)
Definition hello_text : list Z := bytes_of "Hello from SimpleOS filesystem!
".
Lemma booted_holds : holds booted (bytes_of "hello.txt") hello_text.
Proof.
  destruct (arr_get (nodes booted) 1) as [n|] eqn:E; [|vm_compute in E; discriminate].
  exists (chains booted_chains), 0, 1, n. split; [exact booted_wf|]. split; [exact booted_root|]. split; [exact demo_found|]. split; [done|].
  assert (Hn : n_inode_num n = 2 ∧ n_type n = FS_TYPE_FILE ∧ n_size n = 32) by (vm_compute in E; injection E as <-; done).
  destruct Hn as (-> & -> & ->). split_and!; [done..|]. intros i Hi.
  assert (H : Forall (λ i, byte_at (blocks booted) (chains booted_chains 1) i = arr_get hello_text i) (seqZ 0 32)) by ground.
  rewrite Forall_forall in H. apply H, elem_of_seqZ. lia.
Qed.
Lemma booted_ready idle idle_stack idle_task fd fs s :
  idle ≠ 0 → fd ≠ 0 → booted_kernel idle idle_stack idle_task fd fs s →
  ready idle (T := shows_vt 0) fs fd (set_active 1 blank_vt) (replicate 16 fd_clear) s.
Proof.
  intros Hi Hf H. pose proof (bk_sched _ _ _ _ _ _ H) as E. split; [by eapply booted_answers| |apply H].
  assert (Ec : current_process (k_sched s) = 0) by (apply (f_equal current_process) in E; exact E).
  assert (Hr : running idle (k_sched s) = idle) by (unfold running; by rewrite Ec).
  split; rewrite ?Hr; [done| |done|by rewrite (bk_fds _ _ _ _ _ _ H), lookup_singleton_eq|done].
  exists (idle_pcb idle_stack idle_task fd). split; [|done]. apply (f_equal pcbs) in E. change (pcbs (k_sched s) = {[ idle := idle_pcb idle_stack idle_task fd ]}) in E.
  by rewrite E, lookup_singleton_eq.
Qed.
(** The initialisation of [kernel_main] as it runs where the heap is mapped. *)
Definition mapped_core : M kernel unit :=
  init_tables 0x5000 0x6000 0x7000 0x90000 (λ v, 0x100000 + 16 * Z.land v 255);; init_systems 0x100 0x80000 0x101000.
Lemma cat_shows_file_witness :
  ∃ s, mapped_core (bss_kernel 0x100) = Ret ((), s) ∧
  runs (H := kernel_env 0x100 0x105000 0x106000 0x107000 0x108000 (λ _ _, 0) 8 0 0 zero_registers 0x9000)
    (λ _ s', shows_vt 0 (foldl (λ t ch, vt_typed ch t) (set_active 1 blank_vt) (bytes_of "Hello from SimpleOS filesystem!
")) (con (k_in s')) ∧ k_fs s' = booted) (λ _ _, False)
    (cmd_cat [bytes_of "hello.txt"]) s.
Proof.
  destruct (wp_run _ _ _ (wp_mapped_core 0x5000 0x6000 0x7000 0x90000 (λ v, 0x100000 + 16 * Z.land v 255) 0x100 0x80000 0x101000 ltac:(lia)))
    as ([] & s & E & fd & Hfd & Hs). exists s. split; [exact E|].
  apply (cat_shows_file (T := shows_vt 0) (adv := λ t ch, vt_typed ch t) (ok := λ ch, ch ≠ 8) 0x100 0x105000 0x106000 0x107000 0x108000 (λ _ _, 0) 8 0 0
    zero_registers 0x9000 booted fd (set_active 1 blank_vt) (replicate 16 fd_clear) (bytes_of "hello.txt") hello_text).
  - lia.
  - apply (booted_ready 0x100 0x80000 0x101000); [lia|unfold HEAP_START in Hfd; lia|exact Hs].
  - intros Hno. pose proof (Hno 3 fd_clear ltac:(lia) eq_refl) as C. discriminate C.
  - exact booted_holds.
  - ground.
  - ground.
  - unfold STRING_FUEL. cbn. lia.
  - unfold byte_ok. ground.
Defined.
