(* ===== verification/Tests.v ===== *)
(** * The test programs (src/kernel/kernel.c, userspace/hello.c)

    The processes [kernel_main] starts to show that multitasking, the heap of a
    process, the system calls and [fork] work, and the program the ELF loader
    is tested with.  Most of them never end: [reaches G t w] says that [t]
    comes to a world with [G], whatever the calls on the way answer.

    The pointer allocator of kernel.c is at the end. *)
From stdpp Require Import functions.
From S2P Require Import Prelude Kmalloc Strings User.
From ITree Require Import Core.ITreeDefinition.

Notation say s := (ITree.trigger (Terminal (bytes_of s))).
Notation calls e := (ITree.trigger e).

(** [while (1) x = body(x);] *)
Definition forever {A} (body : A → prog A) (x : A) : prog unit :=
  ITree.iter (λ x, x' ← body x; mret (inl x')) x.

(** A round of [test_process_1] and [test_process_2]. *)
Definition report_round (report : string) (ms : Z) (counter : Z) : prog Z :=
  say report;;
  say "
";;
  counter ← int_of (counter + 1);
  calls (SleepMs ms);;
  mret counter.
Definition test_process_1 : prog unit := forever (report_round "[Process 1] Running - count: " 1000) 0.
Definition test_process_2 : prog unit := forever (report_round "[Process 2] Running - count: " 1500) 0.

(** [sum] has 64 bits. *)
Definition add_up (v : Z * Z) : prog ((Z * Z) + Z) :=
  let '(i, sum) := v in
  if i <? 10000000 then i' ← int_of (i + 1); mret (inl (i', u64 (sum + i))) else mret (inr sum).
Definition computing (_ : unit) : prog unit :=
  say "[Process 3] Computing...
";;
  ITree.iter add_up (0, 0);;
  say "[Process 3] Done computing
";;
  calls (SleepMs 2000).
Definition test_process_3 : prog unit := forever computing ().

(** [for (int i = 0; msg[i] && i < n; i++) put(i, msg[i]);] *)
Definition copy_while {V} (msg : list Z) (n : Z) (put : Z → Z → V → prog V) (v : V) : prog V :=
  ITree.iter (λ '(i, v),
    c ← of_opt (arr_get msg i);
    if negb (c =? 0) && (i <? n) then v' ← put i c v; i' ← int_of (i + 1); mret (inl (i', v')) else mret (inr v)) (0, v).

Section programs.
(** What an array holds before it is written. *)
Variable fresh : nat → list Z.

Definition heap_message : list Z := bytes_of "Hello from process heap!" ++ [0].
Definition stack_message : list Z := bytes_of "Stack allocation works!" ++ [0].
Definition test_heap : prog unit :=
  heap_ptr ← calls (SysSbrk 4096);
  if negb (heap_ptr =? u64 (-1)) then
    say "[Memory Test] Allocated heap at: ";;
    say "
";;
    copy_while heap_message 25 (λ i c _, calls (Store (heap_ptr + i) c)) ();;
    calls (Store (heap_ptr + 25) 0);;
    say "[Memory Test] Wrote to heap: ";;
    calls (TerminalAt heap_ptr);;
    say "
"
  else say "[Memory Test] Failed to allocate heap!
".
Definition test_stack : prog unit :=
  stack_buffer ← copy_while stack_message 23 (λ i c b, of_opt (arr_set b i c)) (fresh 1024%nat);
  stack_buffer ← of_opt (arr_set stack_buffer 23 0);
  say "[Memory Test] Stack test: ";;
  calls (Terminal (c_string stack_buffer));;
  say "
".
Definition test_memory_process : prog unit :=
  say "[Memory Test] Process starting
";;
  test_heap;;
  test_stack;;
  forever (λ _, say "[Memory Test] Process running...
";; calls (SleepMs 3000)) ().

Definition test_syscall_process : prog unit :=
  write_lit 1 "Hello from syscall process!
" 28;;
  calls SysGetpid;;
  say "My PID from syscall: ";;
  say "
";;
  forever (λ _, say "[Syscall Process] Using sys_sleep...
";; calls (SysSleep 2000)) ().

(** The [argv] of the [execve] is [NULL]. *)
Definition fork_test_main : prog unit :=
  say "[FORK_TEST] Starting fork test
";;
  calls SysGetpid;;
  say "[FORK_TEST] My PID is: ";;
  say "
";;
  pid ← calls SysFork;
  if pid =? 0 then
    say "[CHILD] I'm the child process!
";;
    calls (SysExecve (bytes_of "/bin/hello") []);;
    say "[CHILD] Exec failed, exiting
";;
    sys_exit 1
  else if 0 <? pid then
    say "[PARENT] Created child with PID: ";;
    say "
";;
    calls SysWait;;
    say "[PARENT] Child exited with status: ";;
    say "
";;
    sys_exit 0
  else
    say "[FORK_TEST] Fork failed!
";;
    sys_exit 1.
End programs.

(** userspace/hello.c, [_start]. *)
Definition hello_start : prog unit :=
  write_lit 1 "Hello from ELF!
" 16;;
  sys_exit 0.

(** ** Coming to a state *)

Inductive reaches {W} `{Env W} {R} (G : W → Prop) : prog R → W → Prop :=
| reaches_now t w : G w → reaches G t w
| reaches_tau t w t' : observe t = TauF t' → reaches G t' w → reaches G t w
| reaches_call t w A (e : sysE A) k :
    observe t = VisF e k → (∃ a w', env e w a w') → (∀ a w', env e w a w' → reaches G (k a) w') → reaches G t w.

Section reaches_rules.
Context {W : Type} `{Env W}.

Lemma reaches_observe {R} (G : W → Prop) (t t' : prog R) w : observe t' = observe t → reaches G t w → reaches G t' w.
Proof.
  intros E Hr. destruct Hr as [t w Hg|t w u E'|t w A e k E']; [by apply reaches_now|rewrite <- E in E'..].
  - by eapply reaches_tau.
  - by eapply reaches_call.
Qed.
(** Through a part that returns. *)
Lemma reaches_bind {A R} (P : A → W → Prop) (G : W → Prop) (t : prog A) (k : A → prog R) w :
  runs P (λ _ _, False) t w → (∀ a w', P a w' → reaches G (k a) w') → reaches G (t ≫= k) w.
Proof.
  intros Hr Hk. induction Hr as [t w r E Hq|t w t' E _ IH|t w c k' E []|t w B e k' E Hen _ IH].
  - eapply reaches_observe; [|by apply Hk]. by rewrite observe_mbind, E.
  - eapply reaches_tau; [|exact IH]. by rewrite observe_mbind, E.
  - eapply reaches_call; [|exact Hen|exact IH]. by rewrite observe_mbind, E.
Qed.
Lemma reaches_seq {A R} (G : W → Prop) (t : prog A) (k : A → prog R) w :
  runs (λ a w', reaches G (k a) w') (λ _ _, False) t w → reaches G (t ≫= k) w.
Proof. intros Ht. by eapply reaches_bind. Qed.
Lemma reaches_mono {R} (G G' : W → Prop) (t : prog R) w : reaches G t w → (∀ w, G w → G' w) → reaches G' t w.
Proof. intros Hr HG. induction Hr; [by apply reaches_now, HG|by eapply reaches_tau|by eapply reaches_call]. Qed.
Lemma reaches_within {A R} (G : W → Prop) (t : prog A) (k : A → prog R) w : reaches G t w → reaches G (t ≫= k) w.
Proof.
  induction 1 as [t w Hg|t w t' E _ IH|t w B e k' E Hen _ IH]; [by apply reaches_now| |].
  - eapply reaches_tau; [|exact IH]. by rewrite observe_mbind, E.
  - eapply reaches_call; [|exact Hen|exact IH]. by rewrite observe_mbind, E.
Qed.
(** In the first round of an endless loop. *)
Lemma reaches_forever {A} (G : W → Prop) body (x : A) w : reaches G (body x) w → reaches G (forever body x) w.
Proof.
  intros Hr. apply (reaches_observe _ ((x' ← body x; mret (inl x')) ≫= λ lr, match lr with inl l => Tau (forever body l) | inr r => Ret r end)); [done|].
  by apply reaches_within, reaches_within.
Qed.
End reaches_rules.

(** ** The bench

    Memory, and what has been shown and done.  [sbrk] fails or gives any place
    for [increment] bytes; the bytes there are the ones memory had.  Nothing is
    assumed of sleeping: neither [sleep_ms] nor [sleep] has an answer, so what is
    shown here of a process is what it does before it first sleeps. *)

Inductive seen : Type :=
| Said (s : list Z) | Wrote (fd : Z) (b : list Z) | Forked (pid : Z) | Waited | Execed (path : list Z).
Record bench : Type := Bench { b_mem : Z → Z; b_seen : list seen }.
Definition see (e : seen) (w : bench) : bench := Bench (b_mem w) (b_seen w ++ [e]).
(** The string at [p]. *)
Definition string_at (m : Z → Z) (p : Z) (s : list Z) : Prop :=
  (∀ i c, s !! i = Some c → m (p + Z.of_nat i) = c ∧ c ≠ 0) ∧ m (p + Z.of_nat (length s)) = 0.
Definition bench_env A (e : sysE A) (w : bench) : A → bench → Prop :=
  match e with
  | Terminal s => λ _ w', w' = see (Said s) w
  | TerminalAt p => λ _ w', ∃ s, string_at (b_mem w) p s ∧ w' = see (Said s) w
  | Store p v => λ _ w', w' = Bench (<[p := v]> (b_mem w)) (b_seen w)
  | SysWrite fd b => λ r w', r = Z.of_nat (length b) ∧ w' = see (Wrote fd b) w
  | SysSbrk inc => λ r w', (r = u64 (-1) ∨ 0 ≤ r ∧ r + inc ≤ 2 ^ 64 - 1) ∧ w' = w
  | SysGetpid => λ _ w', w' = w
  | SysFork => λ pid w', w' = see (Forked pid) w
  | SysWait => λ _ w', w' = see Waited w
  | SysExecve path _ => λ _ w', w' = see (Execed path) w
  | _ => λ _ _, False
  end.
#[export] Instance bench_Env : Env bench := bench_env.

(** A call whose effect does not depend on its answer. *)
Lemma bench_call {A} (e : sysE A) (Q : A → bench → Prop) X w w1 :
  inhabited A → (∀ a w', env e w a w' ↔ w' = w1) → (∀ a, Q a w1) → runs Q X (ITree.trigger e) w.
Proof. intros [a] He HQ. apply runs_trigger; [exists a, w1; by apply He|]. intros b w' ->%He. apply HQ. Qed.
Lemma bench_say (Q : unit → bench → Prop) X s w : Q () (see (Said s) w) → runs Q X (ITree.trigger (Terminal s)) w.
Proof. intros HQ. eapply bench_call; [exact (inhabits ())|done|]. by intros []. Qed.
(** ** What the programs do *)

Ltac bench_go :=
  repeat (runs_step || (apply bench_say) ||
    (eapply bench_call; [constructor; exact 0|done|intros]) ||
    (eapply bench_call; [constructor; exact ()|done|intros []]); cbn beta).
Lemma add_up_ends (Q : Z → bench → Prop) X w : (∀ sum, Q sum w) → runs Q X (ITree.iter add_up (0, 0)) w.
Proof.
  intros HQ. apply runs_iter with (n := Z.to_nat 10000000) (P := λ n v w', n = Z.to_nat (10000000 - v.1) ∧ 0 ≤ v.1 ∧ w' = w); [done|].
  intros n [i sum] w' (-> & Hi & ->). cbn [fst] in *. unfold add_up. destruct (Z.ltb_spec i 10000000).
  - runs_go. apply runs_int_of; [lia|]. runs_go. exists (Z.to_nat (10000000 - (i + 1))). cbn [fst]. split; [lia|]. split_and!; [done|lia|done].
  - runs_go. apply HQ.
Qed.

(** The third process gets through its computation. *)
Lemma computing_done m l :
  reaches (λ w, w = Bench m (l ++ [Said (bytes_of "[Process 3] Computing...
"); Said (bytes_of "[Process 3] Done computing
")])) test_process_3 (Bench m l).
Proof.
  apply reaches_forever. unfold computing. apply reaches_seq, bench_say. apply reaches_seq, add_up_ends. intros _. apply reaches_seq, bench_say.
  apply reaches_now. unfold see. cbn [b_mem b_seen]. by rewrite <- app_assoc.
Qed.

(** *** The memory test *)

Lemma runs_copy {V} (P : nat → V → bench → Prop) X body n put (v : V) w :
  0 ∉ body → Z.of_nat (length body) ≤ n < 2 ^ 31 → P O v w →
  (∀ i c v w, body !! i = Some c → P i v w → runs (P (S i)) X (put (Z.of_nat i) c v) w) →
  runs (P (length body)) X (copy_while (body ++ [0]) n put v) w.
Proof.
  intros H0 Hn Hp Hstep. unfold copy_while.
  apply runs_iter with (n := length body) (P := λ k '(i, v) w, ∃ j, i = Z.of_nat j ∧ (k + j = length body)%nat ∧ P j v w).
  { exists O. by rewrite Nat.add_0_r. }
  clear v w Hp. intros k [i v] w (j & -> & Hk & Hp). runs_go. destruct (body !! j) as [c|] eqn:E.
  - pose proof (lookup_lt_Some _ _ _ E). eapply runs_of_opt; [rewrite arr_get_nat, lookup_app_l by lia; exact E|].
    destruct (Z.eqb_spec c 0) as [->|_]; [by apply list_elem_of_lookup_2 in E|]. rewrite (proj2 (Z.ltb_lt _ _)) by lia. cbn [negb andb].
    runs_go. eapply runs_mono; [by apply Hstep| |done]. intros v' w' Hp'. cbn beta. runs_go. apply runs_int_of; [lia|]. runs_go.
    exists (k - 1)%nat. split; [lia|]. exists (S j). split_and!; [lia|lia|done].
  - apply lookup_ge_None in E. assert (j = length body) as -> by lia.
    eapply runs_of_opt; [by rewrite arr_get_nat, lookup_app_r, Nat.sub_diag by lia|]. cbn [Z.eqb negb andb]. by runs_go.
Qed.

(** Memory with the bytes [s] from [p] on. *)
Definition poke (m : Z → Z) (p : Z) (s : list Z) (a : Z) : Z := default (m a) (arr_get s (a - p)).
Lemma poke_snoc m p s c a : <[p + Z.of_nat (length s) := c]> (poke m p s) a = poke m p (s ++ [c]) a.
Proof.
  unfold poke. destruct (decide (p + Z.of_nat (length s) = a)) as [<-|Hne].
  - rewrite fn_lookup_insert. replace (p + _ - p) with (Z.of_nat (length s)) by lia. by rewrite arr_get_middle.
  - rewrite fn_lookup_insert_ne by done. destruct (decide (a - p < Z.of_nat (length s))); [by rewrite arr_get_app_l|].
    rewrite !arr_get_out by (rewrite ?length_app; cbn; lia). done.
Qed.
Lemma runs_poke X body n p m l :
  0 ∉ body → Z.of_nat (length body) ≤ n < 2 ^ 31 →
  runs (λ _ w, b_seen w = l ∧ ∀ a, b_mem w a = poke m p body a) X
    (copy_while (body ++ [0]) n (λ i c _, calls (Store (p + i) c)) ()) (Bench m l).
Proof.
  intros H0 Hn. eapply runs_mono; [apply (runs_copy (λ i _ w, b_seen w = l ∧ ∀ a, b_mem w a = poke m p (take i body) a)); try done| |done].
  - split; [done|]. intros a. unfold poke. by rewrite arr_get_out by (rewrite length_take; lia).
  - intros i c [] w E [Hl Hm]. eapply bench_call; [constructor; exact ()|done|]. intros [] . split; [done|]. intros a. cbn [b_mem].
    rewrite (take_S_r _ _ c E), <- poke_snoc. rewrite length_take_le by (apply lookup_lt_Some in E; lia).
    destruct (decide (p + Z.of_nat i = a)) as [<-|Hne]; [by rewrite !fn_lookup_insert|by rewrite !fn_lookup_insert_ne].
  - intros u w. cbn beta. by rewrite take_ge.
Qed.

Lemma string_at_tail m p c s : string_at m p (c :: s) → m p = c ∧ c ≠ 0 ∧ string_at m (p + 1) s.
Proof.
  intros [Hs Es]. destruct (Hs 0%nat c eq_refl) as [E ?]. rewrite Z.add_0_r in E. split_and!; [done..|]. split.
  - intros i x Hx. replace (p + 1 + Z.of_nat i) with (p + Z.of_nat (S i)) by lia. by apply Hs.
  - rewrite <- Es. f_equal. cbn [length]. lia.
Qed.
Lemma string_at_inj m p s t : string_at m p s → string_at m p t → s = t.
Proof.
  revert p t. induction s as [|c s IH]; intros p [|d t] Hs Ht; [done| | |].
  - apply string_at_tail in Ht as (E & ? & _). destruct Hs as [_ E']. rewrite Z.add_0_r in E'. congruence.
  - apply string_at_tail in Hs as (E & ? & _). destruct Ht as [_ E']. rewrite Z.add_0_r in E'. congruence.
  - apply string_at_tail in Hs as (<- & _ & Hs), Ht as (<- & _ & Ht). f_equal. by eapply IH.
Qed.

(** What the heap test shows when memory was [m] and [sbrk] answered [p]: the
    byte after the message is not written. *)
Definition heap_text : list Z := bytes_of "Hello from process heap!".
Definition heap_lines (m : Z → Z) (p : Z) : list seen :=
  if p =? u64 (-1) then [Said (bytes_of "[Memory Test] Failed to allocate heap!
")]
  else [Said (bytes_of "[Memory Test] Allocated heap at: "); Said [10]; Said (bytes_of "[Memory Test] Wrote to heap: ");
        Said (heap_text ++ c_string [m (p + 24)]); Said [10]].
Lemma heap_string m p m' : (∀ a, m' a = poke m p heap_text a) → string_at (<[p + 25 := 0]> m') p (heap_text ++ c_string [m (p + 24)]).
Proof.
  intros Hm. set (m1 := <[p + 25 := 0]> m').
  assert (H1 : ∀ i c, heap_text !! i = Some c → m1 (p + Z.of_nat i) = c).
  { intros i c E. pose proof (lookup_lt_Some _ _ _ E). change (length heap_text) with 24%nat in *. unfold m1. rewrite fn_lookup_insert_ne by lia.
    rewrite Hm. unfold poke. replace (p + _ - p) with (Z.of_nat i) by lia. by rewrite arr_get_nat, E. }
  assert (H2 : m1 (p + 24) = m (p + 24)).
  { unfold m1. rewrite fn_lookup_insert_ne by lia. rewrite Hm. unfold poke. rewrite arr_get_out; [done|]. change (length heap_text) with 24%nat. lia. }
  assert (H3 : m1 (p + 25) = 0) by apply fn_lookup_insert.
  assert (Hn : no_nul heap_text) by ground.
  cbn [c_string]. split.
  - intros i c. rewrite lookup_app. destruct (heap_text !! i) as [d|] eqn:E.
    + intros [= ->]. split; [by apply H1|]. unfold no_nul in Hn. rewrite Forall_lookup in Hn. by eapply Hn.
    + apply lookup_ge_None in E. change (length heap_text) with 24%nat in *. case_match eqn:Ec; [done|].
      intros Hc%list_lookup_singleton_Some. destruct Hc as [Hi <-]. replace (p + Z.of_nat i) with (p + 24) by lia. split; [done|]. by apply Z.eqb_neq.
  - rewrite length_app. change (length heap_text) with 24%nat. case_match eqn:Ec; cbn [length].
    + apply Z.eqb_eq in Ec. by rewrite <- Ec, <- H2.
    + exact H3.
Qed.
Lemma runs_test_heap m l :
  runs (λ _ w, ∃ p, (p = u64 (-1) ∨ 0 ≤ p ∧ p + 4096 ≤ 2 ^ 64 - 1) ∧ b_seen w = l ++ heap_lines m p) (λ _ _, False) test_heap (Bench m l).
Proof.
  unfold test_heap. runs_go. apply runs_trigger; [by exists (u64 (-1)), (Bench m l); split; [left|]|]. intros p w' [Hp ->].
  unfold heap_lines. destruct (Z.eqb_spec p (u64 (-1))) as [Ep|Hne]; cbn [negb].
  { bench_go. exists p. split; [done|]. by rewrite (proj2 (Z.eqb_eq _ _) Ep). }
  bench_go. eapply runs_mono; [apply (runs_poke (λ _ _, False) heap_text); ground| |done]. intros _ w [Hl Hm]. cbn beta. bench_go.
  apply runs_trigger.
  { eexists (), _, _. split; [apply (heap_string m p _ Hm)|reflexivity]. }
  intros [] w' (s & Hs & ->). apply (string_at_inj _ _ _ _ (heap_string m p _ Hm)) in Hs as <-. bench_go.
  exists p. split; [done|]. rewrite (proj2 (Z.eqb_neq _ _) Hne). unfold see in *. cbn [b_seen] in *. rewrite Hl. by rewrite <- !app_assoc.
Qed.

Section runs_programs.
Context (fresh : nat → list Z) (Hfresh : length (fresh 1024%nat) = 1024%nat).

Definition stack_text : list Z := bytes_of "Stack allocation works!".
Definition stack_lines : list seen := [Said (bytes_of "[Memory Test] Stack test: "); Said stack_text; Said [10]].
Lemma runs_test_stack (Q : unit → bench → Prop) X m l :
  Q () (Bench m (l ++ stack_lines)) → runs Q X (test_stack fresh) (Bench m l).
Proof using Hfresh.
  intros HQ. unfold test_stack. runs_go.
  eapply runs_mono; [apply (runs_copy (λ i b w, w = Bench m l ∧ ∃ r, b = take i stack_text ++ r ∧ length b = 1024%nat) X stack_text); [ground|ground| |]| |done].
  - split; [done|]. by exists (fresh 1024%nat).
  - intros i c b w E (-> & r & -> & Hb). pose proof (lookup_lt_Some _ _ _ E). change (length stack_text) with 23%nat in *.
    rewrite length_app, length_take_le in Hb by (change (length stack_text) with 23%nat; lia). destruct r as [|x r]; [cbn in Hb; lia|].
    eapply runs_of_opt; [rewrite arr_set_at; [reflexivity|rewrite length_take_le; [done|change (length stack_text) with 23%nat; lia]]|].
    split; [done|]. exists r. rewrite (take_S_r _ _ c E), <- app_assoc. split; [done|]. rewrite !length_app, length_take_le by (change (length stack_text) with 23%nat; lia).
    cbn in *. lia.
  - intros b w (-> & r & -> & Hb). rewrite length_app, length_take_le in Hb by done. change (length stack_text) with 23%nat in *.
    destruct r as [|x r]; [cbn in Hb; lia|]. cbn beta. runs_go. rewrite take_ge by done.
    eapply runs_of_opt; [rewrite arr_set_at; [reflexivity|done]|]. bench_go. rewrite c_string_app by ground.
    unfold stack_lines in HQ. unfold see. cbn [b_mem b_seen]. by rewrite <- !app_assoc.
Qed.

(** (functional): the memory test, with any memory and any answer of [sbrk]:
    after its start it shows the message it wrote to the heap, followed by the
    byte memory had at offset 24 unless that is 0, then the message it wrote
    to the stack, and that it is running. *)
Theorem memory_test_reports m l :
  reaches (λ w, ∃ p, (p = u64 (-1) ∨ 0 ≤ p ∧ p + 4096 ≤ 2 ^ 64 - 1) ∧ b_seen w =
    l ++ [Said (bytes_of "[Memory Test] Process starting
")] ++ heap_lines m p ++ stack_lines ++ [Said (bytes_of "[Memory Test] Process running...
")]) (test_memory_process fresh) (Bench m l).
Proof using Hfresh.
  unfold test_memory_process. apply reaches_seq, bench_say.
  eapply reaches_bind; [apply runs_test_heap|]. intros _ [m' l'] (p & Hp & E). cbn [b_seen] in E. subst l'.
  apply reaches_seq, runs_test_stack. apply reaches_forever, reaches_seq, bench_say. apply reaches_now. exists p. split; [done|].
  unfold see. cbn [b_mem b_seen]. by rewrite <- !app_assoc.
Qed.

(** What the fork test shows for each answer of [fork]. *)
Definition fork_lines (pid : Z) : list seen :=
  [Said (bytes_of "[FORK_TEST] Starting fork test
"); Said (bytes_of "[FORK_TEST] My PID is: "); Said [10]; Forked pid] ++
  (if pid =? 0 then [Said (bytes_of "[CHILD] I'm the child process!
"); Execed (bytes_of "/bin/hello"); Said (bytes_of "[CHILD] Exec failed, exiting
")]
   else if 0 <? pid then [Said (bytes_of "[PARENT] Created child with PID: "); Said [10]; Waited;
                          Said (bytes_of "[PARENT] Child exited with status: "); Said [10]]
   else [Said (bytes_of "[FORK_TEST] Fork failed!
")]).
(** (termination): the fork test always exits, with status 0 in the parent and
    1 in a child whose [execve] returned and when [fork] failed. *)
Theorem fork_test_exits m l :
  runs (λ _ _, False) (λ code w, ∃ pid, w = Bench m (l ++ fork_lines pid) ∧ code = if 0 <? pid then 0 else 1) fork_test_main (Bench m l).
Proof.
  unfold fork_test_main. bench_go. apply runs_trigger; [exists 0; by eexists|]. intros pid w ->.
  destruct (Z.eqb_spec pid 0) as [->|Hne]; [|destruct (Z.ltb_spec 0 pid) as [Hp|Hp]].
  all: bench_go; try (eapply bench_call; [constructor; exact (0, None)|done|intros]; bench_go); apply runs_sys_exit; eexists.
  1: instantiate (1 := 0).
  2,3: instantiate (1 := pid).
  all: unfold fork_lines, see; cbn [b_mem b_seen]; rewrite <- !app_assoc.
  - done.
  - by rewrite (proj2 (Z.eqb_neq pid 0)), (proj2 (Z.ltb_lt 0 pid)).
  - by rewrite (proj2 (Z.eqb_neq pid 0)), (proj2 (Z.ltb_ge 0 pid)).
Qed.
End runs_programs.

Lemma bench_write (Q : Z → bench → Prop) X fd s len w :
  len ≤ Z.of_nat (length s) → (∀ n, Q n (see (Wrote fd (take (Z.to_nat len) s)) w)) → runs Q X (sys_write fd s len) w.
Proof. intros Hl HQ. unfold sys_write. rewrite (proj2 (Z.leb_le _ _)) by done. apply runs_trigger; [by do 2 eexists|]. intros a w' [_ ->]. apply HQ. Qed.
(** The system-call test. *)
Lemma syscall_test_reports m l :
  reaches (λ w, w = Bench m (l ++ [Wrote 1 (bytes_of "Hello from syscall process!
"); Said (bytes_of "My PID from syscall: "); Said [10]; Said (bytes_of "[Syscall Process] Using sys_sleep...
")])) test_syscall_process (Bench m l).
Proof.
  unfold test_syscall_process. apply reaches_seq, bench_write; [done|]. intros _. apply reaches_seq. bench_go. do 2 (apply reaches_seq, bench_say).
  apply reaches_forever, reaches_seq, bench_say. apply reaches_now. unfold see. cbn [b_seen b_mem]. by rewrite <- !app_assoc.
Qed.
(** The program of the ELF test. *)
Lemma hello_greets m l : runs (λ _ _, False) (λ code w, code = 0 ∧ w = Bench m (l ++ [Wrote 1 (bytes_of "Hello from ELF!
")])) hello_start (Bench m l).
Proof.
  unfold hello_start. runs_go. apply bench_write; [done|]. intros _. by apply runs_sys_exit.
Qed.

Lemma memory_test_reports_witness :
  reaches (λ w, ∃ p, (p = u64 (-1) ∨ 0 ≤ p ∧ p + 4096 ≤ 2 ^ 64 - 1) ∧ b_seen w =
    [Said (bytes_of "[Memory Test] Process starting
")] ++ heap_lines (λ _, 0) p ++ stack_lines ++ [Said (bytes_of "[Memory Test] Process running...
")]) (test_memory_process (λ n, replicate n 0)) (Bench (λ _, 0) []).
Proof. apply (memory_test_reports (λ n, replicate n 0) ltac:(reflexivity) (λ _, 0) []). Defined.

(** ** The allocator of kernel.c

    [heap_current] moves up through the heap; nothing is given back. *)
(** The result, 0 when there is no room, and the next [heap_current]. *)
Definition bump_kmalloc (size heap_current : Z) : Z * Z :=
  if HEAP_END <? u64 (heap_current + size) then (0, heap_current) else (heap_current, u64 (heap_current + size)).
(** The blocks for a sequence of requests. *)
Fixpoint blocks (sizes : list Z) (heap_current : Z) : list (Z * Z) :=
  match sizes with
  | [] => []
  | size :: rest => let '(p, cur) := bump_kmalloc size heap_current in (p, size) :: blocks rest cur
  end.

Lemma bump_kmalloc_spec size cur :
  HEAP_START ≤ cur ≤ HEAP_END → 0 ≤ size < 2 ^ 63 →
  bump_kmalloc size cur = if HEAP_END <? cur + size then (0, cur) else (cur, cur + size).
Proof. intros Hc Hs. unfold bump_kmalloc. unfold HEAP_END, HEAP_START, HEAP_SIZE in *. rewrite u64_id by lia. done. Qed.
(** Every block lies in the heap, above the ones before it. *)
Lemma blocks_apart sizes cur :
  HEAP_START ≤ cur ≤ HEAP_END → Forall (λ n, 0 ≤ n < 2 ^ 63) sizes →
  ∀ i p n, blocks sizes cur !! i = Some (p, n) → p ≠ 0 →
    cur ≤ p ∧ p + n ≤ HEAP_END ∧ ∀ j q k, (i < j)%nat → blocks sizes cur !! j = Some (q, k) → q ≠ 0 → p + n ≤ q.
Proof.
  intros Hc Hs. revert cur Hc. induction Hs as [|size sizes Hn _ IH]; intros cur Hc i p n; [done|].
  cbn [blocks]. rewrite bump_kmalloc_spec by done. destruct (Z.ltb_spec HEAP_END (cur + size)) as [Hb|Hb].
  - destruct i as [|i]; [by intros [= <- <-]|]. cbn. intros Hi Hp. destruct (IH cur Hc i p n Hi Hp) as (? & ? & Hj).
    split_and!; [done..|]. intros [|j] q k ?; [lia|]. apply Hj. lia.
  - assert (Hc' : HEAP_START ≤ cur + size ≤ HEAP_END) by lia. destruct i as [|i]; cbn.
    + intros [= <- <-] _. split_and!; [lia|lia|]. intros [|j] q k ? Hq Hne; [lia|]. by destruct (IH _ Hc' j q k Hq Hne).
    + intros Hi Hp. destruct (IH _ Hc' i p n Hi Hp) as (? & ? & Hj). split_and!; [lia|done|]. intros [|j] q k ?; [lia|]. apply Hj. lia.
Qed.
