(* ===== verification/Wrappers.v ===== *)
(** * The assembly statements that make system calls

    The wrappers of src/programs/ and userspace/hello.c and the statements of
    the test programs in src/kernel/kernel.c are extended [asm] statements: a
    template whose operands the compiler places in registers of its choice,
    outside the registers the statement declares as clobbered.  An operand of
    type [int] is printed as the name of a 32-bit register, and no instruction
    moves between such a register and the 64-bit registers the templates name:
    [run] has no result there, and [assembles] is the check of the sizes.
    [allowed] is what the compiler promises about its choice, and the theorems
    say what the kernel receives for every allowed choice. *)
From S2P Require Import Prelude Asm.

Inductive width : Type := W32 | W64.
#[export] Instance width_eq_dec : EqDecision width.
Proof. solve_decision. Defined.
(** [$z], [%%r] and [%n] of a template. *)
Inductive place : Type := Const (z : Z) | Fixed (r : reg) | Arg (n : nat).
#[export] Instance place_eq_dec : EqDecision place.
Proof. solve_decision. Defined.
Inductive line : Type := Move (src dst : place) | Int80.

(** The operands are numbered from the output on; [s_out] and [s_in] are the
    sizes of the C objects. *)
Record stmt : Type := Stmt { s_code : list line; s_out : option width; s_in : list width; s_clobbers : list reg }.
Definition operands (s : stmt) : list width := match s_out s with Some w => w :: s_in s | None => s_in s end.
(** The numbers of the inputs. *)
Definition inputs (s : stmt) : list nat := seq (if s_out s then 1 else 0) (length (s_in s)).

(** ** The statements *)

(** The wrappers of shell.c; those of shell_v2.c, wc.c, grep.c and init.c are
    the same. *)
Definition sys_write_asm : stmt :=
  Stmt [Move (Const 2) (Fixed RAX); Move (Arg 1) (Fixed RDI); Move (Arg 2) (Fixed RSI); Move (Arg 3) (Fixed RDX);
        Int80; Move (Fixed RAX) (Arg 0)] (Some W32) [W32; W64; W32] [RAX; RDI; RSI; RDX].
Definition sys_read_asm : stmt :=
  Stmt [Move (Const 3) (Fixed RAX); Move (Arg 1) (Fixed RDI); Move (Arg 2) (Fixed RSI); Move (Arg 3) (Fixed RDX);
        Int80; Move (Fixed RAX) (Arg 0)] (Some W32) [W32; W64; W32] [RAX; RDI; RSI; RDX].
Definition sys_fork_asm : stmt :=
  Stmt [Move (Const 7) (Fixed RAX); Int80; Move (Fixed RAX) (Arg 0)] (Some W32) [] [RAX].
Definition sys_wait_asm : stmt :=
  Stmt [Move (Const 8) (Fixed RAX); Move (Arg 1) (Fixed RDI); Int80; Move (Fixed RAX) (Arg 0)] (Some W32) [W64] [RAX; RDI].
Definition sys_exit_asm : stmt :=
  Stmt [Move (Const 1) (Fixed RAX); Move (Arg 0) (Fixed RDI); Int80] None [W32] [RAX; RDI].
Definition sys_execve_asm : stmt :=
  Stmt [Move (Const 9) (Fixed RAX); Move (Arg 1) (Fixed RDI); Move (Arg 2) (Fixed RSI); Move (Arg 3) (Fixed RDX);
        Int80; Move (Fixed RAX) (Arg 0)] (Some W32) [W64; W64; W64] [RAX; RDI; RSI; RDX].
Definition sys_sleep_asm : stmt :=
  Stmt [Move (Const 5) (Fixed RAX); Move (Arg 0) (Fixed RDI); Int80] None [W32] [RAX; RDI].
Definition sys_getpid_asm : stmt :=
  Stmt [Move (Const 4) (Fixed RAX); Int80; Move (Fixed RAX) (Arg 0)] (Some W32) [] [RAX].
(** The other ones of shell_v2.c. *)
Definition sys_pipe_asm : stmt :=
  Stmt [Move (Const 17) (Fixed RAX); Move (Arg 1) (Fixed RDI); Int80; Move (Fixed RAX) (Arg 0)] (Some W32) [W64] [RAX; RDI].
Definition sys_dup2_asm : stmt :=
  Stmt [Move (Const 18) (Fixed RAX); Move (Arg 1) (Fixed RDI); Move (Arg 2) (Fixed RSI); Int80; Move (Fixed RAX) (Arg 0)]
    (Some W32) [W32; W32] [RAX; RDI; RSI].
Definition sys_open_asm : stmt :=
  Stmt [Move (Const 11) (Fixed RAX); Move (Arg 1) (Fixed RDI); Move (Arg 2) (Fixed RSI); Move (Arg 3) (Fixed RDX);
        Int80; Move (Fixed RAX) (Arg 0)] (Some W32) [W64; W32; W32] [RAX; RDI; RSI; RDX].

(** The statements of kernel.c: [test_memory_process], [test_syscall_process]
    and [fork_test_main]. *)
Definition memory_sbrk_asm : stmt :=
  Stmt [Move (Const 6) (Fixed RAX); Move (Const 4096) (Fixed RDI); Int80; Move (Fixed RAX) (Arg 0)] (Some W64) [] [RAX; RDI].
Definition syscall_write_asm : stmt :=
  Stmt [Move (Const 2) (Fixed RAX); Move (Const 1) (Fixed RDI); Move (Arg 0) (Fixed RSI); Move (Const 28) (Fixed RDX); Int80]
    None [W64] [RAX; RDI; RSI; RDX].
Definition test_getpid_asm : stmt :=
  Stmt [Move (Const 4) (Fixed RAX); Int80; Move (Fixed RAX) (Arg 0)] (Some W64) [] [RAX].
Definition syscall_sleep_asm : stmt :=
  Stmt [Move (Const 5) (Fixed RAX); Move (Const 2000) (Fixed RDI); Int80] None [] [RAX; RDI].
Definition test_fork_asm : stmt :=
  Stmt [Move (Const 7) (Fixed RAX); Int80; Move (Fixed RAX) (Arg 0)] (Some W64) [] [RAX].
Definition test_execve_asm : stmt :=
  Stmt [Move (Const 9) (Fixed RAX); Move (Arg 0) (Fixed RDI); Move (Const 0) (Fixed RSI); Move (Const 0) (Fixed RDX); Int80]
    None [W64] [RAX; RDI; RSI; RDX].
Definition test_exit_asm (code : Z) : stmt :=
  Stmt [Move (Const 1) (Fixed RAX); Move (Const code) (Fixed RDI); Int80] None [] [RAX; RDI].
Definition test_wait_asm : stmt :=
  Stmt [Move (Const 8) (Fixed RAX); Move (Arg 1) (Fixed RDI); Int80; Move (Fixed RAX) (Arg 0)] (Some W64) [W64] [RAX; RDI].

(** The wrappers of hello.c declare no register as clobbered. *)
Definition hello_write_asm : stmt :=
  Stmt [Move (Const 2) (Fixed RAX); Move (Const 1) (Fixed RDI); Move (Arg 0) (Fixed RSI); Move (Arg 1) (Fixed RDX); Int80]
    None [W64; W32] [].
Definition hello_exit_asm : stmt :=
  Stmt [Move (Const 1) (Fixed RAX); Move (Arg 0) (Fixed RDI); Int80] None [W32] [].

(** ** Sizes *)

Definition width_of (s : stmt) (p : place) : option width :=
  match p with Const _ => None | Fixed _ => Some W64 | Arg n => operands s !! n end.
Definition line_ok (s : stmt) (l : line) : bool :=
  match l with
  | Move src dst => match width_of s src, width_of s dst with Some a, Some b => bool_decide (a = b) | _, _ => true end
  | Int80 => true
  end.
Definition assembles (s : stmt) : bool := forallb (line_ok s) (s_code s).

(** ** Execution *)

Section run.
(** The statement, the register of each operand, and what the kernel answers. *)
Context (s : stmt) (σ : nat → reg) (answer : (reg → Z) → Z).

Definition reg_of (p : place) : option reg := match p with Const _ => None | Fixed r => Some r | Arg n => Some (σ n) end.
Definition value_of (p : place) (g : reg → Z) : Z := match p with Const z => u64 z | Fixed r => g r | Arg n => g (σ n) end.
Definition move (src dst : place) (g : reg → Z) : reg → Z :=
  match reg_of dst with Some r => upd r (value_of src g) g | None => g end.
(** The registers at each [int 0x80], and at the end; the kernel changes only
    [rax].  There is none for a move that involves a 32-bit register. *)
Definition wide (p : place) : bool := bool_decide (width_of s p ≠ Some W32).
Fixpoint run (code : list line) (g : reg → Z) : option (list (reg → Z) * (reg → Z)) :=
  match code with
  | [] => Some ([], g)
  | Move src dst :: rest => if wide src && wide dst then run rest (move src dst g) else None
  | Int80 :: rest => '(traps, g') ← run rest (upd RAX (answer g) g); Some (g :: traps, g')
  end.
End run.

(** What the compiler promises: no operand is in a clobbered register or in
    [rsp]. *)
Definition allowed (s : stmt) (σ : nat → reg) : Prop :=
  ∀ n, (n < length (operands s))%nat → σ n ∉ RSP :: s_clobbers s.

(** ** What the kernel receives *)

(** The moves before the call, as pairs of a register and its source. *)
Fixpoint loads (code : list line) : option (list (reg * place) * list line) :=
  match code with
  | Move src (Fixed r) :: rest => '(ms, post) ← loads rest; Some ((r, src) :: ms, post)
  | Int80 :: rest => Some ([], rest)
  | _ => None
  end.
Definition source_ok (s : stmt) (p : place) : bool :=
  match p with Const _ => true | Fixed _ => false | Arg n => bool_decide (n ∈ inputs s) end.
(** Every register the statement changes is declared, and the result is moved
    to the output; every operand is 64 bits wide. *)
Definition declared (s : stmt) : bool :=
  forallb (λ w, bool_decide (w = W64)) (operands s) &&
  match loads (s_code s) with
  | Some (ms, post) =>
      bool_decide (NoDup ms.*1) && forallb (λ r, bool_decide (r ∈ s_clobbers s)) (RAX :: ms.*1) && forallb (source_ok s) ms.*2 &&
      match s_out s, post with Some _, [Move (Fixed RAX) (Arg 0)] => true | None, [] => true | _, _ => false end
  | None => false
  end.

(** With [args] in the registers the kernel is called once; the output is its
    answer and no other register has changed that is not declared. *)
Definition receives (s : stmt) (args : list (reg * place)) : Prop :=
  ∀ σ answer g, allowed s σ → ∃ t g', run s σ answer (s_code s) g = Some ([t], g') ∧
    (∀ r p, (r, p) ∈ args → t r = value_of σ p g) ∧
    (s_out s ≠ None → g' (σ 0%nat) = answer t) ∧
    (∀ r, r ∉ s_clobbers s → (s_out s ≠ None → r ≠ σ 0%nat) → g' r = g r).

(** Loading the registers one after the other is loading them at once, when no
    source is a register that is loaded. *)
Lemma run_loads s σ answer code ms post g :
  (∀ p, wide s p = true) → loads code = Some (ms, post) → NoDup ms.*1 → (∀ p r, p ∈ ms.*2 → reg_of σ p = Some r → r ∉ ms.*1) →
  ∃ t, run s σ answer code g = ('(traps, g') ← run s σ answer post (upd RAX (answer t) t); Some (t :: traps, g')) ∧
    (∀ r p, (r, p) ∈ ms → t r = value_of σ p g) ∧ ∀ r, r ∉ ms.*1 → t r = g r.
Proof.
  intros Hw. revert ms g. induction code as [|[src [z|r|n]|] code IH]; intros ms g E Hn Hs; cbn in E; try done.
  - destruct (loads code) as [[ms' post']|] eqn:El; [|done]. injection E as <- <-. cbn in Hn. apply NoDup_cons in Hn as [Hr Hn].
    assert (Hsrc : ∀ p, p ∈ ms'.*2 → value_of σ p (upd r (value_of σ src g) g) = value_of σ p g).
    { intros p Hp. destruct (reg_of σ p) as [q|] eqn:Eq; [|by destruct p]. assert (q ≠ r) by (specialize (Hs p q); cbn in Hs; set_solver).
      destruct p; cbn in *; simplify_eq; [by apply upd_other..]. }
    destruct (IH ms' (upd r (value_of σ src g) g) eq_refl Hn) as (t & Ht & Ha & Hk).
    { intros p q Hp Hq Hin. apply (Hs p q); cbn; set_solver. }
    exists t. split_and!; [cbn [run]; rewrite !Hw; exact Ht| |].
    + intros q p [[= -> ->]|Hp]%elem_of_cons; [by rewrite Hk, upd_same|]. rewrite (Ha q p Hp). apply Hsrc. by apply (list_elem_of_fmap_2 snd _ (q, p)).
    + intros q Hq. cbn in Hq. apply not_elem_of_cons in Hq as [Hq1 Hq2]. by rewrite Hk, upd_other.
  - injection E as <- <-. exists g. split_and!; [done|by intros ?? ?%elem_of_nil|done].
Qed.
Lemma declared_receives s ms post : declared s = true → loads (s_code s) = Some (ms, post) → receives s ms.
Proof.
  unfold declared. intros [Hwd Hd]%andb_true_iff E. rewrite E in Hd. apply andb_true_iff in Hd as [Hd Hpost]. apply andb_true_iff in Hd as [Hd Hsrc].
  apply andb_true_iff in Hd as [Hn%bool_decide_eq_true Hc]. rewrite forallb_forall in Hc, Hsrc.
  assert (Hcl : ∀ r, r ∈ RAX :: ms.*1 → r ∈ s_clobbers s) by (intros r Hr%list_elem_of_In%Hc; by apply bool_decide_eq_true in Hr).
  assert (Hw : ∀ p, wide s p = true).
  { intros p. apply bool_decide_eq_true. destruct p as [z|r|n]; cbn; try done. intros E'. apply list_elem_of_lookup_2, list_elem_of_In in E'.
    rewrite forallb_forall in Hwd. by apply Hwd, bool_decide_eq_true in E'. }
  intros σ answer g Hσ.
  assert (Hout : ∀ w, s_out s = Some w → σ 0%nat ∉ s_clobbers s).
  { intros w Ew Hin. apply (Hσ 0%nat); [unfold operands; rewrite Ew; cbn; lia|by apply elem_of_cons; right]. }
  destruct (run_loads s σ answer _ ms post g Hw E Hn) as (t & Ht & Ha & Hk).
  { intros p r Hp Hr Hin. apply list_elem_of_In, Hsrc in Hp. destruct p as [z|q|n]; cbn in *; simplify_eq.
    apply bool_decide_eq_true in Hp. unfold inputs in Hp. apply list_elem_of_In, in_seq in Hp.
    apply (Hσ n); [unfold operands; case_match; cbn in *; lia|]. apply elem_of_cons. right. by apply Hcl, elem_of_cons; right. }
  assert (Hkeep : ∀ r, r ∉ s_clobbers s → upd RAX (answer t) t r = g r).
  { intros r Hr. rewrite upd_other by (intros ->; by apply Hr, Hcl, elem_of_cons; left). apply Hk. intros Hin. by apply Hr, Hcl, elem_of_cons; right. }
  rewrite Ht. destruct (s_out s) as [w|] eqn:Eo.
  - destruct post as [|[[z|[]|k] [z'|r'|[]]|] []]; try done. cbn [run]. rewrite !Hw. cbn. eexists t, _. split_and!; [done|done| |].
    + intros _. unfold move. cbn. by rewrite !upd_same.
    + intros r Hr Hne. unfold move. cbn. rewrite upd_other by (by apply Hne). by apply Hkeep.
  - destruct post; [|done]. cbn. eexists t, _. split_and!; [done|done|done|]. intros r Hr _. by apply Hkeep.
Qed.

(** C22 (safety): for each statement that makes a system call in the test
    processes of kernel.c, and for every choice of registers the compiler may
    make, the kernel is called once and receives the number and the arguments of
    the call, and the caller its answer; no register changes that the statement
    does not declare.  (The wrappers of the programs do not assemble.) *)
Theorem wrappers_pass_arguments code :
  Forall (λ '(s, args), receives s args)
   [(memory_sbrk_asm, [(RAX, Const 6); (RDI, Const 4096)]);
    (syscall_write_asm, [(RAX, Const 2); (RDI, Const 1); (RSI, Arg 0); (RDX, Const 28)]);
    (test_getpid_asm, [(RAX, Const 4)]);
    (syscall_sleep_asm, [(RAX, Const 5); (RDI, Const 2000)]);
    (test_fork_asm, [(RAX, Const 7)]);
    (test_execve_asm, [(RAX, Const 9); (RDI, Arg 0); (RSI, Const 0); (RDX, Const 0)]);
    (test_exit_asm code, [(RAX, Const 1); (RDI, Const code)]);
    (test_wait_asm, [(RAX, Const 8); (RDI, Arg 1)])].
Proof. repeat (apply Forall_cons; split; [eapply declared_receives; reflexivity|]). apply List.Forall_nil. Qed.
(** The compiler keeps the buffer of [write] in [rbx], which holds 0x1234. *)
Lemma wrappers_pass_arguments_witness :
  ∃ t g', run syscall_write_asm (λ _, RBX) (λ _, 28) (s_code syscall_write_asm) (λ _, 0x1234) = Some ([t], g') ∧
    t RAX = 2 ∧ t RSI = 0x1234 ∧ t RDX = 28.
Proof.
  pose proof (wrappers_pass_arguments 0) as H. rewrite Forall_lookup in H. specialize (H 1%nat _ eq_refl). cbn beta iota in H.
  destruct (H (λ _, RBX) (λ _, 28) (λ _, 0x1234)) as (t & g' & E & Ha & _).
  { intros n _. cbn. rewrite !not_elem_of_cons. split_and!; try discriminate. apply not_elem_of_nil. }
  exists t, g'. split; [exact E|]. split_and!; [apply (Ha RAX (Const 2))|apply (Ha RSI (Arg 0))|apply (Ha RDX (Const 28))]; rewrite !elem_of_cons; auto.
Defined.

(** (error): the wrappers of the programs move between a 64-bit register and an
    operand of type [int], which no instruction does: none of them assembles, nor
    does it run.  The statements of kernel.c do. *)
Theorem wrappers_do_not_assemble code :
  Forall (λ s, assembles s = false ∧ ∀ σ answer g, run s σ answer (s_code s) g = None)
    [sys_write_asm; sys_read_asm; sys_fork_asm; sys_wait_asm; sys_exit_asm; sys_execve_asm; sys_sleep_asm; sys_getpid_asm;
     sys_pipe_asm; sys_dup2_asm; sys_open_asm; hello_write_asm; hello_exit_asm] ∧
  Forall (λ s, assembles s = true)
    [memory_sbrk_asm; syscall_write_asm; test_getpid_asm; syscall_sleep_asm; test_fork_asm; test_execve_asm; test_exit_asm code; test_wait_asm].
Proof. split; repeat (apply Forall_cons; split; [first [reflexivity|split; reflexivity]|]); apply List.Forall_nil. Qed.
